(* ===== verification/_CoqProject ===== *)
-Q . S2P
Prelude.v
Utils.v
LinkedList.v
ListRefine.v
HList.v
ListIter.v
RwBuffer.v
Adler32.v
Store.v
StoreFile.v
StoreData.v
StoreDump.v
StoreRecover.v
StoreScan.v
StoreCrash.v
Event.v
EventApi.v
WorkQueue.v
Worker.v
Server.v
Headers.v
ServerConn.v
ServerJobs.v
ServerSafe.v
System.v
Isolation.v
ServerProps.v
Startup.v
Agent.v
Options.v
Process.v
LoopFrame.v
MainLoop.v
DataInv.v
DataSafe.v
EndToEnd.v
Restart.v
