(* ===== verification/Prelude.v ===== *)
(** * Speedy chunk server: a verification development

    Speedy stores files for a docker registry.  Its chunk server
    ([src/chunkserver], written in C) is the part modelled here: a
    single-threaded event loop accepts clients, receives requests into linked
    memory blocks, hands disk work to a pool of threads and sends the answers;
    the files live in a fixed number of large chunk files with an index in
    memory that is rebuilt at start-up.

    ** The program's parts, and where they are modelled

    - [Prelude.v] (this file): machine integers at their widths, bytes, lists
      indexed by [Z], the outcome type of a C function ([Ret], [Undef] for an
      undefined access, [Assert] for a failed assertion, [Exit], and [Wait] for a
      call that has not returned when the answers of the kernel are used up), its
      monad, and programs over a state ([prog]).
    - [Utils.v]: [spy_utils.c]: big-endian and variable-length integers,
      [spy_pread] and [spy_pwrite] over a script of kernel answers, and
      [spy_string_ends_with].
    - [LinkedList.v]: the circular lists of [spy_list.h], store by store over a
      heap of nodes; [ListRefine.v]: they implement lists, and the loops over
      them; [HList.v]: the hash chains of [spy_list.h] implement a table of lists;
      [ListIter.v]: the loop macros and initialisers the server does not use.
    - [RwBuffer.v]: [spy_mem_block.c] and [spy_rw_buffer.c]: the pool of memory
      blocks and the linked buffers, over a heap of blocks with identity.
    - [Adler32.v]: [spy_adler32.c].
    - [Store.v]: definitions of [spy_store.c]: superblock, file records, the two
      hash indexes, write, read, check and dump of a file, the parser and the
      recovery at start-up.  Proofs: [StoreFile.v] (records, write and read),
      [StoreData.v] (a write beside other records), [StoreDump.v] (dump),
      [StoreRecover.v] (recovery), [StoreCrash.v] (recovery after a write that was
      cut short).  [StoreScan.v]: the two functions of the file that nothing calls.
    - [Event.v]: [spy_event.c] and [spy_event_epoll.c]: the table of registered
      descriptors against the kernel's interest set, timers, one round of the
      loop, and [aeMain].  [EventApi.v]: the memory that creating and deleting a
      loop takes and gives back, [aeWait], [aeStop], and [spy_set_blocking] of
      [spy_server.c].
    - [WorkQueue.v]: [spy_work.c]: the critical sections of the queue as
      functions and the threads as a step relation.
    - [Worker.v]: the store operations as run by a worker: no undefined access
      for any answers of the kernel.
    - [Server.v]: definitions of [spy_server.c] and [spy_obj_cache.c]: the
      connection state machine, all request handlers, the completion handlers,
      the periodic work, over one record [server_t] for the globals [server],
      [statistic] and [report_info] and the objects they reach.  Proofs:
      [ServerConn.v] (a unary program logic and the specifications of the
      connection level), [Headers.v] (every connection has a whole reply header),
      [ServerJobs.v] (jobs and chunk lists), [ServerSafe.v]
      (every handler keeps the invariant and is safe), [ServerProps.v]
      (what handlers compute).  The specifications hold for any guard on
      connections, which says what must be left alone.
    - [System.v]: the setup calls of [main], the works that run on the shared
      state, and all of it as one transition system.  [Isolation.v]: with a guard
      on one connection, what a step does to the others.
    - [Startup.v]: recovery composed with the system: the store start-up leaves
      is one the system's theorems hold from.
    - [Agent.v]: [spy_agent.c], [spy_atomic.h] and [spy_log.c]: a round of the
      report thread, the lock it shares with the main thread as a step relation.
    - [Options.v]: [main] of [spy_server.c] up to the event loop: defaults,
      options, checks, listening socket, recovery, setup.
    - [Process.v]: the process around it: signals, the descriptors of the log and of
      a daemon, the clock readers of [spy_utils.c], the write to the event descriptor.
    - [MainLoop.v]: the event loop of the process: [aeMain] over the server's
      state, with an operating system that answers its calls and runs the worker
      threads in between; [LoopFrame.v]: the parts of the state that a handler
      leaves alone, as instances of a class.
    - [DataInv.v]: the invariant on the chunk files, the index and the writes on
      their way, kept by every step of the system; [DataSafe.v]: no file is lost;
      [EndToEnd.v]: from one client's request to the disk and from there to another
      client's reply; [Restart.v]: the next start finds every file.

    ** How state and effects correspond to the code

    A pointer to a block, connection, job or chunk is a key of a finite map; a
    freed connection is deleted from its map, so that using it afterwards is
    [Undef].  An intrusive list is a list of such keys, which [ListRefine.v] and
    [HList.v] justify for the pointer operations of [spy_list.h].  Integers are [Z], with
    the wrap-around of the C type written where a value is stored or converted.
    A system call takes its answer from a script ([list sysret]) or from the
    record [env]; theorems quantify over all scripts unless they say otherwise.
    Recursion without a structural argument consumes the script, or has fuel that
    is proved sufficient where a theorem claims a result ([expand_rsp_loop]: the
    number of bytes; [expand_request_loop]: one expansion; [write_handler_loop]: an
    answer for each byte that is left to send, and never more than 2^31).  [aeMain] has no end:
    its fuel counts rounds, and the theorems on it hold for every number of them.

    ** What the theorems show

    - Codecs and I/O: the integer formats round-trip; [spy_pwrite] stores all or
      reports -1 after a prefix; what it stores [spy_pread] returns.
    - Buffers: blocks are conserved in every interleaving; writing appends to and
      reading takes from the byte queue the buffer represents.
    - Checksum: the unrolled and the in-place routine equal the byte-by-byte
      definition, also with the reductions for processors without division; the
      combination is right modulo [BASE] but not canonical.
    - Store: a written file is read back, and found again by the recovery at the
      next start; a write is all or nothing; a successful read matches its
      checksum; recovery of a directory rebuilds exactly the index, and a chunk file
      is refused exactly when one of its file ids occurs twice.  A write cut short
      by any answers of the kernel is atomic at the next start unless the superblock
      is torn inside two of its fields, where the checksum can miss it.
    - Event loop: table and epoll set agree; the sleep ends at the nearest timer,
      except for an overdue one.
    - Work queue: works run once and in order, the number of threads is bounded,
      no wake-up is lost.
    - Server and system: in every reachable state of the composed system no
      handler and no io job makes an undefined access, a chunk has one writer, no
      job, block or connection is lost or used twice; what the periodic work, the
      completion of a write and the write handler compute; every handler comes to
      an end, whatever the kernel answers, when a [write] that does not fail takes at
      least a byte.  A client and the bytes in its buffers change only when it is
      that client's turn.
    - Data: what a successful write has stored, what the index knows and what the
      data directory held at the start is found and read back byte for byte in
      every later state of the system, whatever else is written, fails or is
      answered; and the next start, after an end in any state, rebuilds an index
      that has all of it.  From the queued request of a write to the reply of a
      read, through the pool, the worker, the chunk file and the main thread, the
      bytes are the same.
    - Start: a process that reaches its event loop has a configuration within its
      limits and is in an initial state the theorems on the system hold from, for
      any command line and a data directory without chunk files or with chunk files
      numbered without a gap; its event loop stays within that system, makes no
      undefined access, and runs the periodic work once when it is due and not
      otherwise; file names and the numbers of all options are read as they are
      printed, and numbers out of range are refused.  A daemon keeps every descriptor but the standard ones;
      hangups, broken pipes and one termination request do not end the server.
    - Lists: any sequence of pointer operations on any number of lists makes only
      defined accesses and does what the same operations do on lists; loops over a
      list visit it in order and end, also when they delete.
    - Report: what the agent sends is the latest report the main thread has
      completed, or the zeroes of the start while there is none, in every
      interleaving; the message goes out whole before the answer is awaited; an
      answer of the master can stop the server, and it is said exactly which.
    - Faults of the code are theorems too: see the findings of the manifest.

    ** Assumptions of the composed system

    The two descriptors of the server are distinct and below [DEF_MAX_CLIENTS];
    the recovered chunks are numbered from 1 without gaps, as start-up creates
    them; [accept4] returns a positive descriptor not in use; [rand()] is not
    negative.  A handler of the main thread, and the body of a work, is one step;
    interleavings inside them are covered for the work queue and the report.  The
    operating system of [MainLoop.v] ([kernel_ok]) reports only descriptors it was
    asked to watch, at most as many as were asked for, and a clock with less than
    1000 milliseconds; the socket of a client that asked for a dump takes the six
    bytes of the header in one write or refuses them.  [epoll_ctl] may refuse to
    add a descriptor or to add to its mask, but not to take it out or to take from
    its mask ([aeApiDelEvent] ignores the result).  A chunk file that start-up
    creates is a new one, which [fallocate] fills with zeroes (it is opened
    without [O_TRUNC]).  The length given to [spy_adler32] is below 2^32.  The
    theorems on data start from chunk files that agree with
    the store ([files_ok]), which recovery of a directory of chunk images and the
    creation of the chunks of a new server establish; a file is read by complete
    answers of [pread], in any pieces.  The theorem on the way of the bytes is about
    a read whose connection has no reply left to send and whose reply [epoll_ctl]
    accepts; otherwise the code closes the connection.

    ** Not modelled

    [getopt_long] and the usage text; the log calls of the other components;
    [aeSetBeforeSleepProc] and [aeGetApiName], which nothing calls, and the hook the
    first would set; the memory of the recovery's parser.  The theorem on restarts
    of the running system asks for superblocks that were written whole; torn ones
    are the subject of [StoreCrash.v], for one chunk.  Data that
    the kernel has accepted and not yet put on the medium is taken to be there
    ([fsync] has no effect in the model).  Not modelled either: the Go programs (image server, chunk master) and the
    Python storage driver, which talk to the chunk server over the network. *)

From Stdlib Require Export ZArith Lia.
From Stdlib Require Import Strings.Byte.
From stdpp Require Export base tactics numbers list gmap.

#[global] Open Scope Z_scope.

(** ** Machine integers

    A C integer is a [Z] together with the width of its type; the conversions
    below are written at exactly the places where the source stores a value in,
    or converts it to, a type of that width. *)

Definition u8 (z : Z) : Z := z mod 2 ^ 8.
Definition u16 (z : Z) : Z := z mod 2 ^ 16.
Definition u32 (z : Z) : Z := z mod 2 ^ 32.
Definition u64 (z : Z) : Z := z mod 2 ^ 64.
(** Conversion to the signed 32-bit [int] (two's complement, as gcc defines it). *)
Definition i32 (z : Z) : Z := (z + 2 ^ 31) mod 2 ^ 32 - 2 ^ 31.

(** ** Bytes *)

Abbreviation byte := Init.Byte.byte.
#[export] Instance byte_eq_dec : EqDecision byte := Byte.byte_eq_dec.

(** The zero byte. *)
Abbreviation b00 := Init.Byte.x00.

(** The value of an [unsigned char]. *)
Definition Z_of_byte (b : byte) : Z := Z.of_N (Byte.to_N b).
(** The cast [(byte) z]: the low eight bits. *)
Definition byte_of_Z (z : Z) : byte :=
  match Byte.of_N (Z.to_N (u8 z)) with
  | Some b => b
  | None => x00
  end.

Lemma Z_of_byte_range b : 0 <= Z_of_byte b < 256.
Proof.
  unfold Z_of_byte. pose proof (Byte.to_N_bounded b). lia.
Qed.

Lemma Z_of_byte_of_Z z : Z_of_byte (byte_of_Z z) = u8 z.
Proof.
  unfold Z_of_byte, byte_of_Z.
  assert (Hr : 0 <= u8 z < 256) by (unfold u8; apply Z.mod_pos_bound; lia).
  destruct (Byte.of_N (Z.to_N (u8 z))) as [b|] eqn:E.
  - apply Byte.to_of_N in E. rewrite E. lia.
  - apply Byte.of_N_None_iff in E. lia.
Qed.

Lemma byte_of_Z_of_byte b : byte_of_Z (Z_of_byte b) = b.
Proof.
  unfold byte_of_Z, Z_of_byte, u8.
  pose proof (Byte.to_N_bounded b).
  rewrite Z.mod_small by lia. rewrite N2Z.id, Byte.of_to_N. done.
Qed.

Lemma Z_of_byte_inj b c : Z_of_byte b = Z_of_byte c -> b = c.
Proof. intros H. rewrite <- (byte_of_Z_of_byte b), H. apply byte_of_Z_of_byte. Qed.

(** ** Outcomes of a C call

    [Ret] is a normal return, [Assert] a failed [assert] (the process aborts),
    [Exit] a call of [exit(1)], [Undef] an access outside an object, through a
    null pointer or of an uninitialised variable, and [Wait] a call whose next
    kernel answer is not in the supplied script (or whose fuel is used up). *)

Inductive outcome (A : Type) : Type :=
| Ret (a : A)
| Assert
| Exit
| Undef
| Wait.
Arguments Ret {A} a.
Arguments Assert {A}.
Arguments Exit {A}.
Arguments Undef {A}.
Arguments Wait {A}.

#[export] Instance outcome_ret : MRet outcome := fun A a => Ret a.
#[export] Instance outcome_bind : MBind outcome := fun A B f m =>
  match m with
  | Ret a => f a
  | Assert => Assert
  | Exit => Exit
  | Undef => Undef
  | Wait => Wait
  end.

(** [assert(b)]. *)
Definition c_assert (b : bool) : outcome unit := if b then Ret tt else Assert.
(** Dereference of a pointer that may be null or dangling. *)
Definition c_deref {A} (o : option A) : outcome A :=
  match o with Some a => Ret a | None => Undef end.

Lemma bind_Ret {A B} (a : A) (f : A -> outcome B) : Ret a ≫= f = f a.
Proof. done. Qed.

Lemma bind_Ret_inv {A B} (m : outcome A) (f : A -> outcome B) b :
  m ≫= f = Ret b -> exists a, m = Ret a /\ f a = Ret b.
Proof. destruct m; simpl; try done. eauto. Qed.

Lemma c_assert_true b : b = true -> c_assert b = Ret tt.
Proof. by intros ->. Qed.

Lemma c_assert_inv b u : c_assert b = Ret u -> b = true.
Proof. by destruct b. Qed.

Lemma bind_assert {B} b (f : unit -> outcome B) :
  b = true -> c_assert b ≫= f = f tt.
Proof. by intros ->. Qed.

(** ** State-passing programs

    The handlers of the server thread one global state; a program over a state
    [S] takes it and returns an outcome with the next state. *)

Definition prog (S A : Type) : Type := S -> outcome (A * S).
#[export] Instance prog_ret {S} : MRet (prog S) := fun A a s => Ret (a, s).
#[export] Instance prog_bind {S} : MBind (prog S) := fun A B f m s =>
  match m s with
  | Ret (a, s') => f a s'
  | Assert => Assert
  | Exit => Exit
  | Undef => Undef
  | Wait => Wait
  end.
Definition pget {S} : prog S S := fun s => Ret (s, s).
Definition pput {S} (s : S) : prog S unit := fun _ => Ret (tt, s).
Definition pmod {S} (f : S -> S) : prog S unit := fun s => Ret (tt, f s).
Definition plift {S A} (m : outcome A) : prog S A := fun s => a ← m; Ret (a, s).

(** ** Kernel answers

    A system call that transfers bytes consumes one answer of a script: the
    kernel either accepts up to [n] bytes or fails with an error number. *)

Inductive errno : Set := EAGAIN | EINTR | EOTHER.
#[export] Instance errno_eq_dec : EqDecision errno.
Proof. solve_decision. Defined.

Inductive sysret : Set :=
| Xfer (n : Z)
| SysErr (e : errno).

(** ** Lists indexed by C integers *)

Section ZLists.
Context {A : Type}.
Implicit Types (l d : list A) (n o i : Z).

Definition zlen l : Z := Z.of_nat (length l).
Definition ztake n l : list A := take (Z.to_nat n) l.
Definition zdrop n l : list A := drop (Z.to_nat n) l.
(** The [n] elements from index [o]. *)
Definition zsub o n l : list A := ztake n (zdrop o l).
(** [memcpy] of [d] into the object [l] at index [o]. *)
Definition zput o d l : list A := ztake o l ++ d ++ zdrop (o + zlen d) l.

Lemma zlen_nonneg l : 0 <= zlen l.
Proof. unfold zlen. lia. Qed.
Lemma zlen_nil : zlen (@nil A) = 0.
Proof. done. Qed.
Lemma zlen_cons x l : zlen (x :: l) = 1 + zlen l.
Proof. unfold zlen. simpl length. lia. Qed.
Lemma zlen_app l d : zlen (l ++ d) = zlen l + zlen d.
Proof. unfold zlen. rewrite length_app. lia. Qed.
Lemma zlen_replicate n (x : A) : zlen (replicate (Z.to_nat n) x) = Z.max 0 n.
Proof. unfold zlen. rewrite length_replicate. lia. Qed.
Lemma zlen_take n l : zlen (ztake n l) = Z.max 0 (Z.min n (zlen l)).
Proof. unfold zlen, ztake. rewrite length_take. lia. Qed.
Lemma zlen_drop n l : zlen (zdrop n l) = Z.max 0 (zlen l - Z.max 0 n).
Proof. unfold zlen, zdrop. rewrite length_drop. lia. Qed.
Lemma zlen_sub o n l :
  zlen (zsub o n l) = Z.max 0 (Z.min n (zlen l - Z.max 0 o)).
Proof. unfold zsub. rewrite zlen_take, zlen_drop. lia. Qed.
Lemma zlen_put o d l :
  0 <= o -> o + zlen d <= zlen l -> zlen (zput o d l) = zlen l.
Proof.
  intros. unfold zput. rewrite !zlen_app, zlen_take, zlen_drop.
  pose proof (zlen_nonneg d). lia.
Qed.
Lemma zlen_0_nil l : zlen l = 0 -> l = [].
Proof. destruct l; [done|]. rewrite zlen_cons. pose proof (zlen_nonneg l). lia. Qed.

Lemma ztake_app_le n l d : n <= zlen l -> ztake n (l ++ d) = ztake n l.
Proof. unfold ztake, zlen. intros. rewrite take_app_le; [done|lia]. Qed.
Lemma ztake_app_ge n l d :
  zlen l <= n -> ztake n (l ++ d) = l ++ ztake (n - zlen l) d.
Proof.
  unfold ztake, zlen. intros. rewrite take_app_ge by lia. do 2 f_equal. lia.
Qed.
Lemma zdrop_app_le n l d : n <= zlen l -> zdrop n (l ++ d) = zdrop n l ++ d.
Proof. unfold zdrop, zlen. intros. rewrite drop_app_le; [done|lia]. Qed.
Lemma zdrop_app_ge n l d :
  zlen l <= n -> zdrop n (l ++ d) = zdrop (n - zlen l) d.
Proof. unfold zdrop, zlen. intros. rewrite drop_app_ge by lia. f_equal. lia. Qed.
Lemma ztake_all n l : zlen l <= n -> ztake n l = l.
Proof. unfold ztake, zlen. intros. apply take_ge. lia. Qed.
Lemma zdrop_all n l : zlen l <= n -> zdrop n l = [].
Proof. unfold zdrop, zlen. intros. apply drop_ge. lia. Qed.
Lemma ztake_neg n l : n <= 0 -> ztake n l = [].
Proof. unfold ztake. intros. replace (Z.to_nat n) with 0%nat by lia. done. Qed.
Lemma zdrop_neg n l : n <= 0 -> zdrop n l = l.
Proof. unfold zdrop. intros. replace (Z.to_nat n) with 0%nat by lia. done. Qed.
Lemma ztake_drop n l : ztake n l ++ zdrop n l = l.
Proof. apply take_drop. Qed.
Lemma ztake_zdrop_len n l : ztake n l ++ zdrop (zlen (ztake n l)) l = l.
Proof.
  rewrite zlen_take. pose proof (zlen_nonneg l).
  destruct (decide (n <= 0)).
  - rewrite ztake_neg, zdrop_neg by lia. done.
  - destruct (decide (n <= zlen l)).
    + replace (Z.max 0 (Z.min n (zlen l))) with n by lia. apply ztake_drop.
    + rewrite ztake_all, zdrop_all by lia. apply app_nil_r.
Qed.
Lemma zdrop_drop n m l : 0 <= n -> 0 <= m -> zdrop n (zdrop m l) = zdrop (m + n) l.
Proof. intros. unfold zdrop. rewrite drop_drop. f_equal. lia. Qed.
Lemma ztake_take n m l : ztake n (ztake m l) = ztake (Z.min n m) l.
Proof. unfold ztake. rewrite take_take. f_equal. lia. Qed.
Lemma zdrop_take n m l :
  0 <= n -> zdrop n (ztake m l) = ztake (m - n) (zdrop n l).
Proof.
  intros. unfold zdrop, ztake. rewrite skipn_firstn_comm. f_equal. lia.
Qed.

Lemma zsub_app o n m l :
  0 <= o -> 0 <= n -> 0 <= m ->
  zsub o (n + m) l = zsub o n l ++ zsub (o + n) m l.
Proof.
  intros. unfold zsub. rewrite <- (zdrop_drop n o) by lia.
  unfold ztake, zdrop. rewrite Z2Nat.inj_add by lia.
  by rewrite take_take_drop.
Qed.

Lemma ztake_add n m l :
  0 <= n -> 0 <= m -> ztake (n + m) l = ztake n l ++ ztake m (zdrop n l).
Proof.
  intros. pose proof (zsub_app 0 n m l ltac:(lia) ltac:(lia) ltac:(lia)) as E.
  unfold zsub in E. by rewrite (zdrop_neg 0) in E by lia.
Qed.
Lemma ztake_len n l : ztake (zlen (ztake n l)) l = ztake n l.
Proof.
  rewrite <- (ztake_zdrop_len n l) at 2. unfold ztake at 1. unfold zlen at 1. rewrite Nat2Z.id.
  by rewrite take_app_length.
Qed.

Lemma zsub_all n l : zlen l <= n -> zsub 0 n l = l.
Proof. intros. unfold zsub. rewrite zdrop_neg by lia. by apply ztake_all. Qed.
Lemma zsub_nil o n l : n <= 0 -> zsub o n l = [].
Proof. intros. unfold zsub. by apply ztake_neg. Qed.
Lemma zsub_sub o n o' n' l :
  0 <= o -> 0 <= o' -> o' + n' <= n ->
  zsub o' n' (zsub o n l) = zsub (o + o') n' l.
Proof.
  intros. unfold zsub. rewrite zdrop_take, ztake_take, zdrop_drop by lia.
  do 2 f_equal; lia.
Qed.
Lemma zsub_app_l o n l d :
  0 <= o -> o + n <= zlen l -> zsub o n (l ++ d) = zsub o n l.
Proof.
  intros. destruct (decide (n <= 0)); [by rewrite !zsub_nil|].
  unfold zsub. rewrite zdrop_app_le by lia.
  apply ztake_app_le. rewrite zlen_drop. lia.
Qed.
Lemma zsub_app_r o n l d :
  zlen l <= o -> zsub o n (l ++ d) = zsub (o - zlen l) n d.
Proof. intros. unfold zsub. by rewrite zdrop_app_ge by lia. Qed.
Lemma zsub_middle l d m :
  zsub (zlen l) (zlen d) (l ++ d ++ m) = d.
Proof.
  rewrite zsub_app_r by lia. rewrite Z.sub_diag.
  rewrite zsub_app_l by (pose proof (zlen_nonneg d); lia).
  apply zsub_all. lia.
Qed.

Lemma zdrop_exact n l d : zlen l = n -> zdrop n (l ++ d) = d.
Proof. intros <-. rewrite zdrop_app_ge, Z.sub_diag by lia. by apply zdrop_neg. Qed.
Lemma ztake_exact n l d : zlen l = n -> ztake n (l ++ d) = l.
Proof. intros <-. rewrite ztake_app_le by lia. by apply ztake_all. Qed.

Lemma zput_app_r o d l m :
  zlen l <= o -> zput o d (l ++ m) = l ++ zput (o - zlen l) d m.
Proof.
  intros. unfold zput. pose proof (zlen_nonneg d).
  rewrite ztake_app_ge, zdrop_app_ge, <- app_assoc by lia.
  do 4 f_equal. lia.
Qed.
Lemma zput_app_l o d l m :
  0 <= o -> o + zlen d <= zlen l -> zput o d (l ++ m) = zput o d l ++ m.
Proof.
  intros. unfold zput. pose proof (zlen_nonneg d).
  rewrite ztake_app_le, zdrop_app_le, <- !app_assoc by lia. done.
Qed.
Lemma zput_0 d l : zput 0 d l = d ++ zdrop (zlen d) l.
Proof. unfold zput. rewrite ztake_neg by lia. done. Qed.
Lemma zput_nil o l : 0 <= o -> zput o [] l = l.
Proof. intros. unfold zput. rewrite zlen_nil, Z.add_0_r. simpl. apply ztake_drop. Qed.
Lemma zput_split_any o d1 d2 l :
  0 <= o <= zlen l -> zput (o + zlen d1) d2 (zput o d1 l) = zput o (d1 ++ d2) l.
Proof.
  intros Ho. pose proof (zlen_nonneg d1). pose proof (zlen_nonneg d2).
  assert (Ht : zlen (ztake o l) = o) by (rewrite zlen_take; lia).
  unfold zput at 2. rewrite zput_app_r by lia. rewrite Ht.
  replace (o + zlen d1 - o) with (zlen d1) by lia.
  rewrite zput_app_r by lia. rewrite Z.sub_diag, zput_0.
  unfold zput. rewrite zlen_app, zdrop_drop, <- !app_assoc by lia.
  do 4 f_equal. lia.
Qed.
Lemma zput_split o d1 d2 l :
  0 <= o -> o + zlen d1 + zlen d2 <= zlen l ->
  zput (o + zlen d1) d2 (zput o d1 l) = zput o (d1 ++ d2) l.
Proof.
  intros Ho Hl. pose proof (zlen_nonneg d1). pose proof (zlen_nonneg d2). apply zput_split_any. lia.
Qed.
Lemma zlen_put_any o d l : 0 <= o <= zlen l -> zlen (zput o d l) = Z.max (zlen l) (o + zlen d).
Proof.
  intros Ho. pose proof (zlen_nonneg d). unfold zput. rewrite !zlen_app, zlen_take, zlen_drop. lia.
Qed.
Lemma zsub_zput_same o d l :
  0 <= o -> o <= zlen l -> zsub o (zlen d) (zput o d l) = d.
Proof.
  intros. unfold zput.
  assert (Ht : zlen (ztake o l) = o) by (rewrite zlen_take; lia).
  rewrite <- Ht at 1. apply zsub_middle.
Qed.
Lemma zsub_zput_before o' n o d l :
  0 <= o' -> o' + n <= o -> o <= zlen l -> zsub o' n (zput o d l) = zsub o' n l.
Proof.
  intros. destruct (decide (n <= 0)); [by rewrite !zsub_nil|].
  assert (Ht : zlen (ztake o l) = o) by (rewrite zlen_take; lia).
  unfold zput. rewrite zsub_app_l by lia.
  rewrite <- (ztake_drop o l) at 2. rewrite zsub_app_l by lia. done.
Qed.
Lemma zsub_zput_after o' n o d l :
  0 <= o -> o + zlen d <= o' -> o <= zlen l -> zsub o' n (zput o d l) = zsub o' n l.
Proof.
  intros. pose proof (zlen_nonneg d).
  assert (Ht : zlen (ztake o l) = o) by (rewrite zlen_take; lia).
  unfold zput. rewrite zsub_app_r by lia. rewrite zsub_app_r by lia.
  unfold zsub. rewrite zdrop_drop by lia. do 2 f_equal. lia.
Qed.

(** Reading back a prefix that a write does not reach. *)
Lemma ztake_zput_before n o d l :
  n <= o -> o <= zlen l -> ztake n (zput o d l) = ztake n l.
Proof.
  intros. unfold zput.
  rewrite ztake_app_le by (rewrite zlen_take; lia).
  rewrite ztake_take. f_equal. lia.
Qed.

End ZLists.

(** ** Automation *)

Create Rewrite HintDb zlen.
#[export] Hint Rewrite @zlen_nil @zlen_cons @zlen_app @zlen_replicate @zlen_take
  @zlen_drop @zlen_sub : zlen.

(** Every list length of the context is non-negative. *)
Ltac zlen_pos :=
  repeat match goal with
  | |- context [zlen ?l] =>
      lazymatch goal with
      | _ : 0 <= zlen l |- _ => fail
      | _ => pose proof (zlen_nonneg l)
      end
  | _ : context [zlen ?l] |- _ =>
      lazymatch goal with
      | _ : 0 <= zlen l |- _ => fail
      | _ => pose proof (zlen_nonneg l)
      end
  end.

(** Linear arithmetic over list lengths. *)
Ltac zl := autorewrite with zlen in *; zlen_pos; lia.

(** Case analysis on the boolean tests of the model, as propositions. *)
Ltac case_b :=
  match goal with
  | |- context [Z.ltb ?a ?b] => destruct (Z.ltb_spec a b)
  | |- context [Z.leb ?a ?b] => destruct (Z.leb_spec a b)
  | |- context [Z.eqb ?a ?b] => destruct (Z.eqb_spec a b)
  | H : context [Z.ltb ?a ?b] |- _ => destruct (Z.ltb_spec a b)
  | H : context [Z.leb ?a ?b] |- _ => destruct (Z.leb_spec a b)
  | H : context [Z.eqb ?a ?b] |- _ => destruct (Z.eqb_spec a b)
  end.

(** Inversion of a chain of calls that returned. *)
Ltac inv_ret :=
  repeat match goal with
  | H : Ret _ = Ret _ |- _ => injection H as H; subst
  | H : Assert = Ret _ |- _ => discriminate H
  | H : Exit = Ret _ |- _ => discriminate H
  | H : Undef = Ret _ |- _ => discriminate H
  | H : Wait = Ret _ |- _ => discriminate H
  | H : mbind _ _ = Ret _ |- _ =>
      let a := fresh "r" in let E := fresh "Hr" in
      apply bind_Ret_inv in H as (a & E & H)
  | H : c_assert _ = Ret _ |- _ => apply c_assert_inv in H
  end.

(** ** Wrap-around facts *)

Lemma u8_small z : 0 <= z < 2 ^ 8 -> u8 z = z.
Proof. apply Z.mod_small. Qed.
Lemma u16_small z : 0 <= z < 2 ^ 16 -> u16 z = z.
Proof. apply Z.mod_small. Qed.
Lemma u32_small z : 0 <= z < 2 ^ 32 -> u32 z = z.
Proof. apply Z.mod_small. Qed.
Lemma u64_small z : 0 <= z < 2 ^ 64 -> u64 z = z.
Proof. apply Z.mod_small. Qed.
Lemma i32_small z : - 2 ^ 31 <= z < 2 ^ 31 -> i32 z = z.
Proof. intros. unfold i32. rewrite Z.mod_small; lia. Qed.
Lemma u32_range z : 0 <= u32 z < 2 ^ 32.
Proof. apply Z.mod_pos_bound. lia. Qed.
Lemma u64_range z : 0 <= u64 z < 2 ^ 64.
Proof. apply Z.mod_pos_bound. lia. Qed.

Create Rewrite HintDb wrap.
#[export] Hint Rewrite u8_small u16_small u32_small u64_small i32_small
  using lia : wrap.

(** ** Hash buckets

    [cell m k] is the bucket [k] of a hash table whose untouched buckets are
    empty ([struct hlist_head] arrays are zeroed by [memset]). *)

Definition cell {A} (m : gmap Z (list A)) (k : Z) : list A := default [] (m !! k).

Lemma cell_insert_eq {A} (m : gmap Z (list A)) k l : cell (<[k := l]> m) k = l.
Proof. unfold cell. by rewrite lookup_insert_eq. Qed.
Lemma cell_insert_ne {A} (m : gmap Z (list A)) k k' l :
  k <> k' -> cell (<[k := l]> m) k' = cell m k'.
Proof. intros. unfold cell. by rewrite lookup_insert_ne. Qed.
