(* ===== verification/Utils.v ===== *)
(** * Utils: [chunkserver/spy_utils.c]

    The big-endian integer codec ([spy_mach_write_to_n] / [spy_mach_read_from_n]),
    the variable-length 32-bit codec, the retrying [pread]/[pwrite] loops and the
    string suffix test.  A write function returns the bytes it stores at
    [b[0..]]; a read function takes the memory from [b] on and is [Undef] when it
    would read past its end. *)

From Stdlib Require Import Zbitwise.
From S2P Require Import Prelude.

(** ** Byte access *)

(** [b[i]] of an [unsigned char *]. *)
Definition rd (b : list byte) (i : nat) : outcome Z :=
  c ← c_deref (b !! i); Ret (Z_of_byte c).

Module Mach.

Definition spy_mach_write_to_1 (data : Z) : list byte :=
  let data := u8 data in [byte_of_Z (Z.land data 255)].

Definition spy_mach_read_from_1 (b : list byte) : outcome Z :=
  b0 ← rd b 0; Ret (u8 b0).

Definition spy_mach_write_to_2 (data : Z) : list byte :=
  let data := u16 data in [byte_of_Z (Z.shiftr data 8); byte_of_Z data].

Definition spy_mach_read_from_2 (b : list byte) : outcome Z :=
  b0 ← rd b 0; b1 ← rd b 1;
  Ret (u16 (Z.lor (u16 (Z.shiftl b0 8)) (u16 b1))).

Definition spy_mach_write_to_4 (data : Z) : list byte :=
  let data := u32 data in
  [byte_of_Z (Z.shiftr data 24); byte_of_Z (Z.shiftr data 16);
   byte_of_Z (Z.shiftr data 8); byte_of_Z data].

Definition spy_mach_read_from_4 (b : list byte) : outcome Z :=
  b0 ← rd b 0; b1 ← rd b 1; b2 ← rd b 2; b3 ← rd b 3;
  Ret (Z.lor (Z.lor (Z.lor (u32 (Z.shiftl b0 24)) (u32 (Z.shiftl b1 16)))
                    (u32 (Z.shiftl b2 8))) (u32 b3)).

Definition spy_mach_write_to_8 (data : Z) : list byte :=
  let data := u64 data in
  [byte_of_Z (Z.shiftr data 56); byte_of_Z (Z.shiftr data 48);
   byte_of_Z (Z.shiftr data 40); byte_of_Z (Z.shiftr data 32);
   byte_of_Z (Z.shiftr data 24); byte_of_Z (Z.shiftr data 16);
   byte_of_Z (Z.shiftr data 8); byte_of_Z data].

Definition spy_mach_read_from_8 (b : list byte) : outcome Z :=
  b0 ← rd b 0; b1 ← rd b 1; b2 ← rd b 2; b3 ← rd b 3;
  b4 ← rd b 4; b5 ← rd b 5; b6 ← rd b 6; b7 ← rd b 7;
  Ret (Z.lor (Z.lor (Z.lor (Z.lor (Z.lor (Z.lor (Z.lor
         (u64 (Z.shiftl b0 56)) (u64 (Z.shiftl b1 48)))
         (u64 (Z.shiftl b2 40))) (u64 (Z.shiftl b3 32)))
         (u64 (Z.shiftl b4 24))) (u64 (Z.shiftl b5 16)))
         (u64 (Z.shiftl b6 8))) b7).

(** *** The variable-length codec *)

Definition VARIANT_HEAD : Z := Z.shiftl 1 7.

(** [(byte)(data >> k)] and [(byte)(data >> k) | VARIANT_HEAD]. *)
Definition variant_low (data k : Z) : byte := byte_of_Z (Z.shiftr data k).
Definition variant_more (data k : Z) : byte :=
  byte_of_Z (Z.lor (u8 (Z.shiftr data k)) VARIANT_HEAD).

(** The stored bytes; the C function also returns their number. *)
Definition spy_mach_write_variant_4 (data : Z) : list byte :=
  let data := u32 data in
  let low := variant_low data in
  let more := variant_more data in
  if data <? Z.shiftl 1 7 then [low 0]
  else if data <? Z.shiftl 1 14 then [more 0; low 7]
  else if data <? Z.shiftl 1 21 then [more 0; more 7; low 14]
  else if data <? Z.shiftl 1 28 then [more 0; more 7; more 14; low 21]
  else [more 0; more 7; more 14; more 21; low 28].

(** One pass of the [for (shift = 0; shift <= 28; shift += 7)] loop; [rounds]
    counts the values of [shift] still to come, [off] is [p - b].  The result is
    [*value] (unwritten when the fifth byte still has its head bit) and
    [p - b + 1]. *)
Fixpoint read_variant_loop (rounds : nat) (b : list byte) (shift off res : Z)
    : outcome (option Z * Z) :=
  match rounds with
  | O => Ret (None, off + 1)
  | S rounds' =>
      p ← rd b (Z.to_nat off);
      if Z.land p VARIANT_HEAD =? 0 then
        Ret (Some (u32 (Z.lor res (u32 (Z.shiftl p shift)))), off + 1)
      else
        read_variant_loop rounds' b (shift + 7) (off + 1)
          (u32 (Z.lor res (u32 (Z.shiftl (Z.land p (VARIANT_HEAD - 1)) shift))))
  end.

Definition spy_mach_read_variant_4 (b : list byte) : outcome (option Z * Z) :=
  read_variant_loop 5 b 0 0 0.

End Mach.
Export Mach.

(** ** The reference big-endian codec *)

Module BigEndian.

Fixpoint be_enc (n : nat) (x : Z) : list byte :=
  match n with
  | O => []
  | S n' => byte_of_Z (x / 256 ^ Z.of_nat n') :: be_enc n' x
  end.

Definition be_dec (l : list byte) : Z :=
  foldl (fun acc b => acc * 256 + Z_of_byte b) 0 l.

Lemma be_dec_acc l a :
  foldl (fun acc b => acc * 256 + Z_of_byte b) a l
  = a * 256 ^ zlen l + be_dec l.
Proof.
  unfold be_dec. revert a. induction l as [|b l IH]; intros a; cbn [foldl].
  - rewrite zlen_nil. lia.
  - rewrite (IH (a * 256 + Z_of_byte b)), (IH (0 * 256 + Z_of_byte b)), zlen_cons.
    rewrite Z.pow_add_r by zl. lia.
Qed.

Lemma be_dec_cons b l : be_dec (b :: l) = Z_of_byte b * 256 ^ zlen l + be_dec l.
Proof. unfold be_dec at 1. simpl. rewrite be_dec_acc. lia. Qed.

Lemma length_be_enc n x : length (be_enc n x) = n.
Proof. induction n; simpl; congruence. Qed.

Lemma be_dec_enc n x : be_dec (be_enc n x) = x mod 256 ^ Z.of_nat n.
Proof.
  induction n as [|n IH]; cbn [be_enc].
  - change (256 ^ Z.of_nat 0) with 1. by rewrite Z.mod_1_r.
  - rewrite be_dec_cons, IH, Z_of_byte_of_Z. unfold u8, zlen.
    rewrite length_be_enc. change (2 ^ 8) with 256.
    rewrite Nat2Z.inj_succ, Z.pow_succ_r, (Z.mul_comm 256), Z.rem_mul_r by lia. lia.
Qed.

Lemma be_dec_range l : 0 <= be_dec l < 256 ^ zlen l.
Proof.
  induction l as [|b l IH]; [done|].
  rewrite be_dec_cons, zlen_cons, Z.pow_add_r by zl.
  pose proof (Z_of_byte_range b). nia.
Qed.

Lemma be_enc_dec_high l k : be_enc (length l) (k * 256 ^ zlen l + be_dec l) = l.
Proof.
  revert k. induction l as [|b l IH]; intros k; [done|]. cbn [length be_enc].
  pose proof (be_dec_range l). pose proof (Z_of_byte_range b).
  change (Z.of_nat (length l)) with (zlen l).
  assert (0 < 256 ^ zlen l) by (apply Z.pow_pos_nonneg; zl).
  rewrite be_dec_cons, zlen_cons, Z.pow_add_r by zl. change (256 ^ 1) with 256.
  replace (k * (256 * 256 ^ zlen l) + (Z_of_byte b * 256 ^ zlen l + be_dec l))
    with ((k * 256 + Z_of_byte b) * 256 ^ zlen l + be_dec l) by lia.
  f_equal; [|apply IH].
  rewrite Z.add_comm, Z.div_add, Z.div_small by lia.
  apply Z_of_byte_inj. rewrite Z_of_byte_of_Z. unfold u8.
  rewrite Z.add_0_l, Z.add_comm. change (2 ^ 8) with 256.
  rewrite Z.mod_add by lia. apply Z.mod_small. lia.
Qed.

Lemma be_enc_dec l : be_enc (length l) (be_dec l) = l.
Proof.
  pose proof (be_enc_dec_high l 0) as H. by rewrite Z.mul_0_l, Z.add_0_l in H.
Qed.

End BigEndian.
Import BigEndian.

(** A shifted high part and a low part with no common bit. *)
Lemma lor_shiftl_add a k b :
  0 <= k -> 0 <= b < 2 ^ k -> Z.lor (Z.shiftl a k) b = a * 2 ^ k + b.
Proof.
  intros Hk Hb. rewrite Z.shiftl_mul_pow2 by done.
  assert (Hl : Z.land (a * 2 ^ k) b = 0).
  { apply Z.bits_inj'. intros n Hn. rewrite Z.land_spec, Z.bits_0.
    destruct (decide (n < k)).
    - by rewrite Z.mul_pow2_bits_low by lia.
    - rewrite <- (Z.mod_small b (2 ^ k)) by lia.
      rewrite Z.mod_pow2_bits_high by lia. apply andb_false_r. }
  pose proof (Z.add_lor_land (a * 2 ^ k) b). lia.
Qed.

(** The code's reads and writes are the reference codec at widths 1, 2, 4, 8. *)
Lemma write_to_1_be x : spy_mach_write_to_1 x = be_enc 1 x.
Proof.
  unfold spy_mach_write_to_1. cbn [be_enc]. f_equal.
  apply Z_of_byte_inj. rewrite !Z_of_byte_of_Z.
  change 255 with (Z.ones 8). rewrite Z.land_ones by lia. unfold u8.
  change (256 ^ Z.of_nat 0) with 1. by rewrite Z.div_1_r, !Z.mod_mod by lia.
Qed.

(** Truncation to the parameter's width does not touch the bits a byte takes. *)
Lemma byte_of_Z_wrap x k w :
  0 <= k -> k + 8 <= w ->
  byte_of_Z (Z.shiftr (x mod 2 ^ w) k) = byte_of_Z (x / 2 ^ k).
Proof.
  intros. apply Z_of_byte_inj. rewrite !Z_of_byte_of_Z. unfold u8.
  rewrite <- Z.shiftr_div_pow2 by lia.
  apply Z.bits_inj'. intros n Hn.
  destruct (decide (n < 8)); [|by rewrite !Z.mod_pow2_bits_high by lia].
  rewrite !Z.mod_pow2_bits_low, !Z.shiftr_spec, Z.mod_pow2_bits_low by lia. done.
Qed.

Lemma byte_of_Z_wrap0 x w :
  8 <= w -> byte_of_Z (x mod 2 ^ w) = byte_of_Z (x / 1).
Proof.
  intros. rewrite <- (Z.shiftr_0_r (x mod 2 ^ w)). change 1 with (2 ^ 0).
  apply byte_of_Z_wrap; lia.
Qed.

Ltac mach_write :=
  cbn [be_enc]; unfold u16, u32, u64;
  repeat (apply (f_equal2 cons);
    [first [apply byte_of_Z_wrap; lia | apply byte_of_Z_wrap0; lia]|]);
  try done.

Lemma write_to_2_be x : spy_mach_write_to_2 x = be_enc 2 x.
Proof. unfold spy_mach_write_to_2. mach_write. Qed.
Lemma write_to_4_be x : spy_mach_write_to_4 x = be_enc 4 x.
Proof. unfold spy_mach_write_to_4. mach_write. Qed.
Lemma write_to_8_be x : spy_mach_write_to_8 x = be_enc 8 x.
Proof. unfold spy_mach_write_to_8. mach_write. Qed.

(** One more byte of a big-endian number assembled with [|] and [<<]. *)
Lemma lor_step a k b :
  0 <= k -> 0 <= b < 256 ->
  Z.lor (a * 2 ^ (k + 8)) (Z.shiftl b k) = (a * 256 + b) * 2 ^ k.
Proof.
  intros. rewrite Z.pow_add_r by lia.
  replace (a * (2 ^ k * 2 ^ 8)) with (a * 2 ^ 8 * 2 ^ k) by lia.
  rewrite <- !(Z.shiftl_mul_pow2 _ k), <- Z.shiftl_lor by lia.
  rewrite <- (Z.shiftl_mul_pow2 a 8), lor_shiftl_add by lia. done.
Qed.

Lemma shiftl_small b m k w :
  0 <= m -> 0 <= k -> k + m <= w -> 0 <= b < 2 ^ m ->
  Z.shiftl b k mod 2 ^ w = Z.shiftl b k.
Proof.
  intros. apply Z.mod_small. rewrite Z.shiftl_mul_pow2 by lia.
  assert (2 ^ (k + m) <= 2 ^ w) by (apply Z.pow_le_mono_r; lia).
  rewrite Z.pow_add_r in * by lia. nia.
Qed.

Lemma shiftl_byte_small b k w :
  0 <= k -> k + 8 <= w -> 0 <= b < 256 -> Z.shiftl b k mod 2 ^ w = Z.shiftl b k.
Proof. intros. apply (shiftl_small b 8); lia. Qed.

(** Decompose a memory that holds at least the bytes read. *)
Ltac explode l H :=
  repeat (let b := fresh "b" in destruct l as [|b l]; simpl in H;
    [try discriminate H | first [discriminate H | injection H as H]]).

Ltac byte_ranges :=
  repeat match goal with
  | b : byte |- _ =>
      lazymatch goal with
      | _ : 0 <= Z_of_byte b < 256 |- _ => fail
      | _ => pose proof (Z_of_byte_range b)
      end
  end.

Lemma read_from_1_be l r : length l = 1%nat -> spy_mach_read_from_1 (l ++ r) = Ret (be_dec l).
Proof.
  intros H. explode l H. cbn -[be_dec u8]. byte_ranges. f_equal.
  unfold be_dec. cbn [foldl]. rewrite u8_small; lia.
Qed.

Lemma read_from_2_be l r : length l = 2%nat -> spy_mach_read_from_2 (l ++ r) = Ret (be_dec l).
Proof.
  intros H. explode l H. cbn -[Z.shiftl Z.lor u16 be_dec]. byte_ranges. f_equal.
  unfold be_dec, u16. cbn [foldl].
  rewrite shiftl_byte_small by lia. rewrite (Z.mod_small (Z_of_byte _)) by lia.
  rewrite lor_shiftl_add by lia. rewrite Z.mod_small by lia. lia.
Qed.

Lemma read_from_4_be l r : length l = 4%nat -> spy_mach_read_from_4 (l ++ r) = Ret (be_dec l).
Proof.
  intros H. explode l H. cbn -[Z.shiftl Z.lor u32 be_dec]. byte_ranges. f_equal.
  unfold be_dec, u32. cbn [foldl].
  rewrite !shiftl_byte_small by lia. rewrite (Z.mod_small (Z_of_byte _)) by lia.
  rewrite (Z.shiftl_mul_pow2 _ 24), (lor_step _ 16), (lor_step _ 8) by lia.
  rewrite <- (Z.shiftl_mul_pow2 _ 8), lor_shiftl_add by lia. lia.
Qed.

Lemma read_from_8_be l r : length l = 8%nat -> spy_mach_read_from_8 (l ++ r) = Ret (be_dec l).
Proof.
  intros H. explode l H. cbn -[Z.shiftl Z.lor u64 be_dec]. byte_ranges. f_equal.
  unfold be_dec, u64. cbn [foldl].
  rewrite !shiftl_byte_small by lia.
  rewrite (Z.shiftl_mul_pow2 _ 56), (lor_step _ 48), (lor_step _ 40), (lor_step _ 32),
    (lor_step _ 24), (lor_step _ 16), (lor_step _ 8) by lia.
  rewrite <- (Z.shiftl_mul_pow2 _ 8), lor_shiftl_add by lia. lia.
Qed.

(** *** Round trips at a fixed width *)

Lemma read_write_1 x r : spy_mach_read_from_1 (spy_mach_write_to_1 x ++ r) = Ret (u8 x).
Proof. by rewrite write_to_1_be, read_from_1_be, be_dec_enc by apply length_be_enc. Qed.
Lemma read_write_2 x r : spy_mach_read_from_2 (spy_mach_write_to_2 x ++ r) = Ret (u16 x).
Proof. by rewrite write_to_2_be, read_from_2_be, be_dec_enc by apply length_be_enc. Qed.
Lemma read_write_4 x r : spy_mach_read_from_4 (spy_mach_write_to_4 x ++ r) = Ret (u32 x).
Proof. by rewrite write_to_4_be, read_from_4_be, be_dec_enc by apply length_be_enc. Qed.
Lemma read_write_8 x r : spy_mach_read_from_8 (spy_mach_write_to_8 x ++ r) = Ret (u64 x).
Proof. by rewrite write_to_8_be, read_from_8_be, be_dec_enc by apply length_be_enc. Qed.

(** Integers can be read from enough bytes. *)
Lemma read_from_1_ok l : 1 <= zlen l -> exists x, spy_mach_read_from_1 l = Ret x.
Proof.
  intros H. rewrite <- (take_drop 1 l). eexists. apply read_from_1_be.
  unfold zlen in H. rewrite length_take. lia.
Qed.
Lemma read_from_2_ok l : 2 <= zlen l -> exists x, spy_mach_read_from_2 l = Ret x.
Proof.
  intros H. rewrite <- (take_drop 2 l). eexists. apply read_from_2_be.
  unfold zlen in H. rewrite length_take. lia.
Qed.
Lemma read_from_4_ok l : 4 <= zlen l -> exists x, spy_mach_read_from_4 l = Ret x.
Proof.
  intros H. rewrite <- (take_drop 4 l). eexists. apply read_from_4_be.
  unfold zlen in H. rewrite length_take. lia.
Qed.
Lemma read_from_8_ok l : 8 <= zlen l -> exists x, spy_mach_read_from_8 l = Ret x.
Proof.
  intros H. rewrite <- (take_drop 8 l). eexists. apply read_from_8_be.
  unfold zlen in H. rewrite length_take. lia.
Qed.
Lemma read_from_8_range l x : 8 <= zlen l -> spy_mach_read_from_8 l = Ret x -> 0 <= x < 2 ^ 64.
Proof.
  intros H E. assert (Hl : length (take 8 l) = 8%nat) by (unfold zlen in H; rewrite length_take; lia).
  rewrite <- (take_drop 8 l), (read_from_8_be _ _ Hl) in E. injection E as <-.
  pose proof (be_dec_range (take 8 l)) as R. unfold zlen in R. by rewrite Hl in R.
Qed.


Lemma zlen_write_1 x : zlen (spy_mach_write_to_1 x) = 1.
Proof. done. Qed.
Lemma zlen_write_2 x : zlen (spy_mach_write_to_2 x) = 2.
Proof. done. Qed.
Lemma zlen_write_4 x : zlen (spy_mach_write_to_4 x) = 4.
Proof. done. Qed.
Lemma zlen_write_8 x : zlen (spy_mach_write_to_8 x) = 8.
Proof. done. Qed.
#[global] Arguments spy_mach_write_to_1 : simpl never.
#[global] Arguments spy_mach_write_to_2 : simpl never.
#[global] Arguments spy_mach_write_to_4 : simpl never.
#[global] Arguments spy_mach_write_to_8 : simpl never.
#[export] Hint Rewrite zlen_write_1 zlen_write_2 zlen_write_4 zlen_write_8 : zlen.

(** *** The variable-length codec *)

Lemma variant_more_spec data k :
  Z.land (Z_of_byte (variant_more data k)) VARIANT_HEAD <> 0 /\
  Z.land (Z_of_byte (variant_more data k)) (VARIANT_HEAD - 1)
  = Z.shiftr data k mod 2 ^ 7.
Proof.
  unfold variant_more. rewrite Z_of_byte_of_Z. change VARIANT_HEAD with 128.
  set (x := Z.shiftr data k). unfold u8. split.
  - intros H. apply (f_equal (fun z => Z.testbit z 7)) in H.
    rewrite Z.land_spec, Z.mod_pow2_bits_low, Z.lor_spec, Z.bits_0 in H by lia.
    change (Z.testbit 128 7) with true in H. by rewrite orb_true_r in H.
  - change (128 - 1) with (Z.ones 7). rewrite Z.land_ones by lia.
    apply Z.bits_inj'. intros n Hn.
    destruct (decide (n < 7)); [|by rewrite !Z.mod_pow2_bits_high by lia].
    rewrite !Z.mod_pow2_bits_low, Z.lor_spec, Z.mod_pow2_bits_low by lia.
    change 128 with (2 ^ 7). rewrite Z.pow2_bits_false by lia. apply orb_false_r.
Qed.

(** The accumulator of the read loop after the byte at shift [k]. *)
Lemma variant_acc data k m :
  0 <= k -> 0 <= m ->
  Z.lor (data mod 2 ^ k) (Z.shiftl (Z.shiftr data k mod 2 ^ m) k) = data mod 2 ^ (k + m).
Proof.
  intros. apply Z.bits_inj'. intros n Hn. rewrite Z.lor_spec, Z.shiftl_spec by lia.
  destruct (decide (n < k)).
  - rewrite !Z.mod_pow2_bits_low by lia. rewrite (Z.testbit_neg_r _ (n - k)) by lia.
    apply orb_false_r.
  - rewrite (Z.mod_pow2_bits_high _ k) by lia. simpl.
    destruct (decide (n < k + m)).
    + rewrite !Z.mod_pow2_bits_low, Z.shiftr_spec by lia. f_equal. lia.
    + by rewrite !Z.mod_pow2_bits_high by lia.
Qed.

Lemma rd_middle pre b suf : rd (pre ++ b :: suf) (Z.to_nat (zlen pre)) = Ret (Z_of_byte b).
Proof.
  unfold rd. rewrite lookup_app_r by (unfold zlen; lia).
  by replace (Z.to_nat (zlen pre) - length pre)%nat with 0%nat by (unfold zlen; lia).
Qed.

Lemma variant_loop_more rounds pre suf data k :
  0 <= k -> k + 7 <= 32 -> 
  read_variant_loop (S rounds) (pre ++ variant_more data k :: suf) k (zlen pre) (data mod 2 ^ k)
  = read_variant_loop rounds ((pre ++ [variant_more data k]) ++ suf) (k + 7)
      (zlen (pre ++ [variant_more data k])) (data mod 2 ^ (k + 7)).
Proof.
  intros Hk Hk'. cbn [read_variant_loop]. rewrite rd_middle. rewrite bind_Ret.
  destruct (variant_more_spec data k) as [H1 H2].
  destruct (Z.eqb_spec (Z.land (Z_of_byte (variant_more data k)) VARIANT_HEAD) 0); [done|].
  rewrite H2, <- app_assoc. f_equal; [zl|].
  unfold u32.
  rewrite (shiftl_small _ 7) by (try lia; apply Z.mod_pos_bound; lia).
  rewrite variant_acc by lia. apply Z.mod_small.
  pose proof (Z.mod_pos_bound data (2 ^ (k + 7))).
  assert (2 ^ (k + 7) <= 2 ^ 32) by (apply Z.pow_le_mono_r; lia). lia.
Qed.

Lemma variant_loop_last rounds pre suf data k :
  0 <= k -> k <= 28 -> 0 <= data < 2 ^ (Z.min 32 (k + 7)) ->
  read_variant_loop (S rounds) (pre ++ variant_low data k :: suf) k (zlen pre) (data mod 2 ^ k)
  = Ret (Some data, zlen pre + 1).
Proof.
  intros Hk Hk' Hd. cbn [read_variant_loop]. rewrite rd_middle, bind_Ret.
  assert (Hs : 0 <= Z.shiftr data k < 2 ^ (Z.min 32 (k + 7) - k)).
  { rewrite Z.shiftr_div_pow2 by lia. split; [apply Z.div_pos; lia|].
    apply Z.div_lt_upper_bound; [lia|]. rewrite <- Z.pow_add_r by lia.
    replace (k + (Z.min 32 (k + 7) - k)) with (Z.min 32 (k + 7)) by lia. lia. }
  assert (2 ^ (Z.min 32 (k + 7) - k) <= 2 ^ 7) by (apply Z.pow_le_mono_r; lia).
  unfold variant_low. rewrite Z_of_byte_of_Z, u8_small by lia.
  assert (Hb : Z.land (Z.shiftr data k) VARIANT_HEAD = 0).
  { apply Z.bits_inj'. intros n Hn. rewrite Z.land_spec, Z.bits_0.
    change VARIANT_HEAD with (2 ^ 7). destruct (decide (n = 7)) as [->|].
    - rewrite <- (Z.mod_small (Z.shiftr data k) (2 ^ 7)) by lia.
      by rewrite Z.mod_pow2_bits_high by lia.
    - rewrite Z.pow2_bits_false by lia. apply andb_false_r. }
  rewrite Hb. simpl. do 3 f_equal. unfold u32.
  rewrite (shiftl_small _ (Z.min 32 (k + 7) - k)) by lia.
  rewrite <- (Z.mod_small (Z.shiftr data k) (2 ^ (Z.min 32 (k + 7) - k))) by lia.
  rewrite variant_acc by lia.
  replace (k + (Z.min 32 (k + 7) - k)) with (Z.min 32 (k + 7)) by lia.
  rewrite (Z.mod_small data) by lia. apply Z.mod_small.
  assert (2 ^ (Z.min 32 (k + 7)) <= 2 ^ 32) by (apply Z.pow_le_mono_r; lia). lia.
Qed.

(** [l] holds the groups of [data] from bit [k] on: the loop entered with them
    ahead returns [data] and the number of bytes used. *)
Definition variant_from (k : Z) (l : list byte) (data : Z) : Prop :=
  forall rounds pre r, (length l <= rounds)%nat ->
    read_variant_loop rounds (pre ++ l ++ r) k (zlen pre) (data mod 2 ^ k)
    = Ret (Some data, zlen pre + zlen l).

Lemma variant_from_last data k :
  0 <= k -> k <= 28 -> 0 <= data < 2 ^ (Z.min 32 (k + 7)) ->
  variant_from k [variant_low data k] data.
Proof.
  intros ??? [|rounds] pre r Hr; [simpl in Hr; lia|].
  cbn [app]. by rewrite variant_loop_last.
Qed.

Lemma variant_from_more data k l :
  0 <= k -> k + 7 <= 32 -> variant_from (k + 7) l data ->
  variant_from k (variant_more data k :: l) data.
Proof.
  intros ?? Hl [|rounds] pre r Hr; simpl in Hr; [lia|].
  cbn [app]. rewrite variant_loop_more by lia.
  rewrite Hl by lia. do 2 f_equal. zl.
Qed.

Lemma variant_from_write x :
  variant_from 0 (spy_mach_write_variant_4 x) (u32 x).
Proof.
  unfold spy_mach_write_variant_4. pose proof (u32_range x).
  generalize dependent (u32 x). intros d Hd. cbv zeta.
  change (Z.shiftl 1 7) with (2 ^ 7). change (Z.shiftl 1 14) with (2 ^ 14).
  change (Z.shiftl 1 21) with (2 ^ 21). change (Z.shiftl 1 28) with (2 ^ 28).
  repeat case_b; repeat (apply variant_from_more; [lia..|]);
    apply variant_from_last; try lia;
    match goal with
    | |- context [Z.min ?a ?b] =>
        let v := eval vm_compute in (Z.min a b) in change (Z.min a b) with v
    end; lia.
Qed.

Lemma length_write_variant x : (1 <= length (spy_mach_write_variant_4 x) <= 5)%nat.
Proof. unfold spy_mach_write_variant_4. repeat case_b; simpl; lia. Qed.

(** ** Positioned reads and writes

    A file is its bytes.  [pread] returns what the file holds from [offset] on,
    at most [count] bytes and at most what the kernel grants; [pwrite] stores a
    prefix of the data and extends the file with zeros where it starts past the
    end. *)

Module FileIO.

Definition sys_pread (f : list byte) (count offset : Z) (r : sysret) : errno + list byte :=
  match r with
  | Xfer n => inr (zsub offset (Z.min n count) f)
  | SysErr e => inl e
  end.

Definition file_write (f : list byte) (offset : Z) (d : list byte) : list byte :=
  zput offset d (f ++ replicate (Z.to_nat (offset - zlen f)) b00).

Definition sys_pwrite (f : list byte) (data : list byte) (offset : Z) (r : sysret)
    : errno + (Z * list byte) :=
  match r with
  | Xfer n =>
      let d := ztake n data in
      inr (zlen d, match d with [] => f | _ => file_write f offset d end)
  | SysErr e => inl e
  end.

(** [errno == EAGAIN || errno == EINTR] *)
Definition retryable (e : errno) : bool :=
  match e with EAGAIN | EINTR => true | EOTHER => false end.

(** The loop of [spy_pread]; [total] and [acc] are what it has read so far.  It
    returns [total] or -1, the bytes stored in the caller's buffer, and the rest
    of the script. *)
Fixpoint spy_pread_loop (script : list sysret) (f : list byte)
    (count offset total : Z) (acc : list byte) : outcome (Z * list byte * list sysret) :=
  if 0 <? count then
    match script with
    | [] => Wait
    | r :: script' =>
        match sys_pread f count offset r with
        | inl e =>
            if retryable e then spy_pread_loop script' f count offset total acc
            else Ret (-1, acc, script')
        | inr d =>
            if zlen d <=? 0 then Ret (-1, acc, script')
            else spy_pread_loop script' f (count - zlen d) (offset + zlen d)
                   (total + zlen d) (acc ++ d)
        end
    end
  else Ret (total, acc, script).

Definition spy_pread (script : list sysret) (f : list byte) (count offset : Z) :=
  spy_pread_loop script f count offset 0 [].

(** The loop of [spy_pwrite]; [p] is the data still to be written. *)
Fixpoint spy_pwrite_loop (script : list sysret) (f : list byte)
    (p : list byte) (offset total : Z) : outcome (Z * list byte * list sysret) :=
  if 0 <? zlen p then
    match script with
    | [] => Wait
    | r :: script' =>
        match sys_pwrite f p offset r with
        | inl e =>
            if retryable e then spy_pwrite_loop script' f p offset total
            else Ret (-1, f, script')
        | inr (written, f') =>
            if written <=? 0 then Ret (-1, f', script')
            else spy_pwrite_loop script' f' (zdrop written p) (offset + written)
                   (total + written)
        end
    end
  else Ret (total, f, script).

(** [spy_pwrite(fd, buf, count, offset)] with [count] the length of the data. *)
Definition spy_pwrite (script : list sysret) (f : list byte) (data : list byte) (offset : Z) :=
  spy_pwrite_loop script f data offset 0.

(** Scripts under which a retry loop makes progress: no hard error and no
    zero-length transfer. *)
Definition benign (r : sysret) : bool :=
  match r with
  | Xfer n => 0 <? n
  | SysErr e => retryable e
  end.
Definition is_xfer (r : sysret) : bool :=
  match r with Xfer _ => true | SysErr _ => false end.
(** The number of transfers in a script. *)
Definition xfers (script : list sysret) : Z := zlen (List.filter is_xfer script).

End FileIO.
Export FileIO.

Lemma xfers_cons r s : xfers (r :: s) = (if is_xfer r then 1 else 0) + xfers s.
Proof. unfold xfers. simpl. destruct (is_xfer r); zl. Qed.
Lemma xfers_nonneg s : 0 <= xfers s.
Proof. apply zlen_nonneg. Qed.

Lemma spy_pread_loop_done script f count offset total acc :
  count <= 0 -> spy_pread_loop script f count offset total acc = Ret (total, acc, script).
Proof. intros. destruct script; simpl; case_b; done || lia. Qed.
Lemma spy_pwrite_loop_done script f offset total :
  spy_pwrite_loop script f [] offset total = Ret (total, f, script).
Proof. by destruct script. Qed.

(** With a benign script that grants one transfer per byte, the read loop
    returns all the bytes, and what is left of the script is still benign. *)
Lemma spy_pread_loop_complete f script count offset total acc :
  Forall benign script -> 0 <= count <= xfers script -> 0 <= offset ->
  offset + count <= zlen f ->
  exists script', spy_pread_loop script f count offset total acc
    = Ret (total + count, acc ++ zsub offset count f, script')
    /\ Forall benign script' /\ xfers script - count <= xfers script'.
Proof.
  revert count offset total acc.
  induction script as [|r script IH]; intros count offset total acc Hb Hc Ho Hl.
  - change (xfers []) with 0 in *. assert (count = 0) as -> by lia. exists [].
    rewrite spy_pread_loop_done, zsub_nil, app_nil_r, Z.add_0_r by lia. done.
  - apply Forall_cons in Hb as [Hr Hb]. rewrite xfers_cons in *.
    cbn [spy_pread_loop]. case_b; last first.
    { exists (r :: script). rewrite xfers_cons.
      rewrite zsub_nil, app_nil_r by lia. split; [do 3 f_equal; lia|].
      split; [by constructor|lia]. }
    destruct r as [n|e]; cbn [sys_pread is_xfer benign] in *.
    + destruct (Z.ltb_spec 0 n); [|done].
      autorewrite with zlen. case_b; [zlen_pos; lia|].
      replace (Z.max 0 (Z.min (Z.min n count) (zlen f - Z.max 0 offset)))
        with (Z.min n count) by lia.
      destruct (IH (count - Z.min n count) (offset + Z.min n count)
        (total + Z.min n count) (acc ++ zsub offset (Z.min n count) f))
        as (s' & -> & Hs' & Hx); [done|lia..|].
      exists s'. split; [|split; [done|lia]].
      rewrite <- app_assoc, <- zsub_app by lia.
      replace (Z.min n count + (count - Z.min n count)) with count by lia.
      do 3 f_equal. lia.
    + destruct (retryable e); [|done]. by apply IH.
Qed.

(** Whatever the kernel answers: when the read loop returns, it has the whole
    range or reports -1. *)
Lemma spy_pread_loop_sound f script count offset total acc n d s' :
  0 <= count -> 0 <= offset -> 0 <= total ->
  spy_pread_loop script f count offset total acc = Ret (n, d, s') ->
  (n = total + count /\ d = acc ++ zsub offset count f /\ (0 < count -> offset + count <= zlen f))
  \/ n = -1.
Proof.
  revert count offset total acc.
  induction script as [|r script IH]; intros count offset total acc Hc Ho Ht H; cbn in H;
    destruct (Z.ltb_spec 0 count); inv_ret.
  - left. rewrite zsub_nil, app_nil_r by lia. split_and!; [lia|done|lia].
  - destruct (sys_pread f count offset r) as [e|b] eqn:Er.
    + destruct (retryable e); [by apply IH in H|inv_ret; by right].
    + destruct r as [m|]; [|done]. injection Er as <-.
      case_b; [inv_ret; by right|]. autorewrite with zlen in *.
      set (k := Z.max 0 (Z.min (Z.min m count) (zlen f - Z.max 0 offset))) in *.
      assert (Hk : zsub offset (Z.min m count) f = zsub offset k f).
      { unfold zsub, ztake. unfold k. zlen_pos. 
        destruct (decide (Z.min m count <= zlen f - Z.max 0 offset)).
        - f_equal. lia.
        - rewrite !take_ge; [done|..]; unfold zdrop; rewrite length_drop; unfold zlen in *; lia. }
      apply IH in H as [(-> & -> & Hf)|]; [|by right|lia..]. left.
      split_and!; [lia| |lia].
      rewrite Hk, <- app_assoc, <- zsub_app by lia. do 2 f_equal. lia.
  - left. rewrite zsub_nil, app_nil_r by lia. split_and!; [lia|done|lia].
Qed.
Lemma file_write_in f offset d :
  offset <= zlen f -> file_write f offset d = zput offset d f.
Proof.
  intros. unfold file_write.
  replace (Z.to_nat (offset - zlen f)) with 0%nat by lia. simpl. by rewrite app_nil_r.
Qed.

(** One [pwrite] inside the file. *)
Lemma sys_pwrite_in f p offset n :
  0 <= offset <= zlen f ->
  sys_pwrite f p offset (Xfer n) = inr (zlen (ztake n p), zput offset (ztake n p) f).
Proof.
  intros. unfold sys_pwrite. cbv zeta. rewrite file_write_in by lia.
  destruct (ztake n p) eqn:E; [|done]. by rewrite zput_nil by lia.
Qed.

Lemma spy_pwrite_loop_complete script f p offset total :
  Forall benign script -> zlen p <= xfers script -> 0 <= offset ->
  offset + zlen p <= zlen f ->
  exists script', spy_pwrite_loop script f p offset total
    = Ret (total + zlen p, zput offset p f, script')
    /\ Forall benign script' /\ xfers script - zlen p <= xfers script'.
Proof.
  revert f p offset total.
  induction script as [|r script IH]; intros f p offset total Hb Hc Ho Hl.
  - change (xfers []) with 0 in *. assert (p = []) as -> by (apply zlen_0_nil; zl).
    exists []. rewrite spy_pwrite_loop_done, zput_nil, zlen_nil, Z.add_0_r by lia. done.
  - apply Forall_cons in Hb as [Hr Hb]. rewrite xfers_cons in *.
    cbn [spy_pwrite_loop]. case_b; last first.
    { assert (p = []) as -> by (apply zlen_0_nil; zl).
      exists (r :: script). rewrite xfers_cons, zput_nil, zlen_nil, Z.add_0_r by lia.
      split; [done|]. split; [by constructor|lia]. }
    destruct r as [n|e]; cbn [is_xfer benign] in *.
    + destruct (Z.ltb_spec 0 n); [|done]. rewrite sys_pwrite_in by lia.
      case_b; [zl|].
      set (d := ztake n p) in *. set (q := zdrop (zlen d) p).
      assert (Hd : zlen d = Z.min n (zlen p)) by (unfold d; zl).
      assert (Hp : d ++ q = p) by apply ztake_zdrop_len.
      assert (Hq : zlen p = zlen d + zlen q) by (rewrite <- Hp; zl).
      destruct (IH (zput offset d f) q (offset + zlen d) (total + zlen d))
        as (s' & -> & Hs' & Hx); [done|lia|lia|rewrite zlen_put; lia|].
      exists s'. rewrite zput_split, Hp by lia. rewrite Hq in *.
      split; [do 3 f_equal; lia|]. split; [done|lia].
    + unfold sys_pwrite. destruct (retryable e); [|done]. by apply IH.
Qed.

(** Whatever the kernel answers: a write that returns has stored all the data,
    or reports -1 having stored a proper prefix of it. *)
(** A write may go past the end of the file, which then grows. *)
Lemma spy_pwrite_loop_any script f p offset total n f' s' :
  0 <= offset <= zlen f ->
  spy_pwrite_loop script f p offset total = Ret (n, f', s') ->
  (n = total + zlen p /\ f' = zput offset p f)
  \/ (n = -1 /\ exists k, 0 <= k <= zlen p /\ f' = zput offset (ztake k p) f).
Proof.
  revert f p offset total.
  induction script as [|r script IH]; intros f p offset total Ho H; cbn in H;
    destruct (Z.ltb_spec 0 (zlen p)); inv_ret.
  - left. assert (p = []) as -> by (apply zlen_0_nil; zl).
    rewrite zput_nil, zlen_nil by lia. split; [lia|done].
  - destruct r as [m|e].
    + rewrite sys_pwrite_in in H by zl. cbn in H. case_b.
      * inv_ret. right. split; [done|]. exists (zlen (ztake m p)).
        assert (ztake m p = []) as -> by (apply zlen_0_nil; zl).
        rewrite ztake_neg by zl. split; [zl|done].
      * set (d := ztake m p) in *. set (q := zdrop (zlen d) p) in *.
        assert (Hd : zlen d = Z.min m (zlen p)) by (unfold d in *; zl).
        assert (Hp : d ++ q = p) by apply ztake_zdrop_len.
        assert (Hq : zlen p = zlen d + zlen q) by (rewrite <- Hp; zl).
        apply IH in H as [[-> ->]|[-> (k & Hk & ->)]];
          [left|right|rewrite zlen_put_any by lia; lia].
        { rewrite zput_split_any, Hp by lia. split; [lia|done]. }
        { split; [done|]. exists (zlen d + k). split; [lia|].
          rewrite zput_split_any by lia. f_equal.
          rewrite <- Hp, ztake_app_ge by lia. do 2 f_equal. lia. }
    + cbn in H. destruct (retryable e); [by apply IH in H|]. inv_ret.
      right. split; [done|]. exists 0. rewrite ztake_neg, zput_nil by lia.
      split; [zl|done].
  - left. assert (p = []) as -> by (apply zlen_0_nil; zl).
    rewrite zput_nil, zlen_nil by lia. split; [lia|done].
Qed.
Lemma spy_pwrite_loop_sound script f p offset total n f' s' :
  0 <= offset -> offset + zlen p <= zlen f ->
  spy_pwrite_loop script f p offset total = Ret (n, f', s') ->
  (n = total + zlen p /\ f' = zput offset p f)
  \/ (n = -1 /\ exists k, 0 <= k <= zlen p /\ f' = zput offset (ztake k p) f).
Proof. intros Ho Hl. apply spy_pwrite_loop_any. pose proof (zlen_nonneg p). lia. Qed.

(** ** Strings

    A C string is the list of its characters before the terminating NUL, or
    [None] for a null pointer. *)

Fixpoint strncmp_eq (n : nat) (s t : list byte) : bool :=
  match n, s, t with
  | O, _, _ => true
  | S _, [], [] => true
  | S n', x :: s', y :: t' => if decide (x = y) then strncmp_eq n' s' t' else false
  | S _, _, _ => false
  end.

Definition spy_string_ends_with (str suffix : option (list byte)) : bool :=
  match str, suffix with
  | Some str, Some suffix =>
      let lstr := zlen str in
      let lsuffix := zlen suffix in
      if lstr <? lsuffix then false
      else strncmp_eq (Z.to_nat lsuffix) (zdrop (lstr - lsuffix) str) suffix
  | _, _ => false
  end.

Lemma strncmp_eq_full s t : length s = length t -> strncmp_eq (length t) s t = true <-> s = t.
Proof.
  revert s. induction t as [|y t IH]; intros [|x s] Hl; try done.
  injection Hl as Hl. cbn [length strncmp_eq]. destruct (decide (x = y)) as [->|Hn].
  - rewrite IH by done. split; congruence.
  - split; congruence.
Qed.

Lemma string_ends_with_iff s t :
  spy_string_ends_with (Some s) (Some t) = true <-> t `suffix_of` s.
Proof.
  unfold spy_string_ends_with. cbv zeta. case_b.
  - split; [done|]. intros [k ->]. zl.
  - replace (Z.to_nat (zlen t)) with (length t) by (unfold zlen; lia).
    rewrite strncmp_eq_full by (unfold zdrop, zlen in *; rewrite length_drop; lia). split.
    + intros <-. exists (ztake (zlen s - zlen t) s). by rewrite ztake_drop.
    + intros [k ->]. rewrite zlen_app. replace (zlen k + zlen t - zlen t) with (zlen k) by lia.
      rewrite zdrop_app_ge, Z.sub_diag by lia. by apply zdrop_neg.
Qed.

Module UtilsProps.

(** Writing an integer and reading it back, with any bytes behind it, gives
    the value truncated to the field's width, at each of the four widths. *)
Theorem mach_roundtrip x r :
  spy_mach_read_from_1 (spy_mach_write_to_1 x ++ r) = Ret (u8 x) /\
  spy_mach_read_from_2 (spy_mach_write_to_2 x ++ r) = Ret (u16 x) /\
  spy_mach_read_from_4 (spy_mach_write_to_4 x ++ r) = Ret (u32 x) /\
  spy_mach_read_from_8 (spy_mach_write_to_8 x ++ r) = Ret (u64 x).
Proof. auto using read_write_1, read_write_2, read_write_4, read_write_8. Qed.

(** The variable-length codec round-trips every 32-bit value in one to five
    bytes and reports the number of bytes it used. *)
Theorem variant_roundtrip x r :
  spy_mach_read_variant_4 (spy_mach_write_variant_4 x ++ r)
    = Ret (Some (u32 x), zlen (spy_mach_write_variant_4 x)) /\
  1 <= zlen (spy_mach_write_variant_4 x) <= 5.
Proof.
  pose proof (length_write_variant x). split; [|unfold zlen; lia].
  pose proof (variant_from_write x 5%nat [] r ltac:(lia)) as Hv.
  by rewrite Z.mod_1_r in Hv.
Qed.

(** Whatever the kernel answers (short transfers, interrupted calls, errors),
    a [spy_pwrite] that returns has either stored all the data and nothing else,
    and reports its length, or reports -1 and has stored at most a prefix of it;
    the rest of the file is as it was. *)
Theorem spy_pwrite_sound script f data offset n f' script' :
  0 <= offset -> offset + zlen data <= zlen f ->
  spy_pwrite script f data offset = Ret (n, f', script') ->
  (n = zlen data /\ f' = zput offset data f)
  \/ (n = -1 /\ exists k, 0 <= k <= zlen data /\ f' = zput offset (ztake k data) f).
Proof. intros ?? H. by apply spy_pwrite_loop_sound in H. Qed.

Lemma spy_pwrite_sound_witness :
  exists f' s', spy_pwrite [Xfer 2; SysErr EINTR; SysErr EOTHER] (replicate 6 b00)
    (spy_mach_write_to_4 16909060) 1 = Ret (-1, f', s')
  /\ ((-1 = 4 /\ f' = zput 1 (spy_mach_write_to_4 16909060) (replicate 6 b00))
      \/ (-1 = -1 /\ exists k, 0 <= k <= 4
            /\ f' = zput 1 (ztake k (spy_mach_write_to_4 16909060)) (replicate 6 b00))).
Proof.
  eexists _, _. split; [vm_compute; reflexivity|].
  refine (spy_pwrite_sound [Xfer 2; SysErr EINTR; SysErr EOTHER] (replicate 6 b00)
    (spy_mach_write_to_4 16909060) 1 (-1) _ [] _ _ _);
    [lia | vm_compute; discriminate | vm_compute; reflexivity].
Defined.

(** The retry loops terminate with the whole transfer as soon as the kernel
    grants one byte per call on average: [spy_pwrite] returns the length of the
    data and [spy_pread] of the same range returns exactly the data written,
    however the two transfers are cut up and interrupted. *)
Theorem spy_pwrite_pread script script2 f data offset :
  Forall benign script -> Forall benign script2 ->
  zlen data <= xfers script -> zlen data <= xfers script2 ->
  0 <= offset -> offset + zlen data <= zlen f ->
  exists f' s1 s2,
    spy_pwrite script f data offset = Ret (zlen data, f', s1) /\
    spy_pread script2 f' (zlen data) offset = Ret (zlen data, data, s2).
Proof.
  intros Hb1 Hb2 Hx1 Hx2 Ho Hl.
  destruct (spy_pwrite_loop_complete script f data offset 0) as (s1 & H1 & _); [done..|].
  destruct (spy_pread_loop_complete (zput offset data f) script2 (zlen data) offset 0 [])
    as (s2 & H2 & _); [done|zl|done|rewrite zlen_put; lia|].
  exists (zput offset data f), s1, s2. split; [exact H1|].
  unfold spy_pread. rewrite H2. by rewrite zsub_zput_same by zl.
Qed.

Lemma spy_pwrite_pread_witness :
  exists f' s1 s2,
    spy_pwrite [SysErr EAGAIN; Xfer 1; Xfer 9; SysErr EINTR; Xfer 3; Xfer 1] (replicate 9 b00)
      (spy_mach_write_to_4 3735928559) 3 = Ret (4, f', s1) /\
    spy_pread [Xfer 3; SysErr EINTR; Xfer 4; Xfer 1; Xfer 1] f' 4 3
      = Ret (4, spy_mach_write_to_4 3735928559, s2).
Proof.
  apply (spy_pwrite_pread [SysErr EAGAIN; Xfer 1; Xfer 9; SysErr EINTR; Xfer 3; Xfer 1]
    [Xfer 3; SysErr EINTR; Xfer 4; Xfer 1; Xfer 1] (replicate 9 b00)
    (spy_mach_write_to_4 3735928559) 3);
    first [by repeat constructor | by vm_compute | lia].
Defined.

(** The suffix test answers exactly whether the second string ends the first. *)
Theorem spy_string_ends_with_spec s t :
  spy_string_ends_with (Some s) (Some t) = true <-> t `suffix_of` s.
Proof. apply string_ends_with_iff. Qed.

End UtilsProps.
