(* ===== verification/LinkedList.v ===== *)
(** * LinkedList: the intrusive circular lists of [spy_list.h]

    A [struct list_head] is embedded in every object that can be on a list; a
    list is a head and the ring of nodes linked through it.  The operations are
    translated store by store over a heap of nodes, and proved to refine the
    lists the other components are modelled with: a state with any number of
    lists, where an operation on one leaves the others alone. *)

From S2P Require Import Prelude.

Create HintDb llist.

(** ** The code *)

Module LinkedList.

Record list_head : Type := ListHead { lh_next : Z; lh_prev : Z }.
(** The nodes and heads that exist, by address. *)
Abbreviation lheap := (gmap Z list_head).

Definition LIST_POISON1 : Z := 1048832.
Definition LIST_POISON2 : Z := 2097664.

(** [p->next], [p->prev], [p->next = v] and [p->prev = v]. *)
Definition get_next (p : Z) : prog lheap Z := fun h =>
  x ← c_deref (h !! p); Ret (lh_next x, h).
Definition get_prev (p : Z) : prog lheap Z := fun h =>
  x ← c_deref (h !! p); Ret (lh_prev x, h).
Definition set_next (p v : Z) : prog lheap unit := fun h =>
  x ← c_deref (h !! p); Ret (tt, <[p := ListHead v (lh_prev x)]> h).
Definition set_prev (p v : Z) : prog lheap unit := fun h =>
  x ← c_deref (h !! p); Ret (tt, <[p := ListHead (lh_next x) v]> h).

Definition INIT_LIST_HEAD (list : Z) : prog lheap unit :=
  _ ← set_next list list; set_prev list list.

Definition __list_add (new prev next : Z) : prog lheap unit :=
  _ ← set_prev next new;
  _ ← set_next new next;
  _ ← set_prev new prev;
  set_next prev new.

Definition list_add (new head : Z) : prog lheap unit :=
  next ← get_next head; __list_add new head next.

Definition list_add_tail (new head : Z) : prog lheap unit :=
  prev ← get_prev head; __list_add new prev head.

Definition __list_del (prev next : Z) : prog lheap unit :=
  _ ← set_prev next prev; set_next prev next.

Definition __list_del_entry (entry : Z) : prog lheap unit :=
  prev ← get_prev entry; next ← get_next entry; __list_del prev next.

Definition list_del (entry : Z) : prog lheap unit :=
  prev ← get_prev entry; next ← get_next entry;
  _ ← __list_del prev next;
  _ ← set_next entry LIST_POISON1;
  set_prev entry LIST_POISON2.

Definition list_replace (old new : Z) : prog lheap unit :=
  n ← get_next old;
  _ ← set_next new n;
  n ← get_next new;
  _ ← set_prev n new;
  p ← get_prev old;
  _ ← set_prev new p;
  p ← get_prev new;
  set_next p new.

Definition list_replace_init (old new : Z) : prog lheap unit :=
  _ ← list_replace old new; INIT_LIST_HEAD old.

Definition list_del_init (entry : Z) : prog lheap unit :=
  _ ← __list_del_entry entry; INIT_LIST_HEAD entry.

Definition list_move (list head : Z) : prog lheap unit :=
  _ ← __list_del_entry list; list_add list head.

Definition list_move_tail (list head : Z) : prog lheap unit :=
  _ ← __list_del_entry list; list_add_tail list head.

Definition list_is_last (list head : Z) : prog lheap bool :=
  n ← get_next list; mret (n =? head).

Definition list_empty (head : Z) : prog lheap bool :=
  n ← get_next head; mret (n =? head).

Definition list_empty_careful (head : Z) : prog lheap bool :=
  next ← get_next head;
  if next =? head then p ← get_prev head; mret (next =? p) else mret false.

Definition list_rotate_left (head : Z) : prog lheap unit :=
  e ← list_empty head;
  if negb e then first ← get_next head; list_move_tail first head else mret tt.

Definition list_is_singular (head : Z) : prog lheap bool :=
  e ← list_empty head;
  if negb e then n ← get_next head; p ← get_prev head; mret (n =? p) else mret false.

Definition __list_cut_position (list head entry : Z) : prog lheap unit :=
  new_first ← get_next entry;
  n ← get_next head;
  _ ← set_next list n;
  n ← get_next list;
  _ ← set_prev n list;
  _ ← set_prev list entry;
  _ ← set_next entry list;
  _ ← set_next head new_first;
  set_prev new_first head.

Definition list_cut_position (list head entry : Z) : prog lheap unit :=
  e ← list_empty head;
  if e : bool then mret tt
  else
    s ← list_is_singular head;
    n ← get_next head;
    if s && (negb (n =? entry) && negb (head =? entry)) then mret tt
    else if entry =? head then INIT_LIST_HEAD list
    else __list_cut_position list head entry.

Definition __list_splice (list prev next : Z) : prog lheap unit :=
  first ← get_next list;
  last ← get_prev list;
  _ ← set_prev first prev;
  _ ← set_next prev first;
  _ ← set_next last next;
  set_prev next last.

Definition list_splice (list head : Z) : prog lheap unit :=
  e ← list_empty list;
  if negb e then n ← get_next head; __list_splice list head n else mret tt.

Definition list_splice_tail (list head : Z) : prog lheap unit :=
  e ← list_empty list;
  if negb e then p ← get_prev head; __list_splice list p head else mret tt.

Definition list_splice_init (list head : Z) : prog lheap unit :=
  e ← list_empty list;
  if negb e then n ← get_next head; _ ← __list_splice list head n; INIT_LIST_HEAD list
  else mret tt.

Definition list_splice_tail_init (list head : Z) : prog lheap unit :=
  e ← list_empty list;
  if negb e then p ← get_prev head; _ ← __list_splice list p head; INIT_LIST_HEAD list
  else mret tt.

(** *** Structures and iteration

    [member] is [offsetof(type, member)]; a structure is its address. *)

Definition container_of (ptr member : Z) : Z := ptr - member.
Definition list_entry (ptr member : Z) : Z := container_of ptr member.
Definition list_first_entry (ptr member : Z) : prog lheap Z :=
  n ← get_next ptr; mret (list_entry n member).
Definition list_last_entry (ptr member : Z) : prog lheap Z :=
  p ← get_prev ptr; mret (list_entry p member).
Definition list_next_entry (pos member : Z) : prog lheap Z :=
  n ← get_next (pos + member); mret (list_entry n member).
Definition list_prev_entry (pos member : Z) : prog lheap Z :=
  p ← get_prev (pos + member); mret (list_entry p member).

(** The loops run a body on each structure.  The body works on the nodes and on
    the variables [V] of the surrounding function, and may end the loop ([break],
    [return]) by answering [true].  [fuel] bounds the rounds. *)
Definition on_heap {V A} (c : prog lheap A) : prog (lheap * V) A := fun '(h, s) =>
  '(r, h) ← c h; Ret (r, (h, s)).

Section Iterate.
Context {V : Type} (member head : Z) (body : Z -> prog (lheap * V) bool).

Fixpoint for_each_from (step : Z -> Z -> prog lheap Z) (fuel : nat) (pos : Z)
    : prog (lheap * V) unit :=
  if pos + member =? head then mret tt
  else match fuel with
       | O => fun _ => Wait
       | S fuel =>
           stop ← body pos;
           if stop : bool then mret tt
           else pos ← on_heap (step pos member); for_each_from step fuel pos
       end.

Definition list_for_each_entry (fuel : nat) : prog (lheap * V) unit :=
  pos ← on_heap (list_first_entry head member); for_each_from list_next_entry fuel pos.

Definition list_for_each_entry_reverse (fuel : nat) : prog (lheap * V) unit :=
  pos ← on_heap (list_last_entry head member); for_each_from list_prev_entry fuel pos.

Fixpoint for_each_safe_from (fuel : nat) (pos n : Z) : prog (lheap * V) unit :=
  if pos + member =? head then mret tt
  else match fuel with
       | O => fun _ => Wait
       | S fuel =>
           stop ← body pos;
           if stop : bool then mret tt
           else n' ← on_heap (list_next_entry n member); for_each_safe_from fuel n n'
       end.

Definition list_for_each_entry_safe (fuel : nat) : prog (lheap * V) unit :=
  pos ← on_heap (list_first_entry head member);
  n ← on_heap (list_next_entry pos member);
  for_each_safe_from fuel pos n.
End Iterate.

End LinkedList.
Export LinkedList.

(** ** Heaps, link by link *)

Section Links.
Implicit Types (h : lheap) (p q x y v : Z) (l m : list Z).

Definition nxt h p : option Z := lh_next <$> h !! p.
Definition prv h p : option Z := lh_prev <$> h !! p.
Definition upd_next p v h : lheap := alter (fun e => ListHead v (lh_prev e)) p h.
Definition upd_prev p v h : lheap := alter (fun e => ListHead (lh_next e) v) p h.

Lemma get_next_ok h p v : nxt h p = Some v -> get_next p h = Ret (v, h).
Proof. unfold nxt, get_next. intros H. destruct (h !! p); cbn in *; by simplify_eq. Qed.
Lemma get_prev_ok h p v : prv h p = Some v -> get_prev p h = Ret (v, h).
Proof. unfold prv, get_prev. intros H. destruct (h !! p); cbn in *; by simplify_eq. Qed.
Lemma set_next_ok h p v : is_Some (h !! p) -> set_next p v h = Ret (tt, upd_next p v h).
Proof.
  intros [x H]. unfold set_next, upd_next. rewrite H. unfold c_deref. rewrite bind_Ret. do 2 f_equal.
  apply map_eq. intros i. destruct (decide (p = i)) as [<-|Hne].
  - by rewrite lookup_insert_eq, lookup_alter_eq, H.
  - by rewrite lookup_insert_ne, lookup_alter_ne.
Qed.
Lemma set_prev_ok h p v : is_Some (h !! p) -> set_prev p v h = Ret (tt, upd_prev p v h).
Proof.
  intros [x H]. unfold set_prev, upd_prev. rewrite H. unfold c_deref. rewrite bind_Ret. do 2 f_equal.
  apply map_eq. intros i. destruct (decide (p = i)) as [<-|Hne].
  - by rewrite lookup_insert_eq, lookup_alter_eq, H.
  - by rewrite lookup_insert_ne, lookup_alter_ne.
Qed.

Lemma upd_next_is_Some h p v x : is_Some (upd_next p v h !! x) <-> is_Some (h !! x).
Proof. apply lookup_alter_is_Some. Qed.
Lemma upd_prev_is_Some h p v x : is_Some (upd_prev p v h !! x) <-> is_Some (h !! x).
Proof. apply lookup_alter_is_Some. Qed.
Lemma nxt_upd_next_eq h p v : is_Some (h !! p) -> nxt (upd_next p v h) p = Some v.
Proof. intros [x H]. unfold nxt, upd_next. by rewrite lookup_alter_eq, H. Qed.
Lemma nxt_upd_next_ne h p v x : x <> p -> nxt (upd_next p v h) x = nxt h x.
Proof. intros H. unfold nxt, upd_next. by rewrite lookup_alter_ne. Qed.
Lemma prv_upd_prev_eq h p v : is_Some (h !! p) -> prv (upd_prev p v h) p = Some v.
Proof. intros [x H]. unfold prv, upd_prev. by rewrite lookup_alter_eq, H. Qed.
Lemma prv_upd_prev_ne h p v x : x <> p -> prv (upd_prev p v h) x = prv h x.
Proof. intros H. unfold prv, upd_prev. by rewrite lookup_alter_ne. Qed.
Lemma nxt_upd_prev h p v x : nxt (upd_prev p v h) x = nxt h x.
Proof.
  unfold nxt, upd_prev. destruct (decide (p = x)) as [<-|]; [|by rewrite lookup_alter_ne].
  rewrite lookup_alter_eq. by destruct (h !! p).
Qed.
Lemma prv_upd_next h p v x : prv (upd_next p v h) x = prv h x.
Proof.
  unfold prv, upd_next. destruct (decide (p = x)) as [<-|]; [|by rewrite lookup_alter_ne].
  rewrite lookup_alter_eq. by destruct (h !! p).
Qed.
Lemma nxt_is_Some h p v : nxt h p = Some v -> is_Some (h !! p).
Proof. unfold nxt. destruct (h !! p); [by eauto|done]. Qed.
Lemma prv_is_Some h p v : prv h p = Some v -> is_Some (h !! p).
Proof. unfold prv. destruct (h !! p); [by eauto|done]. Qed.

(** [x] is followed by [y]. *)
Definition link h x y : Prop := nxt h x = Some y /\ prv h y = Some x.

(** The ring of the head [q] and the nodes [l]. *)
Definition ring h q l : Prop := Forall2 (link h) (q :: l) (l ++ [q]).

Lemma links_ext h h' l m :
  (forall x, x ∈ l -> nxt h' x = nxt h x) -> (forall y, y ∈ m -> prv h' y = prv h y) ->
  Forall2 (link h) l m -> Forall2 (link h') l m.
Proof.
  intros Hn Hp H. induction H as [|x y l m [H1 H2] H IH]; constructor.
  - split; [rewrite Hn|rewrite Hp]; by try left.
  - apply IH; intros; [apply Hn|apply Hp]; by right.
Qed.

(** A ring opened between two of its nodes. *)
Lemma ring_open h q l1 l2 s x y t :
  q :: l1 = s ++ [x] -> l2 ++ [q] = y :: t ->
  ring h q (l1 ++ l2) <-> Forall2 (link h) s l1 /\ link h x y /\ Forall2 (link h) l2 t.
Proof.
  intros E1 E2. unfold ring. rewrite app_comm_cons, E1, <- !(assoc_L (++)), E2. cbn.
  assert (L1 : length s = length l1).
  { apply (f_equal length) in E1. rewrite length_app in E1. cbn in E1. lia. }
  split.
  - intros H. apply Forall2_app_inv in H as [H1 H2]; [|done]. by apply Forall2_cons in H2 as [H2 H3].
  - intros (H1 & H2 & H3). apply Forall2_app; [done|]. by constructor.
Qed.

Lemma last_exists q l : exists s x, q :: l = s ++ [x].
Proof. destruct (exists_last (l := q :: l)) as (s & x & E); [done|]. by exists s, x. Qed.
Lemma first_exists l q : exists y t, l ++ [q] = y :: t.
Proof. destruct l as [|y l]; [by exists q, []|by exists y, (l ++ [q])]. Qed.

(** What an operation on the nodes [X] may do to the heap. *)
Definition touched (X : list Z) h h' : Prop :=
  (forall p, is_Some (h' !! p) <-> is_Some (h !! p)) /\ (forall p, p ∉ X -> h' !! p = h !! p).

Lemma touched_refl X h : touched X h h.
Proof. done. Qed.
Lemma touched_trans X h h1 h2 : touched X h h1 -> touched X h1 h2 -> touched X h h2.
Proof.
  intros [A1 A2] [B1 B2]. split; [intros p; by rewrite B1|]. intros p Hp. by rewrite B2, A2.
Qed.
Lemma touched_next X h p v : p ∈ X -> touched X h (upd_next p v h).
Proof.
  intros Hp. split; [intros; apply upd_next_is_Some|]. intros x Hx. apply lookup_alter_ne. by intros <-.
Qed.
Lemma touched_prev X h p v : p ∈ X -> touched X h (upd_prev p v h).
Proof.
  intros Hp. split; [intros; apply upd_prev_is_Some|]. intros x Hx. apply lookup_alter_ne. by intros <-.
Qed.
Lemma ring_touched X h h' q l : touched X h h' -> q :: l ## X -> ring h q l -> ring h' q l.
Proof.
  intros [_ H] HX. apply links_ext; intros p Hp; unfold nxt, prv; rewrite H; try done.
  - intros Hp'. by apply (HX p).
  - intros Hp'. apply (HX p); [|done]. apply elem_of_app in Hp as [Hp| ->%list_elem_of_singleton]; by constructor.
Qed.
End Links.

#[export] Hint Resolve touched_next touched_prev touched_refl : llist.

(** ** Many lists in one heap *)

(** The lists, by the address of the head, and the nodes on no list. *)
Record lists_t : Type := Lists { lists : gmap Z (list Z); loose : list Z }.

Definition nodes_of (m : gmap Z (list Z)) : list Z := map_to_list m ≫= fun kl => kl.1 :: kl.2.

(** A heap represents lists: each head's ring runs through its nodes, and every
    node of the heap is on one list or loose. *)
Record repr (h : lheap) (a : lists_t) : Prop := {
  rp_nodup : NoDup (loose a ++ nodes_of (lists a));
  rp_dom : forall p, is_Some (h !! p) <-> p ∈ loose a ++ nodes_of (lists a);
  rp_rings : forall q l, lists a !! q = Some l -> ring h q l
}.

Section Repr.
Implicit Types (h : lheap) (a : lists_t) (p q x y e v : Z) (l k : list Z) (m : gmap Z (list Z)).

Lemma nodes_of_insert m q l : m !! q = None -> nodes_of (<[q := l]> m) ≡ₚ q :: l ++ nodes_of m.
Proof. intros H. unfold nodes_of. by rewrite map_to_list_insert. Qed.

Lemma nodes_of_in m q l p : m !! q = Some l -> p ∈ q :: l -> p ∈ nodes_of m.
Proof.
  intros H Hp. apply list_elem_of_bind. exists (q, l). split; [done|]. by apply elem_of_map_to_list.
Qed.

Lemma repr_key_fresh h m k x : repr h (Lists m (x :: k)) -> m !! x = None.
Proof.
  intros R. destruct (m !! x) as [l|] eqn:E; [|done]. pose proof (rp_nodup _ _ R) as N. cbn in N.
  apply NoDup_cons in N as [N _]. destruct N. apply elem_of_app. right.
  eapply nodes_of_in; [done|left].
Qed.

Lemma repr_perm h m k k' : k ≡ₚ k' -> repr h (Lists m k) -> repr h (Lists m k').
Proof. intros E [R1 R2 R3]. split; cbn in *; [by rewrite <- E|by setoid_rewrite <- E|done]. Qed.

(** An operation touches only nodes [X] of the lists it changes. *)
Lemma repr_step h h' m m0 m' k k' X :
  repr h (Lists m k) -> touched X h h' ->
  k ++ nodes_of m ≡ₚ X ++ nodes_of m0 -> k' ++ nodes_of m' ≡ₚ X ++ nodes_of m0 ->
  (forall q l, m0 !! q = Some l -> m !! q = Some l) ->
  (forall q l, m' !! q = Some l -> ring h' q l \/ m0 !! q = Some l) ->
  repr h' (Lists m' k').
Proof.
  intros [R1 R2 R3] T E E' Hm Hm'. cbn in *. rewrite E in R1. setoid_rewrite E in R2. split; cbn.
  - by rewrite E'.
  - intros p. rewrite E'. rewrite (proj1 T p). apply R2.
  - intros q l H. apply Hm' in H as [H|H]; [done|]. apply (ring_touched X h); [done| |by apply R3, Hm].
    apply NoDup_app in R1 as (_ & R1 & _). intros p Hp HX. apply (R1 p HX). by eapply nodes_of_in.
Qed.

Lemma repr_known h a p : repr h a -> p ∈ loose a ++ nodes_of (lists a) -> is_Some (h !! p).
Proof. intros R. by rewrite (rp_dom _ _ R). Qed.

Lemma nodup_mid {A} (u w : list A) (x : A) : NoDup (u ++ x :: w) -> x ∉ u /\ x ∉ w.
Proof.
  intros (_ & H & [Hw _]%NoDup_cons)%NoDup_app. split; [|done]. intros Hx. apply (H x Hx). left.
Qed.

Lemma run_bind {St A B} (c : prog St A) (f : A -> prog St B) s r s' :
  c s = Ret (r, s') -> (c ≫= f) s = f r s'.
Proof. unfold mbind, prog_bind. by intros ->. Qed.

End Repr.

(** [run] executes the next statement of a program whose nodes are known to
    exist; [links] computes a link of an updated heap. *)
Ltac known := repeat first [rewrite upd_next_is_Some|rewrite upd_prev_is_Some]; eassumption.
Ltac links := repeat first
  [ rewrite nxt_upd_prev | rewrite prv_upd_next
  | rewrite nxt_upd_next_eq by known | rewrite prv_upd_prev_eq by known
  | rewrite nxt_upd_next_ne by (by intros ?; subst) | rewrite prv_upd_prev_ne by (by intros ?; subst) ].
Ltac run := first
  [ erewrite run_bind by (apply set_next_ok; known) | erewrite run_bind by (apply set_prev_ok; known)
  | erewrite run_bind by (apply get_next_ok; links; first [eassumption|reflexivity])
  | erewrite run_bind by (apply get_prev_ok; links; first [eassumption|reflexivity])
  | rewrite set_next_ok by known | rewrite set_prev_ok by known ].
Ltac mem :=
  repeat progress rewrite ?not_elem_of_app, ?not_elem_of_cons, ?elem_of_app, ?elem_of_cons, ?elem_of_nil in *;
  intuition congruence.
Ltac touch := repeat first
  [ apply touched_refl | eapply touched_trans; [|first [apply touched_next|apply touched_prev]; mem] ].

Section Primitives.
Implicit Types (h : lheap) (p q x y a b e v : Z) (l k s t : list Z) (m : gmap Z (list Z)).

(** One list of a represented state, opened between [a] and [b]. *)
Record opened h k m q l1 l2 s a b t : Prop := {
  op_left : Forall2 (link h) s l1;
  op_mid : link h a b;
  op_right : Forall2 (link h) l2 t;
  op_a : is_Some (h !! a) /\ a ∉ s /\ a ∉ l2;
  op_b : is_Some (h !! b) /\ b ∉ l1 /\ b ∉ t;
  op_mem : a ∈ q :: l1 /\ b ∈ l2 ++ [q];
  op_nodup : NoDup (q :: l1 ++ l2);
  op_free : forall x, x ∈ k ++ nodes_of m -> is_Some (h !! x) /\
    (x <> q /\ x ∉ l1 /\ x ∉ l2) /\ (x <> a /\ x <> b /\ x ∉ s /\ x ∉ t)
}.

Lemma repr_opened h m k q l1 l2 s a b t :
  m !! q = None -> q :: l1 = s ++ [a] -> l2 ++ [q] = b :: t ->
  repr h (Lists (<[q := l1 ++ l2]> m) k) -> opened h k m q l1 l2 s a b t.
Proof.
  intros Hq E1 E2 R. pose proof (rp_nodup _ _ R) as N. cbn in N.
  assert (En : k ++ nodes_of (<[q := l1 ++ l2]> m) ≡ₚ (k ++ nodes_of m) ++ q :: l1 ++ l2)
    by (rewrite nodes_of_insert by done; solve_Permutation).
  rewrite En in N. apply NoDup_app in N as (_ & ND & N).
  pose proof (rp_rings _ _ R q (l1 ++ l2) (lookup_insert_eq _ _ _)) as G.
  apply (ring_open _ _ _ _ s a b t E1 E2) in G as (G1 & G2 & G4).
  assert (Ha : a ∈ q :: l1) by (rewrite E1; mem). assert (Hb : b ∈ l2 ++ [q]) by (rewrite E2; mem).
  assert (Es : forall z, z ∈ s -> z ∈ q :: l1) by (intros z; rewrite E1; mem).
  assert (Et : forall z, z ∈ t -> z ∈ l2 ++ [q]) by (intros z; rewrite E2; mem).
  split; try done.
  - split; [by eapply nxt_is_Some, G2|]. apply nodup_mid. by rewrite app_comm_cons, E1, <- (assoc_L (++)) in N.
  - split; [by eapply prv_is_Some, G2|]. apply nodup_mid.
    rewrite <- E2, (assoc_L (++)), <- Permutation_cons_append. done.
  - intros x Hx. split.
    { apply (repr_known _ _ _ R). cbn. rewrite En. mem. }
    pose proof (ND x Hx) as Hn. clear - Hn Ha Hb Es Et. specialize (Es x). specialize (Et x). mem.
Qed.

(** The node [x], on no list, goes between [a] and [b]. *)
Lemma insert_ok h m k q l1 l2 s a b t x :
  m !! q = None -> q :: l1 = s ++ [a] -> l2 ++ [q] = b :: t ->
  repr h (Lists (<[q := l1 ++ l2]> m) (x :: k)) ->
  exists h', __list_add x a b h = Ret (tt, h') /\ repr h' (Lists (<[q := l1 ++ x :: l2]> m) k).
Proof.
  intros Hq E1 E2 R. pose proof (repr_opened _ _ _ _ _ _ _ _ _ _ Hq E1 E2 R)
    as [G1 G2 G4 (Ka & A1 & A2) (Kb & B1 & B2) [Ha Hb] N F].
  destruct (F x) as (Kx & (X1 & X2 & X3) & (X4 & X5 & X6 & X7)); [mem|]. clear F.
  unfold __list_add. repeat run. eexists. split; [reflexivity|].
  apply (repr_step h _ (<[q := l1 ++ l2]> m) m _ (x :: k) k (k ++ x :: q :: l1 ++ l2)); try done.
  - touch.
  - rewrite nodes_of_insert by done. solve_Permutation.
  - rewrite nodes_of_insert by done. solve_Permutation.
  - intros q' l H. rewrite lookup_insert_ne; [done|]. congruence.
  - intros q' l H. apply lookup_insert_Some in H as [[<- <-]|[_ H]]; [left|by right].
    apply (ring_open _ _ l1 (x :: l2) s a x (b :: t) E1); [cbn; by rewrite E2|]. split_and!.
    + revert G1. apply links_ext; intros z Hz; by links.
    + split; by links.
    + constructor; [split; by links|]. revert G4. apply links_ext; intros z Hz; by links.
Qed.

Lemma del_entry_ok h m k q l1 l2 x :
  m !! q = None -> repr h (Lists (<[q := l1 ++ x :: l2]> m) k) ->
  exists h', __list_del_entry x h = Ret (tt, h') /\ repr h' (Lists (<[q := l1 ++ l2]> m) (x :: k)).
Proof.
  intros Hq R. destruct (last_exists q l1) as (s & a & E1), (first_exists l2 q) as (b & t & E2).
  pose proof (repr_opened _ _ _ _ l1 (x :: l2) s a x (b :: t) Hq E1 ltac:(cbn; by rewrite E2) R)
    as [G1 [G2 G3] G4 (Ka & A1 & A2) (Kx & X1 & X2) [Ha Hb] N _].
  apply Forall2_cons in G4 as [[G5 G6] G7]. pose proof (prv_is_Some _ _ _ G6) as Kb.
  assert (B2 : b ∉ l1 /\ b ∉ t).
  { apply nodup_mid. rewrite <- E2, (assoc_L (++)), <- Permutation_cons_append.
    assert (EP : q :: l1 ++ x :: l2 ≡ₚ x :: q :: l1 ++ l2) by solve_Permutation.
    rewrite EP in N. by apply NoDup_cons in N as [_ N]. }
  destruct B2 as [B1 B2]. apply not_elem_of_cons in A2 as [A2 A3], X2 as [X2 X3].
  unfold __list_del_entry, __list_del. repeat run. eexists. split; [reflexivity|].
  apply (repr_step h _ (<[q := l1 ++ x :: l2]> m) m _ k (x :: k) (k ++ x :: q :: l1 ++ l2)); try done.
  - assert (b ∈ q :: l2) by (assert (b ∈ l2 ++ [q]) by (rewrite E2; mem); mem). touch.
  - rewrite nodes_of_insert by done. solve_Permutation.
  - rewrite nodes_of_insert by done. solve_Permutation.
  - intros q' l H. rewrite lookup_insert_ne; [done|]. congruence.
  - intros q' l H. apply lookup_insert_Some in H as [[<- <-]|[_ H]]; [left|by right].
    apply (ring_open _ _ l1 l2 s a b t E1 E2). split_and!.
    + revert G1. apply links_ext; intros z Hz; by links.
    + split; by links.
    + revert G7. apply links_ext; intros z Hz; by links.
Qed.

Lemma loose_touched h h' m k x :
  repr h (Lists m (x :: k)) -> touched [x] h h' -> repr h' (Lists m (x :: k)).
Proof.
  intros R T. apply (repr_step h h' m m m (x :: k) (x :: k) (x :: k)); try done; [|by right].
  destruct T as [T1 T2]. split; [done|]. intros p Hp. apply T2. mem.
Qed.

Lemma loose_known h m k x : repr h (Lists m (x :: k)) -> is_Some (h !! x).
Proof. intros R. apply (repr_known _ _ _ R). cbn. left. Qed.

Lemma init_ok h m k x :
  repr h (Lists m (x :: k)) ->
  exists h', INIT_LIST_HEAD x h = Ret (tt, h') /\ repr h' (Lists (<[x := []]> m) k).
Proof.
  intros R. pose proof (loose_known _ _ _ _ R) as Kx. pose proof (repr_key_fresh _ _ _ _ R) as Hx.
  unfold INIT_LIST_HEAD. repeat run. eexists. split; [reflexivity|].
  apply (repr_step h _ m m _ (x :: k) k (x :: k)); try done.
  - touch.
  - rewrite nodes_of_insert by done. solve_Permutation.
  - intros q l H. apply lookup_insert_Some in H as [[<- <-]|[_ H]]; [left|by right].
    constructor; [|constructor]. split; by links.
Qed.

(** A list given up: its head and its nodes are on no list any more. *)
Lemma forget_ok h m k q l :
  m !! q = None -> repr h (Lists (<[q := l]> m) k) -> repr h (Lists m (q :: l ++ k)).
Proof.
  intros Hq R. apply (repr_step h h (<[q := l]> m) m m k _ (q :: l ++ k)); try done.
  - rewrite nodes_of_insert by done. solve_Permutation.
  - intros q' l' H. rewrite lookup_insert_ne; [done|]. congruence.
  - by right.
Qed.

Lemma repr_list_nodup h m k q l : m !! q = None -> repr h (Lists (<[q := l]> m) k) -> NoDup (q :: l).
Proof.
  intros Hq R. pose proof (rp_nodup _ _ R) as N. cbn in N. rewrite nodes_of_insert in N by done.
  apply NoDup_app in N as (_ & _ & N). rewrite app_comm_cons in N. by apply NoDup_app in N as (N & _).
Qed.

(** The ring of a list that is not empty. *)
Lemma ring_ends h p f w u z :
  f :: w = u ++ [z] ->
  ring h p (f :: w) <-> link h p f /\ Forall2 (link h) u w /\ link h z p.
Proof.
  intros E. rewrite (ring_open h p [] (f :: w) [] p f (w ++ [p]) eq_refl eq_refl), E.
  assert (L : length u = length w) by (apply (f_equal length) in E; rewrite length_app in E; cbn in E; lia).
  split.
  - intros (_ & H1 & H2). apply Forall2_app_inv in H2 as [H2 H3]; [|done].
    by apply Forall2_cons in H3 as [H3 _].
  - intros (H1 & H2 & H3). split; [constructor|split; [done|]]. apply Forall2_app; [done|].
    constructor; [done|constructor].
Qed.

Lemma splice_ok h m k p f w q l1 l2 s a b t :
  p <> q -> m !! p = None -> m !! q = None -> q :: l1 = s ++ [a] -> l2 ++ [q] = b :: t ->
  repr h (Lists (<[p := f :: w]> (<[q := l1 ++ l2]> m)) k) ->
  exists h', __list_splice p a b h = Ret (tt, h') /\
    repr h' (Lists (<[q := l1 ++ (f :: w) ++ l2]> m) (p :: k)).
Proof.
  intros Hpq Hp Hq E1 E2 R. pose proof R as R0. rewrite insert_insert_ne in R0 by done.
  pose proof (repr_opened _ _ _ _ _ _ _ _ _ _ ltac:(by rewrite lookup_insert_ne) E1 E2 R0)
    as [G1 G2 G4 (Ka & A1 & A2) (Kb & B1 & B2) [Ha Hb] N F].
  destruct (last_exists f w) as (u & z & E).
  pose proof (rp_rings _ _ R p (f :: w) (lookup_insert_eq _ _ _)) as Gp.
  apply (ring_ends _ _ _ _ u z E) in Gp as ([P1 P2] & P3 & [P4 P5]).
  assert (Hp' : <[q := l1 ++ l2]> m !! p = None) by (by rewrite lookup_insert_ne).
  pose proof (repr_list_nodup _ _ _ _ _ Hp' R) as Nw.
  assert (Fw : forall x, x ∈ p :: f :: w -> x ∈ k ++ nodes_of (<[p := f :: w]> m)).
  { intros x Hx. rewrite nodes_of_insert by done. mem. }
  destruct (F f) as (Kf & (F1 & F2 & F3) & (F4 & F5 & F6 & F7)); [apply Fw; mem|].
  destruct (F z) as (Kz & (Z1 & Z2 & Z3) & (Z4 & Z5 & Z6 & Z7)); [apply Fw; rewrite E; mem|].
  assert (Fu : forall x, x ∈ u \/ x ∈ w -> x <> a /\ x <> b).
  { intros x Hx. destruct (F x) as (_ & _ & ? & ? & _); [apply Fw; rewrite E in *|done].
    apply elem_of_cons. right. destruct Hx; [mem|]. rewrite <- E. by right. }
  clear F. apply NoDup_cons in Nw as [Np Nw]. pose proof Nw as Nz. rewrite E in Nz.
  apply NoDup_cons in Nw as [Nf _]. apply nodup_mid in Nz as [Nz _].
  destruct G2 as [G2 G3]. unfold __list_splice. repeat run. eexists. split; [reflexivity|].
  apply (repr_step h _ (<[p := f :: w]> (<[q := l1 ++ l2]> m)) m _ k (p :: k)
    (k ++ (p :: f :: w) ++ q :: l1 ++ l2)); try done.
  - assert (z ∈ f :: w) by (rewrite E; mem). touch.
  - rewrite !nodes_of_insert by (done || by rewrite lookup_insert_ne). solve_Permutation.
  - rewrite !nodes_of_insert by done. solve_Permutation.
  - intros q' l H. rewrite !lookup_insert_ne; congruence.
  - intros q' l H. apply lookup_insert_Some in H as [[<- <-]|[_ H]]; [left|by right].
    apply (ring_open _ _ l1 ((f :: w) ++ l2) s a f (w ++ b :: t) E1).
    { cbn. by rewrite <- (assoc_L (++)), E2. }
    split_and!.
    + revert G1. apply links_ext; intros x Hx; by links.
    + split; by links.
    + rewrite E, <- (assoc_L (++)). apply Forall2_app; [|constructor].
      * revert P3. apply links_ext; intros x Hx; destruct (Fu x) as [U1 U2]; auto; by links.
      * split; by links.
      * revert G4. apply links_ext; intros x Hx; by links.
Qed.

Lemma cut_ok h m k p q l1 e l2 :
  m !! q = None -> repr h (Lists (<[q := l1 ++ e :: l2]> m) (p :: k)) ->
  exists h', __list_cut_position p q e h = Ret (tt, h') /\
    repr h' (Lists (<[p := l1 ++ [e]]> (<[q := l2]> m)) k).
Proof.
  intros Hq R. pose proof (repr_key_fresh _ _ _ _ R) as Hp.
  assert (Hpq : p <> q) by (intros ->; by rewrite lookup_insert_eq in Hp).
  rewrite lookup_insert_ne in Hp by done.
  pose proof R as R0. rewrite (cons_middle e l1 l2), (assoc_L (++)) in R0.
  destruct (first_exists l1 e) as (f & w & E), (first_exists l2 q) as (b & t & E2).
  pose proof (repr_opened _ _ _ _ (l1 ++ [e]) l2 (q :: l1) e b t Hq eq_refl E2 R0)
    as [G1 [G2 G3] G4 (Ke & A1 & A2) (Kb & B1 & B2) [Ha Hb] N F].
  destruct (F p) as (Kp & (P1 & P2 & P3) & (P4 & P5 & P6 & P7)); [mem|]. clear F.
  rewrite E in G1, P2, B1, N. apply Forall2_cons in G1 as [[G5 G6] G7].
  pose proof (nxt_is_Some _ _ _ G5) as Kq. pose proof (prv_is_Some _ _ _ G6) as Kf.
  apply not_elem_of_cons in P2 as [P2 P8], B1 as [B1 B3], A1 as [A0 A1].
  apply NoDup_cons in N as [[N1 N2]%not_elem_of_app (N3 & N4 & _)%NoDup_app].
  apply not_elem_of_cons in N1 as [N0 N1]. apply NoDup_cons in N3 as [N3 _].
  assert (Ef : forall x, x ∈ l1 ++ [e] -> x ∈ f :: w) by (by rewrite E).
  assert (N5 : q ∉ l1).
  { intros Hx. assert (Hx' : q ∈ f :: w) by (apply Ef; mem). apply elem_of_cons in Hx' as [?|?]; done. }
  unfold __list_cut_position. repeat run. eexists. split; [reflexivity|].
  apply (repr_step h _ (<[q := l1 ++ e :: l2]> m) m _ (p :: k) k (k ++ p :: q :: l1 ++ e :: l2)); try done.
  - assert (f ∈ q :: l1 ++ e :: l2) by (assert (f ∈ l1 ++ [e]) by (rewrite E; mem); mem). touch.
  - rewrite nodes_of_insert by done. solve_Permutation.
  - rewrite !nodes_of_insert by (done || by rewrite lookup_insert_ne). solve_Permutation.
  - intros q' l H. rewrite lookup_insert_ne; [done|]. congruence.
  - apply not_elem_of_cons in P6 as [_ P6].
    intros q' l H. apply lookup_insert_Some in H as [[<- <-]|[_ H]]; [left|].
    + rewrite E. apply (ring_ends _ _ _ _ l1 e (eq_sym E)). split_and!; [split; by links| |split; by links].
      revert G7. apply links_ext; intros x Hx; [by links|].
      assert (x <> b) by (by intros ->). by links.
    + apply lookup_insert_Some in H as [[<- <-]|[_ H]]; [left|by right].
      apply (ring_open _ _ [] l2 [] q b t eq_refl E2). split_and!; [constructor|split; by links|].
      revert G4. apply links_ext; intros x Hx; [by links|].
      assert (x <> f); [|by links]. intros ->. assert (Hf : f ∈ l2 ++ [q]) by (rewrite E2; by right).
      apply elem_of_app in Hf as [Hf|Hf%list_elem_of_singleton]; [|done]. apply (N4 f); [left|done].
Qed.

Lemma replace_ok h m k o n l :
  m !! o = None -> repr h (Lists (<[o := l]> m) (n :: k)) ->
  exists h', list_replace o n h = Ret (tt, h') /\ repr h' (Lists (<[n := l]> m) (o :: k)).
Proof.
  intros Ho R. pose proof (repr_key_fresh _ _ _ _ R) as Hn. pose proof (loose_known _ _ _ _ R) as Kn.
  assert (Hno : n <> o) by (intros ->; by rewrite lookup_insert_eq in Hn).
  rewrite lookup_insert_ne in Hn by done.
  pose proof (rp_rings _ _ R o l (lookup_insert_eq _ _ _)) as G.
  assert (exists h', list_replace o n h = Ret (tt, h') /\ touched (n :: o :: l) h h' /\ ring h' n l)
    as (h' & E & T & G').
  { destruct l as [|f w].
    - apply Forall2_cons in G as [[G1 G2] _]. pose proof (nxt_is_Some _ _ _ G1) as Ko.
      unfold list_replace. repeat run. eexists. split_and!; [reflexivity|touch|].
      constructor; [|constructor]. split; by links.
    - destruct (last_exists f w) as (u & z & E).
      destruct (proj1 (ring_ends _ _ _ _ u z E) G) as ([P1 P2] & P3 & [P4 P5]).
      pose proof (nxt_is_Some _ _ _ P1) as Ko. pose proof (prv_is_Some _ _ _ P2) as Kf.
      pose proof (nxt_is_Some _ _ _ P4) as Kz.
      pose proof (repr_list_nodup _ _ _ _ _ Ho R) as [[No1 No2]%not_elem_of_cons N]%NoDup_cons.
      assert (Nn : n ∉ f :: w).
      { pose proof (rp_nodup _ _ R) as N'. cbn in N'. rewrite nodes_of_insert in N' by done.
        apply NoDup_cons in N' as [N' _]. mem. }
      pose proof Nn as Nn'. rewrite E in Nn'.
      apply not_elem_of_app in Nn' as [Nu [Nz _]%not_elem_of_cons].
      apply not_elem_of_cons in Nn as [Nf Nw].
      pose proof N as N'. rewrite E in N'. apply nodup_mid in N' as [Nz' _]. apply NoDup_cons in N as [Nf' _].
      assert (Hz : z ∈ f :: w) by (rewrite E; mem). assert (Hoz : o <> z) by (intros <-; mem).
      unfold list_replace. repeat run. eexists. split_and!; [reflexivity|touch|].
      apply (ring_ends _ _ _ _ u z E). split_and!; [split; by links| |split; by links].
      revert P3. apply links_ext; intros x Hx; by links. }
  exists h'. split; [done|].
  apply (repr_step h _ (<[o := l]> m) m _ (n :: k) (o :: k) (n :: o :: l ++ k)); try done.
  - destruct T as [T1 T2]. split; [done|]. intros x Hx. apply T2. mem.
  - rewrite nodes_of_insert by done. solve_Permutation.
  - rewrite nodes_of_insert by done. solve_Permutation.
  - intros q' l' H. rewrite lookup_insert_ne; [done|]. congruence.
  - intros q' l' H. apply lookup_insert_Some in H as [[<- <-]|[_ H]]; [by left|by right].
Qed.
End Primitives.
