(* ===== verification/ListRefine.v ===== *)
(** * ListRefine: the operations of [spy_list.h] on lists

    The store-by-store operations of [LinkedList] against the operations on lists
    that the models of the other components use, for any sequence of operations on
    any number of lists, and the loops over a list. *)

From S2P Require Import Prelude LinkedList.

(** ** The lists the other components use

    The operations on the lists themselves.  [None] where the C operation is
    not meant to be called: adding a node that is on a list, deleting one that is
    on none. *)

Section Abstract.
Implicit Types (a : lists_t) (p q x e : Z) (l : list Z).

Definition put q l a : lists_t := Lists (<[q := l]> (lists a)) (loose a).

(** A node on no list, or the head of an empty one, is free to be used. *)
Definition take_free x a : option lists_t :=
  if decide (x ∈ loose a) then Some (Lists (lists a) (filter (.≠ x) (loose a)))
  else match lists a !! x with
       | Some [] => Some (Lists (delete x (lists a)) (loose a))
       | _ => None
       end.

(** The node leaves the list that holds it. *)
Definition take_out x a : option lists_t :=
  if decide (map_Exists (fun _ l => x ∈ l) (lists a))
  then Some (Lists (filter (.≠ x) <$> lists a) (loose a)) else None.

Fixpoint cut_after e l : list Z * list Z :=
  match l with
  | [] => ([], [])
  | x :: l => if decide (x = e) then ([x], l) else let '(u, w) := cut_after e l in (x :: u, w)
  end.

Inductive list_op : Set :=
| Op_INIT_LIST_HEAD (list : Z)
| Op_list_add (new head : Z)
| Op_list_add_tail (new head : Z)
| Op_list_del (entry : Z)
| Op_list_replace_init (old new : Z)
| Op_list_del_init (entry : Z)
| Op_list_move (list head : Z)
| Op_list_move_tail (list head : Z)
| Op_list_rotate_left (head : Z)
| Op_list_cut_position (list head entry : Z)
| Op_list_splice (list head : Z)
| Op_list_splice_tail (list head : Z)
| Op_list_splice_init (list head : Z)
| Op_list_splice_tail_init (list head : Z).

Definition run_op (o : list_op) : prog lheap unit :=
  match o with
  | Op_INIT_LIST_HEAD p => INIT_LIST_HEAD p
  | Op_list_add x q => list_add x q
  | Op_list_add_tail x q => list_add_tail x q
  | Op_list_del x => list_del x
  | Op_list_replace_init p q => list_replace_init p q
  | Op_list_del_init x => list_del_init x
  | Op_list_move x q => list_move x q
  | Op_list_move_tail x q => list_move_tail x q
  | Op_list_rotate_left q => list_rotate_left q
  | Op_list_cut_position p q e => list_cut_position p q e
  | Op_list_splice p q => list_splice p q
  | Op_list_splice_tail p q => list_splice_tail p q
  | Op_list_splice_init p q => list_splice_init p q
  | Op_list_splice_tail_init p q => list_splice_tail_init p q
  end.

(** The two lists of a splice, which must be different. *)
Definition both p q a : option (list Z * list Z) :=
  if decide (p = q) then None
  else match lists a !! p, lists a !! q with Some l, Some l' => Some (l, l') | _, _ => None end.

(** After a splice without [_init] the head of the other list is on no list. *)
Definition drop_head p l a : lists_t :=
  match l with [] => a | _ => Lists (delete p (lists a)) (p :: loose a) end.

Definition abs_op (o : list_op) a : option lists_t :=
  match o with
  | Op_INIT_LIST_HEAD p => a ← take_free p a; Some (put p [] a)
  | Op_list_add x q => a ← take_free x a; l ← lists a !! q; Some (put q (x :: l) a)
  | Op_list_add_tail x q => a ← take_free x a; l ← lists a !! q; Some (put q (l ++ [x]) a)
  | Op_list_del x => a ← take_out x a; Some (Lists (lists a) (x :: loose a))
  | Op_list_replace_init p q => a ← take_free q a; l ← lists a !! p; Some (put p [] (put q l a))
  | Op_list_del_init x => a ← take_out x a; Some (put x [] a)
  | Op_list_move x q => a ← take_out x a; l ← lists a !! q; Some (put q (x :: l) a)
  | Op_list_move_tail x q => a ← take_out x a; l ← lists a !! q; Some (put q (l ++ [x]) a)
  | Op_list_rotate_left q =>
      l ← lists a !! q; Some (match l with [] => a | x :: l => put q (l ++ [x]) a end)
  | Op_list_cut_position p q e =>
      a ← take_free p a;
      l ← lists a !! q;
      if decide (e = q) then (match l with [] => None | _ => Some (put p [] a) end)
      else if decide (e ∈ l) then let '(u, w) := cut_after e l in Some (put p u (put q w a))
      else None
  | Op_list_splice p q => '(l, l') ← both p q a; Some (drop_head p l (put q (l ++ l') a))
  | Op_list_splice_tail p q => '(l, l') ← both p q a; Some (drop_head p l (put q (l' ++ l) a))
  | Op_list_splice_init p q => '(l, l') ← both p q a; Some (put p [] (put q (l ++ l') a))
  | Op_list_splice_tail_init p q => '(l, l') ← both p q a; Some (put p [] (put q (l' ++ l) a))
  end.

End Abstract.

Section Refine.
Implicit Types (h : lheap) (a : lists_t) (p q x e : Z) (l : list Z) (m : gmap Z (list Z)).

Lemma filter_ne_id x l : x ∉ l -> filter (.≠ x) l = l.
Proof.
  intros H. induction l as [|y l IH]; [done|]. apply not_elem_of_cons in H as [H1 H2].
  rewrite filter_cons_True by done. by rewrite IH.
Qed.
Lemma filter_ne_mid x l1 l2 : NoDup (l1 ++ x :: l2) -> filter (.≠ x) (l1 ++ x :: l2) = l1 ++ l2.
Proof.
  intros [H1 H2]%nodup_mid. rewrite filter_app, filter_cons_False by naive_solver. by rewrite !filter_ne_id.
Qed.
Lemma filter_ne_perm x l : NoDup l -> x ∈ l -> l ≡ₚ x :: filter (.≠ x) l.
Proof. intros N (l1 & l2 & ->)%list_elem_of_split. rewrite filter_ne_mid by done. solve_Permutation. Qed.

Lemma focus m q l : m !! q = Some l -> m = <[q := l]> (delete q m).
Proof. intros H. by rewrite insert_delete_id. Qed.
Lemma put_focus q l' a :
  put q l' a = Lists (<[q := l']> (delete q (lists a))) (loose a).
Proof. unfold put. by rewrite insert_delete_eq. Qed.

Lemma take_free_ok h x a a' :
  repr h a -> take_free x a = Some a' -> repr h (Lists (lists a') (x :: loose a')).
Proof.
  destruct a as [m k]. unfold take_free. cbn. intros R H. case_decide as Hx.
  - injection H as <-. cbn. pose proof (rp_nodup _ _ R) as (N & _)%NoDup_app. cbn in N.
    revert R. by apply repr_perm, filter_ne_perm.
  - destruct (m !! x) as [[|]|] eqn:E; try done. injection H as <-. cbn.
    rewrite (focus _ _ _ E) in R. apply forget_ok in R; [done|]. by rewrite lookup_delete_eq.
Qed.

Lemma repr_nodup h a q l : repr h a -> lists a !! q = Some l -> NoDup (q :: l).
Proof.
  intros R Hq. destruct a as [m k]. cbn in Hq. rewrite (focus _ _ _ Hq) in R.
  eapply repr_list_nodup; [|done]. by rewrite lookup_delete_eq.
Qed.

(** Different lists have no node in common. *)
Lemma repr_disjoint h a q l i l' x :
  repr h a -> lists a !! q = Some l -> lists a !! i = Some l' -> q <> i -> x ∈ l -> x ∉ l'.
Proof.
  intros R Hq Hi Hne Hx Hx'. pose proof (rp_nodup _ _ R) as ND.
  rewrite (focus _ _ _ Hq), nodes_of_insert in ND by (by rewrite lookup_delete_eq).
  apply NoDup_app in ND as (_ & _ & ND). rewrite app_comm_cons in ND. apply NoDup_app in ND as (_ & ND & _).
  apply (ND x); [by right|]. apply (nodes_of_in _ i l'); [by rewrite lookup_delete_ne|by right].
Qed.

Lemma take_out_lists h a q l1 x l2 :
  repr h a -> lists a !! q = Some (l1 ++ x :: l2) ->
  take_out x a = Some (put q (l1 ++ l2) a).
Proof.
  intros R Hq. unfold take_out, put. rewrite decide_True by (exists q, (l1 ++ x :: l2); split; [done|mem]).
  do 2 f_equal. pose proof (repr_nodup _ _ _ _ R Hq) as [_ N]%NoDup_cons.
  apply map_eq. intros i. rewrite lookup_fmap. destruct (decide (q = i)) as [<-|Hi].
  { rewrite lookup_insert_eq, Hq. cbn. by rewrite filter_ne_mid. }
  rewrite lookup_insert_ne by done. destruct (lists a !! i) as [l|] eqn:E; [|done]. cbn.
  rewrite filter_ne_id; [done|]. eapply repr_disjoint; [done|exact Hq|done..|mem].
Qed.

Lemma take_out_ok h x a a' :
  repr h a -> take_out x a = Some a' ->
  exists h', __list_del_entry x h = Ret (tt, h') /\ repr h' (Lists (lists a') (x :: loose a')).
Proof.
  intros R H. assert (Hx : map_Exists (fun _ l => x ∈ l) (lists a)) by (unfold take_out in H; by case_decide).
  destruct Hx as (q & l & Hq & (l1 & l2 & ->)%list_elem_of_split).
  rewrite (take_out_lists _ _ _ _ _ _ R Hq) in H. injection H as <-. rewrite put_focus. cbn.
  apply del_entry_ok; [by rewrite lookup_delete_eq|]. rewrite <- (focus _ _ _ Hq). by destruct a.
Qed.

Lemma head_next h a q l b t : repr h a -> lists a !! q = Some l -> l ++ [q] = b :: t -> nxt h q = Some b.
Proof.
  intros R Hq E. pose proof (rp_rings _ _ R _ _ Hq) as G. unfold ring in G. rewrite E in G.
  apply Forall2_cons in G as [[G _] _]. done.
Qed.
Lemma head_prev h a q l s z : repr h a -> lists a !! q = Some l -> q :: l = s ++ [z] -> prv h q = Some z.
Proof.
  intros R Hq E. pose proof (rp_rings _ _ R _ _ Hq) as G. unfold ring in G. rewrite E in G.
  apply Forall2_app_inv in G as [_ G].
  - apply Forall2_cons in G as [[_ G] _]. done.
  - apply (f_equal length) in E. rewrite length_app in E. cbn in E. lia.
Qed.

Lemma add_ok h a q l x :
  repr h (Lists (lists a) (x :: loose a)) -> lists a !! q = Some l ->
  exists h', list_add x q h = Ret (tt, h') /\ repr h' (put q (x :: l) a).
Proof.
  intros R Hq. destruct (first_exists l q) as (b & t & E). unfold list_add.
  rewrite (run_bind _ _ _ _ _ (get_next_ok _ _ _ (head_next _ _ _ _ _ _ R Hq E))), put_focus.
  apply (insert_ok _ _ _ q [] l [] q b t); [by rewrite lookup_delete_eq|done..|].
  by rewrite app_nil_l, <- (focus _ _ _ Hq).
Qed.

Lemma add_tail_ok h a q l x :
  repr h (Lists (lists a) (x :: loose a)) -> lists a !! q = Some l ->
  exists h', list_add_tail x q h = Ret (tt, h') /\ repr h' (put q (l ++ [x]) a).
Proof.
  intros R Hq. destruct (last_exists q l) as (s & z & E). unfold list_add_tail.
  rewrite (run_bind _ _ _ _ _ (get_prev_ok _ _ _ (head_prev _ _ _ _ _ _ R Hq E))), put_focus.
  apply (insert_ok _ _ _ q l [] s z q []); [by rewrite lookup_delete_eq|done..|].
  rewrite app_nil_r. by rewrite <- (focus _ _ _ Hq).
Qed.

Lemma list_empty_ok h a q l :
  repr h a -> lists a !! q = Some l -> list_empty q h = Ret (bool_decide (l = []), h).
Proof.
  intros R Hq. destruct (first_exists l q) as (b & t & E). unfold list_empty.
  rewrite (run_bind _ _ _ _ _ (get_next_ok _ _ _ (head_next _ _ _ _ _ _ R Hq E))). unfold mret, prog_ret. do 2 f_equal.
  destruct l as [|y l]; injection E as <- <-; [by rewrite Z.eqb_refl|].
  apply Z.eqb_neq. intros ->. pose proof (repr_nodup _ _ _ _ R Hq) as [N _]%NoDup_cons. apply N. left.
Qed.

(** *** The other operations *)

Lemma list_del_entry h x :
  list_del x h = (__list_del_entry x ≫= fun _ =>
    set_next x LIST_POISON1 ≫= fun _ => set_prev x LIST_POISON2) h.
Proof.
  unfold list_del, __list_del_entry, mbind, prog_bind.
  destruct (get_prev x h) as [[? ?]| | | |]; try done. by destruct (get_next x _) as [[? ?]| | | |].
Qed.

Lemma list_del_ok h a a' x :
  repr h a -> take_out x a = Some a' ->
  exists h', list_del x h = Ret (tt, h') /\ repr h' (Lists (lists a') (x :: loose a')).
Proof.
  intros R H. destruct (take_out_ok _ _ _ _ R H) as (h1 & E & R1). rewrite list_del_entry, (run_bind _ _ _ _ _ E).
  pose proof (loose_known _ _ _ _ R1) as Kx. repeat run. eexists. split; [done|].
  eapply loose_touched; [done|]. touch.
Qed.

Lemma focus2 m p q l l' :
  p <> q -> m !! p = Some l -> m !! q = Some l' -> m = <[p := l]> (<[q := l']> (delete q (delete p m))).
Proof.
  intros Hpq Hp Hq. rewrite (focus _ _ _ Hp) at 1. f_equal. apply focus. by rewrite lookup_delete_ne.
Qed.

(** The splices, at either end of the list [l1 ++ l2]. *)
Lemma splice_at h a p f w q l1 l2 s b c t :
  repr h a -> p <> q -> lists a !! p = Some (f :: w) -> lists a !! q = Some (l1 ++ l2) ->
  q :: l1 = s ++ [b] -> l2 ++ [q] = c :: t ->
  exists h', __list_splice p b c h = Ret (tt, h') /\
    repr h' (drop_head p (f :: w) (put q (l1 ++ (f :: w) ++ l2) a)).
Proof.
  intros R Hpq Hp Hq E1 E2. unfold drop_head. cbn. rewrite delete_insert_ne by done.
  rewrite <- (insert_delete_eq (delete p (lists a))).
  apply (splice_ok _ _ _ p f w q l1 l2 s b c t); [done|..|done|done|].
  - by rewrite lookup_delete_ne, lookup_delete_eq.
  - by rewrite lookup_delete_eq.
  - rewrite <- (focus2 _ _ _ _ _ Hpq Hp Hq). by destruct a.
Qed.

Lemma init_after h p l x w a :
  l = x :: w -> repr h (drop_head p l a) ->
  exists h', INIT_LIST_HEAD p h = Ret (tt, h') /\ repr h' (put p [] a).
Proof. intros -> R. apply init_ok in R. unfold put. by rewrite insert_delete_eq in R. Qed.

Lemma list_is_singular_ok h a q l :
  repr h a -> lists a !! q = Some l -> list_is_singular q h = Ret (bool_decide (length l = 1%nat), h).
Proof.
  intros R Hq. unfold list_is_singular. rewrite (run_bind _ _ _ _ _ (list_empty_ok _ _ _ _ R Hq)).
  destruct l as [|f w]; [done|]. cbn. destruct (last_exists f w) as (u & z & E).
  rewrite (run_bind _ _ _ _ _ (get_next_ok _ _ _ (head_next _ _ _ _ f _ R Hq eq_refl))).
  rewrite (run_bind _ _ _ _ _ (get_prev_ok _ _ _ (head_prev _ _ _ _ (q :: u) z R Hq ltac:(by rewrite E)))).
  unfold mret, prog_ret. do 2 f_equal. pose proof (repr_nodup _ _ _ _ R Hq) as [_ N]%NoDup_cons.
  destruct w as [|g w].
  { destruct u as [|? [|]]; [injection E as ->; by rewrite Z.eqb_refl|done..]. }
  rewrite bool_decide_eq_false_2 by (cbn; lia). apply Z.eqb_neq. intros ->.
  destruct u as [|? u]; [done|]. injection E as -> E. apply NoDup_cons in N as [N _]. apply N. rewrite E. mem.
Qed.

Lemma cut_after_split e l : e ∈ l -> exists l1 l2, l = l1 ++ e :: l2 /\ cut_after e l = (l1 ++ [e], l2).
Proof.
  induction l as [|x l IH]; intros H; [by apply not_elem_of_nil in H|]. cbn. case_decide as Hx.
  - subst. by exists [], l.
  - apply elem_of_cons in H as [->|H]; [done|]. destruct (IH H) as (l1 & l2 & -> & ->). by exists (x :: l1), l2.
Qed.

Lemma cut_position_ok h a p q l e a' :
  repr h (Lists (lists a) (p :: loose a)) -> lists a !! q = Some l ->
  (if decide (e = q) then (match l with [] => None | _ => Some (put p [] a) end)
   else if decide (e ∈ l) then let '(u, w) := cut_after e l in Some (put p u (put q w a)) else None) = Some a' ->
  exists h', list_cut_position p q e h = Ret (tt, h') /\ repr h' a'.
Proof.
  intros R Hq H. unfold list_cut_position. rewrite (run_bind _ _ _ _ _ (list_empty_ok _ _ _ _ R Hq)).
  destruct l as [|f w].
  { case_decide; [done|]. case_decide as Hin; [|done]. by apply not_elem_of_nil in Hin. }
  rewrite bool_decide_eq_false_2 by done. cbv beta iota.
  rewrite (run_bind _ _ _ _ _ (list_is_singular_ok _ _ _ _ R Hq)).
  rewrite (run_bind _ _ _ _ _ (get_next_ok _ _ _ (head_next _ _ _ _ f _ R Hq eq_refl))).
  case_decide as He.
  { injection H as <-. subst e. rewrite Z.eqb_refl, !andb_false_r. by apply init_ok. }
  case_decide as Hin; [|done]. destruct (cut_after_split _ _ Hin) as (l1 & l2 & E & Ec). rewrite Ec in H.
  injection H as <-. rewrite (proj2 (Z.eqb_neq e q)) by done.
  replace (_ && _) with false.
  - unfold put. cbn. rewrite <- (insert_delete_eq (lists a) q). apply cut_ok; [by rewrite lookup_delete_eq|].
    rewrite <- E. by rewrite <- (focus _ _ _ Hq).
  - destruct w as [|g w]; [|done]. cbn in Hin. apply list_elem_of_singleton in Hin as ->. by rewrite Z.eqb_refl.
Qed.

Lemma both_inv p q a l l' :
  both p q a = Some (l, l') -> p <> q /\ lists a !! p = Some l /\ lists a !! q = Some l'.
Proof.
  unfold both. intros H. case_decide; [done|]. destruct (lists a !! p), (lists a !! q); try done. by simplify_eq.
Qed.

Lemma put_id p l a : lists a !! p = Some l -> put p l a = a.
Proof. intros H. unfold put. rewrite insert_id by done. by destruct a. Qed.

Lemma splice_refines (init : bool) h p q l l' a :
  repr h a -> both p q a = Some (l, l') ->
  let a' := put q (l ++ l') a in
  exists h', (if init then list_splice_init p q else list_splice p q) h = Ret (tt, h') /\
    repr h' (if init then put p [] a' else drop_head p l a').
Proof.
  intros R (Hpq & Hp & Hq)%both_inv. destruct (first_exists l' q) as (c & t & E2).
  pose proof (head_next _ _ _ _ _ _ R Hq E2) as Hc. cbn zeta.
  assert (H : forall A (f : bool -> prog lheap A), (list_empty p ≫= f) h = f (bool_decide (l = [])) h)
    by (intros; exact (run_bind _ _ _ _ _ (list_empty_ok _ _ _ _ R Hp))).
  destruct l as [|f w].
  - exists h. split; [destruct init; apply H|]. cbn. rewrite (put_id q) by done.
    destruct init; [by rewrite put_id|done].
  - destruct (splice_at _ _ p f w q [] l' [] q c t R Hpq Hp Hq eq_refl E2) as (h1 & E & R1).
    destruct (init_after _ _ _ f w _ eq_refl R1) as (h2 & E' & R2).
    destruct init; [exists h2|exists h1]; (split; [|done]); [unfold list_splice_init|unfold list_splice];
      rewrite H; cbn; rewrite (run_bind _ _ _ _ _ (get_next_ok _ _ _ Hc)); [|done].
    by rewrite (run_bind _ _ _ _ _ E).
Qed.

Lemma splice_tail_refines (init : bool) h p q l l' a :
  repr h a -> both p q a = Some (l, l') ->
  let a' := put q (l' ++ l) a in
  exists h', (if init then list_splice_tail_init p q else list_splice_tail p q) h = Ret (tt, h') /\
    repr h' (if init then put p [] a' else drop_head p l a').
Proof.
  intros R (Hpq & Hp & Hq)%both_inv. destruct (last_exists q l') as (s & b & E1).
  pose proof (head_prev _ _ _ _ _ _ R Hq E1) as Hb. cbn zeta.
  assert (H : forall A (f : bool -> prog lheap A), (list_empty p ≫= f) h = f (bool_decide (l = [])) h)
    by (intros; exact (run_bind _ _ _ _ _ (list_empty_ok _ _ _ _ R Hp))).
  destruct l as [|f w].
  - exists h. split; [destruct init; apply H|]. rewrite app_nil_r, (put_id q) by done.
    destruct init; [by rewrite put_id|done].
  - rewrite <- (app_nil_r l') in Hq.
    destruct (splice_at _ _ p f w q l' [] s b q [] R Hpq Hp Hq E1 eq_refl) as (h1 & E & R1).
    rewrite app_nil_r in R1. destruct (init_after _ _ _ f w _ eq_refl R1) as (h2 & E' & R2).
    destruct init; [exists h2|exists h1]; (split; [|done]); [unfold list_splice_tail_init|unfold list_splice_tail];
      rewrite H; cbn; rewrite (run_bind _ _ _ _ _ (get_prev_ok _ _ _ Hb)); [|done].
    by rewrite (run_bind _ _ _ _ _ E).
Qed.

Lemma replace_refines h a p q l :
  repr h (Lists (lists a) (q :: loose a)) -> lists a !! p = Some l ->
  exists h', list_replace_init p q h = Ret (tt, h') /\ repr h' (put p [] (put q l a)).
Proof.
  intros R Hp. destruct (replace_ok h (delete p (lists a)) (loose a) p q l) as (h1 & E & R1);
    [by rewrite lookup_delete_eq|by rewrite <- (focus _ _ _ Hp)|].
  unfold list_replace_init. rewrite (run_bind _ _ _ _ _ E). apply init_ok in R1 as (h2 & E2 & R2).
  exists h2. split; [done|]. unfold put. cbn.
  pose proof (repr_key_fresh _ _ _ _ R) as Hf. cbn in Hf. assert (p <> q) by congruence.
  rewrite insert_insert_ne in R2 |- * by done. by rewrite insert_delete_eq in R2.
Qed.

Lemma rotate_refines h a q l :
  repr h a -> lists a !! q = Some l ->
  exists h', list_rotate_left q h = Ret (tt, h') /\
    repr h' (match l with [] => a | x :: l => put q (l ++ [x]) a end).
Proof.
  intros R Hq. unfold list_rotate_left. rewrite (run_bind _ _ _ _ _ (list_empty_ok _ _ _ _ R Hq)).
  destruct l as [|x l]; [by exists h|]. cbn.
  rewrite (run_bind _ _ _ _ _ (get_next_ok _ _ _ (head_next _ _ _ _ x _ R Hq eq_refl))).
  pose proof (take_out_lists _ _ _ [] _ _ R Hq) as Ha. unfold list_move_tail.
  destruct (take_out_ok _ _ _ _ R Ha) as (h1 & E & R1). rewrite (run_bind _ _ _ _ _ E). cbn [app] in R1.
  apply (add_tail_ok _ (put q l a) q l) in R1 as (h2 & E2 & R2); [|cbn; by rewrite lookup_insert_eq].
  exists h2. split; [done|]. unfold put in *. cbn in R2. by rewrite insert_insert_eq in R2.
Qed.

(** Taking a node out, then an operation on the node that is now on no list. *)
Lemma after_take_out (f : prog lheap unit) h x a a1 a' :
  repr h a -> take_out x a = Some a1 ->
  (forall h1, repr h1 (Lists (lists a1) (x :: loose a1)) -> exists h', f h1 = Ret (tt, h') /\ repr h' a') ->
  exists h', (__list_del_entry x ≫= fun _ => f) h = Ret (tt, h') /\ repr h' a'.
Proof.
  intros R Ha H. destruct (take_out_ok _ _ _ _ R Ha) as (h1 & E & R1). rewrite (run_bind _ _ _ _ _ E). by apply H.
Qed.

Lemma list_op_refines o h a a' :
  repr h a -> abs_op o a = Some a' -> exists h', run_op o h = Ret (tt, h') /\ repr h' a'.
Proof.
  intros R H. destruct o as [p|x q|x q|x|p q|x|x q|x q|q|p q e|p q|p q|p q|p q]; cbn [abs_op run_op] in *.
  (* the node comes from no list *)
  1-3, 5, 10: apply bind_Some in H as (a1 & Ha & H); pose proof (take_free_ok _ _ _ _ R Ha) as R1.
  2-5: apply bind_Some in H as (l & Hq & H).
  1-4: injection H as <-.
  - by apply init_ok.
  - by apply add_ok.
  - by apply add_tail_ok.
  - by apply replace_refines.
  - by eapply cut_position_ok.
  (* the node leaves a list *)
  - apply bind_Some in H as (a1 & Ha & H). injection H as <-. by eapply list_del_ok.
  - apply bind_Some in H as (a1 & Ha & H). injection H as <-.
    eapply after_take_out; [done..|]. intros h1. apply init_ok.
  - apply bind_Some in H as (a1 & Ha & H). apply bind_Some in H as (l & Hq & H). injection H as <-.
    eapply after_take_out; [done..|]. intros h1 R1. by apply add_ok.
  - apply bind_Some in H as (a1 & Ha & H). apply bind_Some in H as (l & Hq & H). injection H as <-.
    eapply after_take_out; [done..|]. intros h1 R1. by apply add_tail_ok.
  - apply bind_Some in H as (l & Hq & H). injection H as <-. by apply rotate_refines.
  (* whole lists *)
  - apply bind_Some in H as ([l l'] & Hb & H). injection H as <-. by apply (splice_refines false).
  - apply bind_Some in H as ([l l'] & Hb & H). injection H as <-. by apply (splice_tail_refines false).
  - apply bind_Some in H as ([l l'] & Hb & H). injection H as <-. by apply (splice_refines true).
  - apply bind_Some in H as ([l l'] & Hb & H). injection H as <-. by apply (splice_tail_refines true).
Qed.
End Refine.

(** ** Loops over a list *)

Section Loops.
Context {V : Type}.
Implicit Types (h : lheap) (a : lists_t) (q x : Z) (l : list Z) (v : V) (body : Z -> prog (lheap * V) bool).

(** The structures a list links, in the order of the list. *)
Definition entries (member : Z) l : list Z := (fun n => list_entry n member) <$> l.

(** A loop over the elements of a list, until one of them ends it. *)
Fixpoint visit (g : Z -> V -> bool * V) l v : V :=
  match l with
  | [] => v
  | x :: l => let '(stop, v) := g x v in if stop : bool then v else visit g l v
  end.

(** The body [g] of a loop reads and writes variables only. *)
Definition reads (g : Z -> V -> bool * V) : Z -> prog (lheap * V) bool := fun x '(h, v) =>
  Ret ((g x v).1, (h, (g x v).2)).

Lemma node_next h a q l1 x l2 b t :
  repr h a -> lists a !! q = Some (l1 ++ x :: l2) -> l2 ++ [q] = b :: t -> nxt h x = Some b.
Proof.
  intros R Hq E. pose proof (rp_rings _ _ R _ _ Hq) as G. destruct (last_exists q l1) as (s & z & E1).
  rewrite (ring_open _ _ l1 (x :: l2) s z x (b :: t) E1) in G by (cbn; by rewrite E).
  destruct G as (_ & _ & G).
  apply Forall2_cons in G as [[G _] _]. done.
Qed.
Lemma node_prev h a q l1 x l2 s z :
  repr h a -> lists a !! q = Some (l1 ++ x :: l2) -> q :: l1 = s ++ [z] -> prv h x = Some z.
Proof.
  intros R Hq E. pose proof (rp_rings _ _ R _ _ Hq) as G.
  rewrite (ring_open _ _ l1 (x :: l2) s z x (l2 ++ [q]) E eq_refl) in G. apply G.
Qed.
Lemma node_not_head h a q l x : repr h a -> lists a !! q = Some l -> x ∈ l -> x <> q.
Proof. intros R Hq Hx ->. pose proof (repr_nodup _ _ _ _ R Hq) as [N _]%NoDup_cons. done. Qed.

(** The node after the first one of a suffix, which may be the head. *)
Lemma following h a q l1 l2 c t :
  repr h a -> lists a !! q = Some (l1 ++ l2) -> l2 ++ [q] = c :: t ->
  exists n, nxt h c = Some n /\ (forall x l d u, l2 = x :: l -> l ++ [q] = d :: u -> n = d).
Proof.
  intros R Hq E. destruct l2 as [|x l2].
  - injection E as <- <-. destruct (first_exists (l1 ++ []) q) as (d & u & E).
    exists d. split; [by eapply head_next|done].
  - injection E as <- <-. destruct (first_exists l2 q) as (d & u & E). exists d.
    split; [by eapply node_next|]. intros y l d' u' [= <- <-]. rewrite E. by intros [= <- _].
Qed.

Lemma run_on_heap {A} (c : prog lheap A) h v r h' :
  c h = Ret (r, h') -> on_heap c (h, v) = Ret (r, (h', v)).
Proof. intros E. unfold on_heap. by rewrite E. Qed.
Lemma next_entry_ok h pos member n :
  nxt h pos = Some n -> list_next_entry (list_entry pos member) member h = Ret (list_entry n member, h).
Proof.
  intros E. unfold list_next_entry, list_entry, container_of. rewrite Z.sub_add.
  by rewrite (run_bind _ _ _ _ _ (get_next_ok _ _ _ E)).
Qed.
Lemma prev_entry_ok h pos member n :
  prv h pos = Some n -> list_prev_entry (list_entry pos member) member h = Ret (list_entry n member, h).
Proof.
  intros E. unfold list_prev_entry, list_entry, container_of. rewrite Z.sub_add.
  by rewrite (run_bind _ _ _ _ _ (get_prev_ok _ _ _ E)).
Qed.
Lemma at_entry x member q : (list_entry x member + member =? q) = (x =? q).
Proof. unfold list_entry, container_of. by rewrite Z.sub_add. Qed.

Lemma for_each_next_ok member g h a q fuel l1 l2 b t v :
  repr h a -> lists a !! q = Some (l1 ++ l2) -> (length l2 <= fuel)%nat -> l2 ++ [q] = b :: t ->
  for_each_from member q (reads g) list_next_entry fuel (list_entry b member) (h, v)
  = Ret (tt, (h, visit g (entries member l2) v)).
Proof.
  intros R. revert fuel l1 b t v. induction l2 as [|x l2 IH]; intros fuel l1 b t v Hq Hf E.
  - injection E as <- <-. destruct fuel; cbn -[list_entry]; by rewrite at_entry, Z.eqb_refl.
  - injection E as <- <-. destruct fuel as [|fuel]; [cbn in Hf; lia|]. cbn -[list_entry].
    rewrite at_entry, (proj2 (Z.eqb_neq x q)) by (eapply node_not_head; [done..|mem]).
    destruct (first_exists l2 q) as (c & t' & E'). unfold mbind, prog_bind. cbn -[list_entry].
    destruct (g (list_entry x member) v) as [[] v']; [done|]. cbn -[list_entry].
    rewrite (next_entry_ok _ _ _ c) by (by eapply node_next). cbn -[list_entry].
    eapply (IH fuel (l1 ++ [x])); [by rewrite <- (assoc_L (++))|cbn in Hf; lia|done].
Qed.

Lemma for_each_prev_ok member g h a q fuel l1 l2 s b v :
  repr h a -> lists a !! q = Some (l1 ++ l2) -> (length l1 <= fuel)%nat -> q :: l1 = s ++ [b] ->
  for_each_from member q (reads g) list_prev_entry fuel (list_entry b member) (h, v)
  = Ret (tt, (h, visit g (entries member (reverse l1)) v)).
Proof.
  intros R. revert fuel l2 s b v. induction l1 as [|x l1 IH] using rev_ind; intros fuel l2 s b v Hq Hf E.
  - apply (app_inj_tail [] s) in E as [<- <-].
    destruct fuel; cbn -[list_entry]; by rewrite at_entry, Z.eqb_refl.
  - apply (app_inj_tail (q :: l1) s) in E as [<- <-]. rewrite length_app in Hf. cbn in Hf.
    destruct fuel as [|fuel]; [lia|]. rewrite reverse_snoc. rewrite <- (assoc_L (++)) in Hq.
    destruct (last_exists q l1) as (s & c & E'). cbn -[list_entry].
    rewrite at_entry, (proj2 (Z.eqb_neq x q)) by (eapply node_not_head; [done..|mem]).
    unfold mbind, prog_bind. cbn -[list_entry].
    destruct (g (list_entry x member) v) as [[] v']; [done|]. cbn -[list_entry].
    rewrite (prev_entry_ok _ _ _ c) by (by eapply node_prev). cbn -[list_entry].
    eapply (IH fuel ([x] ++ l2)); [done|lia|done].
Qed.

(** The body of a loop that deletes the structures [g] picks. *)
Definition deletes (member : Z) (g : Z -> V -> bool * V) : Z -> prog (lheap * V) bool := fun x '(h, v) =>
  let '(del, v) := g x v in
  if del : bool then '(_, h) ← list_del (x + member) h; Ret (false, (h, v)) else Ret (false, (h, v)).

(** What is kept, what is then on no list, and the variables at the end. *)
Fixpoint sweep (member : Z) (g : Z -> V -> bool * V) l (k : list Z) v : list Z * list Z * V :=
  match l with
  | [] => ([], k, v)
  | x :: l =>
      let '(del, v) := g (list_entry x member) v in
      if del : bool then sweep member g l (x :: k) v
      else let '(l', k', v') := sweep member g l k v in (x :: l', k', v')
  end.

Lemma for_each_safe_ok member g q fuel h a l1 l2 b t n v :
  repr h a -> lists a !! q = Some (l1 ++ l2) -> (length l2 <= fuel)%nat -> l2 ++ [q] = b :: t ->
  (forall x l c u, l2 = x :: l -> l ++ [q] = c :: u -> n = list_entry c member) ->
  let '(l', k, v') := sweep member g l2 (loose a) v in
  exists h', for_each_safe_from member q (deletes member g) fuel (list_entry b member) n (h, v)
    = Ret (tt, (h', v')) /\ repr h' (Lists (<[q := l1 ++ l']> (lists a)) k).
Proof.
  revert fuel h a l1 b t n v. induction l2 as [|x l2 IH]; intros fuel h a l1 b t n v R Hq Hf E Hn.
  { injection E as <- <-. exists h. cbn -[list_entry]. rewrite insert_id by done. split; [|by destruct a].
    destruct fuel; cbn -[list_entry]; by rewrite at_entry, Z.eqb_refl. }
  injection E as <- <-. destruct fuel as [|fuel]; [cbn in Hf; lia|]. cbn -[list_entry].
  rewrite at_entry, (proj2 (Z.eqb_neq x q)) by (eapply node_not_head; [done..|mem]).
  destruct (first_exists l2 q) as (c & t & E). rewrite (Hn x l2 c t eq_refl E).
  unfold mbind, prog_bind. unfold deletes at 1. destruct (g (list_entry x member) v) as [[] v1].
  - replace (list_entry x member + member) with x by (unfold list_entry, container_of; lia).
    destruct (list_del_ok _ _ _ _ R (take_out_lists _ _ _ _ _ _ R Hq)) as (h1 & E1 & R1). cbn in R1.
    rewrite E1. cbn -[list_entry].
    assert (Hq1 : lists (Lists (<[q := l1 ++ l2]> (lists a)) (x :: loose a)) !! q = Some (l1 ++ l2))
      by (cbn; by rewrite lookup_insert_eq).
    destruct (following h1 _ q l1 l2 c t R1 Hq1 E) as (n' & En & Hn').
    rewrite (next_entry_ok _ _ _ n') by done. cbn -[list_entry].
    pose proof (IH fuel h1 _ l1 c t (list_entry n' member) v1 R1 Hq1 ltac:(cbn in Hf; lia) E) as HI.
    cbn in HI. destruct (sweep member g l2 (x :: loose a) v1) as [[l' k'] v'].
    destruct HI as (h' & Eh & Rh).
    + intros y l d u -> Ed. f_equal. by eapply Hn'.
    + exists h'. split; [done|]. by rewrite insert_insert_eq in Rh.
  - assert (Hq1 : lists a !! q = Some ((l1 ++ [x]) ++ l2)) by (by rewrite <- (assoc_L (++))).
    destruct (following h a q _ l2 c t R Hq1 E) as (n' & En & Hn'). unfold on_heap.
    rewrite (next_entry_ok _ _ _ n') by done. cbn -[list_entry].
    pose proof (IH fuel h a _ c t (list_entry n' member) v1 R Hq1 ltac:(cbn in Hf; lia) E) as HI.
    destruct (sweep member g l2 (loose a) v1) as [[l' k'] v']. destruct HI as (h' & Eh & Rh).
    + intros y l d u -> Ed. f_equal. by eapply Hn'.
    + exists h'. split; [done|]. by rewrite <- (assoc_L (++)) in Rh.
Qed.
End Loops.

(** ** Sequences of operations *)

Fixpoint run_ops (ops : list list_op) : prog lheap unit :=
  match ops with [] => mret tt | o :: ops => _ ← run_op o; run_ops ops end.
Fixpoint abs_ops (ops : list list_op) (a : lists_t) : option lists_t :=
  match ops with [] => Some a | o :: ops => a ← abs_op o a; abs_ops ops a end.

Lemma run_ops_ok ops h a a' :
  repr h a -> abs_ops ops a = Some a' -> exists h', run_ops ops h = Ret (tt, h') /\ repr h' a'.
Proof.
  revert h a. induction ops as [|o ops IH]; intros h a R H.
  - injection H as <-. by exists h.
  - cbn in H. apply bind_Some in H as (a1 & H1 & H). destruct (list_op_refines _ _ _ _ R H1) as (h1 & E & R1).
    cbn. rewrite (run_bind _ _ _ _ _ E). by apply (IH _ a1).
Qed.

Module ListProps.

(** Three heads and five nodes, all uninitialised. *)
Definition ex_heap : lheap :=
  list_to_map ((fun p => (p, ListHead 0 0)) <$> [10; 20; 30; 1; 2; 3; 4; 5]).
Definition ex_loose : lists_t := Lists ∅ [10; 20; 30; 1; 2; 3; 4; 5].
Definition ex_ops : list list_op :=
  [Op_INIT_LIST_HEAD 10; Op_INIT_LIST_HEAD 20; Op_list_add_tail 1 10; Op_list_add_tail 2 10;
   Op_list_add 3 10; Op_list_del 1; Op_list_move_tail 3 20; Op_list_add_tail 4 10; Op_list_del_init 4;
   Op_list_add 4 20; Op_list_splice_init 20 10; Op_list_rotate_left 10; Op_list_cut_position 30 10 3;
   Op_list_splice_tail_init 30 10].

Lemma ex_repr : repr ex_heap ex_loose.
Proof.
  split.
  - apply (bool_decide_unpack _). by vm_compute.
  - intros p. unfold nodes_of. cbn [loose lists ex_loose]. rewrite map_to_list_empty, app_nil_r.
    unfold ex_heap. rewrite <- elem_of_dom, dom_list_to_map, elem_of_list_to_set, <- list_fmap_compose.
    by rewrite list_fmap_id.
  - intros q l H. cbn in H. by rewrite lookup_empty in H.
Qed.

(** C23: the pointer operations of [spy_list.h] implement lists.  Any sequence of
    them (initialise, add at either end, delete, move between lists, rotate, cut,
    splice), on any number of lists in one heap, makes only defined accesses and
    leaves a heap that represents the lists the same sequence gives on values;
    lists an operation does not name are unchanged.  This is what lets the other
    components be modelled with plain lists. *)
Theorem list_ops_refine ops h a a' :
  repr h a -> abs_ops ops a = Some a' -> exists h', run_ops ops h = Ret (tt, h') /\ repr h' a'.
Proof. apply run_ops_ok. Qed.

Lemma list_ops_refine_witness :
  exists h', run_ops ex_ops ex_heap = Ret (tt, h') /\
    repr h' (Lists {[10 := [2; 4; 3]; 20 := []; 30 := []]} [1; 5]).
Proof.
  apply (list_ops_refine ex_ops ex_heap ex_loose); [exact ex_repr|]. vm_compute. reflexivity.
Defined.

(** [list_for_each_entry] and [list_for_each_entry_reverse] visit exactly the
    structures of the list, in the order of the list and in reverse, each once, up
    to the one whose body ends the loop; the loop ends, within as many rounds as
    the list has nodes, and leaves the list as it is. *)
Theorem list_loop_visits {V} member (g : Z -> V -> bool * V) h a q l fuel v :
  repr h a -> lists a !! q = Some l -> (length l <= fuel)%nat ->
  list_for_each_entry member q (reads g) fuel (h, v) = Ret (tt, (h, visit g (entries member l) v)) /\
  list_for_each_entry_reverse member q (reads g) fuel (h, v)
    = Ret (tt, (h, visit g (entries member (reverse l)) v)).
Proof.
  intros R Hq Hf. destruct (first_exists l q) as (b & t & E), (last_exists q l) as (s & z & E'). split.
  - unfold list_for_each_entry, list_first_entry.
    erewrite run_bind; [by eapply (for_each_next_ok member g h a q fuel [] l)|].
    apply run_on_heap. by rewrite (run_bind _ _ _ _ _ (get_next_ok _ _ _ (head_next _ _ _ _ _ _ R Hq E))).
  - unfold list_for_each_entry_reverse, list_last_entry.
    erewrite run_bind; [eapply (for_each_prev_ok member g h a q fuel l []); rewrite ?app_nil_r; done|].
    apply run_on_heap. by rewrite (run_bind _ _ _ _ _ (get_prev_ok _ _ _ (head_prev _ _ _ _ _ _ R Hq E'))).
Qed.

(** A body that adds up what it sees until it finds 3, the nodes being at offset 1
    of their structures. *)
Definition ex_body (x : Z) (v : list Z) : bool * list Z := (x =? 3, v ++ [x]).

Lemma list_loop_visits_witness :
  exists h, repr h (Lists {[10 := [2; 4; 3]; 20 := []; 30 := []]} [1; 5]) /\
    list_for_each_entry 1 10 (reads ex_body) 3 (h, []) = Ret (tt, (h, [1; 3])).
Proof.
  destruct (run_ops_ok ex_ops ex_heap ex_loose _ ex_repr ltac:(vm_compute; reflexivity)) as (h & _ & R).
  exists h. split; [exact R|].
  apply (list_loop_visits 1 ex_body h _ 10 [2; 4; 3] 3 [] R); [reflexivity|cbn; lia].
Defined.

(** A [list_for_each_entry_safe] loop whose body deletes the structures it
    picks is safe, ends, and leaves exactly the others on the list, in their
    order: the node that is visited may be taken off the list although the loop is
    still on it. *)
Theorem list_sweep_keeps {V} member (g : Z -> V -> bool * V) h a q l fuel v :
  repr h a -> lists a !! q = Some l -> (length l <= fuel)%nat ->
  let '(l', k, v') := sweep member g l (loose a) v in
  exists h', list_for_each_entry_safe member q (deletes member g) fuel (h, v) = Ret (tt, (h', v')) /\
    repr h' (Lists (<[q := l']> (lists a)) k).
Proof.
  intros R Hq Hf. destruct (first_exists l q) as (b & t & E).
  destruct (following h a q [] l b t R Hq E) as (n & En & Hn).
  pose proof (for_each_safe_ok member g q fuel h a [] l b t (list_entry n member) v R Hq Hf E) as H.
  destruct (sweep member g l (loose a) v) as [[l' k] v'].
  destruct H as (h' & Eh & Rh); [intros x w c u -> Ec; f_equal; by eapply Hn|].
  exists h'. split; [|done]. unfold list_for_each_entry_safe, list_first_entry.
  erewrite run_bind.
  - erewrite run_bind; [exact Eh|]. by apply run_on_heap, next_entry_ok.
  - apply run_on_heap. by rewrite (run_bind _ _ _ _ _ (get_next_ok _ _ _ (head_next _ _ _ _ _ _ R Hq E))).
Qed.

(** Deletes the structures with an even address and counts them. *)
Definition ex_pick (x : Z) (n : nat) : bool * nat := if Z.even x then (true, S n) else (false, n).

Lemma list_sweep_keeps_witness :
  exists h h', repr h (Lists {[10 := [2; 4; 3]; 20 := []; 30 := []]} [1; 5]) /\
    list_for_each_entry_safe 0 10 (deletes 0 ex_pick) 3 (h, 0%nat) = Ret (tt, (h', 2%nat)) /\
    repr h' (Lists {[10 := [3]; 20 := []; 30 := []]} [4; 2; 1; 5]).
Proof.
  destruct (run_ops_ok ex_ops ex_heap ex_loose _ ex_repr ltac:(vm_compute; reflexivity)) as (h & _ & R).
  destruct (list_sweep_keeps 0 ex_pick h _ 10 [2; 4; 3] 3 0%nat R) as (h' & E & R');
    [reflexivity|cbn; lia|].
  exists h, h'. split; [exact R|]. split; [exact E|exact R'].
Defined.

End ListProps.
