(* ===== verification/HList.v ===== *)
(** * HList: the hash chains of [spy_list.h]

    An [hlist_head] is one pointer to the first node; a node has a pointer to the
    next node and one to the pointer that points at it, which is the [first] of a
    head or the [next] of a node.  The chunk index and the file index are tables
    of such heads.  The operations are translated store by store and proved to
    implement a table of lists. *)

From S2P Require Import Prelude LinkedList ListRefine.

(** ** The code *)

Module HList.

Definition NULL : Z := 0.

(** The value of a [struct hlist_node **]: null, the address of a field, or the
    poison a deleted node gets. *)
Inductive field : Type :=
| FNull
| FFirst (h : Z)
| FNext (n : Z)
| FPoison.
#[export] Instance field_eq_dec : EqDecision field.
Proof. solve_decision. Defined.

Record hlist_node : Type := HNode { hn_next : Z; hn_pprev : field }.
(** The heads, each with its [first], and the nodes. *)
Record hheap : Type := HHeap { hheads : gmap Z Z; hnodes : gmap Z hlist_node }.

(** [*f] and [*f = v]. *)
Definition load (f : field) : prog hheap Z := fun m =>
  match f with
  | FFirst h => v ← c_deref (hheads m !! h); Ret (v, m)
  | FNext n => x ← c_deref (hnodes m !! n); Ret (hn_next x, m)
  | _ => Undef
  end.
Definition store (f : field) (v : Z) : prog hheap unit := fun m =>
  match f with
  | FFirst h => _ ← c_deref (hheads m !! h); Ret (tt, HHeap (<[h := v]> (hheads m)) (hnodes m))
  | FNext n =>
      x ← c_deref (hnodes m !! n); Ret (tt, HHeap (hheads m) (<[n := HNode v (hn_pprev x)]> (hnodes m)))
  | _ => Undef
  end.
(** [n->pprev] and [n->pprev = f]. *)
Definition get_pprev (n : Z) : prog hheap field := fun m =>
  x ← c_deref (hnodes m !! n); Ret (hn_pprev x, m).
Definition set_pprev (n : Z) (f : field) : prog hheap unit := fun m =>
  x ← c_deref (hnodes m !! n); Ret (tt, HHeap (hheads m) (<[n := HNode (hn_next x) f]> (hnodes m))).

Definition INIT_HLIST_HEAD (h : Z) : prog hheap unit := store (FFirst h) NULL.

Definition INIT_HLIST_NODE (h : Z) : prog hheap unit :=
  _ ← store (FNext h) NULL; set_pprev h FNull.

Definition hlist_unhashed (h : Z) : prog hheap bool :=
  p ← get_pprev h; mret (match p with FNull => true | _ => false end).

Definition hlist_empty (h : Z) : prog hheap bool :=
  v ← load (FFirst h); mret (v =? NULL).

Definition __hlist_del (n : Z) : prog hheap unit :=
  next ← load (FNext n);
  pprev ← get_pprev n;
  _ ← store pprev next;
  if negb (next =? NULL) then set_pprev next pprev else mret tt.

Definition hlist_del (n : Z) : prog hheap unit :=
  _ ← __hlist_del n;
  _ ← store (FNext n) LIST_POISON1;
  set_pprev n FPoison.

Definition hlist_del_init (n : Z) : prog hheap unit :=
  u ← hlist_unhashed n;
  if negb u then _ ← __hlist_del n; INIT_HLIST_NODE n else mret tt.

Definition hlist_add_head (n h : Z) : prog hheap unit :=
  first ← load (FFirst h);
  _ ← store (FNext n) first;
  _ ← (if negb (first =? NULL) then set_pprev first (FNext n) else mret tt);
  _ ← store (FFirst h) n;
  set_pprev n (FFirst h).

Definition hlist_add_before (n next : Z) : prog hheap unit :=
  p ← get_pprev next;
  _ ← set_pprev n p;
  _ ← store (FNext n) next;
  _ ← set_pprev next (FNext n);
  p ← get_pprev n;
  store p n.

Definition hlist_add_after (n next : Z) : prog hheap unit :=
  v ← load (FNext n);
  _ ← store (FNext next) v;
  _ ← store (FNext n) next;
  _ ← set_pprev next (FNext n);
  v ← load (FNext next);
  if negb (v =? NULL) then v ← load (FNext next); set_pprev v (FNext next) else mret tt.

Definition hlist_move_list (old new : Z) : prog hheap unit :=
  v ← load (FFirst old);
  _ ← store (FFirst new) v;
  v ← load (FFirst new);
  _ ← (if negb (v =? NULL) then v ← load (FFirst new); set_pprev v (FFirst new) else mret tt);
  store (FFirst old) NULL.

(** [hlist_for_each_entry], as the loops of [LinkedList]. *)
Definition on_hheap {V A} (c : prog hheap A) : prog (hheap * V) A := fun '(h, v) =>
  '(r, h) ← c h; Ret (r, (h, v)).

Definition hlist_entry_safe (ptr member : Z) : Z :=
  if negb (ptr =? NULL) then container_of ptr member else NULL.

Section Iterate.
Context {V : Type} (member : Z) (body : Z -> prog (hheap * V) bool).

Fixpoint hlist_for_each_from (fuel : nat) (pos : Z) : prog (hheap * V) unit :=
  if pos =? NULL then mret tt
  else match fuel with
       | O => fun _ => Wait
       | S fuel =>
           stop ← body pos;
           if stop : bool then mret tt
           else n ← on_hheap (load (FNext (pos + member)));
                hlist_for_each_from fuel (hlist_entry_safe n member)
       end.

Definition hlist_for_each_entry (head : Z) (fuel : nat) : prog (hheap * V) unit :=
  v ← on_hheap (load (FFirst head)); hlist_for_each_from fuel (hlist_entry_safe v member).
End Iterate.

End HList.
Export HList.

(** ** Heaps, link by link *)

Section HLinks.
Implicit Types (m : hheap) (f g : field) (n p q v x : Z) (l k : list Z).

Definition fval m f : option Z :=
  match f with FFirst h => hheads m !! h | FNext n => hn_next <$> hnodes m !! n | _ => None end.
Definition fprev m n : option field := hn_pprev <$> hnodes m !! n.

Definition upd_val f v m : hheap :=
  match f with
  | FFirst h => HHeap (<[h := v]> (hheads m)) (hnodes m)
  | FNext n => HHeap (hheads m) (alter (fun e => HNode v (hn_pprev e)) n (hnodes m))
  | _ => m
  end.
Definition upd_pprev n f m : hheap :=
  HHeap (hheads m) (alter (fun e => HNode (hn_next e) f) n (hnodes m)).

Lemma alter_insert_eq {A} (h : gmap Z A) n e (f : A -> A) : h !! n = Some e -> alter f n h = <[n := f e]> h.
Proof.
  intros H. apply map_eq. intros i. destruct (decide (n = i)) as [<-|].
  - by rewrite lookup_insert_eq, lookup_alter_eq, H.
  - by rewrite lookup_insert_ne, lookup_alter_ne.
Qed.

Lemma load_ok m f v : fval m f = Some v -> load f m = Ret (v, m).
Proof.
  destruct f as [|h|n|]; cbn; intros H; try done; [by rewrite H|].
  destruct (hnodes m !! n); cbn in *; by simplify_eq.
Qed.
Lemma store_ok m f v : is_Some (fval m f) -> store f v m = Ret (tt, upd_val f v m).
Proof.
  destruct f as [|h|n|]; cbn; intros [u H]; try done; [by rewrite H|].
  destruct (hnodes m !! n) as [e|] eqn:E; [|done]. cbn. by rewrite (alter_insert_eq _ _ e).
Qed.
Lemma get_pprev_ok m n f : fprev m n = Some f -> get_pprev n m = Ret (f, m).
Proof. unfold fprev, get_pprev. intros H. destruct (hnodes m !! n); cbn in *; by simplify_eq. Qed.
Lemma set_pprev_ok m n f : is_Some (hnodes m !! n) -> set_pprev n f m = Ret (tt, upd_pprev n f m).
Proof. intros [e H]. unfold set_pprev, upd_pprev. rewrite H. cbn. by rewrite (alter_insert_eq _ _ e). Qed.

Lemma fval_upd_eq m f v : is_Some (fval m f) -> fval (upd_val f v m) f = Some v.
Proof.
  destruct f as [|h|n|]; cbn; intros [u H]; try done; [by rewrite lookup_insert_eq|].
  rewrite lookup_alter_eq. by destruct (hnodes m !! n).
Qed.
Lemma fval_upd_ne m f g v : g <> f -> fval (upd_val f v m) g = fval m g.
Proof.
  destruct f as [|h|n|], g as [|h'|n'|]; cbn; intros H; try done.
  - rewrite lookup_insert_ne; [done|congruence].
  - rewrite lookup_alter_ne; [done|congruence].
Qed.
Lemma fprev_upd_val m f v n : fprev (upd_val f v m) n = fprev m n.
Proof.
  destruct f as [|h|n'|]; try done. unfold fprev. cbn. destruct (decide (n' = n)) as [->|].
  - rewrite lookup_alter_eq. by destruct (hnodes m !! n).
  - by rewrite lookup_alter_ne.
Qed.
Lemma fval_upd_pprev m f n g : fval (upd_pprev n f m) g = fval m g.
Proof.
  destruct g as [|h|n'|]; try done. cbn. destruct (decide (n = n')) as [->|].
  - rewrite lookup_alter_eq. by destruct (hnodes m !! n').
  - by rewrite lookup_alter_ne.
Qed.
Lemma fprev_upd_eq m n f : is_Some (hnodes m !! n) -> fprev (upd_pprev n f m) n = Some f.
Proof. intros [e H]. unfold fprev. cbn. by rewrite lookup_alter_eq, H. Qed.
Lemma fprev_upd_ne m n f p : p <> n -> fprev (upd_pprev n f m) p = fprev m p.
Proof. intros H. unfold fprev. cbn. by rewrite lookup_alter_ne. Qed.
Lemma node_upd_val m f v n : is_Some (hnodes (upd_val f v m) !! n) <-> is_Some (hnodes m !! n).
Proof. destruct f; try done. apply lookup_alter_is_Some. Qed.
Lemma node_upd_pprev m p f n : is_Some (hnodes (upd_pprev p f m) !! n) <-> is_Some (hnodes m !! n).
Proof. apply lookup_alter_is_Some. Qed.
Lemma field_upd_val m f v g : is_Some (fval m f) -> is_Some (fval (upd_val f v m) g) <-> is_Some (fval m g).
Proof.
  intros H. destruct (decide (f = g)) as [->|Hne]; [rewrite fval_upd_eq by done; by split|].
  by rewrite fval_upd_ne.
Qed.

(** The field [f] points at [v], and [v], if it is a node, back at [f]. *)
Definition hlink m f v : Prop := fval m f = Some v /\ (v <> NULL -> fprev m v = Some f).

(** The chain of the head [q] through the nodes [l]. *)
Definition hchain m q l : Prop := Forall2 (hlink m) (FFirst q :: (FNext <$> l)) (l ++ [NULL]).

Lemma hlinks_ext m m' (fs : list field) l :
  (forall f, f ∈ fs -> fval m' f = fval m f) -> (forall x, x ∈ l -> x <> NULL -> fprev m' x = fprev m x) ->
  Forall2 (hlink m) fs l -> Forall2 (hlink m') fs l.
Proof.
  intros Hf Hp H. induction H as [|f v fs l [H1 H2] H IH]; constructor.
  - split; [rewrite Hf; by try left|]. intros Hv. rewrite Hp; [auto|left|done].
  - apply IH; intros; [apply Hf|apply Hp]; try done; by right.
Qed.

(** A chain opened at the field [f]. *)
Lemma hchain_open m q l1 l2 s f v t :
  FFirst q :: (FNext <$> l1) = s ++ [f] -> l2 ++ [NULL] = v :: t ->
  hchain m q (l1 ++ l2) <-> Forall2 (hlink m) s l1 /\ hlink m f v /\ Forall2 (hlink m) (FNext <$> l2) t.
Proof.
  intros E1 E2. unfold hchain. rewrite fmap_app, app_comm_cons, E1, <- !(assoc_L (++)), E2. cbn.
  assert (L1 : length s = length l1).
  { apply (f_equal length) in E1. rewrite length_app in E1. cbn in E1. rewrite length_fmap in E1. lia. }
  split.
  - intros H. apply Forall2_app_inv in H as [H1 H2]; [|done]. by apply Forall2_cons in H2 as [H2 H3].
  - intros (H1 & H2 & H3). apply Forall2_app; [done|]. by constructor.
Qed.

Lemma last_field q l : exists s f, FFirst q :: (FNext <$> l) = s ++ [f].
Proof.
  destruct (exists_last (l := FFirst q :: (FNext <$> l))) as (s & f & E); [done|]. by exists s, f.
Qed.

(** The fields of the heads [H] and of the nodes [X]; what an operation on them
    may change. *)
Definition fields (H X : list Z) : list field := (FFirst <$> H) ++ (FNext <$> X).
Definition htouched (H X : list Z) m m' : Prop :=
  (forall p, is_Some (hnodes m' !! p) <-> is_Some (hnodes m !! p)) /\
  (forall f, is_Some (fval m' f) <-> is_Some (fval m f)) /\
  (forall f, f ∉ fields H X -> fval m' f = fval m f) /\ (forall x, x ∉ X -> fprev m' x = fprev m x).

Lemma htouched_refl H X m : htouched H X m m.
Proof. done. Qed.
Lemma htouched_trans H X m m1 m2 : htouched H X m m1 -> htouched H X m1 m2 -> htouched H X m m2.
Proof.
  intros (A1 & A2 & A3 & A4) (B1 & B2 & B3 & B4). split_and!.
  - intros p. by rewrite B1.
  - intros f. by rewrite B2.
  - intros f Hf. by rewrite B3, A3.
  - intros x Hx. by rewrite B4, A4.
Qed.
Lemma htouched_val H X m f v : is_Some (fval m f) -> f ∈ fields H X -> htouched H X m (upd_val f v m).
Proof.
  intros Hs Hf. split_and!.
  - intros p. apply node_upd_val.
  - intros g. by apply field_upd_val.
  - intros g Hg. apply fval_upd_ne. by intros ->.
  - intros x _. apply fprev_upd_val.
Qed.
Lemma htouched_pprev H X m n f : n ∈ X -> htouched H X m (upd_pprev n f m).
Proof.
  intros Hn. split_and!.
  - intros p. apply node_upd_pprev.
  - intros g. by rewrite fval_upd_pprev.
  - intros g _. apply fval_upd_pprev.
  - intros x Hx. apply fprev_upd_ne. by intros ->.
Qed.
Lemma hchain_touched H X m m' q l :
  htouched H X m m' -> q ∉ H -> (forall x, x ∈ l -> x ∉ X) -> hchain m q l -> hchain m' q l.
Proof.
  intros (_ & _ & T1 & T2) Hq HX. apply hlinks_ext.
  - intros f Hf. apply T1. intros [Hf'|Hf']%elem_of_app; apply list_elem_of_fmap in Hf' as (p & -> & Hp).
    + apply elem_of_cons in Hf as [[= ->]|Hf]; [done|]. by apply list_elem_of_fmap in Hf as (? & ? & ?).
    + apply elem_of_cons in Hf as [|Hf]; [done|]. apply list_elem_of_fmap in Hf as (? & [= ->] & ?). by eapply HX.
  - intros x Hx Hx0. apply T2, HX. apply elem_of_app in Hx as [?|?%list_elem_of_singleton]; done.
Qed.
End HLinks.

(** ** A table of chains *)

(** The nodes of each head, and the nodes on no chain. *)
Record htable_t : Type := HTable { chains : gmap Z (list Z); spare : list Z }.

Definition chain_nodes (T : gmap Z (list Z)) : list Z := map_to_list T ≫= snd.

Record hrepr (m : hheap) (a : htable_t) : Prop := {
  hr_nodup : NoDup (NULL :: spare a ++ chain_nodes (chains a));
  hr_nodes : forall p, is_Some (hnodes m !! p) <-> p ∈ spare a ++ chain_nodes (chains a);
  hr_heads : forall q, is_Some (hheads m !! q) <-> is_Some (chains a !! q);
  hr_chains : forall q l, chains a !! q = Some l -> hchain m q l
}.

Section HRepr.
Implicit Types (m : hheap) (f g : field) (n p q v x : Z) (l k t : list Z) (s : list field) (T : gmap Z (list Z)).

Lemma chain_nodes_insert T q l : T !! q = None -> chain_nodes (<[q := l]> T) ≡ₚ l ++ chain_nodes T.
Proof. intros H. unfold chain_nodes. by rewrite map_to_list_insert. Qed.
Lemma chain_nodes_in T q l p : T !! q = Some l -> p ∈ l -> p ∈ chain_nodes T.
Proof.
  intros H Hp. apply list_elem_of_bind. exists (q, l). split; [done|]. by apply elem_of_map_to_list.
Qed.

Lemma hrepr_step m m' T T0 T' k k' H X :
  hrepr m (HTable T k) -> htouched H X m m' ->
  k ++ chain_nodes T ≡ₚ X ++ chain_nodes T0 -> k' ++ chain_nodes T' ≡ₚ X ++ chain_nodes T0 ->
  (forall q l, T0 !! q = Some l -> T !! q = Some l /\ q ∉ H) ->
  (forall q, is_Some (T' !! q) <-> is_Some (T !! q)) ->
  (forall q l, T' !! q = Some l -> hchain m' q l \/ T0 !! q = Some l) ->
  hrepr m' (HTable T' k').
Proof.
  intros [R1 R2 R3 R4] Ht E E' HT0 Hd HT'. cbn in *. rewrite E in R1. setoid_rewrite E in R2.
  pose proof Ht as (N1 & N2 & _). split; cbn.
  - by rewrite E'.
  - intros p. rewrite E', N1. apply R2.
  - intros q. rewrite Hd, <- R3. apply (N2 (FFirst q)).
  - intros q l Hq. apply HT' in Hq as [Hq|Hq]; [done|]. destruct (HT0 _ _ Hq) as [Hq' Hn].
    apply (hchain_touched H X m); [done..| |by apply R4]. intros x Hx HX.
    apply NoDup_cons in R1 as [_ (_ & R1 & _)%NoDup_app]. apply (R1 x HX). by eapply chain_nodes_in.
Qed.

(** One chain changed, nodes passing between it and the spare ones. *)
Lemma hrepr_put m m' T q l l' k k' :
  T !! q = None -> hrepr m (HTable (<[q := l]> T) k) -> htouched [q] (k ++ l) m m' ->
  k' ++ l' ≡ₚ k ++ l -> hchain m' q l' -> hrepr m' (HTable (<[q := l']> T) k').
Proof.
  intros Hq R Ht E Hc. eapply (hrepr_step m m' _ T _ k k' [q] (k ++ l)); [done..| | | | |].
  - rewrite chain_nodes_insert by done. solve_Permutation.
  - rewrite chain_nodes_insert, (assoc_L (++)), E by done. done.
  - intros q' l0 H. rewrite lookup_insert_ne by congruence. split; [done|].
    intros ->%list_elem_of_singleton. congruence.
  - intros q'. rewrite !lookup_insert_is_Some. naive_solver.
  - intros q' l0 H. apply lookup_insert_Some in H as [[<- <-]|[_ H]]; [by left|by right].
Qed.

(** A chain of a represented table opened at the field [f]. *)
Record hopened m k T q l1 l2 (s : list field) f v t : Prop := {
  ho_left : Forall2 (hlink m) s l1;
  ho_mid : hlink m f v;
  ho_right : Forall2 (hlink m) (FNext <$> l2) t;
  ho_field : is_Some (fval m f) /\ f ∉ s /\ f ∉ (FNext <$> l2) /\ f ∈ fields [q] l1;
  ho_v : (v <> NULL -> is_Some (hnodes m !! v)) /\ (v <> NULL -> v ∈ l2) /\ v ∉ l1 /\ (v <> NULL -> v ∉ t);
  ho_free : forall x, x ∈ k -> is_Some (hnodes m !! x) /\ x <> NULL /\
    (x ∉ l1 /\ x ∉ l2) /\ (x <> v /\ FNext x <> f /\ FNext x ∉ s /\ x ∉ t)
}.

Lemma hrepr_opened m T k q l1 l2 s f v t :
  T !! q = None -> FFirst q :: (FNext <$> l1) = s ++ [f] -> l2 ++ [NULL] = v :: t ->
  hrepr m (HTable (<[q := l1 ++ l2]> T) k) -> hopened m k T q l1 l2 s f v t.
Proof.
  intros Hq E1 E2 R. pose proof (hr_nodup _ _ R) as N. cbn in N. rewrite chain_nodes_insert in N by done.
  pose proof (hr_chains _ _ R q (l1 ++ l2) (lookup_insert_eq _ _ _)) as G.
  rewrite (hchain_open _ _ _ _ s f v t E1 E2) in G. destruct G as (G1 & G2 & G3).
  apply NoDup_cons in N as [N0 (_ & ND & (N & _)%NoDup_app)%NoDup_app].
  apply not_elem_of_app in N0 as [N0k N0]. apply not_elem_of_app in N0 as [N0 _].
  assert (Nf : NoDup (FFirst q :: (FNext <$> l1 ++ l2))).
  { apply NoDup_cons. split; [by intros (? & ? & ?)%list_elem_of_fmap|]. apply NoDup_fmap; [by intros ? ? [= ->]|done]. }
  rewrite fmap_app, app_comm_cons, E1, <- (assoc_L (++)) in Nf.
  assert (Nv : NoDup (l1 ++ v :: t)).
  { rewrite <- E2, (assoc_L (++)). apply NoDup_app. split_and!; [done| |apply NoDup_singleton].
    by intros x Hx ->%list_elem_of_singleton. }
  apply nodup_mid in Nf as [F1 F2], Nv as [V1 V2].
  assert (Hs : forall g, g ∈ s ++ [f] -> g ∈ fields [q] l1) by (by rewrite <- E1).
  assert (Ht : forall x, x ∈ v :: t -> x = NULL \/ x ∈ l2) by (intros x; rewrite <- E2; mem).
  assert (Hn : forall x, x ∉ l1 -> FNext x ∉ fields [q] l1).
  { intros x Hx [H|H]%elem_of_app; apply list_elem_of_fmap in H as (? & [= ->] & ?); done. }
  assert (K : forall x, x ∈ k ++ l1 ++ l2 -> is_Some (hnodes m !! x)).
  { intros x Hx. apply (hr_nodes _ _ R). cbn. rewrite chain_nodes_insert by done. mem. }
  split; try done.
  - split_and!; [by eexists; apply G2|done..|apply Hs; mem].
  - assert (Hv2 : v <> NULL -> v ∈ l2) by (intros Hv; destruct (Ht v) as [?|?]; [left|done..]).
    split_and!; [|done..]. intros Hv. apply Hv2 in Hv. apply K. mem.
  - intros x Hx. assert (Hxn : x <> NULL) by (by intros ->). pose proof (ND x Hx) as Hx'.
    apply not_elem_of_app in Hx' as [[X1 X2]%not_elem_of_app _]. split_and!; try done.
    + apply K. mem.
    + intros ->. destruct (Ht v) as [?|?]; [left|done..].
    + intros Hf. apply (Hn x X1), Hs. rewrite Hf. mem.
    + intros Hf. apply (Hn x X1), Hs. mem.
    + intros Hf. destruct (Ht x) as [?|?]; [by right|done..].
Qed.


(** A spare node put at the field [f]: what the stores must have done. *)
Lemma hinsert_ok m m' T k q l1 l2 s f v t n :
  T !! q = None -> FFirst q :: (FNext <$> l1) = s ++ [f] -> l2 ++ [NULL] = v :: t ->
  hrepr m (HTable (<[q := l1 ++ l2]> T) (n :: k)) -> htouched [q] ((n :: k) ++ l1 ++ l2) m m' ->
  fval m' f = Some n -> fprev m' n = Some f -> fval m' (FNext n) = Some v ->
  (v <> NULL -> fprev m' v = Some (FNext n)) ->
  (forall g, g <> f -> g <> FNext n -> fval m' g = fval m g) ->
  (forall x, x <> n -> x <> v -> x <> NULL -> fprev m' x = fprev m x) ->
  hrepr m' (HTable (<[q := l1 ++ n :: l2]> T) k).
Proof.
  intros Hq E1 E2 R Ht V1 V2 V3 V4 V5 V6.
  pose proof (hrepr_opened _ _ _ _ _ _ _ _ _ _ Hq E1 E2 R)
    as [G1 G2 G3 (Kf & F1 & F2 & F3) (_ & _ & B1 & B2) F].
  destruct (F n) as (Kn & Nn & (N1 & N2) & (N3 & N4 & N5 & N6)); [left|].
  apply (hrepr_put m m' T q (l1 ++ l2) _ (n :: k) k); [done..|solve_Permutation|].
  rewrite (hchain_open _ _ l1 (n :: l2) s f n (v :: t) E1) by (cbn; by rewrite E2). split_and!.
  - revert G1. apply hlinks_ext; [intros g Hg|intros x Hx Hx0].
    + apply V5; by intros ->.
    + apply V6; [by intros ->..|done].
  - by split.
  - constructor; [by split|]. revert G3. apply hlinks_ext; [intros g Hg|intros x Hx Hx0].
    + apply V5; [by intros ->|]. intros ->. by apply list_elem_of_fmap in Hg as (? & [= ->] & ?).
    + apply V6; [by intros ->| |done]. intros ->. by apply B2.
Qed.

(** A node taken from its chain. *)
Lemma hremove_ok m m' T k q l1 l2 s f v t n :
  T !! q = None -> FFirst q :: (FNext <$> l1) = s ++ [f] -> l2 ++ [NULL] = v :: t ->
  hrepr m (HTable (<[q := l1 ++ n :: l2]> T) k) -> htouched [q] (k ++ l1 ++ n :: l2) m m' ->
  fval m' f = Some v -> (v <> NULL -> fprev m' v = Some f) ->
  (forall g, g <> f -> g <> FNext n -> fval m' g = fval m g) ->
  (forall x, x <> n -> x <> v -> x <> NULL -> fprev m' x = fprev m x) ->
  hrepr m' (HTable (<[q := l1 ++ l2]> T) (n :: k)).
Proof.
  intros Hq E1 E2 R Ht V1 V2 V3 V4.
  pose proof (hrepr_opened m T k q l1 (n :: l2) s f n (v :: t) Hq E1 ltac:(cbn; by rewrite E2) R)
    as [G1 G2 G3 (Kf & F1 & F2 & F3) (_ & _ & B1 & B2) _].
  apply Forall2_cons in G3 as [G3 G4].
  pose proof (hr_nodup _ _ R) as N. cbn in N. rewrite chain_nodes_insert in N by done.
  apply NoDup_cons in N as [N0 (_ & _ & (N & _)%NoDup_app)%NoDup_app].
  assert (Nn : n ∉ l1 /\ n ∉ l2) by (by apply nodup_mid).
  assert (N0' : NULL ∉ l1 ++ n :: l2) by (clear - N0; mem). 
  assert (Nv : v ∉ l1 /\ v ∉ t).
  { apply nodup_mid. rewrite <- E2, (assoc_L (++)). apply NoDup_app. split_and!; [|..|apply NoDup_singleton].
    - assert (EP : l1 ++ n :: l2 ≡ₚ n :: l1 ++ l2) by solve_Permutation. rewrite EP in N.
      by apply NoDup_cons in N as [_ N].
    - intros x Hx ->%list_elem_of_singleton. apply N0'. mem. }
  assert (Hn : FNext n ∉ s /\ n ∉ t).
  { split.
    - intros Hs. assert (Hs' : FNext n ∈ FFirst q :: (FNext <$> l1)) by (rewrite E1; mem).
      apply elem_of_cons in Hs' as [|Hs']; [done|]. apply list_elem_of_fmap in Hs' as (? & [= ->] & ?). by apply Nn.
    - assert (Hn0 : n <> NULL) by (intros ->; apply N0'; mem). intros Hn. by apply B2; [|right]. }
  destruct Nn as [Nn1 Nn2], Nv as [Nv1 Nv2], Hn as [Hn1 Hn2].
  apply (hrepr_put m m' T q (l1 ++ n :: l2) _ k (n :: k)); [done..|solve_Permutation|].
  rewrite (hchain_open _ _ l1 l2 s f v t E1 E2). split_and!.
  - revert G1. apply hlinks_ext; [intros g Hg|intros x Hx Hx0].
    + apply V3; by intros ->.
    + apply V4; [by intros ->..|done].
  - by split.
  - revert G4. apply hlinks_ext; [intros g Hg|intros x Hx Hx0].
    + apply V3; [intros ->; apply F2; by right|]. intros ->. by apply list_elem_of_fmap in Hg as (? & [= ->] & ?).
    + apply V4; [by intros ->..|done].
Qed.
End HRepr.

(** ** The operations on a table *)

Fixpoint ins_before (x n : Z) (l : list Z) : list Z :=
  match l with [] => [] | y :: l => if decide (y = x) then n :: y :: l else y :: ins_before x n l end.
Fixpoint ins_after (x n : Z) (l : list Z) : list Z :=
  match l with [] => [] | y :: l => if decide (y = x) then y :: n :: l else y :: ins_after x n l end.

Inductive hlist_op : Set :=
| Op_INIT_HLIST_HEAD (h : Z)
| Op_hlist_del (n : Z)
| Op_hlist_del_init (n : Z)
| Op_hlist_add_head (n h : Z)
| Op_hlist_add_before (n next : Z)
| Op_hlist_add_after (n next : Z)
| Op_hlist_move_list (old new : Z).

Definition run_hop (o : hlist_op) : prog hheap unit :=
  match o with
  | Op_INIT_HLIST_HEAD h => INIT_HLIST_HEAD h
  | Op_hlist_del n => hlist_del n
  | Op_hlist_del_init n => hlist_del_init n
  | Op_hlist_add_head n h => hlist_add_head n h
  | Op_hlist_add_before n x => hlist_add_before n x
  | Op_hlist_add_after x n => hlist_add_after x n
  | Op_hlist_move_list p q => hlist_move_list p q
  end.

(** The node [n] is on one of the chains. *)
Definition hashed_in (n : Z) (a : htable_t) : Prop := map_Exists (fun _ l => n ∈ l) (chains a).
#[export] Instance hashed_in_dec n a : Decision (hashed_in n a).
Proof. unfold hashed_in. apply _. Defined.

Definition hunlink (n : Z) (a : htable_t) : option htable_t :=
  if decide (hashed_in n a) then Some (HTable (filter (.≠ n) <$> chains a) (n :: spare a)) else None.

Definition hput (q : Z) (l : list Z) (a : htable_t) : htable_t := HTable (<[q := l]> (chains a)) (spare a).
Definition use_spare (n : Z) (a : htable_t) : option htable_t :=
  if decide (n ∈ spare a) then Some (HTable (chains a) (filter (.≠ n) (spare a))) else None.

Definition abs_hop (o : hlist_op) (a : htable_t) : option htable_t :=
  match o with
  | Op_INIT_HLIST_HEAD h => l ← chains a !! h; Some (HTable (<[h := []]> (chains a)) (l ++ spare a))
  | Op_hlist_del n | Op_hlist_del_init n => hunlink n a
  | Op_hlist_add_head n h => a ← use_spare n a; l ← chains a !! h; Some (hput h (n :: l) a)
  | Op_hlist_add_before n x =>
      a ← use_spare n a;
      if decide (hashed_in x a) then Some (HTable (ins_before x n <$> chains a) (spare a)) else None
  | Op_hlist_add_after x n =>
      a ← use_spare n a;
      if decide (hashed_in x a) then Some (HTable (ins_after x n <$> chains a) (spare a)) else None
  | Op_hlist_move_list p q =>
      if decide (p = q) then None
      else l ← chains a !! p;
           match chains a !! q with Some [] => Some (hput p [] (hput q l a)) | _ => None end
  end.

(** [if (v) v->pprev = f] *)
Definition upd_back v f m : hheap := if decide (v = NULL) then m else upd_pprev v f m.

Section Back.
Implicit Types (m : hheap) (f g : field) (n v x : Z).

Lemma back_ok m v f :
  (v <> NULL -> is_Some (hnodes m !! v)) ->
  (if negb (v =? NULL) then set_pprev v f else mret tt) m = Ret (tt, upd_back v f m).
Proof.
  intros H. unfold upd_back. destruct (Z.eqb_spec v NULL) as [->|Hv]; cbn [negb].
  - by rewrite decide_True.
  - rewrite decide_False by done. apply set_pprev_ok. auto.
Qed.
Lemma back_load_ok m v f g :
  fval m g = Some v -> (v <> NULL -> is_Some (hnodes m !! v)) ->
  (if negb (v =? NULL) then u ← load g; set_pprev u f else mret tt) m = Ret (tt, upd_back v f m).
Proof.
  intros Hg H. rewrite <- (back_ok _ _ _ H). destruct (negb _); [|done].
  by rewrite (run_bind _ _ _ _ _ (load_ok _ _ _ Hg)).
Qed.
Lemma fval_back m v f g : fval (upd_back v f m) g = fval m g.
Proof. unfold upd_back. case_decide; [done|]. apply fval_upd_pprev. Qed.
Lemma node_back m v f n : is_Some (hnodes (upd_back v f m) !! n) <-> is_Some (hnodes m !! n).
Proof. unfold upd_back. case_decide; [done|]. apply node_upd_pprev. Qed.
Lemma fprev_back_eq m v f : v <> NULL -> is_Some (hnodes m !! v) -> fprev (upd_back v f m) v = Some f.
Proof. intros Hv H. unfold upd_back. rewrite decide_False by done. by apply fprev_upd_eq. Qed.
Lemma fprev_back_ne m v f x : x <> v -> fprev (upd_back v f m) x = fprev m x.
Proof. intros H. unfold upd_back. case_decide; [done|]. by apply fprev_upd_ne. Qed.
Lemma htouched_back H X m v f : (v <> NULL -> v ∈ X) -> htouched H X m (upd_back v f m).
Proof. intros Hv. unfold upd_back. case_decide; [done|]. apply htouched_pprev. auto. Qed.
Lemma first_in q H X : q ∈ H -> FFirst q ∈ fields H X.
Proof. intros Hq. apply elem_of_app. left. by apply list_elem_of_fmap_2. Qed.
Lemma next_in n H X : n ∈ X -> FNext n ∈ fields H X.
Proof. intros Hn. apply elem_of_app. right. by apply list_elem_of_fmap_2. Qed.
Lemma fields_sub f H X Y : f ∈ fields H X -> (forall x, x ∈ X -> x ∈ Y) -> f ∈ fields H Y.
Proof.
  intros [Hf|Hf]%elem_of_app Hs; apply list_elem_of_fmap in Hf as (x & -> & Hx); [by apply first_in|apply next_in; auto].
Qed.
End Back.

(** [hrun] executes a statement, [hcomp] reads a field of an updated heap. *)
Ltac hknown := repeat first
  [ rewrite node_upd_val | rewrite node_upd_pprev | rewrite node_back | rewrite fval_upd_pprev | rewrite fval_back
  | rewrite field_upd_val by hknown ]; eauto.
Ltac hcomp := repeat first
  [ rewrite fval_upd_pprev | rewrite fval_back | rewrite fprev_upd_val
  | rewrite fval_upd_eq by hknown | rewrite fprev_upd_eq by hknown | rewrite fprev_back_eq by (done || hknown)
  | rewrite fval_upd_ne by congruence | rewrite fprev_upd_ne by congruence | rewrite fprev_back_ne by congruence ].
Ltac hrun := first
  [ erewrite run_bind by (apply store_ok; hknown) | erewrite run_bind by (apply set_pprev_ok; hknown)
  | erewrite run_bind by (apply load_ok; hcomp; first [eassumption|reflexivity])
  | erewrite run_bind by (apply get_pprev_ok; hcomp; first [eassumption|reflexivity])
  | erewrite run_bind by (apply back_ok; intros ?; hknown)
  | erewrite run_bind by (apply back_load_ok; [by hcomp|intros ?; hknown])
  | rewrite back_load_ok by (by hcomp || (intros ?; hknown))
  | rewrite store_ok by hknown | rewrite set_pprev_ok by hknown | rewrite back_ok by (intros ?; hknown) ].
Ltac hfield := first [apply first_in; mem | apply next_in; mem | eapply fields_sub; [eassumption|intros; mem]].
Ltac htouch := repeat first
  [ apply htouched_refl
  | eapply htouched_trans;
    [|first [apply htouched_val; [hknown|hfield]|apply htouched_pprev; mem|apply htouched_back; mem]] ].

Section HRefine.
Implicit Types (m : hheap) (a : htable_t) (n p q v x : Z) (l k : list Z) (T : gmap Z (list Z)).

Lemma hr_disjoint m a q l i l' n :
  hrepr m a -> chains a !! q = Some l -> chains a !! i = Some l' -> q <> i -> n ∈ l -> n ∉ l'.
Proof.
  intros R Hq Hi Hne Hn Hn'. pose proof (hr_nodup _ _ R) as N.
  rewrite (focus _ _ _ Hq), chain_nodes_insert in N by (by rewrite lookup_delete_eq).
  apply NoDup_cons in N as [_ (_ & _ & N)%NoDup_app]. apply NoDup_app in N as (_ & N & _).
  apply (N n Hn). apply (chain_nodes_in _ i l'); [by rewrite lookup_delete_ne|done].
Qed.

Lemma fmap_one m a q l n (F : list Z -> list Z) :
  hrepr m a -> chains a !! q = Some l -> n ∈ l -> (forall l', n ∉ l' -> F l' = l') ->
  F <$> chains a = <[q := F l]> (delete q (chains a)).
Proof.
  intros R Hq Hn HF. rewrite insert_delete_eq. apply map_eq. intros i. rewrite lookup_fmap.
  destruct (decide (q = i)) as [<-|Hi]; [by rewrite lookup_insert_eq, Hq|].
  rewrite lookup_insert_ne by done. destruct (chains a !! i) as [l'|] eqn:E; [|done]. cbn.
  rewrite HF; [done|]. exact (hr_disjoint _ _ _ _ _ _ _ R Hq E Hi Hn).
Qed.

Lemma ins_before_id x n l : x ∉ l -> ins_before x n l = l.
Proof.
  induction l as [|y l IH]; [done|]. intros [H1 H2]%not_elem_of_cons. cbn. rewrite decide_False by done.
  by rewrite IH.
Qed.
Lemma ins_after_id x n l : x ∉ l -> ins_after x n l = l.
Proof.
  induction l as [|y l IH]; [done|]. intros [H1 H2]%not_elem_of_cons. cbn. rewrite decide_False by done.
  by rewrite IH.
Qed.
Lemma ins_before_mid x n l1 l2 : x ∉ l1 -> ins_before x n (l1 ++ x :: l2) = l1 ++ n :: x :: l2.
Proof.
  induction l1 as [|y l1 IH]; cbn; [by rewrite decide_True|]. intros [H1 H2]%not_elem_of_cons.
  rewrite decide_False by done. by rewrite IH.
Qed.
Lemma ins_after_mid x n l1 l2 : x ∉ l1 -> ins_after x n (l1 ++ x :: l2) = l1 ++ x :: n :: l2.
Proof.
  induction l1 as [|y l1 IH]; cbn; [by rewrite decide_True|]. intros [H1 H2]%not_elem_of_cons.
  rewrite decide_False by done. by rewrite IH.
Qed.

Lemma use_spare_ok m n a a' :
  hrepr m a -> use_spare n a = Some a' -> hrepr m (HTable (chains a') (n :: spare a')).
Proof.
  destruct a as [T k]. unfold use_spare. cbn. intros [R1 R2 R3 R4] H. case_decide as Hn; [|done].
  injection H as <-. cbn in *. assert (E : k ≡ₚ n :: filter (.≠ n) k).
  { apply filter_ne_perm; [|done]. apply NoDup_cons in R1 as [_ R1]. by apply NoDup_app in R1 as (? & _). }
  split; cbn; [|intros p|done..].
  - rewrite E in R1. done.
  - rewrite R2, E at 1. done.
Qed.

Lemma spare_field m n : is_Some (hnodes m !! n) -> is_Some (fval m (FNext n)).
Proof. intros [e H]. cbn. rewrite H. by eexists. Qed.

Lemma hadd_head_ok m a q l n :
  hrepr m (HTable (chains a) (n :: spare a)) -> chains a !! q = Some l ->
  exists m', hlist_add_head n q m = Ret (tt, m') /\ hrepr m' (hput q (n :: l) a).
Proof.
  intros R Hq. unfold hput. rewrite <- insert_delete_eq. rewrite (focus _ _ _ Hq) in R.
  set (T := delete q (chains a)) in *. assert (HT : T !! q = None) by apply lookup_delete_eq.
  destruct (first_exists l NULL) as (v & t & E).
  pose proof (hrepr_opened _ T _ q [] l [] (FFirst q) v t HT eq_refl E R) as [_ [G1 G2] _ (Kf & _) (Kv & Hv & _) F].
  destruct (F n) as (Kn & Nn & _ & (N3 & _)); [left|]. pose proof (spare_field _ _ Kn) as Kn'.
  unfold hlist_add_head. repeat hrun. eexists. split; [reflexivity|].
  apply (hinsert_ok m _ T _ q [] l [] (FFirst q) v t n); try done; [htouch|intros..]; by hcomp.
Qed.

Lemma node_field m n v : fval m (FNext n) = Some v -> is_Some (hnodes m !! n).
Proof. cbn. destruct (hnodes m !! n); [by eexists|done]. Qed.

Lemma hdel_ok m T k q l1 n l2 :
  T !! q = None -> hrepr m (HTable (<[q := l1 ++ n :: l2]> T) k) ->
  exists m', __hlist_del n m = Ret (tt, m') /\ hrepr m' (HTable (<[q := l1 ++ l2]> T) (n :: k)).
Proof.
  intros HT R. destruct (last_field q l1) as (s & f & E1), (first_exists l2 NULL) as (v & t & E2).
  pose proof (hrepr_opened m T k q l1 (n :: l2) s f n (v :: t) HT E1 ltac:(cbn; by rewrite E2) R)
    as [_ [G1 G2] G3 (Kf & _ & Hf & Hf') (_ & _ & _ & Hn) _].
  apply Forall2_cons in G3 as [[G3 G4] _]. pose proof (node_field _ _ _ G3) as Kn.
  assert (N0 : n <> NULL).
  { intros ->. pose proof (hr_nodup _ _ R) as [N _]%NoDup_cons. apply N. cbn. rewrite chain_nodes_insert by done. mem. }
  assert (Kv : v <> NULL -> is_Some (hnodes m !! v)).
  { intros Hv. apply G4 in Hv. unfold fprev in Hv. destruct (hnodes m !! v); [by eexists|done]. }
  assert (Hv : v <> NULL -> v ∈ l2).
  { intros Hv. assert (Hl : v ∈ l2 ++ [NULL]) by (rewrite E2; left). mem. }
  assert (Nf : f <> FNext n) by (intros ->; apply Hf; left). specialize (G2 N0).
  unfold __hlist_del. repeat hrun. eexists. split; [reflexivity|].
  apply (hremove_ok m _ T k q l1 l2 s f v t n); try done; [htouch|intros..]; by hcomp.
Qed.

Lemma hadd_before_ok m T k q l1 x l2 n :
  T !! q = None -> hrepr m (HTable (<[q := l1 ++ x :: l2]> T) (n :: k)) ->
  exists m', hlist_add_before n x m = Ret (tt, m') /\ hrepr m' (HTable (<[q := l1 ++ n :: x :: l2]> T) k).
Proof.
  intros HT R. destruct (last_field q l1) as (s & f & E1).
  pose proof (hrepr_opened m T _ q l1 (x :: l2) s f x (l2 ++ [NULL]) HT E1 eq_refl R)
    as [_ [G1 G2] G3 (Kf & _ & _ & Hf) (Kx & _) F].
  assert (N0 : x <> NULL).
  { intros ->. pose proof (hr_nodup _ _ R) as [N _]%NoDup_cons. apply N. cbn. rewrite chain_nodes_insert by done. mem. }
  destruct (F n) as (Kn & Nn & _ & (N3 & N4 & _)); [left|]. pose proof (spare_field _ _ Kn) as Kn'.
  specialize (G2 N0). specialize (Kx N0).
  unfold hlist_add_before. repeat hrun. eexists. split; [reflexivity|].
  apply (hinsert_ok m _ T k q l1 (x :: l2) s f x (l2 ++ [NULL]) n); try done; [htouch|intros..]; by hcomp.
Qed.

Lemma hadd_after_ok m T k q l1 x l2 n :
  T !! q = None -> hrepr m (HTable (<[q := l1 ++ x :: l2]> T) (n :: k)) ->
  exists m', hlist_add_after x n m = Ret (tt, m') /\ hrepr m' (HTable (<[q := l1 ++ x :: n :: l2]> T) k).
Proof.
  intros HT R. rewrite (cons_middle x l1 l2), (assoc_L (++)) in R.
  rewrite (cons_middle x l1 (n :: l2)), (assoc_L (++)).
  destruct (first_exists l2 NULL) as (v & t & E2).
  assert (E1 : FFirst q :: (FNext <$> l1 ++ [x]) = (FFirst q :: (FNext <$> l1)) ++ [FNext x]) by (by rewrite fmap_app).
  pose proof (hrepr_opened m T _ q _ l2 _ (FNext x) v t HT E1 E2 R) as [_ [G1 G2] G3 (Kf & _ & _ & Hf) (Kv & Hv & _) F].
  destruct (F n) as (Kn & Nn & _ & (N3 & N4 & _)); [left|]. pose proof (spare_field _ _ Kn) as Kn'.
  unfold hlist_add_after. repeat hrun. eexists. split; [reflexivity|].
  apply (hinsert_ok m _ T k q (l1 ++ [x]) l2 _ (FNext x) v t n HT E1 E2 R); try done; [htouch|intros..]; by hcomp.
Qed.

Lemma hinit_ok m a q l :
  hrepr m a -> chains a !! q = Some l ->
  exists m', INIT_HLIST_HEAD q m = Ret (tt, m') /\ hrepr m' (HTable (<[q := []]> (chains a)) (l ++ spare a)).
Proof.
  intros R Hq. assert (Kq : is_Some (fval m (FFirst q))) by (apply (hr_heads _ _ R); by eexists).
  unfold INIT_HLIST_HEAD. hrun. eexists. split; [reflexivity|]. rewrite <- insert_delete_eq.
  apply (hrepr_put m _ _ q l _ (spare a)); [by rewrite lookup_delete_eq|rewrite <- (focus _ _ _ Hq); by destruct a|..].
  - htouch.
  - rewrite app_nil_r. solve_Permutation.
  - constructor; [|constructor]. split; [by hcomp|done].
Qed.

Lemma hmove_ok m a p q l :
  hrepr m a -> p <> q -> chains a !! p = Some l -> chains a !! q = Some [] ->
  exists m', hlist_move_list p q m = Ret (tt, m') /\ hrepr m' (hput p [] (hput q l a)).
Proof.
  intros R Hpq Hp Hq. destruct (first_exists l NULL) as (v & t & E).
  assert (Kp : is_Some (fval m (FFirst p))) by (apply (hr_heads _ _ R); by eexists).
  assert (Kq : is_Some (fval m (FFirst q))) by (apply (hr_heads _ _ R); by eexists).
  pose proof (hr_chains _ _ R p l Hp) as G. rewrite (hchain_open _ _ [] l [] (FFirst p) v t eq_refl E) in G.
  destruct G as (_ & [G1 G2] & G3).
  assert (Hv : v <> NULL -> v ∈ l) by (intros Hv; assert (Hl : v ∈ l ++ [NULL]) by (rewrite E; left); mem).
  assert (Kv : v <> NULL -> is_Some (hnodes m !! v)).
  { intros Hv'. apply G2 in Hv'. unfold fprev in Hv'. destruct (hnodes m !! v); [by eexists|done]. }
  assert (Nv : v <> NULL -> v ∉ t).
  { intros Hv0 Ht. pose proof (hr_nodup _ _ R) as N. rewrite (focus _ _ _ Hp), chain_nodes_insert in N
      by (by rewrite lookup_delete_eq). apply NoDup_cons in N as [N0 (_ & _ & (N & _)%NoDup_app)%NoDup_app].
    assert (NL : NoDup (l ++ [NULL])).
    { apply NoDup_app. split_and!; [done| |apply NoDup_singleton]. intros x Hx ->%list_elem_of_singleton. mem. }
    rewrite E in NL. by apply NoDup_cons in NL as [NL _]. }
  unfold hlist_move_list. repeat hrun. eexists. split; [reflexivity|]. unfold hput. cbn [chains spare].
  set (T := delete q (delete p (chains a))).
  assert (ET : chains a = <[p := l]> (<[q := []]> T)) by (by apply focus2).
  assert (ET' : <[p := []]> (<[q := l]> (chains a)) = <[p := []]> (<[q := l]> T)).
  { apply map_eq. intros i. destruct (decide (p = i)) as [<-|]; [by rewrite !lookup_insert_eq|].
    rewrite !(lookup_insert_ne _ p) by done. destruct (decide (q = i)) as [<-|]; [by rewrite !lookup_insert_eq|].
    unfold T. by rewrite !lookup_insert_ne, !lookup_delete_ne. }
  assert (HTp : T !! p = None) by (unfold T; by rewrite lookup_delete_ne, lookup_delete_eq).
  assert (HTq : T !! q = None) by (unfold T; by rewrite lookup_delete_eq). rewrite ET'.
  apply (hrepr_step m _ (chains a) T _ (spare a) _ [p; q] (spare a ++ l)); [by destruct a|htouch|..].
  - rewrite ET, !chain_nodes_insert by (done || by rewrite lookup_insert_ne). solve_Permutation.
  - rewrite !chain_nodes_insert by (done || by rewrite lookup_insert_ne). solve_Permutation.
  - intros i li Hi. rewrite ET, !lookup_insert_ne by congruence. split; [done|].
    intros [->|[->|?%not_elem_of_nil]%elem_of_cons]%elem_of_cons; congruence || done.
  - intros i. rewrite ET, !lookup_insert_is_Some. naive_solver.
  - intros i li Hi. apply lookup_insert_Some in Hi as [[<- <-]|[_ Hi]].
    { left. constructor; [|constructor]. split; [by hcomp|done]. }
    apply lookup_insert_Some in Hi as [[<- <-]|[_ Hi]]; [left|by right].
    rewrite (hchain_open _ _ [] l [] (FFirst q) v t eq_refl E). split_and!; [constructor| |].
    + split; [by hcomp|]. intros Hv0. by hcomp.
    + revert G3. apply hlinks_ext; [intros f (x & -> & _)%list_elem_of_fmap|intros x Hx Hx0].
      * by hcomp.
      * assert (x <> v) by (intros ->; by apply Nv). by hcomp.
Qed.

Lemma spare_touched m m' T k n :
  hrepr m (HTable T (n :: k)) -> htouched [] [n] m m' -> hrepr m' (HTable T (n :: k)).
Proof.
  intros R (N1 & N2 & N3 & N4). eapply (hrepr_step m m' T T T (n :: k) (n :: k) [] (n :: k)); try done.
  - split_and!; [done..| |].
    + intros f Hf. apply N3. intros Hf'. apply Hf. eapply fields_sub; [exact Hf'|]. intros x. mem.
    + intros x Hx. apply N4. mem.
  - intros q l Hq. split; [done|]. apply not_elem_of_nil.
  - by right.
Qed.

Lemma hunlink_ok m a a' n :
  hrepr m a -> hunlink n a = Some a' ->
  (exists f, fprev m n = Some f /\ f <> FNull) /\
  exists m', __hlist_del n m = Ret (tt, m') /\ hrepr m' a' /\ spare a' = n :: spare a.
Proof.
  intros R H. unfold hunlink in H. case_decide as Hn; [|done]. injection H as <-.
  destruct Hn as (q & l & Hq & Hn). pose proof Hn as (l1 & l2 & ->)%list_elem_of_split.
  rewrite (fmap_one m a q _ n _ R Hq Hn (filter_ne_id n)).
  pose proof (hr_nodup _ _ R) as N. rewrite (focus _ _ _ Hq), chain_nodes_insert in N
    by (by rewrite lookup_delete_eq). apply NoDup_cons in N as [N0 (_ & _ & (N & _)%NoDup_app)%NoDup_app].
  rewrite filter_ne_mid by done. split.
  - destruct (last_field q l1) as (s & f & E1). pose proof (hr_chains _ _ R q _ Hq) as G.
    rewrite (hchain_open _ _ l1 (n :: l2) s f n (l2 ++ [NULL]) E1 eq_refl) in G. destruct G as (_ & [G1 G2] & _).
    exists f. split; [apply G2; intros ->; mem|]. by intros ->.
  - destruct (hdel_ok m (delete q (chains a)) (spare a) q l1 n l2) as (m' & E & R'); [by rewrite lookup_delete_eq| |].
    + rewrite <- (focus _ _ _ Hq). by destruct a.
    + by exists m'.
Qed.

Lemma hinsert_in m a n x (F : list Z -> list Z) (c : prog hheap unit) :
  hrepr m (HTable (chains a) (n :: spare a)) -> hashed_in x a -> (forall l', x ∉ l' -> F l' = l') ->
  (forall T k q l1 l2, T !! q = None -> x ∉ l1 -> hrepr m (HTable (<[q := l1 ++ x :: l2]> T) (n :: k)) ->
     exists m', c m = Ret (tt, m') /\ hrepr m' (HTable (<[q := F (l1 ++ x :: l2)]> T) k)) ->
  exists m', c m = Ret (tt, m') /\ hrepr m' (HTable (F <$> chains a) (spare a)).
Proof.
  intros R (q & l & Hq & Hx) HF Hc.
  pose proof (fmap_one m (HTable (chains a) (n :: spare a)) q l x F R Hq Hx HF) as EF. cbn in EF. rewrite EF.
  apply list_elem_of_split in Hx as (l1 & l2 & ->). apply Hc; [by rewrite lookup_delete_eq| |].
  - pose proof (hr_nodup _ _ R) as N. cbn in N. rewrite (focus _ _ _ Hq), chain_nodes_insert in N
      by (by rewrite lookup_delete_eq). apply NoDup_cons in N as [_ (_ & N)%NoDup_cons].
    apply NoDup_app in N as (_ & _ & (N & _)%NoDup_app). by apply nodup_mid in N as [N _].
  - by rewrite <- (focus _ _ _ Hq).
Qed.

Lemma hlist_op_refines o m a a' :
  hrepr m a -> abs_hop o a = Some a' -> exists m', run_hop o m = Ret (tt, m') /\ hrepr m' a'.
Proof.
  intros R H. destruct o as [q|n|n|n q|n x|x n|p q]; cbn [abs_hop run_hop] in *.
  - apply bind_Some in H as (l & Hq & H). injection H as <-. by apply hinit_ok.
  - destruct (hunlink_ok _ _ _ _ R H) as (_ & m1 & E & R1 & Es). destruct a' as [T k]. cbn in Es. subst k.
    assert (Kn : is_Some (hnodes m1 !! n)) by (apply (hr_nodes _ _ R1); left).
    pose proof (spare_field _ _ Kn) as Kn'. unfold hlist_del. rewrite (run_bind _ _ _ _ _ E). repeat hrun.
    eexists. split; [reflexivity|]. eapply spare_touched; [done|]. htouch.
  - destruct (hunlink_ok _ _ _ _ R H) as ((f & Ef & Hf) & m1 & E & R1 & Es). destruct a' as [T k]. cbn in Es. subst k.
    assert (Kn : is_Some (hnodes m1 !! n)) by (apply (hr_nodes _ _ R1); left).
    pose proof (spare_field _ _ Kn) as Kn'. unfold hlist_del_init, hlist_unhashed.
    erewrite run_bind; [|by rewrite (run_bind _ _ _ _ _ (get_pprev_ok _ _ _ Ef))].
    replace (negb _) with true by (by destruct f). rewrite (run_bind _ _ _ _ _ E). unfold INIT_HLIST_NODE.
    repeat hrun. eexists. split; [reflexivity|]. eapply spare_touched; [done|]. htouch.
  - apply bind_Some in H as (a1 & Ha & H). apply bind_Some in H as (l & Hq & H). injection H as <-.
    apply hadd_head_ok; [by eapply use_spare_ok|done].
  - apply bind_Some in H as (a1 & Ha & H). case_decide as Hx; [|done]. injection H as <-.
    apply (hinsert_in _ _ n x); [by eapply use_spare_ok|done|intros; by apply ins_before_id|].
    intros T k q l1 l2 HT Hl R1. rewrite ins_before_mid by done. by apply hadd_before_ok.
  - apply bind_Some in H as (a1 & Ha & H). case_decide as Hx; [|done]. injection H as <-.
    apply (hinsert_in _ _ n x); [by eapply use_spare_ok|done|intros; by apply ins_after_id|].
    intros T k q l1 l2 HT Hl R1. rewrite ins_after_mid by done. by apply hadd_after_ok.
  - case_decide as Hpq; [done|]. apply bind_Some in H as (l & Hp & H).
    destruct (chains a !! q) as [[|]|] eqn:Hq; try done. injection H as <-. by apply hmove_ok.
Qed.
End HRefine.

(** ** Loops over a chain, and sequences of operations *)

Section HLoops.
Context {V : Type}.

Definition hreads (g : Z -> V -> bool * V) : Z -> prog (hheap * V) bool := fun x '(m, v) =>
  Ret ((g x v).1, (m, (g x v).2)).

Lemma hfor_each_ok member g m q l1 l2 u t fuel v :
  hchain m q (l1 ++ l2) -> NULL ∉ l2 -> member ∉ l2 -> (length l2 <= fuel)%nat -> l2 ++ [NULL] = u :: t ->
  hlist_for_each_from member (hreads g) fuel (hlist_entry_safe u member) (m, v)
  = Ret (tt, (m, visit g (entries member l2) v)).
Proof.
  revert l1 u t fuel v. induction l2 as [|x l2 IH]; intros l1 u t fuel v G N0 Nm Hf E; injection E as <- <-.
  { by destruct fuel. }
  apply not_elem_of_cons in N0 as [N0 N0'], Nm as [Nm Nm']. destruct fuel as [|fuel]; [cbn in Hf; lia|].
  assert (Hx : hlist_entry_safe x member = list_entry x member).
  { unfold hlist_entry_safe. rewrite (proj2 (Z.eqb_neq x NULL)) by done. done. }
  rewrite Hx. cbn -[list_entry]. rewrite (proj2 (Z.eqb_neq _ NULL)).
  2: { unfold list_entry, container_of, NULL. lia. }
  unfold mbind, prog_bind. cbn -[list_entry load]. destruct (g (list_entry x member) v) as [[] v']; [done|].
  replace (list_entry x member + member) with x by (unfold list_entry, container_of; lia).
  destruct (first_exists l2 NULL) as (c & t & E), (last_field q l1) as (s & f & E1).
  pose proof G as G'. rewrite (hchain_open _ _ l1 (x :: l2) s f x (c :: t) E1) in G' by (cbn; by rewrite E).
  destruct G' as (_ & _ & [[G1 _] _]%Forall2_cons). cbn -[list_entry load]. rewrite (load_ok _ _ _ G1). cbn -[list_entry load].
  apply (IH (l1 ++ [x]) c t); [by rewrite <- (assoc_L (++))|done..|cbn in Hf; lia|done].
Qed.
End HLoops.

(** The loop that looks for a structure and stops at it. *)
Definition finds (P : Z -> bool) : Z -> option Z -> bool * option Z := fun x r =>
  if P x then (true, Some x) else (false, r).

Lemma visit_finds P l : visit (finds P) l None = List.find P l.
Proof. induction l as [|x l IH]; [done|]. cbn. unfold finds at 1. destruct (P x); [done|]. exact IH. Qed.

Fixpoint run_hops (ops : list hlist_op) : prog hheap unit :=
  match ops with [] => mret tt | o :: ops => _ ← run_hop o; run_hops ops end.
Fixpoint abs_hops (ops : list hlist_op) (a : htable_t) : option htable_t :=
  match ops with [] => Some a | o :: ops => a ← abs_hop o a; abs_hops ops a end.

Lemma run_hops_ok ops m a a' :
  hrepr m a -> abs_hops ops a = Some a' -> exists m', run_hops ops m = Ret (tt, m') /\ hrepr m' a'.
Proof.
  revert m a. induction ops as [|o ops IH]; intros m a R H.
  - injection H as <-. by exists m.
  - cbn in H. apply bind_Some in H as (a1 & H1 & H). destruct (hlist_op_refines _ _ _ _ R H1) as (m1 & E & R1).
    cbn. rewrite (run_bind _ _ _ _ _ E). by apply (IH _ a1).
Qed.

Module HListProps.

(** A table of two empty chains, and three nodes. *)
Definition ex_hheap : hheap :=
  HHeap {[10 := 0; 20 := 0]} (list_to_map ((fun p => (p, HNode 0 FNull)) <$> [1; 2; 3])).
Definition ex_table : htable_t := HTable {[10 := []; 20 := []]} [1; 2; 3].
Definition ex_hops : list hlist_op :=
  [Op_INIT_HLIST_HEAD 10; Op_hlist_add_head 1 10; Op_hlist_add_head 2 10; Op_hlist_del 1;
   Op_hlist_add_after 2 1; Op_hlist_add_before 3 1; Op_hlist_move_list 10 20; Op_hlist_del_init 2].

Lemma ex_hrepr : hrepr ex_hheap ex_table.
Proof.
  split.
  - apply (bool_decide_unpack _). by vm_compute.
  - intros p. replace (spare ex_table ++ chain_nodes (chains ex_table)) with [1; 2; 3] by (by vm_compute).
    unfold ex_hheap. cbn [hnodes]. rewrite <- elem_of_dom, dom_list_to_map, elem_of_list_to_set, <- list_fmap_compose.
    by rewrite list_fmap_id.
  - intros q. unfold ex_hheap, ex_table. cbn [hheads chains].
    destruct (decide (10 = q)) as [<-|]; [rewrite !lookup_insert_eq; split; by eexists|].
    rewrite !lookup_insert_ne by done.
    destruct (decide (20 = q)) as [<-|]; [rewrite !lookup_singleton_eq; split; by eexists|].
    rewrite !lookup_singleton_ne by done. split; by intros [? ?].
  - intros q l H. unfold ex_table in H. cbn [chains] in H.
    apply lookup_insert_Some in H as [[<- <-]|[_ H]]; [|apply lookup_singleton_Some in H as [<- <-]];
      (constructor; [by split|constructor]).
Qed.

(** C24: the hash chains of [spy_list.h] implement a table of lists.  Any sequence
    of additions (at the head of a chain, before or after a node), deletions and
    moves makes only defined accesses, keeps every back pointer on the field that
    points at its node, and leaves the chains the same sequence gives on lists.
    The chunk index and the file index are such tables. *)
Theorem hlist_ops_refine ops m a a' :
  hrepr m a -> abs_hops ops a = Some a' -> exists m', run_hops ops m = Ret (tt, m') /\ hrepr m' a'.
Proof. apply run_hops_ok. Qed.

Lemma hlist_ops_refine_witness :
  exists m', run_hops ex_hops ex_hheap = Ret (tt, m') /\
    hrepr m' (HTable {[10 := []; 20 := [3; 1]]} [2]).
Proof. apply (hlist_ops_refine ex_hops ex_hheap ex_table); [exact ex_hrepr|]. vm_compute. reflexivity. Defined.

(** [hlist_for_each_entry] visits the structures of a chain in order up to the
    one that ends the loop, ends within as many rounds as the chain has nodes, and
    leaves the chain as it is; the look-up loop of the index, which stops at the
    first structure that matches, finds what a search of the list finds.  (No
    structure is at address 0, which would end the loop.) *)
Theorem hlist_loop_visits {V} member (g : Z -> V -> bool * V) P m a q l fuel v :
  hrepr m a -> chains a !! q = Some l -> member ∉ l -> (length l <= fuel)%nat ->
  hlist_for_each_entry member (hreads g) q fuel (m, v) = Ret (tt, (m, visit g (entries member l) v)) /\
  hlist_for_each_entry member (hreads (finds P)) q fuel (m, None)
    = Ret (tt, (m, List.find P (entries member l))).
Proof.
  intros R Hq Hm Hf. destruct (first_exists l NULL) as (u & t & E). pose proof (hr_chains _ _ R q l Hq) as G.
  assert (N0 : NULL ∉ l).
  { pose proof (hr_nodup _ _ R) as [N _]%NoDup_cons. intros Hn. apply N. apply elem_of_app. right.
    by eapply chain_nodes_in. }
  assert (Hl : load (FFirst q) m = Ret (u, m)).
  { apply load_ok. rewrite (hchain_open _ _ [] l [] (FFirst q) u t eq_refl E) in G. apply G. }
  rewrite <- visit_finds. split; unfold hlist_for_each_entry.
  all: erewrite run_bind; [by eapply (hfor_each_ok _ _ _ q [] l u t)|unfold on_hheap; by rewrite Hl].
Qed.

Lemma hlist_loop_visits_witness :
  exists m, hrepr m (HTable {[10 := []; 20 := [3; 1]]} [2]) /\
    hlist_for_each_entry (-8) (hreads (finds Z.odd)) 20 2 (m, None) = Ret (tt, (m, Some 11)).
Proof.
  destruct (run_hops_ok ex_hops ex_hheap ex_table _ ex_hrepr ltac:(vm_compute; reflexivity)) as (m & _ & R).
  exists m. split; [exact R|].
  apply (hlist_loop_visits (-8) (finds Z.odd) Z.odd m _ 20 [3; 1] 2 None R); [reflexivity| |cbn; lia].
  apply (bool_decide_unpack _). vm_compute. exact I.
Defined.

End HListProps.
