(* ===== verification/ListIter.v ===== *)
(** * ListIter: the other loops of [spy_list.h]

    [spy_list.h] brings a family of loop macros along of which the server uses
    four ([LinkedList.v], [HList.v]).  The others: loops over bare nodes, loops that
    start in the middle of a list, loops backwards, and those that allow the
    visited node to be deleted. *)

From S2P Require Import Prelude LinkedList ListRefine HList.

Module ListIter.

(** [LIST_HEAD_INIT(name)], [LIST_HEAD(name)] and [HLIST_HEAD_INIT] *)
Definition LIST_HEAD_INIT (name : Z) : list_head := ListHead name name.
Definition LIST_HEAD (name : Z) (h : lheap) : lheap := <[name := LIST_HEAD_INIT name]> h.
Definition HLIST_HEAD_INIT : Z := NULL.
Definition HLIST_HEAD (name : Z) (m : hheap) : hheap := HHeap (<[name := HLIST_HEAD_INIT]> (hheads m)) (hnodes m).

Definition list_first_entry_or_null (ptr member : Z) : prog lheap Z :=
  e ← list_empty ptr;
  if negb e then list_first_entry ptr member else mret NULL.

(** [(pos) ? : list_entry(head, typeof( *pos), member)] *)
Definition list_prepare_entry (pos head member : Z) : Z :=
  if negb (pos =? NULL) then pos else list_entry head member.

(** [n = list_next_entry(pos, member)] *)
Definition list_safe_reset_next (pos member : Z) : prog lheap Z := list_next_entry pos member.

(** A loop that reads the node to go to before the body runs. *)
Section Safe.
Context {V : Type} (member head : Z) (body : Z -> prog (lheap * V) bool) (step : Z -> prog lheap Z).

Fixpoint safe_from (fuel : nat) (pos n : Z) : prog (lheap * V) unit :=
  if pos + member =? head then mret tt
  else match fuel with
       | O => fun _ => Wait
       | S fuel =>
           stop ← body pos;
           if stop : bool then mret tt
           else n' ← on_heap (step n); safe_from fuel n n'
       end.
End Safe.

(** A bare node is a structure with its node at offset 0. *)
Section Nodes.
Context {V : Type} (head : Z) (body : Z -> prog (lheap * V) bool) (fuel : nat).

Definition list_for_each : prog (lheap * V) unit :=
  pos ← on_heap (get_next head); for_each_from 0 head body (fun pos _ => get_next pos) fuel pos.
Definition list_for_each_prev : prog (lheap * V) unit :=
  pos ← on_heap (get_prev head); for_each_from 0 head body (fun pos _ => get_prev pos) fuel pos.
Definition list_for_each_safe : prog (lheap * V) unit :=
  pos ← on_heap (get_next head); n ← on_heap (get_next pos); safe_from 0 head body get_next fuel pos n.
Definition list_for_each_prev_safe : prog (lheap * V) unit :=
  pos ← on_heap (get_prev head); n ← on_heap (get_prev pos); safe_from 0 head body get_prev fuel pos n.
End Nodes.

Section Entries.
Context {V : Type} (member head : Z) (body : Z -> prog (lheap * V) bool) (fuel : nat).

Definition list_for_each_entry_from (pos : Z) : prog (lheap * V) unit :=
  for_each_from member head body list_next_entry fuel pos.
Definition list_for_each_entry_continue (pos : Z) : prog (lheap * V) unit :=
  pos ← on_heap (list_next_entry pos member); for_each_from member head body list_next_entry fuel pos.
Definition list_for_each_entry_continue_reverse (pos : Z) : prog (lheap * V) unit :=
  pos ← on_heap (list_prev_entry pos member); for_each_from member head body list_prev_entry fuel pos.
Definition list_for_each_entry_safe_from (pos : Z) : prog (lheap * V) unit :=
  n ← on_heap (list_next_entry pos member); for_each_safe_from member head body fuel pos n.
Definition list_for_each_entry_safe_continue (pos : Z) : prog (lheap * V) unit :=
  pos ← on_heap (list_next_entry pos member);
  n ← on_heap (list_next_entry pos member);
  for_each_safe_from member head body fuel pos n.
Definition list_for_each_entry_safe_reverse : prog (lheap * V) unit :=
  pos ← on_heap (list_last_entry head member);
  n ← on_heap (list_prev_entry pos member);
  safe_from member head body (fun n => list_prev_entry n member) fuel pos n.
End Entries.

(** Hash chains.  [hlist_add_fake]: [n->pprev = &n->next]. *)
Definition hlist_entry (ptr member : Z) : Z := container_of ptr member.
Definition hlist_add_fake (n : Z) : prog hheap unit := set_pprev n (FNext n).

Section Chains.
Context {V : Type} (member : Z) (body : Z -> prog (hheap * V) bool).

(** [pos && ({ n = pos->member.next; 1; })]: the next node is read first. *)
Fixpoint hsafe_from (fuel : nat) (pos : Z) : prog (hheap * V) unit :=
  if pos =? NULL then mret tt
  else match fuel with
       | O => fun _ => Wait
       | S fuel =>
           n ← on_hheap (load (FNext (pos + member)));
           stop ← body pos;
           if stop : bool then mret tt else hsafe_from fuel (hlist_entry_safe n member)
       end.

Definition hlist_for_each_entry_safe (head : Z) (fuel : nat) : prog (hheap * V) unit :=
  v ← on_hheap (load (FFirst head)); hsafe_from fuel (hlist_entry_safe v member).
Definition hlist_for_each_entry_continue (fuel : nat) (pos : Z) : prog (hheap * V) unit :=
  n ← on_hheap (load (FNext (pos + member))); hlist_for_each_from member body fuel (hlist_entry_safe n member).
Definition hlist_for_each_entry_from (fuel : nat) (pos : Z) : prog (hheap * V) unit :=
  hlist_for_each_from member body fuel pos.
End Chains.

Section HNodes.
Context {V : Type} (body : Z -> prog (hheap * V) bool) (head : Z) (fuel : nat).

(** [for (pos = (head)->first; pos; pos = pos->next)] *)
Fixpoint hnodes_from (fuel : nat) (pos : Z) : prog (hheap * V) unit :=
  if pos =? NULL then mret tt
  else match fuel with
       | O => fun _ => Wait
       | S fuel =>
           stop ← body pos;
           if stop : bool then mret tt
           else n ← on_hheap (load (FNext pos)); hnodes_from fuel n
       end.
Fixpoint hnodes_safe_from (fuel : nat) (pos : Z) : prog (hheap * V) unit :=
  if pos =? NULL then mret tt
  else match fuel with
       | O => fun _ => Wait
       | S fuel =>
           n ← on_hheap (load (FNext pos));
           stop ← body pos;
           if stop : bool then mret tt else hnodes_safe_from fuel n
       end.

Definition hlist_for_each : prog (hheap * V) unit :=
  v ← on_hheap (load (FFirst head)); hnodes_from fuel v.
Definition hlist_for_each_safe : prog (hheap * V) unit :=
  v ← on_hheap (load (FFirst head)); hnodes_safe_from fuel v.
End HNodes.

End ListIter.
Export ListIter.

(** ** Loops that only read *)

Section Reading.
Context {V : Type} (member : Z) (g : Z -> V -> bool * V) (h : lheap) (a : lists_t) (q : Z).
Hypothesis R : repr h a.

(** From a node, after it, and before it. *)
Lemma entry_from_ok l1 x l2 fuel v :
  lists a !! q = Some (l1 ++ x :: l2) -> (length (x :: l2) <= fuel)%nat ->
  list_for_each_entry_from member q (reads g) fuel (list_entry x member) (h, v)
  = Ret (tt, (h, visit g (entries member (x :: l2)) v)).
Proof. intros Hq Hf. by eapply for_each_next_ok. Qed.

Lemma entry_continue_ok l1 x l2 fuel v :
  lists a !! q = Some (l1 ++ x :: l2) -> (length l2 <= fuel)%nat ->
  list_for_each_entry_continue member q (reads g) fuel (list_entry x member) (h, v)
  = Ret (tt, (h, visit g (entries member l2) v)).
Proof.
  intros Hq Hf. destruct (first_exists l2 q) as (b & t & E). unfold list_for_each_entry_continue.
  erewrite run_bind; [|apply run_on_heap, next_entry_ok; by eapply node_next].
  eapply (for_each_next_ok member g h a q fuel (l1 ++ [x])); [done|by rewrite <- (assoc_L (++))|done|done].
Qed.

Lemma entry_continue_reverse_ok l1 x l2 fuel v :
  lists a !! q = Some (l1 ++ x :: l2) -> (length l1 <= fuel)%nat ->
  list_for_each_entry_continue_reverse member q (reads g) fuel (list_entry x member) (h, v)
  = Ret (tt, (h, visit g (entries member (reverse l1)) v)).
Proof.
  intros Hq Hf. destruct (last_exists q l1) as (s & z & E). unfold list_for_each_entry_continue_reverse.
  erewrite run_bind; [|apply run_on_heap, prev_entry_ok; by eapply node_prev].
  by eapply (for_each_prev_ok member g h a q fuel l1 (x :: l2)).
Qed.
End Reading.

(** ** Bare nodes are structures with offset 0 *)

Section Zero.
Context {V : Type} (body : Z -> prog (lheap * V) bool) (head : Z).

Lemma next_entry_0 pos h : list_next_entry pos 0 h = get_next pos h.
Proof.
  unfold list_next_entry, list_entry, container_of, mbind, prog_bind. rewrite Z.add_0_r.
  destruct (get_next pos h) as [[n h']| | | |]; cbn; [|done..]. by rewrite Z.sub_0_r.
Qed.
Lemma prev_entry_0 pos h : list_prev_entry pos 0 h = get_prev pos h.
Proof.
  unfold list_prev_entry, list_entry, container_of, mbind, prog_bind. rewrite Z.add_0_r.
  destruct (get_prev pos h) as [[n h']| | | |]; cbn; [|done..]. by rewrite Z.sub_0_r.
Qed.

Lemma for_each_step_ext member (s1 s2 : Z -> Z -> prog lheap Z) fuel pos x :
  (forall p h, s1 p member h = s2 p member h) ->
  for_each_from member head body s1 fuel pos x = for_each_from member head body s2 fuel pos x.
Proof.
  intros E. revert pos x. induction fuel as [|fuel IH]; intros pos x; cbn; destruct (_ =? _); try done.
  unfold mbind, prog_bind. destruct (body pos x) as [[[] [h v]]| | | |]; try done. cbn. rewrite E.
  destruct (s2 pos member h) as [[n h']| | | |]; cbn; [apply IH|done..].
Qed.
Lemma safe_step_ext member (s1 s2 : Z -> prog lheap Z) fuel pos n x :
  (forall p h, s1 p h = s2 p h) ->
  safe_from member head body s1 fuel pos n x = safe_from member head body s2 fuel pos n x.
Proof.
  intros E. revert pos n x. induction fuel as [|fuel IH]; intros pos n x; cbn; destruct (_ =? _); try done.
  unfold mbind, prog_bind. destruct (body pos x) as [[[] [h v]]| | | |]; try done. cbn. rewrite E.
  destruct (s2 n h) as [[n' h']| | | |]; cbn; [apply IH|done..].
Qed.
Lemma safe_from_next member fuel pos n x :
  for_each_safe_from member head body fuel pos n x
  = safe_from member head body (fun p => list_next_entry p member) fuel pos n x.
Proof. revert pos n x. induction fuel; done. Qed.

Lemma bare_forward fuel x :
  list_for_each head body fuel x = list_for_each_entry 0 head body fuel x.
Proof.
  unfold list_for_each, list_for_each_entry, list_first_entry, on_heap, mbind, prog_bind. destruct x as [h v].
  destruct (get_next head h) as [[n h']| | | |]; cbn; [|done..]. unfold list_entry, container_of. rewrite Z.sub_0_r.
  apply for_each_step_ext. intros p m. symmetry. apply next_entry_0.
Qed.
Lemma bare_backward fuel x :
  list_for_each_prev head body fuel x = list_for_each_entry_reverse 0 head body fuel x.
Proof.
  unfold list_for_each_prev, list_for_each_entry_reverse, list_last_entry, on_heap, mbind, prog_bind. destruct x as [h v].
  destruct (get_prev head h) as [[n h']| | | |]; cbn; [|done..]. unfold list_entry, container_of. rewrite Z.sub_0_r.
  apply for_each_step_ext. intros p m. symmetry. apply prev_entry_0.
Qed.
Lemma bare_safe fuel x :
  list_for_each_safe head body fuel x = list_for_each_entry_safe 0 head body fuel x.
Proof.
  unfold list_for_each_safe, list_for_each_entry_safe, list_first_entry, on_heap, mbind, prog_bind. destruct x as [h v].
  destruct (get_next head h) as [[n h']| | | |]; cbn; [|done..]. unfold list_entry, container_of. rewrite Z.sub_0_r.
  rewrite next_entry_0. destruct (get_next n h') as [[n' h2]| | | |]; cbn; [|done..].
  rewrite safe_from_next. apply safe_step_ext. intros p m. symmetry. apply next_entry_0.
Qed.
Lemma bare_prev_safe fuel x :
  list_for_each_prev_safe head body fuel x = list_for_each_entry_safe_reverse 0 head body fuel x.
Proof.
  unfold list_for_each_prev_safe, list_for_each_entry_safe_reverse, list_last_entry, on_heap, mbind, prog_bind.
  destruct x as [h v].
  destruct (get_prev head h) as [[n h']| | | |]; cbn; [|done..]. unfold list_entry, container_of. rewrite Z.sub_0_r.
  rewrite prev_entry_0. destruct (get_prev n h') as [[n' h2]| | | |]; cbn; [|done..].
  apply safe_step_ext. intros p m. symmetry. apply prev_entry_0.
Qed.
End Zero.

(** ** Loops that delete *)

Section Deleting.
Context {V : Type} (member : Z) (g : Z -> V -> bool * V) (q : Z).
Implicit Types (h : lheap) (a : lists_t) (l : list Z).

(** From a node on, and after it. *)
Lemma safe_from_ok h a l1 x l2 fuel v :
  repr h a -> lists a !! q = Some (l1 ++ x :: l2) -> (length (x :: l2) <= fuel)%nat ->
  let '(l', k, v') := sweep member g (x :: l2) (loose a) v in
  exists h', list_for_each_entry_safe_from member q (deletes member g) fuel (list_entry x member) (h, v)
    = Ret (tt, (h', v')) /\ repr h' (Lists (<[q := l1 ++ l']> (lists a)) k).
Proof.
  intros R Hq Hf. destruct (first_exists l2 q) as (b & t & E).
  pose proof (for_each_safe_ok member g q fuel h a l1 (x :: l2) x (l2 ++ [q]) (list_entry b member) v R Hq Hf eq_refl) as H.
  destruct (sweep member g (x :: l2) (loose a) v) as [[l' k] v'].
  destruct H as (h' & Eh & Rh).
  { intros y l c u [= <- <-] Ec. rewrite E in Ec. by injection Ec as <- _. }
  exists h'. split; [|done]. unfold list_for_each_entry_safe_from.
  erewrite run_bind; [exact Eh|]. apply run_on_heap, next_entry_ok. by eapply node_next.
Qed.

Lemma safe_continue_ok h a l1 x l2 fuel v :
  repr h a -> lists a !! q = Some (l1 ++ x :: l2) -> (length l2 <= fuel)%nat ->
  let '(l', k, v') := sweep member g l2 (loose a) v in
  exists h', list_for_each_entry_safe_continue member q (deletes member g) fuel (list_entry x member) (h, v)
    = Ret (tt, (h', v')) /\ repr h' (Lists (<[q := l1 ++ x :: l']> (lists a)) k).
Proof.
  intros R Hq Hf. destruct (first_exists l2 q) as (b & t & E).
  assert (Hq1 : lists a !! q = Some ((l1 ++ [x]) ++ l2)) by (by rewrite <- (assoc_L (++))).
  destruct (following h a q _ l2 b t R Hq1 E) as (n & En & Hn).
  pose proof (for_each_safe_ok member g q fuel h a _ l2 b t (list_entry n member) v R Hq1 Hf E) as H.
  destruct (sweep member g l2 (loose a) v) as [[l' k] v'].
  destruct H as (h' & Eh & Rh); [intros y w c u -> Ec; f_equal; by eapply Hn|]. rewrite <- (assoc_L (++)) in Rh.
  exists h'. split; [|done]. unfold list_for_each_entry_safe_continue.
  erewrite run_bind; [|apply run_on_heap, next_entry_ok; by eapply node_next].
  erewrite run_bind; [exact Eh|]. by apply run_on_heap, next_entry_ok.
Qed.

(** Backwards: the node before the last one of a prefix, which may be the head. *)
Lemma preceding h a l1 l2 s c :
  repr h a -> lists a !! q = Some (l1 ++ l2) -> q :: l1 = s ++ [c] ->
  exists n, prv h c = Some n /\ (forall x l d u, l1 = l ++ [x] -> q :: l = u ++ [d] -> n = d).
Proof.
  intros R Hq E. destruct l1 as [|x l1 _] using rev_ind.
  - apply (app_inj_tail [] s) in E as [<- <-]. destruct (last_exists q ([] ++ l2)) as (u & d & E).
    exists d. split; [by eapply head_prev|]. by intros x [|] d' u'.
  - apply (app_inj_tail (q :: l1) s) in E as [<- <-]. destruct (last_exists q l1) as (u & d & E). exists d.
    rewrite <- (assoc_L (++)) in Hq. split; [by eapply node_prev|].
    intros y l d' u' [-> ->]%app_inj_tail. rewrite E. by intros [_ <-]%app_inj_tail.
Qed.

Lemma safe_reverse_loop fuel h a l1 l2 s b n v :
  repr h a -> lists a !! q = Some (l1 ++ l2) -> (length l1 <= fuel)%nat -> q :: l1 = s ++ [b] ->
  (forall x l c u, l1 = l ++ [x] -> q :: l = u ++ [c] -> n = list_entry c member) ->
  let '(l', k, v') := sweep member g (reverse l1) (loose a) v in
  exists h', safe_from member q (deletes member g) (fun n => list_prev_entry n member) fuel (list_entry b member) n (h, v)
    = Ret (tt, (h', v')) /\ repr h' (Lists (<[q := reverse l' ++ l2]> (lists a)) k).
Proof.
  revert fuel h a l2 s b n v. induction l1 as [|x l1 IH] using rev_ind; intros fuel h a l2 s b n v R Hq Hf E Hn.
  { apply (app_inj_tail [] s) in E as [<- <-]. exists h. cbn -[list_entry]. rewrite insert_id by done.
    split; [|by destruct a]. destruct fuel; cbn -[list_entry]; by rewrite at_entry, Z.eqb_refl. }
  apply (app_inj_tail (q :: l1) s) in E as [<- <-]. rewrite length_app in Hf. cbn in Hf.
  destruct fuel as [|fuel]; [lia|]. rewrite <- (assoc_L (++)) in Hq. cbn [app] in Hq.
  rewrite reverse_snoc. cbn -[list_entry].
  rewrite at_entry, (proj2 (Z.eqb_neq x q)) by (eapply node_not_head; [done..|mem]).
  destruct (last_exists q l1) as (u & c & E). rewrite (Hn x l1 c u eq_refl E).
  unfold mbind, prog_bind. unfold deletes at 1. destruct (g (list_entry x member) v) as [[] v1].
  - replace (list_entry x member + member) with x by (unfold list_entry, container_of; lia).
    destruct (list_del_ok _ _ _ _ R (take_out_lists _ _ _ _ _ _ R Hq)) as (h1 & E1 & R1). cbn in R1.
    rewrite E1. cbn -[list_entry].
    assert (Hq1 : lists (Lists (<[q := l1 ++ l2]> (lists a)) (x :: loose a)) !! q = Some (l1 ++ l2))
      by (cbn; by rewrite lookup_insert_eq).
    destruct (preceding h1 _ l1 l2 u c R1 Hq1 E) as (n' & En & Hn').
    rewrite (prev_entry_ok _ _ _ n') by done. cbn -[list_entry].
    pose proof (IH fuel h1 _ l2 u c (list_entry n' member) v1 R1 Hq1 ltac:(lia) E) as HI. cbn in HI.
    destruct (sweep member g (reverse l1) (x :: loose a) v1) as [[l' k'] v']. destruct HI as (h' & Eh & Rh).
    + intros y l d w -> Ed. f_equal. by eapply Hn'.
    + exists h'. split; [done|]. by rewrite insert_insert_eq in Rh.
  - destruct (preceding h a l1 (x :: l2) u c R Hq E) as (n' & En & Hn'). unfold on_heap.
    rewrite (prev_entry_ok _ _ _ n') by done. cbn -[list_entry].
    pose proof (IH fuel h a (x :: l2) u c (list_entry n' member) v1 R Hq ltac:(lia) E) as HI.
    destruct (sweep member g (reverse l1) (loose a) v1) as [[l' k'] v']. destruct HI as (h' & Eh & Rh).
    + intros y l d w -> Ed. f_equal. by eapply Hn'.
    + exists h'. split; [done|]. by rewrite reverse_cons, <- (assoc_L (++)).
Qed.

Lemma safe_reverse_ok h a l fuel v :
  repr h a -> lists a !! q = Some l -> (length l <= fuel)%nat ->
  let '(l', k, v') := sweep member g (reverse l) (loose a) v in
  exists h', list_for_each_entry_safe_reverse member q (deletes member g) fuel (h, v) = Ret (tt, (h', v')) /\
    repr h' (Lists (<[q := reverse l']> (lists a)) k).
Proof.
  intros R Hq Hf. destruct (last_exists q l) as (s & b & E).
  assert (Hq1 : lists a !! q = Some (l ++ [])) by (by rewrite app_nil_r).
  destruct (preceding h a l [] s b R Hq1 E) as (n & En & Hn).
  pose proof (safe_reverse_loop fuel h a l [] s b (list_entry n member) v R Hq1 Hf E) as H.
  destruct (sweep member g (reverse l) (loose a) v) as [[l' k] v'].
  destruct H as (h' & Eh & Rh); [intros x w c u -> Ec; f_equal; by eapply Hn|]. rewrite app_nil_r in Rh.
  exists h'. split; [|done]. unfold list_for_each_entry_safe_reverse, list_last_entry.
  erewrite run_bind.
  - erewrite run_bind; [exact Eh|]. by apply run_on_heap, prev_entry_ok.
  - apply run_on_heap. by rewrite (run_bind _ _ _ _ _ (get_prev_ok _ _ _ (head_prev _ _ _ _ _ _ R Hq E))).
Qed.
End Deleting.

(** ** Loops over chains *)

Section ChainLoops.
Context {V : Type} (q : Z).
Implicit Types (m : hheap) (a : htable_t) (l : list Z).

Lemma chain_not_null m a l : hrepr m a -> chains a !! q = Some l -> NULL ∉ l.
Proof.
  intros R Hq Hn. pose proof (hr_nodup _ _ R) as [N _]%NoDup_cons. apply N. apply elem_of_app. right.
  by eapply chain_nodes_in.
Qed.

(** The node after [x] on its chain. *)
Lemma chain_next m a l1 x l2 c t :
  hrepr m a -> chains a !! q = Some (l1 ++ x :: l2) -> l2 ++ [NULL] = c :: t -> load (FNext x) m = Ret (c, m).
Proof.
  intros R Hq E. pose proof (hr_chains _ _ R q _ Hq) as G. destruct (last_field q l1) as (s & f & E1).
  rewrite (hchain_open _ _ l1 (x :: l2) s f x (c :: t) E1) in G by (cbn; by rewrite E).
  destruct G as (_ & _ & [[G _] _]%Forall2_cons). by apply load_ok.
Qed.

Lemma entry_safe_node x member : x <> NULL -> hlist_entry_safe x member = list_entry x member.
Proof. intros H. unfold hlist_entry_safe. by rewrite (proj2 (Z.eqb_neq x NULL)). Qed.
Lemma entry_not_null x member : x <> member -> (list_entry x member =? NULL) = false.
Proof. intros H. apply Z.eqb_neq. unfold list_entry, container_of, NULL. lia. Qed.

(** From a node on, and after it. *)
Lemma chain_from_ok member (g : Z -> V -> bool * V) m a l1 x l2 fuel v :
  hrepr m a -> chains a !! q = Some (l1 ++ x :: l2) -> member ∉ x :: l2 -> (length (x :: l2) <= fuel)%nat ->
  hlist_for_each_entry_from member (hreads g) fuel (list_entry x member) (m, v)
    = Ret (tt, (m, visit g (entries member (x :: l2)) v)) /\
  hlist_for_each_entry_continue member (hreads g) fuel (list_entry x member) (m, v)
    = Ret (tt, (m, visit g (entries member l2) v)).
Proof.
  intros R Hq Hm Hf. pose proof (chain_not_null _ _ _ R Hq) as N. pose proof (hr_chains _ _ R q _ Hq) as G.
  destruct (first_exists l2 NULL) as (c & t & E). apply not_elem_of_app in N as [_ N]. split.
  - unfold hlist_for_each_entry_from. rewrite <- entry_safe_node by (intros ->; apply N; left).
    by eapply (hfor_each_ok member g m q l1 (x :: l2) x).
  - unfold hlist_for_each_entry_continue. replace (list_entry x member + member) with x by (unfold list_entry, container_of; lia).
    erewrite run_bind; [|unfold on_hheap; by rewrite (chain_next m a l1 x l2 c t R Hq E)].
    eapply (hfor_each_ok member g m q (l1 ++ [x]) l2 c t); [by rewrite <- (assoc_L (++))|set_solver..|cbn in Hf; lia|done].
Qed.

(** The body of a loop that takes the structures [g] picks off their chain. *)
Definition hdeletes (member : Z) (g : Z -> V -> bool * V) : Z -> prog (hheap * V) bool := fun x '(m, v) =>
  let '(del, v) := g x v in
  if del : bool then '(_, m) ← hlist_del (x + member) m; Ret (false, (m, v)) else Ret (false, (m, v)).

Lemma chain_del m a l1 x l2 :
  hrepr m a -> chains a !! q = Some (l1 ++ x :: l2) ->
  exists m', hlist_del x m = Ret (tt, m') /\ hrepr m' (HTable (<[q := l1 ++ l2]> (chains a)) (x :: spare a)).
Proof.
  intros R Hq. assert (Hx : x ∈ l1 ++ x :: l2) by mem.
  assert (H : abs_hop (Op_hlist_del x) a = Some (HTable (<[q := l1 ++ l2]> (chains a)) (x :: spare a))).
  { cbn. unfold hunlink. rewrite decide_True by (by exists q, (l1 ++ x :: l2)).
    rewrite (fmap_one m a q _ x _ R Hq Hx (filter_ne_id x)), insert_delete_eq. do 3 f_equal.
    pose proof (hr_nodup _ _ R) as N. rewrite (focus _ _ _ Hq), chain_nodes_insert in N
      by (by rewrite lookup_delete_eq). apply NoDup_cons in N as [_ (_ & _ & (N & _)%NoDup_app)%NoDup_app].
    by apply filter_ne_mid. }
  exact (hlist_op_refines _ _ _ _ R H).
Qed.

Lemma hsafe_loop member (g : Z -> V -> bool * V) l2 fuel m a l1 u t v :
  hrepr m a -> chains a !! q = Some (l1 ++ l2) -> member ∉ l2 -> (length l2 <= fuel)%nat -> l2 ++ [NULL] = u :: t ->
  let '(l', k, v') := sweep member g l2 (spare a) v in
  exists m', hsafe_from member (hdeletes member g) fuel (hlist_entry_safe u member) (m, v) = Ret (tt, (m', v')) /\
    hrepr m' (HTable (<[q := l1 ++ l']> (chains a)) k).
Proof.
  revert fuel m a l1 u t v. induction l2 as [|x l2 IH]; intros fuel m a l1 u t v R Hq Hm Hf E; injection E as <- <-.
  { exists m. rewrite insert_id by done. split; [by destruct fuel|by destruct a]. }
  pose proof (chain_not_null _ _ _ R Hq) as N. apply not_elem_of_app in N as [_ [N0 _]%not_elem_of_cons].
  apply not_elem_of_cons in Hm as [Hm0 Hm]. destruct fuel as [|fuel]; [cbn in Hf; lia|].
  rewrite entry_safe_node by done. cbn -[list_entry load hlist_del]. rewrite entry_not_null by done.
  destruct (first_exists l2 NULL) as (c & t & E). unfold mbind, prog_bind.
  replace (list_entry x member + member) with x by (unfold list_entry, container_of; lia).
  unfold on_hheap at 1. rewrite (chain_next m a l1 x l2 c t R Hq E). cbn -[list_entry hlist_del].
  unfold hdeletes at 1. destruct (g (list_entry x member) v) as [[] v1].
  - replace (list_entry x member + member) with x by (unfold list_entry, container_of; lia).
    destruct (chain_del m a l1 x l2 R Hq) as (m1 & E1 & R1). rewrite E1. cbn -[list_entry].
    pose proof (IH fuel m1 _ l1 c t v1 R1) as HI. cbn in HI. rewrite lookup_insert_eq in HI.
    specialize (HI eq_refl Hm ltac:(cbn in Hf; lia) E).
    destruct (sweep member g l2 (x :: spare a) v1) as [[l' k'] v']. destruct HI as (m' & Em & Rm).
    exists m'. split; [done|]. by rewrite insert_insert_eq in Rm.
  - assert (Hq1 : chains a !! q = Some ((l1 ++ [x]) ++ l2)) by (by rewrite <- (assoc_L (++))).
    pose proof (IH fuel m a _ c t v1 R Hq1 Hm ltac:(cbn in Hf; lia) E) as HI.
    destruct (sweep member g l2 (spare a) v1) as [[l' k'] v']. destruct HI as (m' & Em & Rm).
    exists m'. split; [done|]. by rewrite <- (assoc_L (++)) in Rm.
Qed.

Lemma hsafe_ok member (g : Z -> V -> bool * V) m a l fuel v :
  hrepr m a -> chains a !! q = Some l -> member ∉ l -> (length l <= fuel)%nat ->
  let '(l', k, v') := sweep member g l (spare a) v in
  exists m', hlist_for_each_entry_safe member (hdeletes member g) q fuel (m, v) = Ret (tt, (m', v')) /\
    hrepr m' (HTable (<[q := l']> (chains a)) k).
Proof.
  intros R Hq Hm Hf. destruct (first_exists l NULL) as (u & t & E). pose proof (hr_chains _ _ R q l Hq) as G.
  rewrite (hchain_open _ _ [] l [] (FFirst q) u t eq_refl E) in G. destruct G as (_ & [G _] & _).
  pose proof (hsafe_loop member g l fuel m a [] u t v R Hq Hm Hf E) as H.
  destruct (sweep member g l (spare a) v) as [[l' k] v']. destruct H as (m' & Em & Rm). exists m'. split; [|done].
  unfold hlist_for_each_entry_safe. erewrite run_bind; [exact Em|]. unfold on_hheap. by rewrite (load_ok _ _ _ G).
Qed.

(** Bare nodes. *)
Lemma entry_safe_0 x : hlist_entry_safe x 0 = x.
Proof.
  unfold hlist_entry_safe, container_of, NULL. destruct (Z.eqb_spec x 0) as [->|]; cbn; [done|]. lia.
Qed.
Lemma bare_chain (body : Z -> prog (hheap * V) bool) fuel x :
  hlist_for_each body q fuel x = hlist_for_each_entry 0 body q fuel x.
Proof.
  unfold hlist_for_each, hlist_for_each_entry, mbind, prog_bind.
  destruct (on_hheap (load (FFirst q)) x) as [[u y]| | | |]; [|done..]. rewrite entry_safe_0.
  revert u y. induction fuel as [|fuel IH]; intros u y; cbn -[load]; destruct (_ =? _); try done.
  unfold mbind, prog_bind. destruct (body u y) as [[[] z]| | | |]; try done. rewrite Z.add_0_r.
  destruct (on_hheap (load (FNext u)) z) as [[n w]| | | |]; try done. rewrite entry_safe_0. apply IH.
Qed.
Lemma bare_chain_safe (body : Z -> prog (hheap * V) bool) fuel x :
  hlist_for_each_safe body q fuel x = hlist_for_each_entry_safe 0 body q fuel x.
Proof.
  unfold hlist_for_each_safe, hlist_for_each_entry_safe, mbind, prog_bind.
  destruct (on_hheap (load (FFirst q)) x) as [[u y]| | | |]; [|done..]. rewrite entry_safe_0.
  revert u y. induction fuel as [|fuel IH]; intros u y; cbn -[load]; destruct (_ =? _); try done.
  unfold mbind, prog_bind. rewrite Z.add_0_r. destruct (on_hheap (load (FNext u)) y) as [[n w]| | | |]; try done.
  destruct (body u w) as [[[] z]| | | |]; try done. rewrite entry_safe_0. apply IH.
Qed.
End ChainLoops.

(** ** Properties *)

Module ListIterProps.

(** The loops that start at or beside a node of the list visit exactly the nodes
    on their way to the head, in order, and end; those over bare nodes do what the
    ones over structures do. *)
Theorem list_loops_from_node {V} member (g : Z -> V -> bool * V) h a q l1 x l2 fuel v :
  repr h a -> lists a !! q = Some (l1 ++ x :: l2) -> (length (l1 ++ x :: l2) <= fuel)%nat ->
  let pos := list_entry x member in
  list_for_each_entry_from member q (reads g) fuel pos (h, v) = Ret (tt, (h, visit g (entries member (x :: l2)) v)) /\
  list_for_each_entry_continue member q (reads g) fuel pos (h, v) = Ret (tt, (h, visit g (entries member l2) v)) /\
  list_for_each_entry_continue_reverse member q (reads g) fuel pos (h, v)
    = Ret (tt, (h, visit g (entries member (reverse l1)) v)).
Proof.
  intros R Hq Hf pos. rewrite length_app in Hf. cbn [length] in Hf. split_and!.
  - eapply entry_from_ok; [done..|]. cbn. lia.
  - eapply entry_continue_ok; [done..|]. lia.
  - eapply entry_continue_reverse_ok; [done..|]. lia.
Qed.

(** The loops that allow deletion, when their body deletes the structures it picks:
    exactly the others stay, in their order, also when the loop runs backwards or
    starts at a node in the middle. *)
Theorem list_sweeps_from_node {V} member (g : Z -> V -> bool * V) h a q l1 x l2 fuel v :
  repr h a -> lists a !! q = Some (l1 ++ x :: l2) -> (length (l1 ++ x :: l2) <= fuel)%nat ->
  let pos := list_entry x member in
  (let '(l', k, v') := sweep member g (x :: l2) (loose a) v in
   exists h', list_for_each_entry_safe_from member q (deletes member g) fuel pos (h, v) = Ret (tt, (h', v')) /\
     repr h' (Lists (<[q := l1 ++ l']> (lists a)) k)) /\
  (let '(l', k, v') := sweep member g l2 (loose a) v in
   exists h', list_for_each_entry_safe_continue member q (deletes member g) fuel pos (h, v) = Ret (tt, (h', v')) /\
     repr h' (Lists (<[q := l1 ++ x :: l']> (lists a)) k)) /\
  (let '(l', k, v') := sweep member g (reverse (l1 ++ x :: l2)) (loose a) v in
   exists h', list_for_each_entry_safe_reverse member q (deletes member g) fuel (h, v) = Ret (tt, (h', v')) /\
     repr h' (Lists (<[q := reverse l']> (lists a)) k)).
Proof.
  intros R Hq Hf pos. pose proof Hf as Hf'. rewrite length_app in Hf'. cbn [length] in Hf'. split_and!.
  - apply safe_from_ok; [done..|]. cbn. lia.
  - apply safe_continue_ok; [done..|]. lia.
  - by apply safe_reverse_ok.
Qed.

(** The loops over a hash chain from a node, and the one that allows deletion. *)
Theorem chain_loops {V} member (g : Z -> V -> bool * V) m a q l1 x l2 fuel v :
  hrepr m a -> chains a !! q = Some (l1 ++ x :: l2) -> member ∉ l1 ++ x :: l2 ->
  (length (l1 ++ x :: l2) <= fuel)%nat ->
  hlist_for_each_entry_from member (hreads g) fuel (list_entry x member) (m, v)
    = Ret (tt, (m, visit g (entries member (x :: l2)) v)) /\
  hlist_for_each_entry_continue member (hreads g) fuel (list_entry x member) (m, v)
    = Ret (tt, (m, visit g (entries member l2) v)) /\
  (let '(l', k, v') := sweep member g (l1 ++ x :: l2) (spare a) v in
   exists m', hlist_for_each_entry_safe member (hdeletes member g) q fuel (m, v) = Ret (tt, (m', v')) /\
     hrepr m' (HTable (<[q := l']> (chains a)) k)).
Proof.
  intros R Hq Hm Hf. pose proof Hf as Hf'. rewrite length_app in Hf'.
  pose proof Hm as [_ Hm']%not_elem_of_app.
  destruct (chain_from_ok q member g m a l1 x l2 fuel v R Hq Hm' ltac:(lia)) as [H1 H2]. split_and!; try done.
  by apply hsafe_ok.
Qed.

(** A node that [hlist_add_fake] has linked to itself counts as hashed, and
    [hlist_del_init] takes it off without touching anything else. *)
Theorem fake_node_deletes m n f :
  hnodes m !! n = Some (HNode NULL f) ->
  exists m1 m2, hlist_add_fake n m = Ret (tt, m1) /\ hlist_unhashed n m1 = Ret (false, m1) /\
    hlist_del_init n m1 = Ret (tt, m2) /\
    hheads m2 = hheads m /\ hnodes m2 = <[n := HNode NULL FNull]> (hnodes m).
Proof.
  intros Hn. eexists _, _. unfold hlist_add_fake, set_pprev at 1. rewrite Hn. cbn -[hlist_unhashed hlist_del_init].
  split; [reflexivity|].
  unfold hlist_del_init, hlist_unhashed, __hlist_del, INIT_HLIST_NODE, get_pprev, load, store, set_pprev, mbind, prog_bind.
  cbn. repeat (rewrite lookup_insert_eq; cbn). split; [reflexivity|]. split; [reflexivity|]. cbn.
  by rewrite !insert_insert_eq.
Qed.

(** The first structure, or null for an empty list; an empty list after
    [LIST_HEAD]. *)
Theorem first_or_null h a q l member :
  repr h a -> lists a !! q = Some l ->
  list_first_entry_or_null q member h = Ret (match l with [] => NULL | x :: _ => list_entry x member end, h).
Proof.
  intros R Hq. destruct (first_exists l q) as (b & t & E). pose proof (head_next _ _ _ _ _ _ R Hq E) as Hn.
  unfold list_first_entry_or_null, list_empty, list_first_entry, mbind, prog_bind.
  rewrite (get_next_ok _ _ _ Hn). cbn. destruct l as [|x l].
  - injection E as <- <-. by rewrite Z.eqb_refl.
  - injection E as <- <-. rewrite (proj2 (Z.eqb_neq x q)) by (eapply node_not_head; [done..|mem]). cbn.
    by rewrite (get_next_ok _ _ _ Hn).
Qed.

Theorem LIST_HEAD_empty name h : list_empty name (LIST_HEAD name h) = Ret (true, LIST_HEAD name h).
Proof.
  unfold list_empty, LIST_HEAD, mbind, prog_bind, get_next. rewrite lookup_insert_eq. cbn. by rewrite Z.eqb_refl.
Qed.

End ListIterProps.
