(* ===== verification/RwBuffer.v ===== *)
(** * RwBuffer: [chunkserver/spy_mem_block.c] and [chunkserver/spy_rw_buffer.c]

    Requests and responses live in chains of fixed-size memory blocks that are
    taken from, and given back to, one server-wide pool.  Blocks are objects with
    identity: the pool holds the heap of blocks, the free list and the counters;
    a buffer holds the addresses of its blocks, its two positions and its two
    cursors.  Positions are [size_t]; they stay below the capacity, which the
    pool's limit bounds (see [pool_blocks_conserved]), so their arithmetic is that
    of [Z].  Reaching past the last block of a chain is [Undef]. *)

From S2P Require Import Prelude Utils.

(** ** Memory blocks and the pool *)

Module MemBlock.

Definition MEM_BLOCK_SIZE : Z := Z.shiftl 1 20.
(** [sizeof(spy_mem_block_t)]: two list pointers and a [uint64_t]. *)
Definition MEM_BLOCK_HDR : Z := 24.
Definition PREALLOC_COUNT : Z := 16.
Definition DEF_MEM_BLOCKS_LIMIT : Z := 1024.
Definition MAX_MEM_BLOCKS_LIMIT : Z := DEF_MEM_BLOCKS_LIMIT * 5.

(** Addresses of blocks. *)
Abbreviation loc := nat.

Record spy_mem_block_t : Type := SpyMemBlock {
  mb_size : Z;
  mb_buf : list byte
}.

(** The part of [server] that owns the blocks: the heap, the free list and the
    three counters; [mp_oom] tells whether [calloc] fails. *)
Record mem_pool : Type := MemPool {
  mp_heap : gmap loc spy_mem_block_t;
  free_mem_blocks : list loc;
  mem_blocks_alloc : Z;
  mem_blocks_alloc_limit : Z;
  mem_blocks_used : Z;
  mp_oom : bool
}.

Definition with_mp_heap (h : gmap loc spy_mem_block_t) (p : mem_pool) : mem_pool :=
  MemPool h (free_mem_blocks p) (mem_blocks_alloc p) (mem_blocks_alloc_limit p)
    (mem_blocks_used p) (mp_oom p).

(** A zeroed block as [calloc] returns it, with its [size] field set. *)
Definition new_mem_block : spy_mem_block_t :=
  let size := MEM_BLOCK_SIZE - MEM_BLOCK_HDR in
  SpyMemBlock size (replicate (Z.to_nat size) b00).

(** The [while (i-- > 0)] loop of [init_mem_blocks]: block number [k] of the
    allocated array goes to the head of the list. *)
Fixpoint init_mem_blocks_loop (n : nat) (k : loc) (h : gmap loc spy_mem_block_t)
    (mem_list : list loc) : gmap loc spy_mem_block_t * list loc :=
  match n with
  | O => (h, mem_list)
  | S n' => init_mem_blocks_loop n' (S k) (<[k := new_mem_block]> h) (k :: mem_list)
  end.

(** [init_mem_blocks(&server.free_mem_blocks, prealloc_count)] on a server with
    no block yet, followed by the two assignments of [spy_setup_mem_blocks]. *)
Definition spy_setup_mem_blocks (mb_prealloc_count mb_limit : Z) (oom : bool)
    : outcome mem_pool :=
  if (0 <? mb_prealloc_count) && oom then Exit
  else
    let '(h, l) := init_mem_blocks_loop (Z.to_nat mb_prealloc_count) 0%nat ∅ [] in
    Ret (MemPool h l (u32 mb_prealloc_count) (u32 mb_limit) 0 oom).

End MemBlock.
Export MemBlock.

(** ** The linked read/write buffer *)

Module RwBuf.

Record spy_rw_buffer_t : Type := SpyRwBuffer {
  mem_blocks : list loc;
  read_pos : Z;
  write_pos : Z;
  cap : Z;
  read_block : option loc;
  write_block : option loc;
  read_base : Z;
  write_base : Z
}.

(** What [*buf] and [*size] describe: [rg_len] bytes from [rg_off] in a block. *)
Record region : Type := Region { rg_block : loc; rg_off : Z; rg_len : Z }.

Definition with_read (blk : option loc) (base pos : Z) (b : spy_rw_buffer_t) :=
  SpyRwBuffer (mem_blocks b) pos (write_pos b) (cap b) blk (write_block b) base (write_base b).
Definition with_write (blk : option loc) (base pos : Z) (b : spy_rw_buffer_t) :=
  SpyRwBuffer (mem_blocks b) (read_pos b) pos (cap b) (read_block b) blk (read_base b) base.
(** [buffer->read_pos += n] and [buffer->write_pos += n]. *)
Definition advance_read (n : Z) (b : spy_rw_buffer_t) :=
  with_read (read_block b) (read_base b) (read_pos b + n) b.
Definition advance_write (n : Z) (b : spy_rw_buffer_t) :=
  with_write (write_block b) (write_base b) (write_pos b + n) b.

Definition spy_rw_buffer_init : spy_rw_buffer_t :=
  SpyRwBuffer [] 0 0 0 None None 0 0.

(** [list_next_entry(blk, list)] in the chain [l]; after the last entry comes the
    list head, which is not a block. *)
Fixpoint list_next_entry (blk : loc) (l : list loc) : option loc :=
  match l with
  | [] => None
  | x :: l' =>
      match l' with
      | [] => None
      | y :: _ => if decide (x = blk) then Some y else list_next_entry blk l'
      end
  end.

Definition is_none {A} (o : option A) : bool := match o with None => true | _ => false end.

(** The first half of [spy_rw_buffer_expand]: a block from the free list, or a
    new one while the limit allows it. *)
Definition take_block (p : mem_pool) : option (loc * mem_pool) :=
  match free_mem_blocks p with
  | [] =>
      if mem_blocks_alloc_limit p <=? mem_blocks_alloc p then None
      else if mp_oom p then None
      else
        let l := fresh (dom (mp_heap p)) in
        Some (l, MemPool (<[l := new_mem_block]> (mp_heap p)) []
                   (u32 (mem_blocks_alloc p + 1)) (mem_blocks_alloc_limit p)
                   (mem_blocks_used p) (mp_oom p))
  | l :: rest =>
      Some (l, MemPool (mp_heap p) rest (mem_blocks_alloc p) (mem_blocks_alloc_limit p)
                 (mem_blocks_used p) (mp_oom p))
  end.

Definition spy_rw_buffer_expand (p : mem_pool) (buffer : spy_rw_buffer_t)
    : outcome (Z * mem_pool * spy_rw_buffer_t) :=
  match take_block p with
  | None => Ret (-1, p, buffer)
  | Some (mem_block, p) =>
      m ← c_deref (mp_heap p !! mem_block);
      buffer ←
        match mem_blocks buffer with
        | [] =>
            _ ← c_assert (is_none (read_block buffer) && is_none (write_block buffer));
            Ret (SpyRwBuffer [] (read_pos buffer) (write_pos buffer) (cap buffer)
                   (Some mem_block) (Some mem_block) (read_base buffer) (write_base buffer))
        | _ => Ret buffer
        end;
      Ret (0,
        MemPool (mp_heap p) (free_mem_blocks p) (mem_blocks_alloc p)
          (mem_blocks_alloc_limit p) (u32 (mem_blocks_used p + 1)) (mp_oom p),
        SpyRwBuffer (mem_blocks buffer ++ [mem_block]) (read_pos buffer) (write_pos buffer)
          (cap buffer + mb_size m) (read_block buffer) (write_block buffer)
          (read_base buffer) (write_base buffer))
  end.

(** The [while (!list_empty(&buffer->mem_blocks))] loop: each block moves to the
    head of the free list. *)
Fixpoint reset_loop (blocks free : list loc) (used : Z) : list loc * Z :=
  match blocks with
  | [] => (free, used)
  | b :: blocks' => reset_loop blocks' (b :: free) (u32 (used - 1))
  end.

Definition spy_rw_buffer_reset (p : mem_pool) (buffer : spy_rw_buffer_t)
    : mem_pool * spy_rw_buffer_t :=
  let '(free, used) := reset_loop (mem_blocks buffer) (free_mem_blocks p) (mem_blocks_used p) in
  (MemPool (mp_heap p) free (mem_blocks_alloc p) (mem_blocks_alloc_limit p) used (mp_oom p),
   SpyRwBuffer [] 0 0 0 None None 0 0).

(** The search loop of [spy_rw_buffer_reset_read]; [blocks] is the chain from the
    current block on. *)
Fixpoint reset_read_loop (h : gmap loc spy_mem_block_t) (blocks : list loc) (base pos : Z)
    : outcome (loc * Z) :=
  match blocks with
  | [] => Undef
  | b :: blocks' =>
      m ← c_deref (h !! b);
      if base + mb_size m <? pos then reset_read_loop h blocks' (base + mb_size m) pos
      else Ret (b, base)
  end.

Definition spy_rw_buffer_reset_read (h : gmap loc spy_mem_block_t) (buffer : spy_rw_buffer_t)
    (pos : Z) : outcome spy_rw_buffer_t :=
  _ ← c_assert (pos <=? write_pos buffer);
  let buffer := with_read None 0 0 buffer in
  match mem_blocks buffer with
  | [] => _ ← c_assert (pos =? 0); Ret buffer
  | _ =>
      '(blk, base) ← reset_read_loop h (mem_blocks buffer) 0 pos;
      Ret (with_read (Some blk) base pos buffer)
  end.

(** [None] is the return value -1. *)
Definition spy_rw_buffer_next_readable (h : gmap loc spy_mem_block_t)
    (buffer : spy_rw_buffer_t) : outcome (option region * spy_rw_buffer_t) :=
  if read_pos buffer =? write_pos buffer then Ret (None, buffer)
  else
    _ ← c_assert (negb (is_none (read_block buffer)));
    blk ← c_deref (read_block buffer);
    m ← c_deref (h !! blk);
    buffer ←
      (if read_base buffer + mb_size m =? read_pos buffer then
         nxt ← c_deref (list_next_entry blk (mem_blocks buffer));
         Ret (with_read (Some nxt) (read_base buffer + mb_size m) (read_pos buffer) buffer)
       else Ret buffer);
    blk ← c_deref (read_block buffer);
    m ← c_deref (h !! blk);
    Ret (Some (Region blk (read_pos buffer - read_base buffer)
           (Z.min (read_base buffer + mb_size m - read_pos buffer)
                  (write_pos buffer - read_pos buffer))), buffer).

Definition spy_rw_buffer_next_writeable (h : gmap loc spy_mem_block_t)
    (buffer : spy_rw_buffer_t) : outcome (option region * spy_rw_buffer_t) :=
  if write_pos buffer =? cap buffer then Ret (None, buffer)
  else
    blk ← c_deref (write_block buffer);
    m ← c_deref (h !! blk);
    buffer ←
      (if write_base buffer + mb_size m =? write_pos buffer then
         nxt ← c_deref (list_next_entry blk (mem_blocks buffer));
         Ret (with_write (Some nxt) (write_base buffer + mb_size m) (write_pos buffer) buffer)
       else Ret buffer);
    blk ← c_deref (write_block buffer);
    m ← c_deref (h !! blk);
    Ret (Some (Region blk (write_pos buffer - write_base buffer)
           (write_base buffer + mb_size m - write_pos buffer)), buffer).

(** [n] bytes of the block [blk] from [off] on ([memcpy] out of a block) and the
    store of [d] there ([memcpy], [read] or [pread] into a block); an access that
    leaves the block is undefined. *)
Definition block_read (h : gmap loc spy_mem_block_t) (blk : loc) (off n : Z)
    : outcome (list byte) :=
  m ← c_deref (h !! blk);
  if (0 <=? off) && (off + n <=? zlen (mb_buf m)) then Ret (zsub off n (mb_buf m)) else Undef.

Definition block_write (h : gmap loc spy_mem_block_t) (blk : loc) (off : Z) (d : list byte)
    : outcome (gmap loc spy_mem_block_t) :=
  m ← c_deref (h !! blk);
  if (0 <=? off) && (off + zlen d <=? zlen (mb_buf m))
  then Ret (<[blk := SpyMemBlock (mb_size m) (zput off d (mb_buf m))]> h) else Undef.

(** The loop of [spy_rw_buffer_read_n]; [out] is what has been copied to the
    caller's [buf].  Every round copies at least one byte, so [left] rounds are
    enough. *)
Fixpoint read_n_loop (fuel : nat) (h : gmap loc spy_mem_block_t) (buffer : spy_rw_buffer_t)
    (data_len left : Z) (out : list byte) : outcome (list byte * spy_rw_buffer_t) :=
  if (0 <? left) && (0 <? data_len) then
    match fuel with
    | O => Wait
    | S fuel' =>
        blk ← c_deref (read_block buffer);
        m ← c_deref (h !! blk);
        buffer ←
          (if read_base buffer + mb_size m =? read_pos buffer then
             nxt ← c_deref (list_next_entry blk (mem_blocks buffer));
             Ret (with_read (Some nxt) (read_base buffer + mb_size m) (read_pos buffer) buffer)
           else Ret buffer);
        blk ← c_deref (read_block buffer);
        m ← c_deref (h !! blk);
        let readable :=
          Z.min (write_pos buffer) (read_base buffer + mb_size m) - read_pos buffer in
        let nread := Z.min readable left in
        d ← block_read h blk (read_pos buffer - read_base buffer) nread;
        read_n_loop fuel' h (advance_read nread buffer) (data_len - nread) (left - nread)
          (out ++ d)
    end
  else Ret (out, buffer).

(** Returns the bytes copied; the C return value is their number. *)
Definition spy_rw_buffer_read_n (h : gmap loc spy_mem_block_t) (buffer : spy_rw_buffer_t)
    (size : Z) : outcome (list byte * spy_rw_buffer_t) :=
  read_n_loop (Z.to_nat size) h buffer (write_pos buffer - read_pos buffer) size [].

(** The loop of [spy_rw_buffer_write_n]; [buf] is the data not yet stored. *)
Fixpoint write_n_loop (fuel : nat) (h : gmap loc spy_mem_block_t) (buffer : spy_rw_buffer_t)
    (buf : list byte) (done : Z)
    : outcome (Z * gmap loc spy_mem_block_t * spy_rw_buffer_t) :=
  if 0 <? zlen buf then
    match fuel with
    | O => Wait
    | S fuel' =>
        '(r, buffer) ← spy_rw_buffer_next_writeable h buffer;
        match r with
        | None => Ret (done, h, buffer)
        | Some r =>
            let nwrite := Z.min (rg_len r) (zlen buf) in
            h ← block_write h (rg_block r) (rg_off r) (ztake nwrite buf);
            write_n_loop fuel' h (advance_write nwrite buffer) (zdrop nwrite buf)
              (done + nwrite)
        end
    end
  else Ret (done, h, buffer).

(** Returns the number of bytes stored. *)
Definition spy_rw_buffer_write_n (h : gmap loc spy_mem_block_t) (buffer : spy_rw_buffer_t)
    (buf : list byte) : outcome (Z * gmap loc spy_mem_block_t * spy_rw_buffer_t) :=
  write_n_loop (length buf) h buffer buf 0.

End RwBuf.
Export RwBuf.

(** ** Well-formed buffers and what they hold *)

Section Wf.
Implicit Types (h : gmap loc spy_mem_block_t) (l : loc) (ls : list loc)
  (b : spy_rw_buffer_t) (d : list byte).

Definition blk_bytes h l : list byte :=
  match h !! l with Some m => mb_buf m | None => [] end.
(** The storage of a chain of blocks, in order. *)
Definition chain_bytes h ls : list byte := concat (map (blk_bytes h) ls).

Definition good_block h l : Prop :=
  exists m, h !! l = Some m /\ 0 < mb_size m /\ zlen (mb_buf m) = mb_size m.

(** A cursor names the block a position falls in and that block's base. *)
Definition cursor h ls (blk : option loc) (base pos : Z) : Prop :=
  match blk with
  | None => ls = [] /\ base = 0 /\ pos = 0
  | Some l =>
      exists pre post, ls = pre ++ l :: post /\ base = zlen (chain_bytes h pre) /\
        base <= pos <= base + zlen (blk_bytes h l)
  end.

Record buf_wf h b : Prop := {
  wf_nodup : NoDup (mem_blocks b);
  wf_blocks : Forall (good_block h) (mem_blocks b);
  wf_cap : cap b = zlen (chain_bytes h (mem_blocks b));
  wf_pos : 0 <= read_pos b <= write_pos b /\ write_pos b <= cap b;
  wf_read : cursor h (mem_blocks b) (read_block b) (read_base b) (read_pos b);
  wf_write : cursor h (mem_blocks b) (write_block b) (write_base b) (write_pos b)
}.

(** The bytes written and not yet read: the abstract queue. *)
Definition content h b : list byte :=
  zsub (read_pos b) (write_pos b - read_pos b) (chain_bytes h (mem_blocks b)).

Lemma chain_bytes_app h ls ls' :
  chain_bytes h (ls ++ ls') = chain_bytes h ls ++ chain_bytes h ls'.
Proof. unfold chain_bytes. by rewrite map_app, concat_app. Qed.
Lemma chain_bytes_cons h l ls : chain_bytes h (l :: ls) = blk_bytes h l ++ chain_bytes h ls.
Proof. done. Qed.
Lemma chain_bytes_nil h : chain_bytes h [] = [].
Proof. done. Qed.

Lemma good_block_size h l m :
  good_block h l -> h !! l = Some m -> 0 < mb_size m /\ blk_bytes h l = mb_buf m
  /\ zlen (blk_bytes h l) = mb_size m.
Proof.
  intros (m' & Hm & ? & ?) Hl. unfold blk_bytes. rewrite Hl in Hm |- *.
  injection Hm as ->. done.
Qed.

Lemma list_next_entry_mid pre l x post :
  NoDup (pre ++ l :: x :: post) -> list_next_entry l (pre ++ l :: x :: post) = Some x.
Proof.
  induction pre as [|y pre IH]; intros Hn.
  - simpl. by rewrite decide_True.
  - apply NoDup_cons in Hn as [Hy Hn]. specialize (IH Hn).
    destruct pre as [|z pre]; simpl in IH |- *;
      (rewrite decide_False; [done|]; intros ->; apply Hy; set_solver).
Qed.

(** The "jump to next mem_block" test: a cursor with more storage ahead is inside
    its block, or there is a next block and the cursor moves to its start. *)
Lemma cursor_jump h ls l base pos :
  NoDup ls -> Forall (good_block h) ls -> cursor h ls (Some l) base pos ->
  pos < zlen (chain_bytes h ls) ->
  exists m, h !! l = Some m /\
    ((base + mb_size m <> pos /\ base <= pos < base + mb_size m
      /\ blk_bytes h l = mb_buf m /\ zlen (mb_buf m) = mb_size m)
     \/ (base + mb_size m = pos /\ exists x mx, list_next_entry l ls = Some x /\
         h !! x = Some mx /\ cursor h ls (Some x) pos pos /\ 0 < mb_size mx
         /\ blk_bytes h x = mb_buf mx /\ zlen (mb_buf mx) = mb_size mx)).
Proof.
  intros Hn Hg (pre & post & -> & Hb & Hp) Hlt.
  apply Forall_app in Hg as [_ [(m & Hm & H0 & Hs) Hg]%Forall_cons].
  exists m. split; [done|].
  assert (Hl : blk_bytes h l = mb_buf m) by (unfold blk_bytes; by rewrite Hm).
  rewrite Hl in Hp. destruct (decide (base + mb_size m = pos)) as [He|]; [right|left; split; [done|]; split; [lia|done]].
  split; [done|]. rewrite chain_bytes_app, chain_bytes_cons, Hl in Hlt.
  destruct post as [|x post].
  { rewrite chain_bytes_nil in Hlt. zl. }
  apply Forall_cons in Hg as [(mx & Hx & Hx0 & Hxs) _].
  assert (Hlx : blk_bytes h x = mb_buf mx) by (unfold blk_bytes; by rewrite Hx).
  exists x, mx. split_and!; [by apply list_next_entry_mid|done| |done..].
  exists (pre ++ [l]), post. rewrite <- app_assoc. split; [done|].
  rewrite chain_bytes_app, chain_bytes_cons, chain_bytes_nil, Hl. zl.
Qed.

(** The bytes of the chain at a cursor. *)
Lemma cursor_bytes h ls l base pos n :
  cursor h ls (Some l) base pos -> 0 <= n -> pos + n <= base + zlen (blk_bytes h l) ->
  zsub pos n (chain_bytes h ls) = zsub (pos - base) n (blk_bytes h l).
Proof.
  intros (pre & post & -> & -> & Hp) Hn Hle.
  rewrite chain_bytes_app, chain_bytes_cons, zsub_app_r by lia.
  by rewrite zsub_app_l by lia.
Qed.

Lemma cursor_weaken h ls l base pos pos' :
  cursor h ls (Some l) base pos -> base <= pos' <= base + zlen (blk_bytes h l) ->
  cursor h ls (Some l) base pos'.
Proof. intros (pre & post & -> & -> & Hp) Hn. by exists pre, post. Qed.

(** *** Each operation against the abstract queue *)

Lemma content_len h b : buf_wf h b -> zlen (content h b) = write_pos b - read_pos b.
Proof. intros W. unfold content. destruct (wf_pos _ _ W). rewrite (wf_cap _ _ W) in *. zl. Qed.

Lemma wf_read_block h b :
  buf_wf h b -> read_pos b < cap b ->
  exists l, read_block b = Some l /\
    cursor h (mem_blocks b) (Some l) (read_base b) (read_pos b).
Proof.
  intros [_ _ W3 W4 W6 _] Hlt. destruct (read_block b) as [l|]; [by exists l|].
  destruct W6 as (Hnil & _ & _). rewrite Hnil, chain_bytes_nil in W3. zl.
Qed.

Lemma wf_write_block h b :
  buf_wf h b -> write_pos b < cap b ->
  exists l, write_block b = Some l /\
    cursor h (mem_blocks b) (Some l) (write_base b) (write_pos b).
Proof.
  intros [_ _ W3 W4 _ W7] Hlt. destruct (write_block b) as [l|]; [by exists l|].
  destruct W7 as (Hnil & _ & _). rewrite Hnil, chain_bytes_nil in W3. zl.
Qed.

(** The buffers before and after a jump differ only in one cursor. *)
Definition same_queue b b' : Prop :=
  mem_blocks b' = mem_blocks b /\ read_pos b' = read_pos b /\ write_pos b' = write_pos b /\
  cap b' = cap b.

Lemma same_queue_refl b : same_queue b b.
Proof. done. Qed.

Lemma same_queue_content h b b' : same_queue b b' -> content h b' = content h b.
Proof. intros (H1 & H2 & H3 & H4). unfold content. by rewrite H1, H2, H3. Qed.

(** The position lies strictly inside block [x], which holds [mx]. *)
Definition inside h (x : loc) (mx : spy_mem_block_t) (base pos : Z) : Prop :=
  h !! x = Some mx /\ base <= pos < base + mb_size mx /\
  blk_bytes h x = mb_buf mx /\ zlen (mb_buf mx) = mb_size mx.

Lemma read_jump h b :
  buf_wf h b -> read_pos b < cap b ->
  exists l m b' x mx, read_block b = Some l /\ h !! l = Some m /\
    (if read_base b + mb_size m =? read_pos b then
       nxt ← c_deref (list_next_entry l (mem_blocks b));
       Ret (with_read (Some nxt) (read_base b + mb_size m) (read_pos b) b)
     else Ret b) = Ret b' /\
    read_block b' = Some x /\ buf_wf h b' /\ same_queue b b' /\
    inside h x mx (read_base b') (read_pos b).
Proof.
  intros W Hlt. destruct (wf_read_block h b W Hlt) as (l & El & Hc).
  pose proof W as [W1 W2 W3 W4 W6 W7].
  destruct (cursor_jump h (mem_blocks b) l (read_base b) (read_pos b))
    as (m & Hm & [(Hne & Hj)|(He & x & mx & Hnx & Hx & Hcx & Hj)]); [done..|lia| |].
  - exists l, m, b, l, m. destruct (Z.eqb_spec (read_base b + mb_size m) (read_pos b)); [done|].
    by destruct Hj as (? & ? & ?).
  - exists l, m, (with_read (Some x) (read_base b + mb_size m) (read_pos b) b), x, mx.
    rewrite He, Z.eqb_refl, Hnx. do 4 (split; [done|]).
    split; [by split|]. split; [done|].
    destruct Hj as (? & ? & ?). split; [done|]. split; [cbn; lia|done].
Qed.

Lemma write_jump h b :
  buf_wf h b -> write_pos b < cap b ->
  exists l m b' x mx, write_block b = Some l /\ h !! l = Some m /\
    (if write_base b + mb_size m =? write_pos b then
       nxt ← c_deref (list_next_entry l (mem_blocks b));
       Ret (with_write (Some nxt) (write_base b + mb_size m) (write_pos b) b)
     else Ret b) = Ret b' /\
    write_block b' = Some x /\ buf_wf h b' /\ same_queue b b' /\
    inside h x mx (write_base b') (write_pos b).
Proof.
  intros W Hlt. destruct (wf_write_block h b W Hlt) as (l & El & Hc).
  pose proof W as [W1 W2 W3 W4 W6 W7].
  destruct (cursor_jump h (mem_blocks b) l (write_base b) (write_pos b))
    as (m & Hm & [(Hne & Hj)|(He & x & mx & Hnx & Hx & Hcx & Hj)]); [done..|lia| |].
  - exists l, m, b, l, m. destruct (Z.eqb_spec (write_base b + mb_size m) (write_pos b)); [done|].
    by destruct Hj as (? & ? & ?).
  - exists l, m, (with_write (Some x) (write_base b + mb_size m) (write_pos b) b), x, mx.
    rewrite He, Z.eqb_refl, Hnx. do 4 (split; [done|]).
    split; [by split|]. split; [done|].
    destruct Hj as (? & ? & ?). split; [done|]. split; [cbn; lia|done].
Qed.

(** Bytes of the queue seen through the block the read cursor is in. *)
Lemma inside_read h b x mx n :
  buf_wf h b -> read_block b = Some x -> inside h x mx (read_base b) (read_pos b) ->
  0 <= n -> read_pos b + n <= write_pos b -> read_pos b + n <= read_base b + mb_size mx ->
  block_read h x (read_pos b - read_base b) n = Ret (ztake n (content h b)).
Proof.
  intros [_ _ _ _ Hc _] Ex (Hx & Hr & Hb & Hs) Hn Hw Hm. rewrite Ex in Hc.
  unfold block_read. rewrite Hx. cbn.
  destruct (Z.leb_spec 0 (read_pos b - read_base b)); [|lia].
  destruct (Z.leb_spec (read_pos b - read_base b + n) (zlen (mb_buf mx))); [|lia]. cbn.
  f_equal. rewrite <- Hb, <- (cursor_bytes h (mem_blocks b)) by (done || (rewrite Hb; lia)).
  unfold content, zsub. rewrite ztake_take. f_equal. lia.
Qed.

Lemma advance_read_wf h b x mx n :
  buf_wf h b -> read_block b = Some x -> inside h x mx (read_base b) (read_pos b) ->
  0 <= n -> read_pos b + n <= write_pos b -> read_pos b + n <= read_base b + mb_size mx ->
  buf_wf h (advance_read n b) /\ content h (advance_read n b) = zdrop n (content h b).
Proof.
  intros [W1 W2 W3 W4 W6 W7] Ex (Hx & Hr & Hb & Hs) Hn Hw Hm. split.
  - split; cbn; try done; [lia|]. rewrite Ex in *.
    eapply cursor_weaken; [exact W6|]. rewrite Hb. lia.
  - unfold content. cbn. unfold zsub. rewrite zdrop_take, zdrop_drop by lia. f_equal. lia.
Qed.

Lemma advance_write_wf h b x mx n :
  buf_wf h b -> write_block b = Some x -> inside h x mx (write_base b) (write_pos b) ->
  0 <= n -> write_pos b + n <= write_base b + mb_size mx ->
  buf_wf h (advance_write n b).
Proof.
  intros [W1 W2 W3 W4 W6 W7] Ex (Hx & Hr & Hb & Hs) Hn Hm. rewrite Ex in W7.
  split; cbn; try done.
  - rewrite W3 in *. destruct W7 as (pre & post & E & Hbase & _). rewrite E.
    rewrite chain_bytes_app, chain_bytes_cons, Hb. zl.
  - rewrite Ex. eapply cursor_weaken; [exact W7|]. rewrite Hb. lia.
Qed.

Lemma next_readable_none h b :
  read_pos b = write_pos b -> spy_rw_buffer_next_readable h b = Ret (None, b).
Proof. intros H. unfold spy_rw_buffer_next_readable. by rewrite H, Z.eqb_refl. Qed.

(** There is data: the region returned is a non-empty prefix of the queue, and
    the caller may consume any part of it. *)
Lemma next_readable_some h b :
  buf_wf h b -> read_pos b < write_pos b ->
  exists r b', spy_rw_buffer_next_readable h b = Ret (Some r, b') /\ same_queue b b' /\
    0 < rg_len r <= write_pos b - read_pos b /\
    forall n, 0 <= n <= rg_len r ->
      block_read h (rg_block r) (rg_off r) n = Ret (ztake n (content h b)) /\
      buf_wf h (advance_read n b') /\
      content h (advance_read n b') = zdrop n (content h b).
Proof.
  intros W Hlt. pose proof (wf_pos _ _ W) as [Hp Hc].
  destruct (read_jump h b W) as (l & m & b' & x & mx & El & Hm & Ej & Ex & W' & Hq & Hi); [lia|].
  pose proof Hq as (Q1 & Q2 & Q3 & Q4). pose proof Hi as (Hx & Hr & Hb & Hs).
  unfold spy_rw_buffer_next_readable.
  destruct (Z.eqb_spec (read_pos b) (write_pos b)) as [|_]; [lia|].
  rewrite El. cbn [c_assert negb is_none c_deref]. rewrite !bind_Ret, Hm. cbn [c_deref].
  rewrite bind_Ret, Ej, bind_Ret, Ex. cbn [c_deref]. rewrite bind_Ret, Hx. cbn [c_deref].
  rewrite bind_Ret. do 2 eexists. split; [done|]. split; [done|]. cbn [rg_len rg_block rg_off].
  rewrite <- (same_queue_content h b b') by done. rewrite Q2, Q3. split; [lia|].
  intros n Hn. rewrite <- Q2 in *. split; [by apply (inside_read h b' x mx); try lia|].
  apply (advance_read_wf h b' x mx); by try lia.
Qed.

(** *** Writing into the chain *)

(** A store into a block changes neither sizes nor lengths. *)
Definition same_shape h h' : Prop :=
  forall l, mb_size <$> (h !! l) = mb_size <$> (h' !! l) /\
            zlen (blk_bytes h l) = zlen (blk_bytes h' l).

Lemma same_shape_refl h : same_shape h h.
Proof. done. Qed.
Lemma same_shape_trans h1 h2 h3 : same_shape h1 h2 -> same_shape h2 h3 -> same_shape h1 h3.
Proof. intros H1 H2 l. destruct (H1 l), (H2 l). split; congruence. Qed.

Lemma same_shape_chain h h' ls :
  same_shape h h' -> zlen (chain_bytes h ls) = zlen (chain_bytes h' ls).
Proof.
  intros Hs. induction ls as [|l ls IH]; [done|].
  rewrite !chain_bytes_cons, !zlen_app, IH. by rewrite (proj2 (Hs l)).
Qed.

Lemma same_shape_cursor h h' ls blk base pos :
  same_shape h h' -> cursor h ls blk base pos -> cursor h' ls blk base pos.
Proof.
  intros Hs. destruct blk as [l|]; [|done]. intros (pre & post & -> & -> & Hp).
  exists pre, post. split; [done|].
  rewrite (same_shape_chain h h') in * by done. by rewrite <- (proj2 (Hs l)).
Qed.

Lemma same_shape_wf h h' b : same_shape h h' -> buf_wf h b -> buf_wf h' b.
Proof.
  intros Hs [W1 W2 W3 W4 W6 W7]. split; eauto using same_shape_cursor.
  - eapply Forall_impl; [exact W2|]. intros l (m & Hm & H0 & Hl).
    destruct (Hs l) as [H1 H2]. unfold blk_bytes in H2. rewrite Hm in H1, H2.
    destruct (h' !! l) as [m'|] eqn:E; [|done]. injection H1 as H1. exists m'. split; [done|lia].
  - by rewrite <- (same_shape_chain h h').
Qed.

Lemma chain_bytes_insert_ne h ls x m :
  x ∉ ls -> chain_bytes (<[x := m]> h) ls = chain_bytes h ls.
Proof.
  induction ls as [|l ls IH]; intros Hx; [done|]. rewrite !chain_bytes_cons.
  apply not_elem_of_cons in Hx as [Hne Hx]. rewrite IH by done.
  unfold blk_bytes. by rewrite lookup_insert_ne by done.
Qed.

(** A store at the write cursor is a store at [write_pos] in the chain. *)
Lemma inside_write h b x mx d :
  buf_wf h b -> write_block b = Some x -> inside h x mx (write_base b) (write_pos b) ->
  write_pos b + zlen d <= write_base b + mb_size mx ->
  exists h', block_write h x (write_pos b - write_base b) d = Ret h' /\ same_shape h h' /\
    chain_bytes h' (mem_blocks b) = zput (write_pos b) d (chain_bytes h (mem_blocks b)) /\
    (forall y, y <> x -> h' !! y = h !! y).
Proof.
  intros [W1 W2 W3 W4 W6 W7] Ex (Hx & Hr & Hb & Hs) Hd. rewrite Ex in W7.
  unfold block_write. rewrite Hx. cbn.
  destruct (Z.leb_spec 0 (write_pos b - write_base b)); [|lia].
  destruct (Z.leb_spec (write_pos b - write_base b + zlen d) (zlen (mb_buf mx))); [|lia]. cbn.
  eexists. split; [done|]. split_and!.
  - intros y. unfold blk_bytes. destruct (decide (y = x)) as [->|].
    + rewrite lookup_insert_eq, Hx. cbn. rewrite zlen_put by lia. done.
    + by rewrite lookup_insert_ne by done.
  - destruct W7 as (pre & post & E & Hbase & _). rewrite E in *.
    apply NoDup_app in W1 as (_ & Hpre & [Hpost _]%NoDup_cons).
    rewrite !chain_bytes_app, !chain_bytes_cons.
    rewrite !chain_bytes_insert_ne by (try done; intros Hi; apply (Hpre x Hi); by left).
    unfold blk_bytes at 1. rewrite lookup_insert_eq. cbn.
    rewrite zput_app_r by lia. rewrite <- Hbase. f_equal.
    rewrite Hb. by rewrite zput_app_l by lia.
  - intros y Hy. by rewrite lookup_insert_ne.
Qed.

Lemma next_writeable_none h b :
  write_pos b = cap b -> spy_rw_buffer_next_writeable h b = Ret (None, b).
Proof. intros H. unfold spy_rw_buffer_next_writeable. by rewrite H, Z.eqb_refl. Qed.

(** What storing [d] at the write position does to heap and buffer. *)
Definition stored h b d h' b' : Prop :=
  same_shape h h' /\ buf_wf h' b' /\ content h' b' = content h b ++ d /\
  mem_blocks b' = mem_blocks b /\ read_pos b' = read_pos b /\ cap b' = cap b /\
  write_pos b' = write_pos b + zlen d /\
  (forall y, y ∉ mem_blocks b -> h' !! y = h !! y).

Lemma content_zput h h' b b' d :
  buf_wf h b -> chain_bytes h' (mem_blocks b) = zput (write_pos b) d (chain_bytes h (mem_blocks b)) ->
  mem_blocks b' = mem_blocks b -> read_pos b' = read_pos b ->
  write_pos b' = write_pos b + zlen d -> content h' b' = content h b ++ d.
Proof.
  intros [_ _ W3 [W4 W5] _ _] Hc Hm Hr Hw. unfold content. rewrite Hm, Hr, Hw, Hc.
  replace (write_pos b + zlen d - read_pos b)
    with (write_pos b - read_pos b + zlen d) by lia.
  rewrite zsub_app by zl. f_equal.
  - apply zsub_zput_before; lia.
  - replace (read_pos b + (write_pos b - read_pos b)) with (write_pos b) by lia.
    apply zsub_zput_same; lia.
Qed.

(** There is room: the caller may store up to [rg_len] bytes in the region and
    advance [write_pos] by that number; the queue then ends with them. *)
Lemma next_writeable_some h b :
  buf_wf h b -> write_pos b < cap b ->
  exists r b', spy_rw_buffer_next_writeable h b = Ret (Some r, b') /\ same_queue b b' /\
    0 < rg_len r <= cap b - write_pos b /\
    forall d, zlen d <= rg_len r ->
      exists h', block_write h (rg_block r) (rg_off r) d = Ret h' /\
        stored h b d h' (advance_write (zlen d) b').
Proof.
  intros W Hlt. pose proof (wf_pos _ _ W) as [Hp Hc].
  destruct (write_jump h b W) as (l & m & b' & x & mx & El & Hm & Ej & Ex & W' & Hq & Hi); [lia|].
  pose proof Hq as (Q1 & Q2 & Q3 & Q4). pose proof Hi as (Hx & Hr & Hb & Hs).
  unfold spy_rw_buffer_next_writeable.
  destruct (Z.eqb_spec (write_pos b) (cap b)) as [|_]; [lia|].
  rewrite El. cbn [c_deref]. rewrite bind_Ret, Hm. cbn [c_deref].
  rewrite bind_Ret, Ej, bind_Ret, Ex. cbn [c_deref]. rewrite bind_Ret, Hx. cbn [c_deref].
  rewrite bind_Ret. do 2 eexists. split; [done|]. split; [done|]. cbn [rg_len rg_block rg_off].
  rewrite Q3. split.
  { pose proof W' as [_ _ V3 _ _ V7]. rewrite Ex in V7.
    destruct V7 as (pre & post & E & Hbase & _).
    rewrite <- Q4, V3, E, chain_bytes_app, chain_bytes_cons, Hb. zl. }
  intros d Hd. rewrite <- Q3 in *.
  destruct (inside_write h b' x mx d W' Ex Hi) as (h' & Hw & Hsh & Hcb & Hfr); [lia|].
  exists h'. split; [done|]. unfold stored. split; [done|]. split.
  { apply (same_shape_wf h); [done|]. apply (advance_write_wf h b' x mx); done || zl. }
  rewrite Q1, Q3 in Hcb. cbn. split; [apply (content_zput h); cbn; done || lia|].
  split_and!; try done; [lia|].
  - intros y Hy. apply Hfr. intros ->. apply Hy.
    pose proof W' as [_ _ _ _ _ V7]. rewrite Ex, Q1 in V7. destruct V7 as (? & ? & -> & _).
    rewrite elem_of_app, elem_of_cons. auto.
Qed.

(** *** [spy_rw_buffer_read_n] takes a prefix of the queue *)

Lemma read_n_loop_spec fuel h b left out :
  buf_wf h b -> 0 <= left -> left <= Z.of_nat fuel ->
  exists b', read_n_loop fuel h b (write_pos b - read_pos b) left out
      = Ret (out ++ ztake left (content h b), b') /\
    buf_wf h b' /\ content h b' = zdrop left (content h b) /\
    mem_blocks b' = mem_blocks b /\ write_pos b' = write_pos b /\ cap b' = cap b /\
    read_pos b' = read_pos b + Z.min left (zlen (content h b)).
Proof.
  revert b left out. induction fuel as [|fuel IH]; intros b left out W Hl Hf;
    pose proof (content_len h b W) as Hlen; pose proof (wf_pos _ _ W) as [Hp Hc]; cbn [read_n_loop].
  { assert (left = 0) as -> by lia. rewrite ztake_neg, zdrop_neg, app_nil_r by lia.
    exists b. split_and!; try done. lia. }
  destruct (Z.ltb_spec 0 left) as [Hl0|]; last first.
  { assert (left = 0) as -> by lia. rewrite ztake_neg, zdrop_neg, app_nil_r by lia.
    exists b. cbn. split_and!; try done. lia. }
  destruct (Z.ltb_spec 0 (write_pos b - read_pos b)) as [Hd0|]; last first.
  { assert (Hnil : content h b = []) by (apply zlen_0_nil; lia).
    rewrite Hnil, zlen_nil, ztake_all, zdrop_all, app_nil_r by zl.
    exists b. cbn. split_and!; try done. lia. }
  cbn [andb].
  destruct (read_jump h b W) as (l & m & b1 & x & mx & El & Hm & Ej & Ex & W1 & Hq & Hi); [lia|].
  pose proof Hq as (Q1 & Q2 & Q3 & Q4). pose proof Hi as (Hx & Hr & Hb & Hs).
  rewrite El. cbn [c_deref]. rewrite bind_Ret, Hm. cbn [c_deref].
  rewrite bind_Ret, Ej, bind_Ret, Ex. cbn [c_deref]. rewrite bind_Ret, Hx. cbn [c_deref].
  rewrite bind_Ret. cbv zeta. rewrite <- Q2, <- Q3 in *.
  set (n := Z.min (Z.min (write_pos b1) (read_base b1 + mb_size mx) - read_pos b1) left).
  assert (Hn : 0 < n <= left) by lia.
  rewrite (inside_read h b1 x mx n) by (done || lia). rewrite bind_Ret.
  destruct (advance_read_wf h b1 x mx n) as [W2 Hc2]; [done..|lia|lia|lia|].
  destruct (IH (advance_read n b1) (left - n) (out ++ ztake n (content h b1)))
    as (b' & Hrun & W3 & Hc3 & Hm3 & Hw3 & Hcap3 & Hr3); [done|lia|lia|].
  replace (write_pos b1 - read_pos b1 - n)
    with (write_pos (advance_read n b1) - read_pos (advance_read n b1)) by (cbn; lia).
  exists b'. rewrite Hrun, Hc2, Hc3. rewrite (same_queue_content h b b1) in * by done.
  split_and!; try done.
  - rewrite <- app_assoc. do 3 f_equal.
    rewrite <- (ztake_drop n (ztake left (content h b))).
    rewrite ztake_take, zdrop_take by lia. do 2 f_equal. lia.
  - rewrite Hc2, zdrop_drop by lia. f_equal. lia.
  - by rewrite Hm3.
  - by rewrite Hcap3.
  - rewrite Hr3, Hc2. cbn. zl.
Qed.

(** *** [spy_rw_buffer_write_n] appends to the queue *)

Lemma stored_nil h b : buf_wf h b -> stored h b [] h b.
Proof. intros W. unfold stored. rewrite app_nil_r, zlen_nil. split_and!; done || lia. Qed.

Lemma stored_trans h b d h1 b1 d1 h2 b2 :
  stored h b d h1 b1 -> stored h1 b1 d1 h2 b2 -> stored h b (d ++ d1) h2 b2.
Proof.
  intros (A1 & A2 & A3 & A4 & A5 & A6 & A7 & A8) (B1 & B2 & B3 & B4 & B5 & B6 & B7 & B8).
  unfold stored. rewrite B3, A3, app_assoc, zlen_app.
  split_and!; try first [congruence | lia | by eapply same_shape_trans | done].
  intros y Hy. rewrite B8 by congruence. by apply A8.
Qed.

Lemma stored_same_queue h b b0 d h' b' :
  same_queue b b0 -> stored h b0 d h' b' -> stored h b d h' b'.
Proof.
  intros Hq (A1 & A2 & A3 & A4 & A5 & A6 & A7 & A8).
  rewrite (same_queue_content h b b0) in A3 by done.
  destruct Hq as (Q1 & Q2 & Q3 & Q4). unfold stored. rewrite <- Q1, <- Q2, <- Q3, <- Q4. done.
Qed.

Lemma write_n_loop_spec fuel h b buf n0 :
  buf_wf h b -> (length buf <= fuel)%nat ->
  exists h' b', let k := Z.min (zlen buf) (cap b - write_pos b) in
    write_n_loop fuel h b buf n0 = Ret (n0 + k, h', b') /\ stored h b (ztake k buf) h' b'.
Proof.
  revert h b buf n0. induction fuel as [|fuel IH]; intros h b buf n0 W Hf;
    pose proof (wf_pos _ _ W) as [Hp Hc]; cbn [write_n_loop]; cbv zeta.
  { assert (buf = []) as -> by (apply zlen_0_nil; unfold zlen; lia).
    exists h, b. rewrite (@zlen_nil byte), Z.min_l, Z.add_0_r by lia. split; [done|by apply stored_nil]. }
  destruct (Z.ltb_spec 0 (zlen buf)) as [H0|]; last first.
  { assert (buf = []) as -> by (apply zlen_0_nil; zl). 
    exists h, b. rewrite (@zlen_nil byte), Z.min_l, Z.add_0_r by lia. split; [done|by apply stored_nil]. }
  destruct (decide (write_pos b = cap b)) as [He|Hne].
  { rewrite next_writeable_none, bind_Ret by done. exists h, b.
    rewrite Z.min_r, He, Z.sub_diag, Z.add_0_r by lia. split; [done|].
    rewrite ztake_neg by lia. by apply stored_nil. }
  destruct (next_writeable_some h b W) as (r & b1 & -> & Hq & Hr & Hst); [lia|].
  rewrite bind_Ret. cbv zeta. set (n := Z.min (rg_len r) (zlen buf)).
  assert (Hn : zlen (ztake n buf) = n) by zl.
  destruct (Hst (ztake n buf)) as (h1 & -> & Hst1); [lia|]. rewrite bind_Ret, Hn in *.
  pose proof Hst1 as (S1 & S2 & S3 & S4 & S5 & S6 & S7 & S8).
  destruct (IH h1 (advance_write n b1) (zdrop n buf) (n0 + n)) as (h2 & b2 & Hrun & Hst2);
    [done|unfold zdrop; rewrite length_drop; lia|].
  rewrite S6, S7, Hn in *. rewrite Hrun. exists h2, b2. rewrite zlen_drop in *.
  replace (Z.min (Z.max 0 (zlen buf - Z.max 0 n)) (cap b - (write_pos b + n)))
    with (Z.min (zlen buf) (cap b - write_pos b) - n) in * by lia.
  split; [do 3 f_equal; lia|].
  replace (ztake (Z.min (zlen buf) (cap b - write_pos b)) buf)
    with (ztake n buf ++ ztake (Z.min (zlen buf) (cap b - write_pos b) - n) (zdrop n buf)).
  { by eapply stored_trans. }
  rewrite <- (ztake_drop n (ztake (Z.min (zlen buf) (cap b - write_pos b)) buf)).
  rewrite ztake_take, zdrop_take by lia. do 2 f_equal. lia.
Qed.

(** *** Expanding, resetting, rewinding *)

Lemma reset_loop_spec blocks free used :
  0 <= used - zlen blocks -> used < 2 ^ 32 ->
  reset_loop blocks free used = (rev blocks ++ free, used - zlen blocks).
Proof.
  revert free used. induction blocks as [|b blocks IH]; intros free used Hu Hl; cbn [reset_loop].
  - by rewrite zlen_nil, Z.sub_0_r.
  - rewrite zlen_cons in *. rewrite u32_small by zl. rewrite IH by lia. cbn [rev].
    rewrite <- app_assoc. cbn. f_equal. lia.
Qed.

Lemma reset_read_loop_spec h ls pre pos base :
  Forall (good_block h) ls -> base = zlen (chain_bytes h pre) -> base <= pos ->
  pos <= base + zlen (chain_bytes h ls) -> ls <> [] ->
  exists blk base', reset_read_loop h ls base pos = Ret (blk, base') /\
    cursor h (pre ++ ls) (Some blk) base' pos.
Proof.
  revert pre base. induction ls as [|l ls IH]; intros pre base Hg Hb Hlo Hhi Hne; [done|].
  apply Forall_cons in Hg as [(m & Hm & H0 & Hs) Hg]. cbn [reset_read_loop]. rewrite Hm. cbn.
  assert (Hl : blk_bytes h l = mb_buf m) by (unfold blk_bytes; by rewrite Hm).
  rewrite chain_bytes_cons, Hl, zlen_app in Hhi. case_b.
  - destruct (IH (pre ++ [l]) (base + mb_size m)) as (blk & base' & Hr & Hc); [done|..].
    + rewrite chain_bytes_app, chain_bytes_cons, chain_bytes_nil, Hl. zl.
    + lia.
    + lia.
    + intros ->. rewrite chain_bytes_nil in Hhi. zl.
    + exists blk, base'. rewrite <- app_assoc in Hc. done.
  - exists l, base. split; [done|]. exists pre, ls. rewrite Hl. split; [done|]. split; [done|lia].
Qed.

(** Rewinding the read side to [pos] keeps the buffer well formed; the queue is
    then everything written from [pos] on. *)
Lemma reset_read_spec h b pos :
  buf_wf h b -> 0 <= pos <= write_pos b ->
  exists b', spy_rw_buffer_reset_read h b pos = Ret b' /\ buf_wf h b' /\
    mem_blocks b' = mem_blocks b /\ read_pos b' = pos /\ write_pos b' = write_pos b /\
    cap b' = cap b /\
    content h b' = zsub pos (write_pos b - pos) (chain_bytes h (mem_blocks b)).
Proof.
  intros [W1 W2 W3 [W4 W5] W6 W7] Hp. unfold spy_rw_buffer_reset_read.
  rewrite bind_assert by (apply Z.leb_le; lia). cbv zeta. cbn [mem_blocks with_read].
  destruct (mem_blocks b) as [|l ls] eqn:El.
  { rewrite chain_bytes_nil, zlen_nil in W3. assert (pos = 0) as -> by lia. cbn.
    eexists. split; [done|]. split; [|unfold content; cbn; by rewrite El].
    split; cbn; rewrite ?El; try done; rewrite ?chain_bytes_nil, ?zlen_nil; lia || done. }
  rewrite <- El in *.
  destruct (reset_read_loop_spec h (mem_blocks b) [] pos 0) as (blk & base & -> & Hc);
    [done|done|lia|lia|congruence|].
  rewrite bind_Ret. eexists. split; [done|]. split; [|done].
  split; cbn; done || lia.
Qed.

(** *** The pool and the buffers that draw from it

    Every block is in the free list or in exactly one buffer; the two counters
    count them; a block is never larger than the fixed block size. *)

Definition held (bufs : list spy_rw_buffer_t) : list loc := concat (map mem_blocks bufs).

Record pool_inv (p : mem_pool) (bufs : list spy_rw_buffer_t) : Prop := {
  pi_nodup : NoDup (free_mem_blocks p ++ held bufs);
  pi_good : Forall (good_block (mp_heap p)) (free_mem_blocks p ++ held bufs);
  pi_size : Forall (fun l => zlen (blk_bytes (mp_heap p) l) <= MEM_BLOCK_SIZE - MEM_BLOCK_HDR)
              (free_mem_blocks p ++ held bufs);
  pi_used : mem_blocks_used p = zlen (held bufs);
  pi_alloc : mem_blocks_alloc p = zlen (free_mem_blocks p ++ held bufs);
  pi_range : mem_blocks_alloc p < 2 ^ 32 /\ mem_blocks_alloc_limit p < 2 ^ 32
}.

Lemma good_block_insert h l x m :
  good_block h l -> l <> x -> good_block (<[x := m]> h) l.
Proof. intros (m' & Hm & Hs) Hne. exists m'. by rewrite lookup_insert_ne. Qed.

Lemma good_new_block h x : good_block (<[x := new_mem_block]> h) x.
Proof.
  exists new_mem_block. rewrite lookup_insert_eq. unfold new_mem_block. cbn [mb_size mb_buf].
  rewrite zlen_replicate. split; [done|]. split; [done|]. by rewrite Z.max_r.
Qed.

Lemma blk_bytes_new h x :
  zlen (blk_bytes (<[x := new_mem_block]> h) x) = MEM_BLOCK_SIZE - MEM_BLOCK_HDR.
Proof.
  unfold blk_bytes. rewrite lookup_insert_eq. unfold new_mem_block. cbn [mb_buf].
  rewrite zlen_replicate. by rewrite Z.max_r.
Qed.

Lemma blk_bytes_insert_ne h x m l : l <> x -> blk_bytes (<[x := m]> h) l = blk_bytes h l.
Proof. intros. unfold blk_bytes. by rewrite lookup_insert_ne. Qed.

Lemma take_block_spec p bufs l p' :
  pool_inv p bufs -> take_block p = Some (l, p') ->
  (l ∉ held bufs) /\ NoDup (free_mem_blocks p' ++ l :: held bufs) /\
  Forall (good_block (mp_heap p')) (free_mem_blocks p' ++ l :: held bufs) /\
  Forall (fun l => zlen (blk_bytes (mp_heap p') l) <= MEM_BLOCK_SIZE - MEM_BLOCK_HDR)
    (free_mem_blocks p' ++ l :: held bufs) /\
  mem_blocks_used p' = mem_blocks_used p /\
  mem_blocks_alloc p' = zlen (free_mem_blocks p' ++ l :: held bufs) /\
  (mem_blocks_alloc p' < 2 ^ 32 /\
   mem_blocks_alloc p' <= Z.max (mem_blocks_alloc p) (mem_blocks_alloc_limit p)) /\
  mem_blocks_alloc_limit p' = mem_blocks_alloc_limit p /\
  (forall y, y ∈ held bufs -> mp_heap p' !! y = mp_heap p !! y).
Proof.
  intros [P1 P2 P3 P4 P5 [P6 P7]] Ht. unfold take_block in Ht.
  destruct (free_mem_blocks p) as [|f rest] eqn:Ef.
  - cbn [app] in *. destruct (Z.leb_spec (mem_blocks_alloc_limit p) (mem_blocks_alloc p)); [done|].
    destruct (mp_oom p); [done|]. injection Ht as <- <-. cbn [free_mem_blocks mp_heap app
      mem_blocks_used mem_blocks_alloc mem_blocks_alloc_limit].
    assert (Hf : fresh (dom (mp_heap p)) ∉ held bufs).
    { intros Hin. rewrite Forall_forall in P2. destruct (P2 _ Hin) as (m & Hm & _).
      apply (is_fresh (dom (mp_heap p))). apply elem_of_dom. eauto. }
    assert (Hne : forall y, y ∈ held bufs -> y <> fresh (dom (mp_heap p))) by (by intros ? ? ->).
    rewrite u32_small by zl.
    split; [done|]. split; [by constructor|]. split_and!; try done; try zl.
    + constructor; [apply good_new_block|]. rewrite Forall_forall in P2 |- *.
      intros y Hy. apply good_block_insert; auto.
    + constructor; [by rewrite blk_bytes_new|]. rewrite Forall_forall in P3 |- *.
      intros y Hy. rewrite blk_bytes_insert_ne by auto. auto.
    + intros y Hy. by rewrite lookup_insert_ne by (symmetry; auto).
  - injection Ht as <- <-. cbn [free_mem_blocks mp_heap app
      mem_blocks_used mem_blocks_alloc mem_blocks_alloc_limit].
    assert (Hp : (f :: rest) ++ held bufs ≡ₚ rest ++ f :: held bufs)
      by (cbn; by rewrite Permutation_middle).
    assert (Hn := P1). rewrite Hp in P1, P2, P3. cbn in Hn.
    apply NoDup_cons in Hn as [Hn _]. split_and!; try done; try lia.
    + intros Hin. apply Hn. apply elem_of_app. by right.
    + rewrite P5. unfold zlen. by rewrite Hp.
Qed.

Lemma held_cons b bufs : held (b :: bufs) = mem_blocks b ++ held bufs.
Proof. done. Qed.

Lemma chain_bytes_agree h h' ls :
  (forall y, y ∈ ls -> h' !! y = h !! y) -> chain_bytes h' ls = chain_bytes h ls.
Proof.
  induction ls as [|l ls IH]; intros Ha; [done|]. rewrite !chain_bytes_cons.
  rewrite IH by (intros; apply Ha; by right). f_equal.
  unfold blk_bytes. rewrite Ha by (by left). done.
Qed.

(** A buffer only depends on the heap at its own blocks. *)
Lemma wf_agree h h' b :
  (forall y, y ∈ mem_blocks b -> h' !! y = h !! y) -> buf_wf h b ->
  buf_wf h' b /\ content h' b = content h b.
Proof.
  intros Ha [W1 W2 W3 W4 W6 W7].
  assert (Hc : forall blk base pos, cursor h (mem_blocks b) blk base pos ->
    cursor h' (mem_blocks b) blk base pos).
  { intros [l|] base pos; [|done]. intros (pre & post & E & -> & Hp).
    exists pre, post. rewrite E in *. split; [done|].
    rewrite (chain_bytes_agree h h' pre) by (intros; apply Ha, elem_of_app; by left).
    unfold blk_bytes. rewrite Ha by (apply elem_of_app; right; by left). done. }
  split; [split; auto|].
  - rewrite Forall_forall in W2 |- *. intros l Hl. destruct (W2 l Hl) as (m & Hm & Hs).
    exists m. rewrite Ha by done. done.
  - by rewrite (chain_bytes_agree h h').
  - unfold content. by rewrite (chain_bytes_agree h h').
Qed.

Lemma cursor_snoc h ls blk base pos x :
  cursor h ls (Some blk) base pos -> cursor h (ls ++ [x]) (Some blk) base pos.
Proof.
  intros (pre & post & -> & H). exists pre, (post ++ [x]). by rewrite <- app_assoc.
Qed.

Lemma expand_fail p b : take_block p = None -> spy_rw_buffer_expand p b = Ret (-1, p, b).
Proof. intros H. unfold spy_rw_buffer_expand. by rewrite H. Qed.

(** The step of [spy_rw_buffer_expand] that gives an empty buffer its cursors. *)
Lemma expand_cursors h b l :
  buf_wf h b ->
  exists rb wb,
    (match mem_blocks b with
     | [] =>
         _ ← c_assert (is_none (read_block b) && is_none (write_block b));
         Ret (SpyRwBuffer [] (read_pos b) (write_pos b) (cap b)
                (Some l) (Some l) (read_base b) (write_base b))
     | _ => Ret b
     end)
    = Ret (SpyRwBuffer (mem_blocks b) (read_pos b) (write_pos b) (cap b) rb wb
             (read_base b) (write_base b)) /\
    cursor h (mem_blocks b ++ [l]) rb (read_base b) (read_pos b) /\
    cursor h (mem_blocks b ++ [l]) wb (write_base b) (write_pos b).
Proof.
  intros [W1 W2 W3 W4 W6 W7]. destruct b as [ls rp wp c rb wb rbs wbs]. cbn in *.
  destruct ls as [|x ls].
  - destruct rb as [r|]; [destruct W6 as ([] & ? & ? & _); discriminate|].
    destruct wb as [w|]; [destruct W7 as ([] & ? & ? & _); discriminate|].
    destruct W6 as (_ & -> & ->), W7 as (_ & -> & ->).
    exists (Some l), (Some l). split; [done|].
    split; exists [], []; rewrite chain_bytes_nil; split; [done|zl|done|zl].
  - destruct rb as [r|]; [|by destruct W6].
    destruct wb as [w|]; [|by destruct W7].
    exists (Some r), (Some w). split; [done|]. split; by apply cursor_snoc.
Qed.

(** A successful expansion: more room behind the same queue, and the pool still
    accounts for every block. *)
Lemma expand_ok p b bufs l p' :
  pool_inv p (b :: bufs) -> buf_wf (mp_heap p) b -> take_block p = Some (l, p') ->
  exists p'' b', spy_rw_buffer_expand p b = Ret (0, p'', b') /\
    pool_inv p'' (b' :: bufs) /\ buf_wf (mp_heap p'') b' /\
    content (mp_heap p'') b' = content (mp_heap p) b /\
    mem_blocks b' = mem_blocks b ++ [l] /\ cap b < cap b' /\
    read_pos b' = read_pos b /\ write_pos b' = write_pos b /\
    (forall y, y ∈ held (b :: bufs) -> mp_heap p'' !! y = mp_heap p !! y) /\
    mem_blocks_alloc_limit p'' = mem_blocks_alloc_limit p /\
    mem_blocks_alloc p'' <= Z.max (mem_blocks_alloc p) (mem_blocks_alloc_limit p).
Proof.
  intros I W Ht.
  destruct (take_block_spec p _ l p' I Ht) as (T1 & T2 & T3 & T4 & T5 & T6 & [T7 T7'] & T8 & T9).
  rewrite held_cons in *.
  assert (Hg : good_block (mp_heap p') l).
  { rewrite Forall_forall in T3. apply T3, elem_of_app. right. by left. }
  pose proof Hg as (m & Hm & H0 & Hs).
  assert (Hl : blk_bytes (mp_heap p') l = mb_buf m) by (unfold blk_bytes; by rewrite Hm).
  assert (Hnl : l ∉ mem_blocks b) by (intros ?; apply T1, elem_of_app; by left).
  destruct (wf_agree (mp_heap p) (mp_heap p') b) as [W' Hc'];
    [intros; apply T9, elem_of_app; by left|done|].
  pose proof W' as [W1 W2 W3 [W4 W5] W6 W7].
  assert (Hperm : free_mem_blocks p' ++ l :: mem_blocks b ++ held bufs
    ≡ₚ free_mem_blocks p' ++ (mem_blocks b ++ [l]) ++ held bufs) by solve_Permutation.
  destruct (expand_cursors (mp_heap p') b l W') as (rb & wb & Hb & Hrb & Hwb).
  unfold spy_rw_buffer_expand. rewrite Ht, Hm. cbn [c_deref].
  rewrite bind_Ret, Hb, bind_Ret. do 2 eexists. split; [done|].
  cbn [mem_blocks read_pos write_pos cap mp_heap mem_blocks_alloc mem_blocks_alloc_limit].
  assert (Hlen : zlen (chain_bytes (mp_heap p') (mem_blocks b ++ [l])) = cap b + mb_size m).
  { rewrite chain_bytes_app, chain_bytes_cons, chain_bytes_nil, Hl. zl. }
  split_and!; try done; try lia.
  - split; rewrite ?held_cons; cbn [free_mem_blocks mp_heap mem_blocks mem_blocks_used
      mem_blocks_alloc mem_blocks_alloc_limit]; rewrite ?T8, <- ?Hperm; try done.
    + pose proof (pi_used _ _ I) as Hu. pose proof (pi_alloc _ _ I) as Ha.
      rewrite held_cons in *. rewrite T5, Hu, u32_small; zl.
    + rewrite T6. unfold zlen. by rewrite Hperm.
    + split; [done|]. by destruct (pi_range _ _ I).
  - split; cbn; try done; [| |lia].
    + apply NoDup_app. split_and!; [done| |by apply NoDup_singleton].
      intros y Hy ->%list_elem_of_singleton. done.
    + apply Forall_app. split; [done|]. by constructor.
  - rewrite <- Hc'. unfold content. cbn [mem_blocks read_pos write_pos]. rewrite chain_bytes_app.
    apply zsub_app_l; lia.
Qed.

Lemma reset_spec p b bufs :
  pool_inv p (b :: bufs) ->
  exists p', spy_rw_buffer_reset p b = (p', spy_rw_buffer_init) /\
    pool_inv p' (spy_rw_buffer_init :: bufs) /\ mp_heap p' = mp_heap p /\
    free_mem_blocks p' = rev (mem_blocks b) ++ free_mem_blocks p /\
    mem_blocks_used p' = mem_blocks_used p - zlen (mem_blocks b).
Proof.
  intros [P1 P2 P3 P4 P5 P6]. rewrite held_cons in *.
  unfold spy_rw_buffer_reset. rewrite reset_loop_spec by zl.
  eexists. split; [done|]. cbn [mp_heap free_mem_blocks mem_blocks_used].
  split; [|done].
  assert (Hperm : free_mem_blocks p ++ mem_blocks b ++ held bufs
    ≡ₚ (rev (mem_blocks b) ++ free_mem_blocks p) ++ held bufs).
  { rewrite <- (Permutation_rev (mem_blocks b)). solve_Permutation. }
  split; rewrite ?held_cons; cbn [free_mem_blocks mp_heap mem_blocks mem_blocks_used
    mem_blocks_alloc mem_blocks_alloc_limit spy_rw_buffer_init app]; rewrite <- ?Hperm; try done.
  - zl.
  - rewrite P5. unfold zlen. by rewrite Hperm.
Qed.

Lemma init_wf h : buf_wf h spy_rw_buffer_init.
Proof. split; cbn; try done. constructor. Qed.

End Wf.

(** ** The pool shared by all connections, as a step relation *)

Module PoolSystem.

(** The pool and the buffers of all connections. *)
Abbreviation pstate := (mem_pool * list spy_rw_buffer_t)%type.

(** What the server does with its buffers: a new connection gets an empty one; a
    buffer grows; received or produced bytes are stored in its next writeable
    region; bytes of its next readable region are consumed; the read side is
    rewound; a buffer is reset; the empty buffer of a closed connection goes. *)
Inductive pool_step : pstate -> pstate -> Prop :=
| step_new p pre post :
    pool_step (p, pre ++ post) (p, pre ++ spy_rw_buffer_init :: post)
| step_expand p p' pre post b b' r :
    spy_rw_buffer_expand p b = Ret (r, p', b') ->
    pool_step (p, pre ++ b :: post) (p', pre ++ b' :: post)
| step_fill p h' pre post b b' r d :
    spy_rw_buffer_next_writeable (mp_heap p) b = Ret (Some r, b') -> zlen d <= rg_len r ->
    block_write (mp_heap p) (rg_block r) (rg_off r) d = Ret h' ->
    pool_step (p, pre ++ b :: post) (with_mp_heap h' p, pre ++ advance_write (zlen d) b' :: post)
| step_consume p pre post b b' r n :
    spy_rw_buffer_next_readable (mp_heap p) b = Ret (Some r, b') -> 0 <= n <= rg_len r ->
    pool_step (p, pre ++ b :: post) (p, pre ++ advance_read n b' :: post)
| step_rewind p pre post b b' pos :
    0 <= pos -> spy_rw_buffer_reset_read (mp_heap p) b pos = Ret b' ->
    pool_step (p, pre ++ b :: post) (p, pre ++ b' :: post)
| step_reset p p' pre post b b' :
    spy_rw_buffer_reset p b = (p', b') ->
    pool_step (p, pre ++ b :: post) (p', pre ++ b' :: post)
| step_close p pre post b :
    mem_blocks b = [] -> pool_step (p, pre ++ b :: post) (p, pre ++ post).

Inductive pool_reachable (prealloc limit : Z) (oom : bool) : pstate -> Prop :=
| pool_start p :
    spy_setup_mem_blocks prealloc limit oom = Ret p -> pool_reachable prealloc limit oom (p, [])
| pool_next s s' :
    pool_reachable prealloc limit oom s -> pool_step s s' -> pool_reachable prealloc limit oom s'.

(** The whole-pool invariant. *)
Definition pool_ok (prealloc limit : Z) (s : pstate) : Prop :=
  pool_inv s.1 s.2 /\ Forall (buf_wf (mp_heap s.1)) s.2 /\
  mem_blocks_alloc_limit s.1 = u32 limit /\
  mem_blocks_alloc s.1 <= Z.max prealloc (u32 limit).

Lemma held_perm bufs bufs' : bufs ≡ₚ bufs' -> held bufs ≡ₚ held bufs'.
Proof.
  unfold held. induction 1 as [|x l l' _ IH|x y l|l l' l'' _ IH1 _ IH2]; cbn.
  - done.
  - by rewrite IH.
  - rewrite !app_assoc. f_equiv. apply Permutation_app_comm.
  - by etrans.
Qed.

Lemma pool_inv_perm p bufs bufs' : bufs ≡ₚ bufs' -> pool_inv p bufs -> pool_inv p bufs'.
Proof.
  intros Hp%held_perm [P1 P2 P3 P4 P5 P6].
  split; rewrite <- ?Hp; try done; rewrite ?P4, ?P5; unfold zlen; by rewrite Hp.
Qed.

Lemma init_loop_spec n k h l :
  (forall x, x ∈ l -> (x < k)%nat) -> NoDup l -> Forall (good_block h) l ->
  Forall (fun x => zlen (blk_bytes h x) <= MEM_BLOCK_SIZE - MEM_BLOCK_HDR) l ->
  let '(h', l') := init_mem_blocks_loop n k h l in
  NoDup l' /\ Forall (good_block h') l' /\
  Forall (fun x => zlen (blk_bytes h' x) <= MEM_BLOCK_SIZE - MEM_BLOCK_HDR) l' /\
  zlen l' = zlen l + Z.of_nat n.
Proof.
  revert k h l. induction n as [|n IH]; intros k h l Hk Hn Hg Hs; cbn [init_mem_blocks_loop].
  { split_and!; try done. lia. }
  assert (Hne : forall x, x ∈ l -> x <> k) by (intros x Hx ->; apply Hk in Hx; lia).
  specialize (IH (S k) (<[k := new_mem_block]> h) (k :: l)).
  destruct (init_mem_blocks_loop n (S k) _ _) as [h' l'].
  destruct IH as (I1 & I2 & I3 & I4); [..|rewrite zlen_cons in I4; split_and!; done || lia].
  - intros x [->|Hx]%elem_of_cons; [lia|]. apply Hk in Hx. lia.
  - constructor; [|done]. intros Hx. by apply (Hne k).
  - constructor; [apply good_new_block|]. rewrite Forall_forall in Hg |- *.
    intros x Hx. apply good_block_insert; auto.
  - constructor; [by rewrite blk_bytes_new|]. rewrite Forall_forall in Hs |- *.
    intros x Hx. rewrite blk_bytes_insert_ne by auto. auto.
Qed.

Lemma setup_ok prealloc limit oom p :
  0 <= prealloc < 2 ^ 32 -> spy_setup_mem_blocks prealloc limit oom = Ret p ->
  pool_ok prealloc limit (p, []).
Proof.
  intros Hp Hs. unfold spy_setup_mem_blocks in Hs.
  destruct ((0 <? prealloc) && oom); [done|].
  pose proof (init_loop_spec (Z.to_nat prealloc) 0 ∅ []) as Hi.
  destruct (init_mem_blocks_loop (Z.to_nat prealloc) 0 ∅ []) as [h l].
  destruct Hi as (I1 & I2 & I3 & I4); [set_solver|constructor..|]. inv_ret.
  rewrite zlen_nil in I4. pose proof (u32_range limit).
  split; [|split; [by apply Forall_nil|cbn; rewrite (u32_small prealloc) by lia; lia]].
  split; cbn; rewrite ?app_nil_r; try done; rewrite ?u32_small by lia; lia.
Qed.

(** Replacing one buffer and possibly the heap, where the new heap agrees with
    the old one on the blocks of the others. *)
Lemma pool_ok_replace prealloc limit p p' pre post b b' :
  pool_ok prealloc limit (p, pre ++ b :: post) ->
  pool_inv p' (b' :: pre ++ post) -> buf_wf (mp_heap p') b' ->
  (forall y, y ∈ held (pre ++ post) -> mp_heap p' !! y = mp_heap p !! y) ->
  mem_blocks_alloc_limit p' = mem_blocks_alloc_limit p ->
  mem_blocks_alloc p' <= Z.max prealloc (u32 limit) ->
  pool_ok prealloc limit (p', pre ++ b' :: post).
Proof.
  intros (I & W & Hl & Ha) I' Wb Hag Hl' Ha'. cbn [fst snd] in *. split_and!; cbn [fst snd].
  - eapply pool_inv_perm; [|exact I']. apply Permutation_middle.
  - rewrite Forall_app, Forall_cons in W |- *. destruct W as (W1 & W2 & W3).
    assert (Hr : forall c, c ∈ pre ++ post -> buf_wf (mp_heap p) c -> buf_wf (mp_heap p') c).
    { intros c Hc Wc. apply (wf_agree (mp_heap p)); [|done]. intros y Hy. apply Hag.
      unfold held. apply list_elem_of_In, in_concat. exists (mem_blocks c).
      split; [apply in_map|]; by apply list_elem_of_In. }
    rewrite !Forall_forall in *. split_and!; try done; intros c Hc; apply Hr; auto;
      apply elem_of_app; auto.
  - congruence.
  - done.
Qed.

Lemma pool_ok_focus prealloc limit p pre post b :
  pool_ok prealloc limit (p, pre ++ b :: post) ->
  pool_inv p (b :: pre ++ post) /\ buf_wf (mp_heap p) b.
Proof.
  intros (I & W & _). cbn in *. split.
  - eapply pool_inv_perm; [|exact I]. symmetry. apply Permutation_middle.
  - apply Forall_app in W as [_ W]. by apply Forall_cons in W as [W _].
Qed.

(** The pool invariant does not look at what the blocks hold. *)
Lemma pool_inv_shape p b b' bufs h' :
  pool_inv p (b :: bufs) -> same_shape (mp_heap p) h' -> mem_blocks b' = mem_blocks b ->
  pool_inv (with_mp_heap h' p) (b' :: bufs).
Proof.
  intros [P1 P2 P3 P4 P5 P6] Hs Hm. rewrite held_cons in *.
  split; rewrite ?held_cons; cbn; rewrite ?Hm; try done.
  - eapply Forall_impl; [exact P2|]. intros l (m & Hl & H0 & Hz).
    destruct (Hs l) as [H1 H2]. unfold blk_bytes in H2. rewrite Hl in H1, H2.
    destruct (h' !! l) as [m'|] eqn:E; [|done]. injection H1 as H1. exists m'. split; [done|lia].
  - eapply Forall_impl; [exact P3|]. intros l Hl. by rewrite <- (proj2 (Hs l)).
Qed.

Lemma held_disjoint p b bufs y :
  pool_inv p (b :: bufs) -> y ∈ held bufs -> y ∉ mem_blocks b.
Proof.
  intros [P1 _ _ _ _ _] Hy Hb. rewrite held_cons in P1.
  apply NoDup_app in P1 as (_ & _ & P1). apply NoDup_app in P1 as (_ & P1 & _).
  by apply (P1 y).
Qed.

Lemma with_mp_heap_id p : with_mp_heap (mp_heap p) p = p.
Proof. by destruct p. Qed.

Lemma pool_step_ok prealloc limit s s' :
  pool_ok prealloc limit s -> pool_step s s' -> pool_ok prealloc limit s'.
Proof.
  intros Hok Hst.
  destruct Hst as [p pre post|p p' pre post b b' r He|p h' pre post b b' r d Hw Hd Hb
    |p pre post b b' r n Hr Hn|p pre post b b' pos Hp Hr|p p' pre post b b' Hr|p pre post b Hm].
  - destruct Hok as (I & W & Hl & Ha). split_and!; cbn in *; try done.
    + eapply (pool_inv_perm _ (spy_rw_buffer_init :: pre ++ post)); [apply Permutation_middle|].
      by destruct I.
    + rewrite Forall_app in *. rewrite Forall_cons. destruct W. split_and!; auto using init_wf.
  - destruct (pool_ok_focus _ _ _ _ _ _ Hok) as [I W]. pose proof Hok as (_ & _ & Hl & Ha).
    destruct (take_block p) as [[l p1]|] eqn:Ht; [|rewrite expand_fail in He by done; by inv_ret].
    destruct (expand_ok p b (pre ++ post) l p1 I W Ht)
      as (p2 & b2 & He2 & I2 & W2 & _ & _ & _ & _ & _ & Hag & Hl2 & Ha2).
    rewrite He2 in He. inv_ret. eapply pool_ok_replace; try done.
    + intros y Hy. apply Hag. rewrite held_cons. apply elem_of_app. by right.
    + cbn in *. rewrite Hl in *. lia.
  - destruct (pool_ok_focus _ _ _ _ _ _ Hok) as [I W]. pose proof Hok as (_ & _ & Hl & Ha).
    destruct (decide (write_pos b = cap b)) as [E|E];
      [by rewrite next_writeable_none in Hw|].
    destruct (next_writeable_some (mp_heap p) b W) as (r2 & b2 & Hw2 & Hq & Hr & Hst);
      [destruct (wf_pos _ _ W); lia|].
    rewrite Hw2 in Hw. inv_ret. destruct (Hst d Hd) as (h2 & Hb2 & S1 & S2 & _ & S4 & _ & _ & _ & S8).
    rewrite Hb2 in Hb. inv_ret. eapply pool_ok_replace; try done.
    + eapply pool_inv_shape; done.
    + intros y Hy. cbn. apply S8. by eapply held_disjoint.
  - destruct (pool_ok_focus _ _ _ _ _ _ Hok) as [I W]. pose proof Hok as (_ & _ & Hl & Ha).
    destruct (decide (read_pos b = write_pos b)) as [E|E];
      [by rewrite next_readable_none in Hr|].
    destruct (next_readable_some (mp_heap p) b W) as (r2 & b2 & Hr2 & Hq & _ & Hst);
      [destruct (wf_pos _ _ W); lia|].
    rewrite Hr2 in Hr. inv_ret. destruct (Hst n Hn) as (_ & W2 & _).
    eapply pool_ok_replace; try done. rewrite <- (with_mp_heap_id p).
    eapply pool_inv_shape; [done|apply same_shape_refl|]. by destruct Hq.
  - destruct (pool_ok_focus _ _ _ _ _ _ Hok) as [I W]. pose proof Hok as (_ & _ & Hl & Ha).
    assert (pos <= write_pos b) as Hpw.
    { unfold spy_rw_buffer_reset_read in Hr. inv_ret. lia. }
    destruct (reset_read_spec (mp_heap p) b pos W) as (b2 & Hr2 & W2 & Hm2 & _); [lia|].
    rewrite Hr2 in Hr. inv_ret. eapply pool_ok_replace; try done.
    rewrite <- (with_mp_heap_id p). by eapply pool_inv_shape.
  - destruct (pool_ok_focus _ _ _ _ _ _ Hok) as [I W]. pose proof Hok as (_ & _ & Hl & Ha).
    destruct (reset_spec p b (pre ++ post) I) as (p2 & Hr2 & I2 & Hh & _).
    assert (mem_blocks_alloc p2 = mem_blocks_alloc p /\
      mem_blocks_alloc_limit p2 = mem_blocks_alloc_limit p) as [Ea El].
    { unfold spy_rw_buffer_reset in Hr2. destruct (reset_loop _ _ _). by injection Hr2 as <-. }
    rewrite Hr2 in Hr. injection Hr as <- <-. eapply pool_ok_replace; try done.
    + apply init_wf.
    + intros y _. by rewrite Hh.
    + cbn in *. lia.
  - destruct (pool_ok_focus _ _ _ _ _ _ Hok) as [I W]. destruct Hok as (_ & W' & Hl & Ha).
    split_and!; cbn in *; try done.
    + destruct I. rewrite held_cons, Hm in *. by split.
    + rewrite Forall_app, Forall_cons in *. by destruct W' as (? & ? & ?).
Qed.

Lemma pool_reachable_ok prealloc limit oom s :
  0 <= prealloc < 2 ^ 32 -> pool_reachable prealloc limit oom s -> pool_ok prealloc limit s.
Proof.
  intros Hp. induction 1 as [p Hs|s s' _ IH Hst]; [by eapply setup_ok|by eapply pool_step_ok].
Qed.

End PoolSystem.
Export PoolSystem.

Lemma chain_len_bound h ls k :
  Forall (fun l => zlen (blk_bytes h l) <= k) ls -> zlen (chain_bytes h ls) <= zlen ls * k.
Proof.
  induction 1 as [|l ls Hl _ IH]; [done|].
  rewrite chain_bytes_cons, zlen_app, zlen_cons. lia.
Qed.

(** ** Properties *)

Module RwBufferProps.

(** A pool of two small blocks, for examples. *)
Definition ex_heap : gmap loc spy_mem_block_t :=
  {[0%nat := SpyMemBlock 4 (replicate 4 b00); 1%nat := SpyMemBlock 3 (replicate 3 b00)]}.
Definition ex_pool : mem_pool := MemPool ex_heap [] 2 2 2 false.
(** A buffer over both blocks that holds one byte of the first. *)
Definition ex_buffer : spy_rw_buffer_t :=
  SpyRwBuffer [0%nat; 1%nat] 2 3 7 (Some 0%nat) (Some 0%nat) 0 0.

Lemma ex_buffer_wf : buf_wf ex_heap ex_buffer.
Proof.
  split; cbn.
  - by apply (bool_decide_unpack _).
  - repeat constructor; by eexists.
  - done.
  - done.
  - exists [], [1%nat]. by vm_compute.
  - exists [], [1%nat]. by vm_compute.
Qed.

(** C33: [spy_rw_buffer_write_n] implements "append to the queue, as far as there
    is room": on a well-formed buffer it returns, without leaving any block, the
    number of bytes that fit; the queue then ends with exactly those bytes, the
    buffer is well formed again and every block of other buffers is untouched. *)
Theorem rw_buffer_write_n_appends h b d :
  buf_wf h b ->
  exists h' b', let k := Z.min (zlen d) (cap b - write_pos b) in
    spy_rw_buffer_write_n h b d = Ret (k, h', b') /\ buf_wf h' b' /\
    content h' b' = content h b ++ ztake k d /\
    (forall y, y ∉ mem_blocks b -> h' !! y = h !! y).
Proof.
  intros W. destruct (write_n_loop_spec (length d) h b d 0) as (h' & b' & Hr & Hs); [done|lia|].
  exists h', b'. cbv zeta in *. destruct Hs as (_ & S2 & S3 & _ & _ & _ & _ & S8).
  split_and!; done.
Qed.

Lemma rw_buffer_write_n_appends_witness :
  exists h' b', spy_rw_buffer_write_n ex_heap ex_buffer (spy_mach_write_to_8 42) = Ret (4, h', b')
  /\ buf_wf h' b'
  /\ content h' b' = content ex_heap ex_buffer ++ ztake 4 (spy_mach_write_to_8 42)
  /\ (forall y, y ∉ mem_blocks ex_buffer -> h' !! y = ex_heap !! y).
Proof.
  apply (rw_buffer_write_n_appends ex_heap ex_buffer (spy_mach_write_to_8 42) ex_buffer_wf).
Defined.

(** C34: [spy_rw_buffer_read_n] implements "take up to [n] bytes from the front of
    the queue": on a well-formed buffer it returns, for any [n], exactly the next
    [n] bytes (or all there are), and leaves the rest queued. *)
Theorem rw_buffer_read_n_takes h b n :
  buf_wf h b -> 0 <= n ->
  exists b', spy_rw_buffer_read_n h b n = Ret (ztake n (content h b), b') /\
    buf_wf h b' /\ content h b' = zdrop n (content h b).
Proof.
  intros W Hn. destruct (read_n_loop_spec (Z.to_nat n) h b n []) as (b' & Hr & W' & Hc & _);
    [done|done|lia|]. by exists b'.
Qed.

Lemma rw_buffer_read_n_takes_witness :
  exists b', spy_rw_buffer_read_n ex_heap ex_buffer 9 = Ret ([b00], b') /\
    buf_wf ex_heap b' /\ content ex_heap b' = [].
Proof. apply (rw_buffer_read_n_takes ex_heap ex_buffer 9 ex_buffer_wf). lia. Defined.

(** [spy_rw_buffer_expand] returns 0 or -1 and never touches the queue; it
    returns -1, changing nothing, exactly when no free block is left and the
    limit is reached or [calloc] fails; otherwise the capacity grows. *)
Theorem rw_buffer_expand_spec p b bufs :
  pool_inv p (b :: bufs) -> buf_wf (mp_heap p) b ->
  exists r p' b', spy_rw_buffer_expand p b = Ret (r, p', b') /\
    pool_inv p' (b' :: bufs) /\ buf_wf (mp_heap p') b' /\
    content (mp_heap p') b' = content (mp_heap p) b /\
    ((r = 0 /\ cap b < cap b') \/
     (r = -1 /\ p' = p /\ b' = b /\ free_mem_blocks p = [] /\
      (mem_blocks_alloc_limit p <= mem_blocks_alloc p \/ mp_oom p = true))).
Proof.
  intros I W. destruct (take_block p) as [[l p1]|] eqn:Ht.
  - destruct (expand_ok p b bufs l p1 I W Ht)
      as (p2 & b2 & He & I2 & W2 & Hc & _ & Hcap & _). exists 0, p2, b2. by auto 10.
  - exists (-1), p, b. rewrite expand_fail by done. split_and!; try done. right.
    unfold take_block in Ht. destruct (free_mem_blocks p); [|done].
    split_and!; try done. case_b; [by left|]. destruct (mp_oom p); [by right|done].
Qed.

Lemma ex_pool_inv : pool_inv ex_pool [ex_buffer].
Proof.
  split; cbn; try done.
  - by apply (bool_decide_unpack _).
  - repeat constructor; by eexists.
  - repeat constructor; by vm_compute.
Qed.

Lemma rw_buffer_expand_spec_witness :
  exists r p' b', spy_rw_buffer_expand ex_pool ex_buffer = Ret (r, p', b') /\
    pool_inv p' (b' :: []) /\ buf_wf (mp_heap p') b' /\
    content (mp_heap p') b' = content (mp_heap ex_pool) ex_buffer /\
    ((r = 0 /\ cap ex_buffer < cap b') \/
     (r = -1 /\ p' = ex_pool /\ b' = ex_buffer /\ free_mem_blocks ex_pool = [] /\
      (mem_blocks_alloc_limit ex_pool <= mem_blocks_alloc ex_pool \/ mp_oom ex_pool = true))).
Proof. apply (rw_buffer_expand_spec ex_pool ex_buffer [] ex_pool_inv ex_buffer_wf). Defined.

(** In every state the server's buffer operations can reach, in any
    interleaving over any number of connections, each block is in the free list
    or in exactly one buffer (so no block is lost or shared), [mem_blocks_used]
    and [mem_blocks_alloc] count them, the pool never grows past the larger of
    its preallocation and its limit, and a buffer's positions stay below 2^52. *)
Theorem pool_blocks_conserved prealloc limit oom p bufs :
  0 <= prealloc < 2 ^ 32 -> pool_reachable prealloc limit oom (p, bufs) ->
  NoDup (free_mem_blocks p ++ held bufs) /\
  mem_blocks_used p = zlen (held bufs) /\
  mem_blocks_alloc p = zlen (free_mem_blocks p) + zlen (held bufs) /\
  mem_blocks_alloc p <= Z.max prealloc (u32 limit) /\
  forall b, b ∈ bufs -> 0 <= read_pos b <= write_pos b /\ write_pos b <= cap b < 2 ^ 52.
Proof.
  intros Hp Hr. apply pool_reachable_ok in Hr as (I & W & Hl & Ha); [|done]. cbn in *.
  pose proof I as [P1 P2 P3 P4 P5 P6]. rewrite zlen_app in P5. split_and!; try done.
  intros b Hb. rewrite Forall_forall in W. specialize (W b Hb).
  destruct (wf_pos _ _ W) as [Hp1 Hp2]. split_and!; try lia.
  rewrite (wf_cap _ _ W).
  apply list_elem_of_split in Hb as (pre & post & ->).
  unfold held in *. rewrite map_app, map_cons, concat_app, concat_cons in *.
  rewrite !Forall_app in P3. destruct P3 as (_ & _ & P3 & _).
  apply chain_len_bound in P3. change (MEM_BLOCK_SIZE - MEM_BLOCK_HDR) with 1048552 in P3. zl.
Qed.

(** One connection whose request buffer has grown by one block. *)
Lemma ex_reachable :
  exists p b, spy_rw_buffer_expand (MemPool ∅ [] 0 5 0 false) spy_rw_buffer_init = Ret (0, p, b) /\
    pool_reachable 0 5 false (p, [b]).
Proof.
  set (p0 := MemPool ∅ [] 0 5 0 false).
  assert (H0 : pool_reachable 0 5 false (p0, [])) by (by constructor).
  pose proof (pool_next _ _ _ _ _ H0 (step_new p0 [] [])) as H1.
  destruct (pool_reachable_ok 0 5 false _ ltac:(lia) H1) as (I & _).
  destruct (expand_ok p0 spy_rw_buffer_init [] _ _ I (init_wf _) eq_refl) as (p & b & He & _).
  exists p, b. split; [exact He|]. exact (pool_next _ _ _ _ _ H1 (step_expand p0 p [] [] _ b 0 He)).
Qed.

Lemma pool_blocks_conserved_witness :
  exists p b, pool_reachable 0 5 false (p, [b]) /\
  NoDup (free_mem_blocks p ++ held [b]) /\
  mem_blocks_used p = zlen (held [b]) /\
  mem_blocks_alloc p = zlen (free_mem_blocks p) + zlen (held [b]) /\
  mem_blocks_alloc p <= Z.max 0 (u32 5) /\
  forall c, c ∈ [b] -> 0 <= read_pos c <= write_pos c /\ write_pos c <= cap c < 2 ^ 52.
Proof.
  destruct ex_reachable as (p & b & _ & H). exists p, b. split; [exact H|].
  apply (pool_blocks_conserved 0 5 false p [b]); [lia|exact H].
Defined.

End RwBufferProps.
