(* ===== verification/Adler32.v ===== *)
(** * Adler32: [chunkserver/spy_adler32.c]

    The Adler-32 checksum over a flat buffer, over a linked read/write buffer,
    and the combination of two checksums.  The sums are [unsigned long], 64 bits
    here; the delayed reduction modulo [BASE] is the code's, and is shown to stay
    within 32 bits as the comment on [NMAX] promises. *)

From S2P Require Import Prelude Utils RwBuffer.

Module Adler.

Definition BASE : Z := 65521.
Definition NMAX : Z := 5552.

(** The two running sums [(adler, sum2)]. *)
Abbreviation sums := (Z * Z)%type.

(** [{adler += (buf)[i]; sum2 += adler;}] *)
Definition DO1 (buf : list byte) (i : nat) (st : sums) : outcome sums :=
  b ← rd buf i;
  let adler := u64 (st.1 + b) in
  Ret (adler, u64 (st.2 + adler)).
Definition DO2 buf i st := st ← DO1 buf i st; DO1 buf (i + 1) st.
Definition DO4 buf i st := st ← DO2 buf i st; DO2 buf (i + 2) st.
Definition DO8 buf i st := st ← DO4 buf i st; DO4 buf (i + 4) st.
Definition DO16 buf st := st ← DO8 buf 0 st; DO8 buf 8 st.

(** [MOD(adler); MOD(sum2);] *)
Definition MOD (st : sums) : sums := (st.1 mod BASE, st.2 mod BASE).

(** The two macros for processors that do not divide ([NO_DIVIDE]):
    [if (a >= (BASE << k)) a -= (BASE << k);] for each [k] in turn. *)
Definition sub_BASE (a k : Z) : Z := if Z.shiftl BASE k <=? a then a - Z.shiftl BASE k else a.
Definition MOD_no_divide (a : Z) : Z :=
  foldl sub_BASE a [16; 15; 14; 13; 12; 11; 10; 9; 8; 7; 6; 5; 4; 3; 2; 1; 0].
Definition MOD4_no_divide (a : Z) : Z := foldl sub_BASE a [4; 3; 2; 1; 0].

(** [do { DO16(buf); buf += 16; } while (--n)], [n] rounds. *)
Fixpoint do16_rounds (n : nat) (buf : list byte) (st : sums) : outcome (list byte * sums) :=
  match n with
  | O => Ret (buf, st)
  | S n' => st ← DO16 buf st; do16_rounds n' (drop 16 buf) st
  end.

(** [while (len >= NMAX) { ... }] *)
Fixpoint nmax_loop (fuel : nat) (buf : list byte) (len : Z) (st : sums)
    : outcome (list byte * Z * sums) :=
  if NMAX <=? len then
    match fuel with
    | O => Wait
    | S fuel' =>
        '(buf, st) ← do16_rounds (Z.to_nat (NMAX / 16)) buf st;
        nmax_loop fuel' buf (len - NMAX) (MOD st)
    end
  else Ret (buf, len, st).

(** [while (len >= 16) { len -= 16; DO16(buf); buf += 16; }] *)
Fixpoint do16_loop (fuel : nat) (buf : list byte) (len : Z) (st : sums)
    : outcome (list byte * Z * sums) :=
  if 16 <=? len then
    match fuel with
    | O => Wait
    | S fuel' => st ← DO16 buf st; do16_loop fuel' (drop 16 buf) (len - 16) st
    end
  else Ret (buf, len, st).

(** [while (len--) { adler += *buf++; sum2 += adler; }] *)
Fixpoint byte_loop (fuel : nat) (buf : list byte) (len : Z) (st : sums) : outcome sums :=
  if 0 <? len then
    match fuel with
    | O => Wait
    | S fuel' => st ← DO1 buf 0 st; byte_loop fuel' (drop 1 buf) (len - 1) st
    end
  else Ret st.

(** The summation of [len] bytes, as it stands both in [spy_adler32] and in the
    body of [spy_buffer_adler32]; every loop makes progress, so [len] rounds of
    each are enough. *)
Definition sum_block (buf : list byte) (len : Z) (st : sums) : outcome sums :=
  let fuel := Z.to_nat len in
  '(buf, len, st) ← nmax_loop fuel buf len st;
  if len =? 0 then Ret st
  else
    '(buf, len, st) ← do16_loop fuel buf len st;
    st ← byte_loop fuel buf len st;
    Ret (MOD st).

(** [adler & 0xffff], [(adler >> 16) & 0xffff] and [adler | (sum2 << 16)]. *)
Definition split_sums (adler : Z) : sums :=
  (Z.land adler 65535, Z.land (Z.shiftr adler 16) 65535).
Definition join_sums (st : sums) : Z := Z.lor st.1 (Z.shiftl st.2 16).

Definition spy_adler32 (adler : Z) (buf : option (list byte)) (len : Z) : outcome Z :=
  let st := split_sums adler in
  if len =? 1 then
    buf ← c_deref buf;
    b ← rd buf 0;
    let adler := u64 (st.1 + b) in
    let adler := if BASE <=? adler then adler - BASE else adler in
    let sum2 := u64 (st.2 + adler) in
    let sum2 := if BASE <=? sum2 then sum2 - BASE else sum2 in
    Ret (join_sums (adler, sum2))
  else
    match buf with
    | None => Ret 1
    | Some buf =>
        if len <? 16 then
          st ← byte_loop (Z.to_nat len) buf len st;
          let adler := if BASE <=? st.1 then st.1 - BASE else st.1 in
          Ret (join_sums (adler, st.2 mod BASE))
        else
          st ← sum_block buf len st;
          Ret (join_sums st)
    end.

(** The [while (left > 0)] loop of [spy_buffer_adler32]. *)
Fixpoint buffer_adler_loop (fuel : nat) (h : gmap loc spy_mem_block_t)
    (buffer : spy_rw_buffer_t) (left : Z) (st : sums)
    : outcome (spy_rw_buffer_t * sums) :=
  if 0 <? left then
    match fuel with
    | O => Wait
    | S fuel' =>
        '(r, buffer) ← spy_rw_buffer_next_readable h buffer;
        match r with
        | None => Assert
        | Some r =>
            let nread := if left <? rg_len r then left else rg_len r in
            data ← block_read h (rg_block r) (rg_off r) nread;
            st ← sum_block data nread st;
            buffer_adler_loop fuel' h (advance_read nread buffer) (left - nread) st
        end
    end
  else Ret (buffer, st).

Definition spy_buffer_adler32 (adler : Z) (h : gmap loc spy_mem_block_t)
    (buffer : spy_rw_buffer_t) (len : Z) : outcome (Z * spy_rw_buffer_t) :=
  let saved := read_pos buffer in
  _ ← c_assert (len <=? write_pos buffer - read_pos buffer);
  '(buffer, st) ← buffer_adler_loop (Z.to_nat len) h buffer len (split_sums adler);
  buffer ← spy_rw_buffer_reset_read h buffer saved;
  Ret (join_sums st, buffer).

(** [adler32_combine(adler1, adler2, len2)] *)
Definition adler32_combine (adler1 adler2 len2 : Z) : Z :=
  let rem := u32 (u64 len2 mod BASE) in
  let sum1 := Z.land adler1 65535 in
  let sum2 := u64 (rem * sum1) in
  let sum2 := sum2 mod BASE in
  let sum1 := u64 (sum1 + Z.land adler2 65535 + BASE - 1) in
  let sum2 := u64 (sum2 + Z.land (Z.shiftr adler1 16) 65535
                    + Z.land (Z.shiftr adler2 16) 65535 + BASE - rem) in
  let sum1 := if BASE <? sum1 then sum1 - BASE else sum1 in
  let sum1 := if BASE <? sum1 then sum1 - BASE else sum1 in
  let sum2 := if Z.shiftl BASE 1 <? sum2 then sum2 - Z.shiftl BASE 1 else sum2 in
  let sum2 := if BASE <? sum2 then sum2 - BASE else sum2 in
  join_sums (sum1, sum2).

(** ** Reference definition: reduce after every byte *)

Definition ref_step (st : sums) (b : byte) : sums :=
  let a := (st.1 + Z_of_byte b) mod BASE in (a, (st.2 + a) mod BASE).
Definition ref_sums (st : sums) (l : list byte) : sums := foldl ref_step st l.
(** The checksum of [l] continued from [adler]. *)
Definition adler_ref (adler : Z) (l : list byte) : Z :=
  join_sums (ref_sums (split_sums adler) l).

End Adler.
Export Adler.

(** ** Delayed reduction *)

Section Lazy.
Implicit Types (st : sums) (l buf : list byte).

Definition lazy_step st (b : byte) : sums := (st.1 + Z_of_byte b, st.2 + (st.1 + Z_of_byte b)).
Definition lazy_sums st l : sums := foldl lazy_step st l.

Definition reduced st : Prop := 0 <= st.1 < BASE /\ 0 <= st.2 < BASE.
(** The bound of the comment on [NMAX] after [m] unreduced bytes. *)
Definition bnd (m : Z) st : Prop :=
  0 <= st.1 <= BASE - 1 + 255 * m /\
  0 <= st.2 /\ 2 * st.2 <= 255 * m * (m + 1) + 2 * (m + 1) * (BASE - 1).

Lemma lazy_sums_app st l l' : lazy_sums st (l ++ l') = lazy_sums (lazy_sums st l) l'.
Proof. apply foldl_app. Qed.
Lemma ref_sums_app st l l' : ref_sums st (l ++ l') = ref_sums (ref_sums st l) l'.
Proof. apply foldl_app. Qed.

Lemma reduced_bnd st : reduced st -> bnd 0 st.
Proof. unfold reduced, bnd, BASE. lia. Qed.

Lemma lazy_step_bnd m st b : 0 <= m -> bnd m st -> bnd (m + 1) (lazy_step st b).
Proof.
  unfold bnd, lazy_step. cbn [fst snd]. pose proof (Z_of_byte_range b). unfold BASE. nia.
Qed.

Lemma lazy_sums_bnd m st l : 0 <= m -> bnd m st -> bnd (m + zlen l) (lazy_sums st l).
Proof.
  revert m st. induction l as [|b l IH]; intros m st Hm Hb; cbn.
  - by rewrite Z.add_0_r.
  - rewrite zlen_cons, Z.add_assoc. apply IH; [lia|]. by apply lazy_step_bnd.
Qed.

(** Within one block of [NMAX] bytes both sums fit in 32 bits. *)
Lemma bnd_32 m st : 0 <= m <= NMAX -> bnd m st -> st.1 < 2 ^ 32 /\ st.2 < 2 ^ 32.
Proof. unfold bnd, BASE, NMAX. intros. split; nia. Qed.

Lemma MOD_lazy_step st b : MOD (lazy_step st b) = ref_step (MOD st) b.
Proof.
  unfold MOD, lazy_step, ref_step. cbn [fst snd]. unfold BASE. f_equal.
  - by rewrite Zplus_mod_idemp_l.
  - rewrite Zplus_mod_idemp_l, Zplus_mod_idemp_l. rewrite Zplus_mod_idemp_r. done.
Qed.

Lemma MOD_lazy st l : MOD (lazy_sums st l) = ref_sums (MOD st) l.
Proof.
  revert st. induction l as [|b l IH]; intros st; [done|]. cbn.
  unfold lazy_sums in IH. by rewrite IH, MOD_lazy_step.
Qed.

Lemma MOD_reduced st : reduced st -> MOD st = st.
Proof. unfold reduced, MOD. intros. destruct st. cbn in *. by rewrite !Z.mod_small by lia. Qed.

Lemma reduced_MOD st : reduced (MOD st).
Proof. unfold reduced, MOD, BASE. cbn. split; apply Z.mod_pos_bound; lia. Qed.

Lemma ref_sums_reduced st l : reduced st -> reduced (ref_sums st l).
Proof.
  revert st. induction l as [|b l IH]; intros st Hs; [done|]. cbn. apply IH.
  unfold ref_step, reduced, BASE. cbn. split; apply Z.mod_pos_bound; lia.
Qed.

(** One of the [DO] macros at width [k]: it sums [k] bytes from index [i]. *)
Definition sums_at (k : nat) (D : list byte -> nat -> sums -> outcome sums) : Prop :=
  forall buf i st m, (i + k <= length buf)%nat -> 0 <= m -> m + Z.of_nat k <= NMAX -> bnd m st ->
    D buf i st = Ret (lazy_sums st (take k (drop i buf))).

Lemma DO1_sums : sums_at 1 DO1.
Proof.
  intros buf i st m Hi Hm Hk Hb. unfold DO1, rd.
  destruct (lookup_lt_is_Some_2 buf i) as [b Hl]; [lia|].
  rewrite Hl. cbn [c_deref]. rewrite !bind_Ret. rewrite (drop_S buf b) by done. cbn.
  pose proof (lazy_step_bnd m st b Hm Hb) as Hb'.
  pose proof (bnd_32 (m + 1) _ ltac:(lia) Hb') as [H1 H2].
  unfold bnd, lazy_step in *. cbn [fst snd] in *.
  rewrite (u64_small (st.1 + _)) by lia. by rewrite u64_small by lia.
Qed.

Lemma sums_double k D D' :
  (forall buf i st, D' buf i st = (st ← D buf i st; D buf (i + k)%nat st)) ->
  sums_at k D -> sums_at (k + k) D'.
Proof.
  intros HD Hs buf i st m Hi Hm Hk Hb. rewrite HD.
  rewrite (Hs _ _ _ m), bind_Ret by (done || lia).
  set (l := take k (drop i buf)).
  assert (Hl : zlen l = Z.of_nat k) by (unfold l, zlen; rewrite length_take, length_drop; lia).
  rewrite (Hs _ _ _ (m + Z.of_nat k)); [|lia|lia|lia|rewrite <- Hl; by apply lazy_sums_bnd].
  rewrite <- lazy_sums_app. do 2 f_equal. unfold l. by rewrite <- drop_drop, take_take_drop.
Qed.

Lemma DO8_sums : sums_at 8 DO8.
Proof.
  apply (sums_double 4 DO4); [done|]. apply (sums_double 2 DO2); [done|].
  apply (sums_double 1 DO1); [done|]. apply DO1_sums.
Qed.

Lemma DO16_sums buf st m :
  (16 <= length buf)%nat -> 0 <= m -> m + 16 <= NMAX -> bnd m st ->
  DO16 buf st = Ret (lazy_sums st (take 16 buf)).
Proof.
  intros. apply (sums_double 8 DO8 (fun b i st => st ← DO8 b i st; DO8 b (i + 8)%nat st)
    ltac:(done) DO8_sums buf 0%nat st m); done || (cbn; lia).
Qed.

Lemma do16_rounds_sums n buf st m :
  (16 * n <= length buf)%nat -> 0 <= m -> m + 16 * Z.of_nat n <= NMAX -> bnd m st ->
  do16_rounds n buf st = Ret (drop (16 * n) buf, lazy_sums st (take (16 * n) buf)).
Proof.
  revert buf st m. induction n as [|n IH]; intros buf st m Hl Hm Hk Hb; [done|].
  cbn [do16_rounds]. rewrite (DO16_sums buf st m), bind_Ret by (done || lia).
  assert (H16 : zlen (take 16 buf) = 16) by (unfold zlen; rewrite length_take; lia).
  rewrite (IH _ _ (m + 16)); [|rewrite length_drop; lia|lia|lia|].
  - replace (16 * S n)%nat with (16 + 16 * n)%nat by lia.
    by rewrite <- lazy_sums_app, drop_drop, take_take_drop.
  - rewrite <- H16 at 1. by apply lazy_sums_bnd.
Qed.

Lemma nmax_loop_sums fuel buf len st :
  len <= Z.of_nat fuel -> 0 <= len <= zlen buf -> reduced st ->
  exists k, nmax_loop fuel buf len st
      = Ret (zdrop k buf, len - k, ref_sums st (ztake k buf)) /\ 0 <= k <= len /\ len - k < NMAX.
Proof.
  revert buf len st. induction fuel as [|fuel IH]; intros buf len st Hf Hl Hr; cbn [nmax_loop].
  { exists 0. assert (len = 0) as -> by lia. cbn. rewrite zdrop_neg, ztake_neg by lia. done. }
  case_b; last first.
  { exists 0. rewrite zdrop_neg, ztake_neg, Z.sub_0_r by lia. split; [done|lia]. }
  assert (HN : (16 * Z.to_nat (NMAX / 16))%nat = Z.to_nat NMAX) by done.
  rewrite (do16_rounds_sums _ buf st 0); [|unfold zlen, NMAX in *; lia|lia|done|by apply reduced_bnd].
  rewrite bind_Ret, HN, MOD_lazy, MOD_reduced by done.
  change (take (Z.to_nat NMAX) buf) with (ztake NMAX buf).
  change (drop (Z.to_nat NMAX) buf) with (zdrop NMAX buf). unfold NMAX in *.
  destruct (IH (zdrop 5552 buf) (len - 5552) (ref_sums st (ztake 5552 buf)))
    as (k & -> & Hk & Hk'); [lia|zl|by apply ref_sums_reduced|].
  exists (5552 + k). split; [|lia]. rewrite <- ref_sums_app, zdrop_drop by lia.
  do 2 f_equal; [f_equal; lia|]. f_equal.
  rewrite <- (ztake_drop 5552 (ztake (5552 + k) buf)).
  rewrite ztake_take, zdrop_take by lia. do 2 f_equal; lia.
Qed.

Lemma do16_loop_sums fuel buf len st m :
  len <= Z.of_nat fuel -> 0 <= len <= zlen buf -> 0 <= m -> m + len <= NMAX -> bnd m st ->
  exists k, do16_loop fuel buf len st
      = Ret (zdrop k buf, len - k, lazy_sums st (ztake k buf)) /\ 0 <= k <= len.
Proof.
  revert buf len st m. induction fuel as [|fuel IH]; intros buf len st m Hf Hl Hm Hk Hb;
    cbn [do16_loop].
  { exists 0. assert (len = 0) as -> by lia. cbn. rewrite zdrop_neg, ztake_neg by lia. done. }
  case_b; last first.
  { exists 0. rewrite zdrop_neg, ztake_neg, Z.sub_0_r by lia. split; [done|lia]. }
  rewrite (DO16_sums buf st m), bind_Ret by (done || (unfold zlen in *; lia)).
  change (take 16 buf) with (ztake 16 buf). change (drop 16 buf) with (zdrop 16 buf).
  destruct (IH (zdrop 16 buf) (len - 16) (lazy_sums st (ztake 16 buf)) (m + 16))
    as (k & -> & Hk'); [lia|zl|lia|lia| |].
  { replace 16 with (zlen (ztake 16 buf)) at 1 by zl. by apply lazy_sums_bnd. }
  exists (16 + k). split; [|lia]. rewrite <- lazy_sums_app, zdrop_drop by lia.
  do 2 f_equal; [f_equal; lia|]. f_equal.
  rewrite <- (ztake_drop 16 (ztake (16 + k) buf)).
  rewrite ztake_take, zdrop_take by lia. do 2 f_equal; lia.
Qed.

Lemma byte_loop_sums fuel buf len st m :
  len <= Z.of_nat fuel -> 0 <= len <= zlen buf -> 0 <= m -> m + len <= NMAX -> bnd m st ->
  byte_loop fuel buf len st = Ret (lazy_sums st (ztake len buf)).
Proof.
  revert buf len st m. induction fuel as [|fuel IH]; intros buf len st m Hf Hl Hm Hk Hb;
    cbn [byte_loop].
  { assert (len = 0) as -> by lia. cbn. by rewrite ztake_neg by lia. }
  case_b; last first.
  { assert (len = 0) as -> by lia. by rewrite ztake_neg by lia. }
  rewrite (DO1_sums buf 0%nat st m), bind_Ret by (done || (unfold zlen in *; cbn; lia)).
  rewrite drop_0. change (take 1 buf) with (ztake 1 buf). change (drop 1 buf) with (zdrop 1 buf).
  rewrite (IH _ _ _ (m + 1)); [|lia|zl|lia|lia|].
  - rewrite <- lazy_sums_app. do 2 f_equal.
    rewrite <- (ztake_drop 1 (ztake len buf)). rewrite ztake_take, zdrop_take by lia.
    do 2 f_equal; lia.
  - replace 1 with (zlen (ztake 1 buf)) at 1 by zl. by apply lazy_sums_bnd.
Qed.

(** The optimised summation is the reference one. *)
Lemma sum_block_ref buf len st :
  0 <= len <= zlen buf -> reduced st ->
  sum_block buf len st = Ret (ref_sums st (ztake len buf)).
Proof.
  intros Hl Hr. unfold sum_block.
  destruct (nmax_loop_sums (Z.to_nat len) buf len st) as (k & -> & Hk & Hk'); [lia|done|done|].
  rewrite bind_Ret. pose proof (ref_sums_reduced st (ztake k buf) Hr) as Hr'.
  assert (Hs : ztake len buf = ztake k buf ++ ztake (len - k) (zdrop k buf)).
  { rewrite <- (ztake_drop k (ztake len buf)). rewrite ztake_take, zdrop_take by lia.
    do 2 f_equal. lia. }
  case_b.
  { rewrite Hs, (ztake_neg (len - k)), app_nil_r by lia. done. }
  destruct (do16_loop_sums (Z.to_nat len) (zdrop k buf) (len - k) (ref_sums st (ztake k buf)) 0)
    as (k2 & -> & Hk2); [lia|zl|lia|lia|by apply reduced_bnd|].
  rewrite bind_Ret.
  rewrite (byte_loop_sums _ _ _ _ k2); [|lia|zl|lia|lia|].
  - rewrite bind_Ret, <- lazy_sums_app, MOD_lazy, MOD_reduced, <- ref_sums_app by done.
    rewrite Hs. do 3 f_equal.
    rewrite <- (ztake_drop k2 (ztake (len - k) (zdrop k buf))).
    rewrite ztake_take, (zdrop_take k2) by lia. do 2 f_equal; lia.
  - replace k2 with (0 + zlen (ztake k2 (zdrop k buf))) at 1 by zl.
    apply lazy_sums_bnd; [lia|by apply reduced_bnd].
Qed.

End Lazy.

(** ** Splitting and joining the halves *)

Lemma split_join a b :
  0 <= a < 2 ^ 16 -> 0 <= b < 2 ^ 16 -> split_sums (join_sums (a, b)) = (a, b).
Proof.
  intros Ha Hb. unfold split_sums, join_sums. cbn [fst snd].
  assert (E : Z.lor a (Z.shiftl b 16) = a + b * 2 ^ 16).
  { rewrite Z.shiftl_mul_pow2 by lia. rewrite Z.lor_comm. rewrite Z.add_comm.
    assert (Z.land (b * 2 ^ 16) a = 0) as Hz;
      [|by rewrite <- Z.lxor_lor, <- Z.add_nocarry_lxor].
    apply Z.bits_inj'. intros n Hn.
    rewrite Z.land_spec, Z.bits_0. destruct (decide (n < 16)).
    - rewrite Z.mul_pow2_bits_low by lia. done.
    - rewrite andb_comm. replace a with (a mod 2 ^ 16) by (apply Z.mod_small; lia).
      rewrite Z.mod_pow2_bits_high by lia. done. }
  rewrite E. change 65535 with (Z.ones 16). rewrite !Z.land_ones by lia.
  rewrite Z.shiftr_div_pow2 by lia. rewrite Z.mod_add, Z.div_add by lia.
  rewrite (Z.div_small a), Z.add_0_l, !Z.mod_small by lia. done.
Qed.

Lemma ref_sums_reduced_MOD st l : reduced st -> MOD (lazy_sums st l) = ref_sums st l.
Proof. intros H. by rewrite MOD_lazy, MOD_reduced. Qed.

Lemma sub_BASE_mod z : 0 <= z < 2 * BASE -> (if BASE <=? z then z - BASE else z) = z mod BASE.
Proof.
  intros H. case_b.
  - apply (Zmod_unique_full _ _ 1); [left|]; unfold BASE in *; lia.
  - rewrite Z.mod_small; lia.
Qed.

(** The three length classes of [spy_adler32] all give the reference checksum. *)
Lemma spy_adler32_ok adler buf len :
  reduced (split_sums adler) -> 0 <= len <= zlen buf ->
  spy_adler32 adler (Some buf) len = Ret (adler_ref adler (ztake len buf)).
Proof.
  intros Hr Hl. unfold spy_adler32, adler_ref. cbv zeta.
  pose proof (reduced_bnd _ Hr) as Hb.
  set (st := split_sums adler) in *.
  destruct (Z.eqb_spec len 1) as [->|H1].
  { destruct buf as [|b buf]; [zl|].
    cbn [c_deref]. rewrite bind_Ret.
    change (rd (b :: buf) 0) with (Ret (Z_of_byte b)). rewrite bind_Ret. clearbody st. destruct st as [a s], Hr as [Ha Hs].
    cbn [fst snd] in *. pose proof (Z_of_byte_range b).
    pose proof (Z.mod_pos_bound (a + Z_of_byte b) BASE ltac:(done)).
    rewrite (u64_small (a + _)), sub_BASE_mod by (unfold BASE in *; lia).
    rewrite u64_small, sub_BASE_mod by (unfold BASE in *; lia). done. }
  case_b.
  - rewrite (byte_loop_sums _ _ _ _ 0); [|lia|lia|lia|unfold NMAX; lia|done].
    rewrite bind_Ret. rewrite <- (ref_sums_reduced_MOD st) by done.
    pose proof (lazy_sums_bnd 0 st (ztake len buf) ltac:(lia) Hb) as [Hb1 _].
    assert (zlen (ztake len buf) <= 15) by zl. unfold BASE in Hb1.
    rewrite sub_BASE_mod by (unfold BASE; lia). done.
  - rewrite sum_block_ref by done. done.
Qed.

(** ** The checksum of a linked buffer *)

Lemma buffer_adler_loop_ok fuel h b left st :
  left <= Z.of_nat fuel -> buf_wf h b -> 0 <= left <= zlen (content h b) -> reduced st ->
  exists b', buffer_adler_loop fuel h b left st
      = Ret (b', ref_sums st (ztake left (content h b))) /\ buf_wf h b' /\
    mem_blocks b' = mem_blocks b /\ write_pos b' = write_pos b /\ cap b' = cap b.
Proof.
  revert b left st. induction fuel as [|fuel IH]; intros b left st Hf W Hl Hr;
    cbn [buffer_adler_loop].
  { exists b. assert (left = 0) as -> by lia. by rewrite ztake_neg by lia. }
  case_b; last first.
  { exists b. assert (left = 0) as -> by lia. by rewrite ztake_neg by lia. }
  pose proof (content_len h b W) as Hc.
  destruct (next_readable_some h b W) as (r & b1 & -> & (Q1 & Q2 & Q3 & Q4) & Hrl & Hst); [lia|].
  rewrite bind_Ret. cbv zeta.
  set (nread := if left <? rg_len r then left else rg_len r).
  assert (Hn : 0 < nread <= left /\ nread <= rg_len r) by (unfold nread; case_b; lia).
  clearbody nread. destruct (Hst nread) as (-> & W1 & C1); [lia|]. rewrite bind_Ret.
  rewrite sum_block_ref by (done || zl). rewrite bind_Ret, ztake_all by zl.
  destruct (IH (advance_read nread b1) (left - nread) (ref_sums st (ztake nread (content h b))))
    as (b' & -> & W' & M1 & M2 & M3); [lia|done|rewrite C1; zl|by apply ref_sums_reduced|].
  exists b'. rewrite C1, <- ref_sums_app. cbn in *. split_and!; try (done || congruence).
  do 3 f_equal. rewrite <- (ztake_drop nread (ztake left _)).
  rewrite ztake_take, zdrop_take by lia. do 2 f_equal; lia.
Qed.

(** What a scan of the front of a buffer promises to its callers: it computes
    [f] of the first [len] queued bytes, whatever blocks they lie in, and leaves
    the buffer as it was. *)
Class BufferScan (scan : gmap loc spy_mem_block_t -> spy_rw_buffer_t -> Z ->
                         outcome (Z * spy_rw_buffer_t))
    (f : list byte -> Z) : Prop := {
  scan_spec : forall h b len, buf_wf h b -> 0 <= len <= zlen (content h b) ->
    exists b', scan h b len = Ret (f (ztake len (content h b)), b') /\
      buf_wf h b' /\ same_queue b b'
}.

Lemma spy_buffer_adler32_ok adler h b len :
  reduced (split_sums adler) -> buf_wf h b -> 0 <= len <= zlen (content h b) ->
  exists b', spy_buffer_adler32 adler h b len
      = Ret (adler_ref adler (ztake len (content h b)), b') /\ buf_wf h b' /\ same_queue b b'.
Proof.
  intros Hr W Hl. unfold spy_buffer_adler32. cbv zeta.
  rewrite bind_assert by (apply Z.leb_le; rewrite <- (content_len h b W); lia).
  destruct (buffer_adler_loop_ok (Z.to_nat len) h b len (split_sums adler))
    as (b1 & -> & W1 & M1 & M2 & M3); [lia|done|done|done|].
  rewrite bind_Ret. destruct (wf_pos _ _ W) as [Hp _].
  destruct (reset_read_spec h b1 (read_pos b) W1) as (b2 & -> & W2 & N1 & N2 & N3 & N4 & _); [lia|].
  rewrite bind_Ret. exists b2. split_and!; try done. split_and!; congruence.
Qed.

Lemma reduced_split_0 : reduced (split_sums 0).
Proof. done. Qed.

#[export] Instance adler32_scan : BufferScan (spy_buffer_adler32 0) (adler_ref 0).
Proof. split. intros. apply spy_buffer_adler32_ok; auto using reduced_split_0. Qed.

(** ** Combining checksums *)

Lemma lazy_sums_shift a s l :
  lazy_sums (a, s) l
  = (a + (lazy_sums (0, 0) l).1, s + zlen l * a + (lazy_sums (0, 0) l).2).
Proof.
  revert a s. induction l as [|b l IH]; intros a s.
  - cbn. rewrite (@zlen_nil byte). f_equal; lia.
  - change (lazy_sums (a, s) (b :: l))
      with (lazy_sums (a + Z_of_byte b, s + (a + Z_of_byte b)) l).
    change (lazy_sums (0, 0) (b :: l))
      with (lazy_sums (0 + Z_of_byte b, 0 + (0 + Z_of_byte b)) l).
    rewrite IH, (IH (0 + Z_of_byte b)). cbn [fst snd]. rewrite zlen_cons. f_equal; lia.
Qed.

(** [if (s > BASE) s -= BASE;] keeps the class and leaves [1..BASE] in place. *)
Lemma sub_over_mod m s : 0 < m -> (if m <? s then s - m else s) mod m = s mod m.
Proof.
  intros. case_b; [|done]. replace (s - m) with (s + -1 * m) by lia. apply Z.mod_add. lia.
Qed.

Lemma combine_halves adler1 adler2 len2 :
  reduced (split_sums adler1) -> reduced (split_sums adler2) -> 0 <= len2 < 2 ^ 63 ->
  exists a b, split_sums (adler32_combine adler1 adler2 len2) = (a, b) /\
    a mod BASE = ((split_sums adler1).1 + (split_sums adler2).1 - 1) mod BASE /\
    b mod BASE = ((split_sums adler1).2 + len2 * (split_sums adler1).1
                  + (split_sums adler2).2 - len2) mod BASE.
Proof.
  unfold adler32_combine, reduced, split_sums. cbn [fst snd]. cbv zeta.
  set (a1 := Z.land adler1 65535). set (b1 := Z.land (Z.shiftr adler1 16) 65535).
  set (a2 := Z.land adler2 65535). set (b2 := Z.land (Z.shiftr adler2 16) 65535).
  clearbody a1 a2 b1 b2. intros [Ha1 Hb1] [Ha2 Hb2] Hl.
  rewrite (u64_small len2) by lia.
  pose proof (Z.mod_pos_bound len2 BASE ltac:(done)) as Hm.
  change (Z.shiftl BASE 1) with (2 * BASE).
  rewrite (u32_small (len2 mod BASE)) by (unfold BASE in *; lia).
  set (rem := len2 mod BASE) in *.
  rewrite (u64_small (rem * a1)) by (unfold BASE in *; nia).
  pose proof (Z.mod_pos_bound (rem * a1) BASE ltac:(done)) as Hp.
  rewrite !(u64_small (_ + _ - _)) by (unfold BASE in *; lia).
  set (s1 := a1 + a2 + BASE - 1).
  set (s2 := (rem * a1) mod BASE + b1 + b2 + BASE - rem).
  set (t1 := if BASE <? s1 then s1 - BASE else s1).
  set (t2 := if 2 * BASE <? s2 then s2 - 2 * BASE else s2).
  do 2 eexists. split; [apply split_join|split].
  - unfold t1, s1, BASE in *. repeat case_b; lia.
  - unfold t2, s2, BASE in *. repeat case_b; lia.
  - unfold t1. rewrite !sub_over_mod by done.
    unfold s1. replace (a1 + a2 + BASE - 1) with (a1 + a2 - 1 + 1 * BASE) by lia.
    by rewrite Z.mod_add.
  - rewrite sub_over_mod by done.
    assert (Et : t2 mod BASE = s2 mod BASE).
    { unfold t2. case_b; [|done]. replace (s2 - 2 * BASE) with (s2 + -2 * BASE) by lia.
      by rewrite Z.mod_add. }
    rewrite Et. unfold s2, rem. unfold BASE in *.
    pose proof (Z.div_mod len2 65521 ltac:(done)) as E1.
    pose proof (Z.div_mod (rem * a1) 65521 ltac:(done)) as E2. unfold rem in E2.
    rewrite (Z.div_mod len2 65521) at 3 4 by done.
    match goal with |- ?x mod _ = ?y mod _ =>
      replace y with (x + (len2 / 65521 * a1 - len2 / 65521 - 1
                           + (len2 mod 65521 * a1) / 65521) * 65521) by nia end.
    by rewrite Z.mod_add.
Qed.

Lemma split_adler_ref l : split_sums (adler_ref 1 l) = ref_sums (split_sums 1) l.
Proof.
  pose proof (ref_sums_reduced (split_sums 1) l ltac:(done)) as R. unfold adler_ref.
  destruct (ref_sums (split_sums 1) l) as [a s]. unfold reduced, BASE in R. cbn in R.
  apply split_join; lia.
Qed.

Lemma MOD_combine l1 l2 :
  zlen l2 < 2 ^ 63 ->
  MOD (split_sums (adler32_combine (adler_ref 1 l1) (adler_ref 1 l2) (zlen l2)))
  = ref_sums (split_sums 1) (l1 ++ l2).
Proof.
  intros Hl.
  assert (R1 : reduced (split_sums 1)) by done. pose proof split_adler_ref as Hs.
  destruct (combine_halves (adler_ref 1 l1) (adler_ref 1 l2) (zlen l2))
    as (a & b & Eab & Ha & Hb); rewrite ?Hs in *.
  1,2: by apply ref_sums_reduced. 1: zl.
  rewrite Eab. unfold MOD at 1. cbn [fst snd]. rewrite Ha, Hb, ref_sums_app.
  rewrite <- (ref_sums_reduced_MOD (ref_sums (split_sums 1) l1) l2) by (by apply ref_sums_reduced).
  rewrite <- (ref_sums_reduced_MOD (split_sums 1) l2) by done.
  destruct (ref_sums (split_sums 1) l1) as [x y]. change (split_sums 1) with (1, 0).
  rewrite (lazy_sums_shift 1 0), (lazy_sums_shift x y). destruct (lazy_sums (0, 0) l2) as [u v].
  unfold MOD. cbn [fst snd]. f_equal.
  all: rewrite <- Zminus_mod_idemp_l, Zplus_mod_idemp_r, Zminus_mod_idemp_l; f_equal; lia.
Qed.

(** ** Reduction without division *)

(** The exponents [n], [n - 1], ..., 0. *)
Fixpoint down (n : nat) : list Z :=
  match n with O => [0] | S n' => Z.of_nat n :: down n' end.

Lemma sub_BASE_down n a : 0 <= a < BASE * 2 ^ (Z.of_nat n + 1) -> foldl sub_BASE a (down n) = a mod BASE.
Proof.
  revert a. induction n as [|n IH]; intros a Ha.
  - cbn. unfold sub_BASE. change (Z.shiftl BASE 0) with BASE. apply sub_BASE_mod. change (2 ^ (Z.of_nat 0 + 1)) with 2 in Ha. lia.
  - change (foldl sub_BASE a (down (S n))) with (foldl sub_BASE (sub_BASE a (Z.of_nat (S n))) (down n)).
    unfold sub_BASE at 2. rewrite Z.shiftl_mul_pow2 by lia.
    replace (2 ^ (Z.of_nat (S n) + 1)) with (2 * 2 ^ Z.of_nat (S n)) in Ha by (rewrite Z.pow_add_r by lia; lia).
    replace (Z.of_nat n + 1) with (Z.of_nat (S n)) in IH by lia.
    set (w := 2 ^ Z.of_nat (S n)) in *. case_b; rewrite IH by lia; [|done].
    replace (a - BASE * w) with (a + - w * BASE) by lia. apply Z.mod_add. done.
Qed.

(** ** Properties *)

Module Adler32Props.

(** The flat checksum of a buffer's queued bytes, as a reader of the code would
    compute it: copy the bytes out, then sum them. *)
Definition copy_then_sum (h : gmap loc spy_mem_block_t) (b : spy_rw_buffer_t) (len : Z)
    : outcome Z :=
  '(d, _) ← spy_rw_buffer_read_n h b len;
  spy_adler32 0 (Some d) len.

(** C35: the unrolled, delayed-reduction [spy_adler32] computes the textbook
    Adler-32 (reduce after every byte), on each of its three paths (one byte,
    fewer than 16, blocks of NMAX), from any start value with reduced halves;
    it reads only the first [len] bytes and always returns. *)
Theorem adler32_computes_reference adler buf len :
  reduced (split_sums adler) -> 0 <= len <= zlen buf ->
  spy_adler32 adler (Some buf) len = Ret (adler_ref adler (ztake len buf)).
Proof. apply spy_adler32_ok. Qed.

Lemma adler32_computes_reference_witness :
  spy_adler32 1 (Some (replicate 20 (byte_of_Z 255))) 18
  = Ret (adler_ref 1 (ztake 18 (replicate 20 (byte_of_Z 255)))).
Proof. apply (adler32_computes_reference 1 _ 18); by vm_compute. Defined.

(** C36: checksumming [len] queued bytes in place, across block boundaries, gives
    the same value as copying them out and checksumming the copy, and leaves the
    buffer's queue and positions as they were. *)
Theorem buffer_adler32_in_place h b len :
  buf_wf h b -> 0 <= len <= zlen (content h b) ->
  exists c b', spy_buffer_adler32 0 h b len = Ret (c, b') /\ copy_then_sum h b len = Ret c /\
    buf_wf h b' /\ content h b' = content h b /\ read_pos b' = read_pos b.
Proof.
  intros W Hl. destruct (scan_spec h b len W Hl) as (b' & Hs & W' & Hq).
  exists (adler_ref 0 (ztake len (content h b))), b'. split; [done|].
  destruct (read_n_loop_spec (Z.to_nat len) h b len []) as (b2 & Hr & _); [done|lia|lia|].
  split_and!; try done; [|by apply same_queue_content|by destruct Hq as (_ & ? & _)].
  unfold copy_then_sum, spy_rw_buffer_read_n. rewrite Hr, bind_Ret. cbn [app].
  rewrite spy_adler32_ok, (ztake_take len len), Z.min_id by (done || zl). done.
Qed.

Lemma buffer_adler32_in_place_witness :
  exists c b', spy_buffer_adler32 0 RwBufferProps.ex_heap RwBufferProps.ex_buffer 1 = Ret (c, b') /\
    copy_then_sum RwBufferProps.ex_heap RwBufferProps.ex_buffer 1 = Ret c /\
    buf_wf RwBufferProps.ex_heap b' /\
    content RwBufferProps.ex_heap b' = content RwBufferProps.ex_heap RwBufferProps.ex_buffer /\
    read_pos b' = read_pos RwBufferProps.ex_buffer.
Proof.
  apply (buffer_adler32_in_place RwBufferProps.ex_heap RwBufferProps.ex_buffer 1).
  - exact RwBufferProps.ex_buffer_wf.
  - by vm_compute.
Defined.

(** The macros without division give the remainders, for every value the routines
    can hand them: the sums over up to [NMAX] bytes from reduced ones, and for
    [MOD4] the second sum over fewer than 16 bytes. *)
Theorem no_divide_reduces st l :
  reduced st -> zlen l <= NMAX -> let t := lazy_sums st l in
  (MOD_no_divide t.1, MOD_no_divide t.2) = MOD t /\ (zlen l < 16 -> MOD4_no_divide t.2 = t.2 mod BASE).
Proof.
  intros R Hl t. pose proof (lazy_sums_bnd 0 st l ltac:(lia) (reduced_bnd _ R)) as B. zlen_pos.
  destruct (bnd_32 (0 + zlen l) t) as [B1 B2]; [lia|done|]. destruct B as (A1 & A2 & A3). fold t in A1, A2, A3.
  change MOD_no_divide with (fun a => foldl sub_BASE a (down 16)). change MOD4_no_divide with (fun a => foldl sub_BASE a (down 4)).
  cbv beta. split; [unfold MOD; f_equal; apply sub_BASE_down; unfold BASE; lia|].
  intros H16. apply sub_BASE_down. split; [done|]. unfold BASE in *. change (2 ^ (Z.of_nat 4 + 1)) with 32. nia.
Qed.

(** [adler32_combine] of the checksums of [l1] and [l2] agrees, half by half
    modulo [BASE], with the checksum of [l1 ++ l2]. *)
Theorem adler32_combine_congruent l1 l2 :
  zlen l2 < 2 ^ 63 ->
  MOD (split_sums (adler32_combine (adler_ref 1 l1) (adler_ref 1 l2) (zlen l2)))
  = split_sums (adler_ref 1 (l1 ++ l2)).
Proof. intros H. rewrite MOD_combine, split_adler_ref by done. done. Qed.

Lemma adler32_combine_congruent_witness :
  MOD (split_sums (adler32_combine (adler_ref 1 [b00]) (adler_ref 1 [b00; b00]) 2))
  = split_sums (adler_ref 1 ([b00] ++ [b00; b00])).
Proof. apply (adler32_combine_congruent [b00] [b00; b00]). by vm_compute. Defined.

(** But not exactly: the final reductions test [> BASE] where [>= BASE] is
    needed, so when a half reduces to zero the combined value is not the checksum
    of the concatenation (here the low half comes out as 65521 instead of 0). *)
Theorem adler32_combine_not_canonical :
  let l1 := replicate 256 (byte_of_Z 255) ++ [byte_of_Z 240] in
  (split_sums (adler32_combine (adler_ref 1 l1) (adler_ref 1 []) 0)).1 = BASE /\
  (split_sums (adler_ref 1 (l1 ++ []))).1 = 0.
Proof. by vm_compute. Qed.

End Adler32Props.
