(* ===== verification/Store.v ===== *)
(** * Store: [chunkserver/spy_store.c], [chunkserver/spy_store.h]

    Chunk files: the superblock, the file records that follow it, writing and
    reading one file, and the recovery scan that rebuilds the in-memory index.
    A chunk file is its list of bytes; every system call consumes one answer of
    a script.  The functions a worker thread runs take the objects they touch
    ([io_job->chunk], [io_job->file], the connection's buffer) and return them
    updated. *)

From Stdlib Require Import Strings.Byte.
From S2P Require Import Prelude Utils RwBuffer Adler32.

Module Store.

(** ** Constants and data *)

(** "CHUNK_SB_MAGIC!" *)
Definition SUPERBLOCK_MAGIC : list byte :=
  map byte_of_Z [67; 72; 85; 78; 75; 95; 83; 66; 95; 77; 65; 71; 73; 67; 33].
Definition SUPERBLOCK_MAGIC_SIZE : Z := 15.
Definition SUPERBLOCK_SIZE : Z := SUPERBLOCK_MAGIC_SIZE + 8 + 4 + 4 + 8 + 8 + 8.
Definition BUFFER_SIZE : Z := 4194304.
Definition FILE_META_SIZE : Z := 30.
Definition CHUNK_FILENAME_LEN_MAX : Z := 32.
Definition CHUNK_HASH_SIZE : Z := Z.shiftl 1 10.
Definition FILE_HASH_SIZE : Z := Z.shiftl 1 20.
Definition DEF_CHUNK_SIZE : Z := Z.shiftl 1 31.
Definition DEF_CHECK_BLOCK_SIZE : Z := Z.shiftl 1 12.

Record spy_file_index_entry_t : Type := SpyFileIndexEntry {
  ie_chunk_id : Z;
  ie_fid : Z;
  ie_offset : Z;
  ie_size : Z
}.
#[export] Instance entry_eq_dec : EqDecision spy_file_index_entry_t.
Proof. solve_decision. Defined.

Record spy_chunk_t : Type := SpyChunk {
  c_fd : Z;
  c_path : list byte;
  chunk_id : Z;
  files_alloc : Z;
  files_count : Z;
  current_offset : Z;
  avail_space : Z;
  c_file_size : Z
}.

Record spy_file_t : Type := SpyFile {
  f_fid : Z;
  f_ref : Z;
  f_size : Z;
  f_checksum : Z;
  f_timestamp : Z
}.

(** The part of [server] the store owns.  Chunks are shared objects: lists and
    hash chains hold their addresses. *)
Abbreviation cptr := nat.
Record store_t : Type := StoreT {
  chunk_heap : gmap cptr spy_chunk_t;
  chunks : list cptr;
  chunk_index : gmap Z (list cptr);
  n_chunks : Z;
  max_chunk_id : Z;
  file_index : gmap Z (list spy_file_index_entry_t)
}.

Definition with_file_index (i : gmap Z (list spy_file_index_entry_t)) (s : store_t) : store_t :=
  StoreT (chunk_heap s) (chunks s) (chunk_index s) (n_chunks s) (max_chunk_id s) i.
Definition with_max_chunk_id (m : Z) (s : store_t) : store_t :=
  StoreT (chunk_heap s) (chunks s) (chunk_index s) (n_chunks s) m (file_index s).

(** ** The in-memory index *)

(** [hlist_for_each_entry(tmp, head, c_hash) assert(tmp->chunk_id != chunk_id);] *)
Fixpoint assert_chunk_fresh (h : gmap cptr spy_chunk_t) (bucket : list cptr) (id : Z)
    : outcome unit :=
  match bucket with
  | [] => Ret tt
  | c :: bucket' =>
      tmp ← c_deref (h !! c);
      _ ← c_assert (negb (chunk_id tmp =? id));
      assert_chunk_fresh h bucket' id
  end.

Definition spy_add_chunk (c : cptr) (s : store_t) : outcome store_t :=
  chunk ← c_deref (chunk_heap s !! c);
  let chunks := c :: chunks s in
  let head := chunk_id chunk mod CHUNK_HASH_SIZE in
  _ ← assert_chunk_fresh (chunk_heap s) (cell (chunk_index s) head) (chunk_id chunk);
  Ret (StoreT (chunk_heap s) chunks
         (<[head := c :: cell (chunk_index s) head]> (chunk_index s))
         (i32 (n_chunks s + 1)) (max_chunk_id s) (file_index s)).

Definition spy_add_file_index (cid fid offset sz : Z) (s : store_t) : outcome store_t :=
  let entry := SpyFileIndexEntry cid fid offset sz in
  let head := fid mod FILE_HASH_SIZE in
  _ ← c_assert (forallb (fun tmp => negb (ie_fid tmp =? fid)) (cell (file_index s) head));
  Ret (with_file_index (<[head := entry :: cell (file_index s) head]> (file_index s)) s).

(** [spy_lookup_file_index] of [spy_server.c]: the first match of the bucket. *)
Definition spy_lookup_file_index (fid : Z) (s : store_t) : option spy_file_index_entry_t :=
  List.find (fun tmp => ie_fid tmp =? fid) (cell (file_index s) (fid mod FILE_HASH_SIZE)).

(** ** The superblock *)

Definition spy_fill_superblock (chunk : spy_chunk_t) : outcome (list byte) :=
  let buf := SUPERBLOCK_MAGIC ++ spy_mach_write_to_8 (chunk_id chunk)
    ++ spy_mach_write_to_4 (files_alloc chunk) ++ spy_mach_write_to_4 (files_count chunk)
    ++ spy_mach_write_to_8 (current_offset chunk) ++ spy_mach_write_to_8 (avail_space chunk) in
  checksum ← spy_adler32 0 (Some buf) (zlen buf);
  Ret (buf ++ spy_mach_write_to_8 checksum).

(** Returns the chunk with the parsed fields and the new [server.max_chunk_id]. *)
Definition spy_parse_chunk_superblock (sb_buf : list byte) (chunk : spy_chunk_t)
    (max_id : Z) : outcome (spy_chunk_t * Z) :=
  let p := sb_buf in
  _ ← (if zlen p <? SUPERBLOCK_MAGIC_SIZE then Undef else Ret tt);
  _ ← c_assert (bool_decide (ztake SUPERBLOCK_MAGIC_SIZE p = SUPERBLOCK_MAGIC));
  let p := zdrop SUPERBLOCK_MAGIC_SIZE p in
  cid ← spy_mach_read_from_8 p;
  let p := zdrop 8 p in
  falloc ← spy_mach_read_from_4 p;
  let p := zdrop 4 p in
  fcount ← spy_mach_read_from_4 p;
  let p := zdrop 4 p in
  coff ← spy_mach_read_from_8 p;
  let p := zdrop 8 p in
  avail ← spy_mach_read_from_8 p;
  let p := zdrop 8 p in
  checksum ← spy_mach_read_from_8 p;
  checksum2 ← spy_adler32 0 (Some sb_buf) (zlen sb_buf - zlen p);
  _ ← c_assert (checksum =? checksum2);
  Ret (SpyChunk (c_fd chunk) (c_path chunk) cid falloc fcount coff avail (c_file_size chunk),
       if max_id <? cid then cid else max_id).

(** [spy_write_chunk_superblock]: 0 or -1, with the file and the rest of the script. *)
Definition spy_write_chunk_superblock (script : list sysret) (chunk : spy_chunk_t)
    (disk : list byte) : outcome (Z * list byte * list sysret) :=
  buf ← spy_fill_superblock chunk;
  '(n, disk, script) ← spy_pwrite script disk buf 0;
  Ret (if n =? SUPERBLOCK_SIZE then 0 else -1, disk, script).

Definition spy_alloc_chunk (chunk_size fd cid : Z) (path : list byte) (sz : Z) : spy_chunk_t :=
  SpyChunk fd path cid 0 0 SUPERBLOCK_SIZE (u64 (chunk_size - SUPERBLOCK_SIZE)) (u32 sz).

(** ** Writing a file *)

(** The 30-byte record header; [file->checksum] is set on the way, and the
    request buffer's read cursor is rewound to where it was. *)
Definition spy_fill_file_meta (now : Z) (h : gmap loc spy_mem_block_t) (file : spy_file_t)
    (request : spy_rw_buffer_t) (len : Z)
    : outcome (list byte * spy_file_t * spy_rw_buffer_t) :=
  _ ← c_assert (len =? FILE_META_SIZE);
  '(checksum, request) ← spy_buffer_adler32 0 h request (f_size file);
  let file := SpyFile (f_fid file) (f_ref file) (f_size file) checksum (f_timestamp file) in
  Ret (spy_mach_write_to_8 (f_fid file) ++ spy_mach_write_to_2 (f_ref file)
         ++ spy_mach_write_to_4 (f_size file) ++ spy_mach_write_to_8 (f_checksum file)
         ++ spy_mach_write_to_8 now,
       file, request).

(** The [while (left > 0)] loop of [spy_write_file]: the final [left], or [None]
    for the jump to [WRITE_ERROR]. *)
Fixpoint write_body_loop (fuel : nat) (script : list sysret) (h : gmap loc spy_mem_block_t)
    (disk : list byte) (request : spy_rw_buffer_t) (offset left : Z)
    : outcome (option Z * list byte * spy_rw_buffer_t * list sysret) :=
  if 0 <? left then
    match fuel with
    | O => Wait
    | S fuel' =>
        '(r, request) ← spy_rw_buffer_next_readable h request;
        match r with
        | None => Ret (Some left, disk, request, script)
        | Some r =>
            let shouldwrite := i32 (Z.min (rg_len r) left) in
            buf ← block_read h (rg_block r) (rg_off r) shouldwrite;
            '(nwrite, disk, script) ← spy_pwrite script disk buf offset;
            let nwrite := i32 nwrite in
            if negb (nwrite =? shouldwrite) then Ret (None, disk, request, script)
            else
              write_body_loop fuel' script h disk (advance_read nwrite request)
                (u64 (offset + nwrite)) (i32 (left - nwrite))
        end
    end
  else Ret (Some left, disk, request, script).

(** What [spy_write_file] leaves behind: [io_job->retcode], [io_job->file], the
    chunk, its file on disk, the request buffer. *)
Record write_res : Type := WriteRes {
  w_retcode : Z;
  w_file : spy_file_t;
  w_chunk : spy_chunk_t;
  w_disk : list byte;
  w_request : spy_rw_buffer_t
}.

Definition spy_write_file (script : list sysret) (now : Z) (h : gmap loc spy_mem_block_t)
    (file : spy_file_t) (chunk : spy_chunk_t) (offset : Z) (disk : list byte)
    (request : spy_rw_buffer_t) : outcome write_res :=
  '(filemeta, file, request) ← spy_fill_file_meta now h file request FILE_META_SIZE;
  '(nwrite, disk, script) ← spy_pwrite script disk filemeta offset;
  let nwrite := i32 nwrite in
  if negb (nwrite =? FILE_META_SIZE) then Ret (WriteRes (-1) file chunk disk request)
  else
    let offset := u64 (offset + FILE_META_SIZE) in
    let left := i32 (f_size file) in
    '(r, disk, request, script) ←
      write_body_loop (Z.to_nat left) script h disk request offset left;
    match r with
    | None => Ret (WriteRes (-1) file chunk disk request)
    | Some rest =>
        if negb (rest =? 0) then Ret (WriteRes (-1) file chunk disk request)
        else
          let n := u32 (f_size file + FILE_META_SIZE) in
          let chunk := SpyChunk (c_fd chunk) (c_path chunk) (chunk_id chunk)
            (u32 (files_alloc chunk + 1)) (u32 (files_count chunk + 1))
            (u64 (current_offset chunk + n)) (u64 (avail_space chunk - n))
            (c_file_size chunk) in
          '(_, disk, script) ← spy_write_chunk_superblock script chunk disk;
          Ret (WriteRes 0 file chunk disk request)
    end.

(** ** Reading a file *)

(** The [while (left > 0)] loop of [spy_read_file]; [false] is the early return
    with [retcode] -1. *)
Fixpoint read_body_loop (fuel : nat) (script : list sysret) (h : gmap loc spy_mem_block_t)
    (disk : list byte) (rsp_body : spy_rw_buffer_t) (offset left : Z)
    : outcome (bool * gmap loc spy_mem_block_t * spy_rw_buffer_t) :=
  if 0 <? left then
    match fuel with
    | O => Wait
    | S fuel' =>
        '(r, rsp_body) ← spy_rw_buffer_next_writeable h rsp_body;
        match r with
        | None => Assert
        | Some r =>
            let shouldread := Z.min left (rg_len r) in
            '(n, d, script) ← spy_pread script disk shouldread offset;
            let n := i32 n in
            h ← block_write h (rg_block r) (rg_off r) d;
            if negb (u64 n =? shouldread) then Ret (false, h, rsp_body)
            else
              read_body_loop fuel' script h disk (advance_write n rsp_body)
                (u64 (offset + n)) (left - n)
        end
    end
  else Ret (true, h, rsp_body).

Record read_res : Type := ReadRes {
  r_retcode : Z;
  r_file : option spy_file_t;
  r_heap : gmap loc spy_mem_block_t;
  r_rsp_body : spy_rw_buffer_t
}.

(** The five fields of a record header. *)
Definition parse_file_meta (buf : list byte) : outcome spy_file_t :=
  fid ← spy_mach_read_from_8 buf;
  let buf := zdrop 8 buf in
  ref ← spy_mach_read_from_2 buf;
  let buf := zdrop 2 buf in
  sz ← spy_mach_read_from_4 buf;
  let buf := zdrop 4 buf in
  checksum ← spy_mach_read_from_8 buf;
  let buf := zdrop 8 buf in
  timestamp ← spy_mach_read_from_8 buf;
  Ret (SpyFile fid ref sz checksum timestamp).

Definition spy_read_file (script : list sysret) (h : gmap loc spy_mem_block_t)
    (index : spy_file_index_entry_t) (disk : list byte) (rsp_body : spy_rw_buffer_t)
    : outcome read_res :=
  _ ← c_assert (ie_size index <=? cap rsp_body);
  '(ok, h, rsp_body) ←
    read_body_loop (Z.to_nat (ie_size index)) script h disk rsp_body (ie_offset index)
      (ie_size index);
  if negb ok then Ret (ReadRes (-1) None h rsp_body)
  else
    '(filemeta, rsp_body) ← spy_rw_buffer_read_n h rsp_body FILE_META_SIZE;
    _ ← c_assert (zlen filemeta =? FILE_META_SIZE);
    file ← parse_file_meta filemeta;
    '(checksum, rsp_body) ← spy_buffer_adler32 0 h rsp_body (u32 (ie_size index - FILE_META_SIZE));
    let ok := (f_fid file =? ie_fid index) && (f_checksum file =? checksum) in
    Ret (ReadRes (if ok then 0 else -1) (Some file) h rsp_body).

(** [spy_check_chunk]: [rand] is the value of [rand()]; -1 or 0. *)
Definition spy_check_chunk (script : list sysret) (rand : Z) (disk : list byte) : outcome Z :=
  let offset := u64 (rand mod (DEF_CHUNK_SIZE / DEF_CHECK_BLOCK_SIZE) * DEF_CHECK_BLOCK_SIZE) in
  '(n, _, _) ← spy_pread script disk DEF_CHECK_BLOCK_SIZE offset;
  Ret (if i32 n =? DEF_CHECK_BLOCK_SIZE then 0 else -1).

(** ** Dumping a chunk file to a client

    [sent] is the header offset, [total] the loop's counter and [out] what the
    socket has taken; each round is one [write]. *)

Fixpoint dump_header_loop (script : list sysret) (rsp_header out : list byte) (sent total : Z)
    : outcome (bool * list byte * list sysret) :=
  if 0 <? total then
    match script with
    | [] => Wait
    | r :: script' =>
        let count := u64 (total - sent) in
        if zlen rsp_header <? sent + count then Undef
        else
          match r with
          | SysErr _ => Ret (false, out, script')
          | Xfer n =>
              let d := zsub sent (Z.min n count) rsp_header in
              dump_header_loop script' rsp_header (out ++ d) (sent + zlen d) (total - zlen d)
          end
    end
  else Ret (true, out, script).

(** [sendfile64] advances [offset] by what it transfers. *)
Fixpoint dump_body_loop (script : list sysret) (disk out : list byte) (offset file_size : Z)
    : outcome (bool * list byte * list sysret) :=
  if negb (offset =? file_size) then
    match script with
    | [] => Wait
    | SysErr _ :: script' => Ret (false, out, script')
    | Xfer n :: script' =>
        let d := zsub offset (Z.min n (u64 (file_size - offset))) disk in
        dump_body_loop script' disk (out ++ d) (offset + zlen d) file_size
    end
  else Ret (true, out, script).

(** The header it leaves in [conn->rsp_header]. *)
Definition dump_rsp_header (opcode : Z) (chunk : spy_chunk_t) : list byte :=
  spy_mach_write_to_1 opcode ++ spy_mach_write_to_1 0 ++ spy_mach_write_to_4 (c_file_size chunk).

(** [dump_job->retcode] and what was sent. *)
Definition spy_dump_chunkfile (script : list sysret) (opcode : Z) (chunk : spy_chunk_t)
    (disk : list byte) : outcome (Z * list byte) :=
  let rsp_header := dump_rsp_header opcode chunk in
  '(ok, out, script) ← dump_header_loop script rsp_header [] 0 6;
  if negb ok then Ret (-1, out)
  else
    '(ok, out, script) ← dump_body_loop script disk out 0 (c_file_size chunk);
    Ret (if (ok : bool) then 0 else -1, out).

(** ** Recovery: the file parser

    [pr_buf] is the initialised part of the parser's buffer, [pr_kpos] the
    kernel's position in the open file (the code never reads it: it tracks
    [fpos] itself). *)

Record spy_file_parser_t : Type := SpyFileParser {
  fpos : Z;
  pr_chunk_id : Z;
  chunk_offset : Z;
  pr_buf : list byte;
  buf_size : Z;
  buf_pos : Z;
  buf_left : Z;
  pr_kpos : Z
}.

Definition spy_alloc_file_parser (chunk : spy_chunk_t) (fpos buffer_size kpos : Z)
    : spy_file_parser_t :=
  SpyFileParser fpos (chunk_id chunk) (current_offset chunk) [] (i32 buffer_size) 0 0 kpos.

(** [read(fd, buf + at, rsize)] into the parser's buffer; the result is the
    return value as the [size_t] the code stores it in. *)
Definition parser_read (r : sysret) (disk : list byte) (at_ rsize : Z) (pr : spy_file_parser_t)
    : outcome (Z * spy_file_parser_t) :=
  if (at_ <? 0) || (zlen (pr_buf pr) <? at_) || (buf_size pr <? at_ + rsize) then Undef
  else
    match r with
    | SysErr _ => Ret (u64 (-1), pr)
    | Xfer n =>
        let d := zsub (pr_kpos pr) (Z.min n rsize) disk in
        Ret (zlen d, SpyFileParser (fpos pr) (pr_chunk_id pr) (chunk_offset pr)
               (zput at_ d (pr_buf pr)) (buf_size pr) (buf_pos pr) (buf_left pr)
               (pr_kpos pr + zlen d))
    end.

Definition with_pos (fp bp bl : Z) (pr : spy_file_parser_t) : spy_file_parser_t :=
  SpyFileParser fp (pr_chunk_id pr) (chunk_offset pr) (pr_buf pr) (buf_size pr) bp bl (pr_kpos pr).

(** The first half of [spy_parse_next_file]: refill when less than a header is
    buffered.  [None] is the return of -1.  [nread] is unsigned, so the tests
    [nread < 0] are never true and a failed [read] is not retried. *)
Definition parser_refill (script : list sysret) (disk : list byte) (pr : spy_file_parser_t)
    : outcome (option unit * spy_file_parser_t * list sysret) :=
  if buf_left pr <? FILE_META_SIZE then
    pr ←
      (if 0 <? buf_left pr then
         if zlen (pr_buf pr) <? buf_pos pr + buf_left pr then Undef
         else Ret (SpyFileParser (fpos pr) (pr_chunk_id pr) (chunk_offset pr)
                     (zput 0 (zsub (buf_pos pr) (buf_left pr) (pr_buf pr)) (pr_buf pr))
                     (buf_size pr) (buf_pos pr) (buf_left pr) (pr_kpos pr))
       else Ret pr);
    let pr := with_pos (fpos pr) 0 (buf_left pr) pr in
    let fleft := i32 (u64 (chunk_offset pr - fpos pr)) in
    if fleft <=? 0 then Ret (None, pr, script)
    else
      let buf_free := i32 (buf_size pr - buf_left pr) in
      let rsize := u64 (if fleft <? buf_free then fleft else buf_free) in
      match script with
      | [] => Wait
      | r :: script =>
          '(nread, pr) ← parser_read r disk (buf_left pr) rsize pr;
          if nread =? 0 then Ret (None, pr, script)
          else
            Ret (Some tt,
                 with_pos (i32 (u64 (fpos pr + nread))) (buf_pos pr)
                   (i32 (u64 (buf_left pr + nread))) pr, script)
      end
  else Ret (Some tt, pr, script).

(** The [while (cur_fleft > 0)] loop that skips a body reaching past the buffer;
    every round consumes an answer of the script. *)
Fixpoint skip_body_loop (script : list sysret) (disk : list byte) (pr : spy_file_parser_t)
    (cur_fleft : Z) : outcome (option unit * spy_file_parser_t * list sysret) :=
  if 0 <? cur_fleft then
    let fleft := i32 (u64 (chunk_offset pr - fpos pr)) in
    if fleft <=? 0 then Ret (None, pr, script)
    else
      let rsize := u64 (if fleft <? buf_size pr then fleft else buf_size pr) in
      match script with
      | [] => Wait
      | r :: script' =>
          '(nread, pr) ← parser_read r disk 0 rsize pr;
          if nread =? 0 then Ret (None, pr, script')
          else
            let pr := with_pos (i32 (u64 (fpos pr + nread))) (buf_pos pr) (i32 nread) pr in
            if nread <? u64 cur_fleft then
              skip_body_loop script' disk (with_pos (fpos pr) 0 0 pr)
                (i32 (u64 (cur_fleft - nread)))
            else
              skip_body_loop script' disk
                (with_pos (fpos pr) cur_fleft (i32 (buf_left pr - cur_fleft)) pr) 0
      end
  else Ret (Some tt, pr, script).

(** [spy_parse_next_file]: 0 (no more files), 1 (one file indexed) or -1. *)
Definition spy_parse_next_file (script : list sysret) (disk : list byte)
    (pr : spy_file_parser_t) (s : store_t)
    : outcome (Z * spy_file_parser_t * list sysret * store_t) :=
  if (chunk_offset pr <=? u64 (fpos pr)) && (buf_left pr =? 0) then Ret (0, pr, script, s)
  else
    '(ok, pr, script) ← parser_refill script disk pr;
    match ok with
    | None => Ret (-1, pr, script, s)
    | Some _ =>
        _ ← c_assert (FILE_META_SIZE <=? buf_left pr);
        let p := zdrop (buf_pos pr) (pr_buf pr) in
        fid ← spy_mach_read_from_8 p;
        let p := zdrop (8 + 2) p in
        sz ← spy_mach_read_from_4 p;
        let p := zdrop 4 p in
        checksum ← spy_mach_read_from_8 p;
        let pr := with_pos (fpos pr) (i32 (buf_pos pr + FILE_META_SIZE))
          (i32 (buf_left pr - FILE_META_SIZE)) pr in
        '(ok, pr, script) ←
          (if u64 (buf_left pr) <? sz then
             skip_body_loop script disk pr (i32 (u64 (sz - buf_left pr)))
           else
             Ret (Some tt, with_pos (fpos pr) (i32 (u64 (buf_pos pr + sz)))
                             (i32 (u64 (buf_left pr - sz))) pr, script));
        match ok with
        | None => Ret (-1, pr, script, s)
        | Some _ =>
            let foff := u64 (fpos pr - sz - FILE_META_SIZE - buf_left pr) in
            s ← spy_add_file_index (pr_chunk_id pr) fid foff (u32 (sz + FILE_META_SIZE)) s;
            Ret (1, pr, script, s)
        end
    end.

(** [while (result = spy_parse_next_file(parser)) { if (result < 0) break; }] *)
Fixpoint parse_files_loop (fuel : nat) (script : list sysret) (disk : list byte)
    (pr : spy_file_parser_t) (s : store_t) : outcome (spy_file_parser_t * store_t) :=
  '(result, pr, script, s) ← spy_parse_next_file script disk pr s;
  if result =? 0 then Ret (pr, s)
  else if result <? 0 then Ret (pr, s)
  else match fuel with
       | O => Wait
       | S fuel' => parse_files_loop fuel' script disk pr s
       end.

(** The [do { read } while (nread < 0 && errno == EINTR)] loop for the
    superblock: the bytes read, or [None] when the code exits. *)
Fixpoint read_superblock_loop (script : list sysret) (disk : list byte)
    : outcome (option (list byte) * list sysret) :=
  match script with
  | [] => Wait
  | SysErr EINTR :: script' => read_superblock_loop script' disk
  | SysErr _ :: script' => Ret (None, script')
  | Xfer n :: script' =>
      let d := zsub 0 (Z.min n SUPERBLOCK_SIZE) disk in
      Ret (if zlen d <=? 0 then None else Some d, script')
  end.

(** [spy_setup_chunk]; [fd] is what [open] returned for [chunk_path] and [disk]
    the file ([fstat] gives its length). *)
Definition spy_setup_chunk (chunk_size : Z) (script : list sysret) (fd : Z)
    (chunk_path disk : list byte) (s : store_t) : outcome store_t :=
  _ ← c_assert (negb (fd =? 0));
  _ ← c_assert (0 <=? fd);
  let chunk := spy_alloc_chunk chunk_size fd 0 chunk_path (zlen disk) in
  '(sb, script) ← read_superblock_loop script disk;
  match sb with
  | None => Exit
  | Some sb_buf =>
      '(chunk, max_id) ← spy_parse_chunk_superblock sb_buf chunk (max_chunk_id s);
      let s := with_max_chunk_id max_id s in
      let parser := spy_alloc_file_parser chunk SUPERBLOCK_SIZE BUFFER_SIZE (zlen sb_buf) in
      '(parser, s) ← parse_files_loop (length disk) script disk parser s;
      if u64 (fpos parser) <? current_offset chunk then Exit
      else
        let c := fresh (dom (chunk_heap s)) in
        spy_add_chunk c
          (StoreT (<[c := chunk]> (chunk_heap s)) (chunks s) (chunk_index s) (n_chunks s)
             (max_chunk_id s) (file_index s))
  end.

(** ** Creating chunks, scanning the data directory *)

(** The parts of [config] the store reads. *)
Record store_config : Type := StoreConfig {
  cfg_chunk_size : Z;
  cfg_n_chunks : Z;
  cfg_server_id : Z;
  cfg_data_dir : list byte
}.

(** Decimal digits of a number, most significant first ([%d] of a non-negative
    [int], [PRIu64]). *)
Fixpoint decimal_aux (fuel : nat) (z : Z) (acc : list byte) : list byte :=
  match fuel with
  | O => acc
  | S fuel' =>
      let acc := byte_of_Z (48 + z mod 10) :: acc in
      if z <? 10 then acc else decimal_aux fuel' (z / 10) acc
  end.
Definition decimal (z : Z) : list byte :=
  if z <? 0 then byte_of_Z 45 :: decimal_aux 20 (- z) [] else decimal_aux 20 z [].

(** "chunk_", "_" and ".chunk" *)
Definition str_chunk_ : list byte := map byte_of_Z [99; 104; 117; 110; 107; 95].
Definition str_us : list byte := [byte_of_Z 95].
Definition str_dot_chunk : list byte := map byte_of_Z [46; 99; 104; 117; 110; 107].
Definition slash : byte := byte_of_Z 47.

(** [snprintf(chunk_path, 512, "%s/chunk_%d_%lu.chunk", ...)] *)
Definition chunk_filename (server_id id : Z) : list byte :=
  str_chunk_ ++ decimal server_id ++ str_us ++ decimal id ++ str_dot_chunk.
Definition chunk_path_of (cfg : store_config) (id : Z) : list byte :=
  cfg_data_dir cfg ++ slash :: chunk_filename (cfg_server_id cfg) id.

(** What the kernel answers while one chunk is created: [open], [fallocate] and
    the superblock [pwrite]s. *)
Record create_env : Type := CreateEnv {
  ce_fd : Z;
  ce_fallocate : Z;
  ce_script : list sysret
}.

(** [spy_create_chunk]: 0 or -1, with the new chunk's file (a file that
    [fallocate] has extended with zeroes) when there is one. *)
Definition spy_create_chunk (cfg : store_config) (env : create_env) (s : store_t)
    : outcome (Z * option (list byte) * store_t) :=
  let id := u64 (max_chunk_id s + 1) in
  let s := with_max_chunk_id id s in
  let path := chunk_path_of cfg id in
  _ ← c_assert (zlen path <? 512);
  if ce_fd env <? 0 then Ret (-1, None, s)
  else if negb (ce_fallocate env =? 0) then Ret (-1, None, s)
  else
    let disk := replicate (Z.to_nat (cfg_chunk_size cfg)) b00 in
    let chunk := spy_alloc_chunk (cfg_chunk_size cfg) (ce_fd env) id path (cfg_chunk_size cfg) in
    let c := fresh (dom (chunk_heap s)) in
    s ← spy_add_chunk c
          (StoreT (<[c := chunk]> (chunk_heap s)) (chunks s) (chunk_index s) (n_chunks s)
             (max_chunk_id s) (file_index s));
    '(r, disk, _) ← spy_write_chunk_superblock (ce_script env) chunk disk;
    Ret (r, Some disk, s).

(** *** [sscanf] with "chunk_%d_%lu.chunk"

    A literal must match; a conversion skips white space, takes an optional sign
    and at least one digit.  The value of a [%d] beyond [int] is what [strtol]
    followed by the conversion to [int] gives. *)

Definition is_space (b : byte) : bool :=
  let c := Z_of_byte b in (c =? 32) || ((9 <=? c) && (c <=? 13)).
Definition digit_val (b : byte) : option Z :=
  let c := Z_of_byte b in if (48 <=? c) && (c <=? 57) then Some (c - 48) else None.

Fixpoint scan_lit (lit l : list byte) : option (list byte) :=
  match lit, l with
  | [], _ => Some l
  | a :: lit', b :: l' => if bool_decide (a = b) then scan_lit lit' l' else None
  | _ :: _, [] => None
  end.
Fixpoint skip_space (l : list byte) : list byte :=
  match l with
  | b :: l' => if is_space b then skip_space l' else l
  | [] => []
  end.
Fixpoint scan_digits (l : list byte) (acc : Z) : Z * list byte :=
  match l with
  | b :: l' =>
      match digit_val b with
      | Some d => scan_digits l' (acc * 10 + d)
      | None => (acc, l)
      end
  | [] => (acc, [])
  end.
(** A signed decimal number: its value and the rest of the input. *)
Definition scan_number (l : list byte) : option (Z * list byte) :=
  let l := skip_space l in
  let '(neg, l) :=
    match l with
    | b :: l' =>
        if Z_of_byte b =? 45 then (true, l')
        else if Z_of_byte b =? 43 then (false, l') else (false, l)
    | [] => (false, [])
    end in
  match l with
  | b :: _ =>
      match digit_val b with
      | None => None
      | Some _ => let '(v, rest) := scan_digits l 0 in Some (if (neg : bool) then - v else v, rest)
      end
  | [] => None
  end.

(** A number out of the range of [long] is cut to its ends, as by [strtol]. *)
Definition LONG_MAX : Z := 2 ^ 63 - 1.
Definition LONG_MIN : Z := - 2 ^ 63.
Definition clamp_long (v : Z) : Z := Z.max LONG_MIN (Z.min v LONG_MAX).

(** The number of conversions and, when there are two, the values. *)
Definition sscanf_chunk (filename : list byte) : Z * option Z :=
  match scan_lit str_chunk_ filename with
  | None => (0, None)
  | Some l =>
      match scan_number l with
      | None => (0, None)
      | Some (server_id, l) =>
          match scan_lit str_us l with
          | None => (1, Some (i32 (clamp_long server_id)))
          | Some l =>
              match scan_number l with
              | None => (1, Some (i32 (clamp_long server_id)))
              | Some _ => (2, Some (i32 (clamp_long server_id)))
              end
          end
      end
  end.

Definition spy_check_filename_format (cfg : store_config) (filename : list byte) : Z :=
  let '(n, server_id) := sscanf_chunk filename in
  match server_id with
  | Some id => if negb (n =? 2) || negb (id =? cfg_server_id cfg) then -1 else 0
  | None => -1
  end.

(** One directory entry: whether it is a regular file, its name, and what opening
    and reading it will give. *)
Record dir_entry : Type := DirEntry {
  d_reg : bool;
  d_name : list byte;
  d_fd : Z;
  d_disk : list byte;
  d_script : list sysret
}.

(** The [readdir] loop. *)
Fixpoint scan_dir (cfg : store_config) (dir : list byte) (es : list dir_entry) (s : store_t)
    : outcome store_t :=
  match es with
  | [] => Ret s
  | e :: es' =>
      s ← (if d_reg e then
             if negb (spy_check_filename_format cfg (d_name e) =? 0) then Exit
             else
               let chunk_path := dir ++ slash :: d_name e in
               _ ← c_assert (zlen chunk_path <? 512);
               spy_setup_chunk (cfg_chunk_size cfg) (d_script e) (d_fd e) chunk_path (d_disk e) s
           else Ret s);
      scan_dir cfg dir es' s
  end.

(** The [for (i = 0; i < config.n_chunks; i++)] loop. *)
Fixpoint create_loop (n : nat) (cfg : store_config) (envs : list create_env) (s : store_t)
    : outcome store_t :=
  match n with
  | O => Ret s
  | S n' =>
      match envs with
      | [] => Wait
      | env :: envs' =>
          '(r, _, s) ← spy_create_chunk cfg env s;
          if negb (r =? 0) then Exit else create_loop n' cfg envs' s
      end
  end.

(** [spy_create_or_recover_files(dir)]; [es] is [None] when [opendir] fails. *)
Definition spy_create_or_recover_files (cfg : store_config) (dir : list byte)
    (es : option (list dir_entry)) (envs : list create_env) (s : store_t) : outcome store_t :=
  match es with
  | None => Exit
  | Some es =>
      s ← scan_dir cfg dir es s;
      match chunks s with
      | [] => create_loop (Z.to_nat (cfg_n_chunks cfg)) cfg envs s
      | _ => Ret s
      end
  end.

End Store.
Export Store.
