(* ===== verification/StoreFile.v ===== *)
(** * StoreFile: the chunk file on disk

    The abstract contents of a chunk file, a superblock followed by file records
    ([chunk_image]), and that [spy_fill_superblock], [spy_write_file] and
    [spy_read_file] of [Store] implement it: the superblock codec round-trips,
    a write appends one record or leaves the image alone, a read returns the
    bytes of the record it is asked for. *)

From S2P Require Import Prelude Utils RwBuffer Adler32 Store.
Import Utils.BigEndian.

(** Linear arithmetic with the layout's constants. *)
Ltac sizes :=
  change DEF_CHUNK_SIZE with (2 ^ 31) in *; change SUPERBLOCK_SIZE with 55 in *;
  change FILE_META_SIZE with 30 in *.
Ltac slia := sizes; zlen_pos; lia.

Section Superblock.
Implicit Types c : spy_chunk_t.

(** The fields before the checksum, and the whole superblock. *)
Definition sb_fields c : list byte :=
  SUPERBLOCK_MAGIC ++ spy_mach_write_to_8 (chunk_id c)
    ++ spy_mach_write_to_4 (files_alloc c) ++ spy_mach_write_to_4 (files_count c)
    ++ spy_mach_write_to_8 (current_offset c) ++ spy_mach_write_to_8 (avail_space c).
Definition sb_bytes c : list byte :=
  sb_fields c ++ spy_mach_write_to_8 (adler_ref 0 (sb_fields c)).

(** Every field fits its C type. *)
Definition chunk_fits c : Prop :=
  0 <= chunk_id c < 2 ^ 64 /\ 0 <= files_alloc c < 2 ^ 32 /\ 0 <= files_count c < 2 ^ 32 /\
  0 <= current_offset c < 2 ^ 64 /\ 0 <= avail_space c < 2 ^ 64.

(** The persistent fields of [c] under the descriptor and path of [c0]. *)
Definition same_persistent c0 c : spy_chunk_t :=
  SpyChunk (c_fd c0) (c_path c0) (chunk_id c) (files_alloc c) (files_count c)
    (current_offset c) (avail_space c) (c_file_size c0).

Lemma zlen_magic : zlen SUPERBLOCK_MAGIC = 15.
Proof. done. Qed.
Lemma zlen_sb_fields c : zlen (sb_fields c) = 47.
Proof. done. Qed.
Lemma zlen_sb_bytes c : zlen (sb_bytes c) = SUPERBLOCK_SIZE.
Proof. done. Qed.

Lemma adler_ref_range adler l : reduced (split_sums adler) -> 0 <= adler_ref adler l < 2 ^ 32.
Proof.
  intros Hr. pose proof (ref_sums_reduced _ l Hr) as R. unfold adler_ref.
  destruct (ref_sums (split_sums adler) l) as [a b]. destruct R as [Ra Rb].
  unfold BASE in *. cbn [fst snd] in *.
  unfold join_sums. cbn [fst snd]. rewrite Z.lor_comm, lor_shiftl_add by lia. lia.
Qed.

Lemma fill_superblock_ok c : spy_fill_superblock c = Ret (sb_bytes c).
Proof.
  unfold spy_fill_superblock. cbv zeta. fold (sb_fields c).
  rewrite spy_adler32_ok, bind_Ret, ztake_all by (done || zl). done.
Qed.

Lemma parse_fill_superblock c0 c m :
  chunk_fits c ->
  spy_parse_chunk_superblock (sb_bytes c) c0 m
  = Ret (same_persistent c0 c, if m <? chunk_id c then chunk_id c else m).
Proof.
  intros (H1 & H2 & H3 & H4 & H5). unfold spy_parse_chunk_superblock. cbv zeta.
  assert (E : sb_bytes c = SUPERBLOCK_MAGIC ++ spy_mach_write_to_8 (chunk_id c)
    ++ spy_mach_write_to_4 (files_alloc c) ++ spy_mach_write_to_4 (files_count c)
    ++ spy_mach_write_to_8 (current_offset c) ++ spy_mach_write_to_8 (avail_space c)
    ++ spy_mach_write_to_8 (adler_ref 0 (sb_fields c)) ++ []).
  { unfold sb_bytes, sb_fields. by rewrite <- !app_assoc, app_nil_r. }
  change (zlen (sb_bytes c) <? SUPERBLOCK_MAGIC_SIZE) with false. cbn [negb]. rewrite bind_Ret.
  rewrite bind_assert by (apply bool_decide_eq_true_2; rewrite E; by apply ztake_exact).
  unfold SUPERBLOCK_MAGIC_SIZE.
  rewrite (eq_trans (f_equal (zdrop 15) E) (zdrop_exact 15 SUPERBLOCK_MAGIC _ eq_refl)).
  rewrite read_write_8, bind_Ret, !(zdrop_exact 8 (spy_mach_write_to_8 (chunk_id c))) by done.
  rewrite read_write_4, bind_Ret, !(zdrop_exact 4 (spy_mach_write_to_4 (files_alloc c))) by done.
  rewrite read_write_4, bind_Ret, !(zdrop_exact 4 (spy_mach_write_to_4 (files_count c))) by done.
  rewrite read_write_8, bind_Ret, !(zdrop_exact 8 (spy_mach_write_to_8 (current_offset c))) by done.
  rewrite read_write_8, bind_Ret, !(zdrop_exact 8 (spy_mach_write_to_8 (avail_space c))) by done.
  rewrite read_write_8, bind_Ret, app_nil_r.
  change (zlen (sb_bytes c) - zlen (spy_mach_write_to_8 (adler_ref 0 (sb_fields c)))) with 47.
  rewrite spy_adler32_ok, bind_Ret by done.
  unfold sb_bytes at 1. rewrite ztake_exact by done.
  pose proof (adler_ref_range 0 (sb_fields c) reduced_split_0).
  rewrite (u64_small (adler_ref _ _)), bind_assert by (lia || apply Z.eqb_refl).
  unfold same_persistent. rewrite !u64_small, !u32_small by lia. done.
Qed.

(** Reading a field and writing it back gives the bytes read. *)
Lemma write_read_8 l x : spy_mach_read_from_8 l = Ret x ->
  l = spy_mach_write_to_8 x ++ zdrop 8 l /\ 0 <= x < 2 ^ 64.
Proof.
  intros H. assert (Hl : (8 <= length l)%nat).
  { do 8 (destruct l as [|? l]; [by cbn in H|]). cbn. lia. }
  rewrite <- (take_drop 8 l) in H. rewrite read_from_8_be in H by (rewrite length_take; lia).
  inv_ret. pose proof (be_dec_range (take 8 l)) as Hr.
  assert (E : length (take 8 l) = 8%nat) by (rewrite length_take; lia).
  unfold zlen in Hr. rewrite E in Hr. split; [|done].
  rewrite write_to_8_be. rewrite <- E at 1. rewrite be_enc_dec. symmetry. apply (take_drop 8 l).
Qed.

Lemma write_read_4 l x : spy_mach_read_from_4 l = Ret x ->
  l = spy_mach_write_to_4 x ++ zdrop 4 l /\ 0 <= x < 2 ^ 32.
Proof.
  intros H. assert (Hl : (4 <= length l)%nat).
  { do 4 (destruct l as [|? l]; [by cbn in H|]). cbn. lia. }
  rewrite <- (take_drop 4 l) in H. rewrite read_from_4_be in H by (rewrite length_take; lia).
  inv_ret. pose proof (be_dec_range (take 4 l)) as Hr.
  assert (E : length (take 4 l) = 4%nat) by (rewrite length_take; lia).
  unfold zlen in Hr. rewrite E in Hr. split; [|done].
  rewrite write_to_4_be. rewrite <- E at 1. rewrite be_enc_dec. symmetry. apply (take_drop 4 l).
Qed.

(** The parser accepts nothing but what the writer produces. *)
Lemma parse_superblock_inv sb c0 m c m' :
  zlen sb = SUPERBLOCK_SIZE -> spy_parse_chunk_superblock sb c0 m = Ret (c, m') ->
  sb = sb_bytes c /\ chunk_fits c /\ c = same_persistent c0 c.
Proof.
  intros Hl H. unfold spy_parse_chunk_superblock in H. cbv zeta in H.
  destruct (zlen sb <? SUPERBLOCK_MAGIC_SIZE); [done|].
  apply bind_Ret_inv in H as (u & Hu & H). clear u Hu.
  apply bind_Ret_inv in H as (u & Hu & H). apply c_assert_inv, bool_decide_eq_true in Hu.
  assert (E0 : sb = SUPERBLOCK_MAGIC ++ zdrop 15 sb) by (rewrite <- Hu at 1; by rewrite ztake_drop).
  unfold SUPERBLOCK_MAGIC_SIZE in H. set (p0 := zdrop 15 sb) in *.
  apply bind_Ret_inv in H as (x1 & H1 & H). apply write_read_8 in H1 as [E1 R1].
  set (p1 := zdrop 8 p0) in *.
  apply bind_Ret_inv in H as (x2 & H2 & H). apply write_read_4 in H2 as [E2 R2].
  set (p2 := zdrop 4 p1) in *.
  apply bind_Ret_inv in H as (x3 & H3 & H). apply write_read_4 in H3 as [E3 R3].
  set (p3 := zdrop 4 p2) in *.
  apply bind_Ret_inv in H as (x4 & H4 & H). apply write_read_8 in H4 as [E4 R4].
  set (p4 := zdrop 8 p3) in *.
  apply bind_Ret_inv in H as (x5 & H5 & H). apply write_read_8 in H5 as [E5 R5].
  set (p5 := zdrop 8 p4) in *.
  apply bind_Ret_inv in H as (x6 & H6 & H). apply write_read_8 in H6 as [E6 R6].
  clearbody p0 p1 p2 p3 p4 p5. subst p4 p3 p2 p1 p0.
  assert (Hp : zlen (zdrop 8 p5) = 0).
  { rewrite E0 in Hl. rewrite E6 in Hl. rewrite !zlen_app, zlen_magic in Hl.
    autorewrite with zlen in Hl. change SUPERBLOCK_SIZE with 55 in Hl. zl. }
  apply zlen_0_nil in Hp. rewrite Hp, app_nil_r in E6. subst p5.
  apply bind_Ret_inv in H as (x7 & H7 & H). apply bind_Ret_inv in H as (u2 & Hc & H).
  apply c_assert_inv, Z.eqb_eq in Hc. subst x7.
  assert (E : sb = sb_fields (same_persistent c0 (SpyChunk 0 [] x1 x2 x3 x4 x5 0))
               ++ spy_mach_write_to_8 x6).
  { rewrite E0. unfold sb_fields, same_persistent.
    cbn [chunk_id files_alloc files_count current_offset avail_space]. by rewrite <- !app_assoc. }
  rewrite Hl, zlen_write_8 in H7. change (SUPERBLOCK_SIZE - 8) with 47 in H7.
  rewrite spy_adler32_ok in H7; [|done|rewrite Hl; done].
  injection H7 as H7. injection H as <- _. split; [|split; [done|done]]. rewrite E at 1. unfold sb_bytes. f_equal.
  rewrite <- H7. rewrite E at 1. rewrite ztake_exact by done. done.
Qed.

End Superblock.

(** ** File records and the image of a chunk *)

Section Image.
Implicit Types (c : spy_chunk_t) (f : spy_file_t) (disk d : list byte)
  (h : gmap loc spy_mem_block_t) (b : spy_rw_buffer_t).

Definition meta_bytes f : list byte :=
  spy_mach_write_to_8 (f_fid f) ++ spy_mach_write_to_2 (f_ref f)
    ++ spy_mach_write_to_4 (f_size f) ++ spy_mach_write_to_8 (f_checksum f)
    ++ spy_mach_write_to_8 (f_timestamp f).

(** A stored file: its header fields and its bytes. *)
Record file_rec : Type := FileRec { fr_file : spy_file_t; fr_data : list byte }.
Definition enc_rec (r : file_rec) : list byte := meta_bytes (fr_file r) ++ fr_data r.
Definition enc_recs (rs : list file_rec) : list byte := concat (map enc_rec rs).

Record rec_fits (r : file_rec) : Prop := {
  rf_fid : 0 <= f_fid (fr_file r) < 2 ^ 64;
  rf_ref : 0 <= f_ref (fr_file r) < 2 ^ 16;
  rf_size : f_size (fr_file r) = zlen (fr_data r);
  rf_bound : zlen (fr_data r) < 2 ^ 31 - FILE_META_SIZE;
  rf_checksum : f_checksum (fr_file r) = adler_ref 0 (fr_data r);
  rf_time : 0 <= f_timestamp (fr_file r) < 2 ^ 64
}.

(** [disk], of [cs] bytes, holds the superblock of [c] and then the records [rs]. *)
Record chunk_image (cs : Z) disk c (rs : list file_rec) : Prop := {
  img_disk : exists tail, disk = sb_bytes c ++ enc_recs rs ++ tail;
  img_len : zlen disk = cs;
  img_size : cs <= DEF_CHUNK_SIZE;
  img_id : 0 <= chunk_id c < 2 ^ 64;
  img_offset : current_offset c = SUPERBLOCK_SIZE + zlen (enc_recs rs);
  img_avail : avail_space c = cs - current_offset c /\ 0 < avail_space c;
  img_count : files_count c = zlen rs /\ files_alloc c = zlen rs;
  img_recs : Forall rec_fits rs
}.

Lemma zlen_meta f : zlen (meta_bytes f) = FILE_META_SIZE.
Proof. done. Qed.
Lemma zlen_enc_rec r : zlen (enc_rec r) = FILE_META_SIZE + zlen (fr_data r).
Proof. unfold enc_rec. by rewrite zlen_app. Qed.
Lemma enc_recs_app rs rs' : enc_recs (rs ++ rs') = enc_recs rs ++ enc_recs rs'.
Proof. unfold enc_recs. by rewrite map_app, concat_app. Qed.
Lemma enc_recs_one r : enc_recs [r] = enc_rec r.
Proof. unfold enc_recs. cbn [map concat]. apply app_nil_r. Qed.
Lemma enc_recs_cons r rs : enc_recs (r :: rs) = enc_rec r ++ enc_recs rs.
Proof. done. Qed.
Lemma count_bound rs : FILE_META_SIZE * zlen rs <= zlen (enc_recs rs).
Proof.
  induction rs as [|r rs IH]; [done|].
  rewrite enc_recs_cons, zlen_app, zlen_enc_rec, zlen_cons.
  change FILE_META_SIZE with 30 in *. zl.
Qed.

Lemma image_fits cs disk c rs : chunk_image cs disk c rs -> chunk_fits c.
Proof.
  intros [_ H2 H3 H4 H5 H6 H7 _]. unfold chunk_fits. pose proof (count_bound rs).
  change DEF_CHUNK_SIZE with (2 ^ 31) in *. change SUPERBLOCK_SIZE with 55 in *.
  change FILE_META_SIZE with 30 in *. zlen_pos. lia.
Qed.

(** The record a write of [size] bytes of [d] at time [now] stores. *)
Definition new_rec (now : Z) f d : file_rec :=
  FileRec (SpyFile (f_fid f) (f_ref f) (f_size f) (adler_ref 0 d) now) d.
(** [io_job->file] after the header has been filled in. *)
Definition summed f d : spy_file_t :=
  SpyFile (f_fid f) (f_ref f) (f_size f) (adler_ref 0 d) (f_timestamp f).
(** The chunk's fields after a successful write. *)
Definition grown c (n : Z) : spy_chunk_t :=
  SpyChunk (c_fd c) (c_path c) (chunk_id c) (files_alloc c + 1) (files_count c + 1)
    (current_offset c + n) (avail_space c - n) (c_file_size c).

Lemma fill_file_meta_ok now h f b :
  buf_wf h b -> 0 <= f_size f <= zlen (content h b) ->
  exists b', let d := ztake (f_size f) (content h b) in
    spy_fill_file_meta now h f b FILE_META_SIZE
    = Ret (meta_bytes (fr_file (new_rec now f d)), summed f d, b') /\ buf_wf h b' /\ same_queue b b'.
Proof.
  intros W Hs. destruct (scan_spec h b (f_size f) W Hs) as (b' & Ha & W' & Hq).
  exists b'. split; [|done]. unfold spy_fill_file_meta. rewrite bind_assert by done.
  rewrite Ha, bind_Ret. done.
Qed.

Lemma zsub_content_advance n m d : 0 <= n <= m -> ztake n d ++ ztake (m - n) (zdrop n d) = ztake m d.
Proof.
  intros. rewrite <- (ztake_drop n (ztake m d)). rewrite ztake_take, zdrop_take by lia.
  do 2 f_equal; lia.
Qed.

(** The body loop, whatever the kernel answers: everything is on disk, or a
    prefix of it is. *)
Lemma write_body_sound fuel script h disk b offset left r disk' b' script' :
  buf_wf h b -> 0 <= left < 2 ^ 31 -> left <= zlen (content h b) ->
  0 <= offset -> offset + left <= zlen disk -> zlen disk < 2 ^ 63 ->
  write_body_loop fuel script h disk b offset left = Ret (r, disk', b', script') ->
  (r = Some 0 /\ disk' = zput offset (ztake left (content h b)) disk /\ buf_wf h b' /\
   content h b' = zdrop left (content h b) /\ mem_blocks b' = mem_blocks b)
  \/ (r = None /\ exists d, zlen d <= left /\ disk' = zput offset d disk).
Proof.
  revert script disk b offset left. induction fuel as [|fuel IH];
    intros script disk b offset left W Hl Hc Ho Hd Hb H; cbn [write_body_loop] in H.
  { case_b; [done|]. inv_ret. left. assert (left = 0) as -> by lia.
    rewrite ztake_neg, zput_nil, zdrop_neg by lia. done. }
  destruct (Z.ltb_spec 0 left) as [Hp|Hp]; last first.
  { inv_ret. left. assert (left = 0) as -> by lia.
    rewrite ztake_neg, zput_nil, zdrop_neg by lia. done. }
  pose proof (content_len h b W) as Hlen.
  destruct (next_readable_some h b W) as (rg & b1 & E1 & (Q1 & Q2 & Q3 & Q4) & Hr & Hst); [lia|].
  rewrite E1, bind_Ret in H. set (n := Z.min (rg_len rg) left) in *.
  assert (Hn : 0 < n <= left /\ n <= rg_len rg) by lia. clearbody n.
  rewrite i32_small in H by lia. destruct (Hst n) as (E2 & W1 & C1); [lia|].
  rewrite E2, bind_Ret in H.
  apply bind_Ret_inv in H as ([[nw disk1] script1] & Hw & H).
  unfold spy_pwrite in Hw. apply spy_pwrite_loop_sound in Hw; [|lia|zl].
  assert (Hz : zlen (ztake n (content h b)) = n) by zl.
  destruct Hw as [[-> ->]|(-> & k & Hk & ->)]; last first.
  { rewrite i32_small in H by lia. destruct (Z.eqb_spec (-1) n); [lia|]. cbn [negb] in H.
    inv_ret. right. split; [done|]. eexists. split; [|done]. zl. }
  rewrite Hz, Z.add_0_l, !i32_small in H by lia. rewrite Z.eqb_refl in H. cbn [negb] in H.
  rewrite u64_small in H by lia.
  assert (Hp1 : zlen (zput offset (ztake n (content h b)) disk) = zlen disk)
    by (apply zlen_put; lia).
  apply IH in H; [|done|lia|rewrite C1; zl|lia|lia|lia].
  destruct H as [(-> & -> & W2 & C2 & M2)|(-> & d2 & Hd2 & ->)].
  - left. split_and!; try done; [|rewrite C2, C1, zdrop_drop by lia; f_equal; lia|].
    + rewrite <- Hz at 1. rewrite zput_split by (rewrite ?zlen_take, ?C1; zl).
      rewrite C1, zsub_content_advance by lia. done.
    + rewrite M2. cbn. done.
  - right. split; [done|]. exists (ztake n (content h b) ++ d2). split; [zl|].
    rewrite <- Hz at 1. rewrite zput_split by zl. done.
Qed.

(** With a kernel that makes progress the body loop stores all of it. *)
Lemma write_body_complete fuel script h disk b offset left :
  buf_wf h b -> 0 <= left < 2 ^ 31 -> left <= Z.of_nat fuel -> left <= zlen (content h b) ->
  0 <= offset -> offset + left <= zlen disk -> zlen disk < 2 ^ 63 ->
  Forall benign script -> left <= xfers script ->
  exists disk' b' script', write_body_loop fuel script h disk b offset left
      = Ret (Some 0, disk', b', script') /\ Forall benign script' /\
    xfers script - left <= xfers script'.
Proof.
  revert script disk b offset left. induction fuel as [|fuel IH];
    intros script disk b offset left W Hl Hf Hc Ho Hd Hb Hs Hx; cbn [write_body_loop].
  { assert (left = 0) as -> by lia. cbn. do 3 eexists. split; [done|]. split; [done|lia]. }
  destruct (Z.ltb_spec 0 left) as [Hp|Hp]; last first.
  { assert (left = 0) as -> by lia. do 3 eexists. split; [done|]. split; [done|lia]. }
  pose proof (content_len h b W) as Hlen.
  destruct (next_readable_some h b W) as (rg & b1 & -> & (Q1 & Q2 & Q3 & Q4) & Hr & Hst); [lia|].
  rewrite bind_Ret. set (n := Z.min (rg_len rg) left) in *.
  assert (Hn : 0 < n <= left /\ n <= rg_len rg) by lia. clearbody n.
  rewrite i32_small by lia. destruct (Hst n) as (-> & W1 & C1); [lia|]. rewrite bind_Ret.
  assert (Hz : zlen (ztake n (content h b)) = n) by zl.
  destruct (spy_pwrite_loop_complete script disk (ztake n (content h b)) offset 0)
    as (s1 & E1 & Hs1 & Hx1); [done|lia|lia|lia|].
  unfold spy_pwrite. rewrite E1, bind_Ret, Hz, Z.add_0_l, !i32_small by lia.
  rewrite Z.eqb_refl. cbn [negb]. rewrite u64_small by lia.
  destruct (IH s1 (zput offset (ztake n (content h b)) disk) (advance_read n b1)
    (offset + n) (left - n)) as (d2 & b2 & s2 & -> & Hs2 & Hx2);
    rewrite ?zlen_put, ?C1 by lia; try (done || zl).
  do 3 eexists. split; [done|]. split; [done|lia].
Qed.

Opaque spy_fill_superblock.

Lemma pwrite_superblock script c disk r disk' script' :
  SUPERBLOCK_SIZE <= zlen disk ->
  spy_write_chunk_superblock script c disk = Ret (r, disk', script') ->
  exists k, 0 <= k <= SUPERBLOCK_SIZE /\ disk' = zput 0 (ztake k (sb_bytes c)) disk /\
    (r = 0 -> k = SUPERBLOCK_SIZE).
Proof.
  intros Hd H. unfold spy_write_chunk_superblock in H. rewrite fill_superblock_ok, bind_Ret in H.
  apply bind_Ret_inv in H as ([[n d1] s1] & Hw & H). inv_ret.
  unfold spy_pwrite in Hw.
  apply spy_pwrite_loop_sound in Hw; [|lia|rewrite zlen_sb_bytes; lia].
  rewrite zlen_sb_bytes in Hw. destruct Hw as [[-> ->]|(-> & k & Hk & ->)].
  - exists SUPERBLOCK_SIZE. rewrite ztake_all by (rewrite zlen_sb_bytes; lia).
    split; [split; discriminate|]. split; [done|]. intros _. reflexivity.
  - exists k. split; [exact Hk|]. split; [done|]. intros Hr. discriminate Hr.
Qed.

Lemma zlen_zput_le o d l : 0 <= o -> o + zlen d <= zlen l -> zlen (zput o d l) = zlen l.
Proof. apply zlen_put. Qed.

(** A write past the records leaves the image alone. *)
Lemma image_zput_tail cs disk c rs o d :
  chunk_image cs disk c rs -> current_offset c <= o -> o + zlen d <= cs ->
  chunk_image cs (zput o d disk) c rs.
Proof.
  intros [[tail ->] H2 H3 H4 H5 H6 H7 H8] Ho Hd.
  change SUPERBLOCK_SIZE with 55 in *. rewrite !zlen_app, zlen_sb_bytes in H2.
  change SUPERBLOCK_SIZE with 55 in *.
  split; try done; [|rewrite zlen_put; rewrite ?zlen_app, ?zlen_sb_bytes; zlen_pos;
    change SUPERBLOCK_SIZE with 55 in *; lia].
  exists (zput (o - current_offset c) d tail).
  rewrite zput_app_r by (rewrite zlen_sb_bytes; change SUPERBLOCK_SIZE with 55; zlen_pos; lia).
  rewrite zlen_sb_bytes, zput_app_r by (change SUPERBLOCK_SIZE with 55; lia).
  do 3 f_equal. change SUPERBLOCK_SIZE with 55. lia.
Qed.

(** The record region after the new record is in place, before the superblock
    is rewritten. *)
Lemma image_zput_record cs disk c rs d :
  chunk_image cs disk c rs -> zlen d <= avail_space c ->
  exists tail, zput (current_offset c) d disk = sb_bytes c ++ (enc_recs rs ++ d) ++ tail.
Proof.
  intros [[tail ->] H2 H3 H4 H5 H6 H7 H8] Hd. rewrite H5.
  rewrite zput_app_r by (rewrite zlen_sb_bytes; zlen_pos; lia).
  rewrite zlen_sb_bytes, zput_app_r by lia.
  replace (SUPERBLOCK_SIZE + zlen (enc_recs rs) - SUPERBLOCK_SIZE - zlen (enc_recs rs)) with 0 by lia.
  rewrite zput_0. eexists. by rewrite <- !app_assoc.
Qed.

Lemma zput_superblock k c0 c rest :
  0 <= k <= SUPERBLOCK_SIZE ->
  exists sb, zput 0 (ztake k (sb_bytes c)) (sb_bytes c0 ++ rest) = sb ++ rest /\
    zlen sb = SUPERBLOCK_SIZE /\ (k = SUPERBLOCK_SIZE -> sb = sb_bytes c).
Proof.
  intros Hk. assert (zlen (ztake k (sb_bytes c)) = k) by (rewrite zlen_take, zlen_sb_bytes; lia).
  exists (zput 0 (ztake k (sb_bytes c)) (sb_bytes c0)). split_and!.
  - apply zput_app_l; [lia|rewrite zlen_sb_bytes; lia].
  - rewrite zlen_put; rewrite ?zlen_sb_bytes; lia.
  - intros ->. rewrite zput_0, (ztake_all _ (sb_bytes c)), zdrop_all, app_nil_r
      by (rewrite ?zlen_sb_bytes; lia). done.
Qed.

(** What a write request carries: a file of [f_size] bytes at the front of the
    request's queue, for which the chunk has room. *)
Definition write_ready h b f c : Prop :=
  buf_wf h b /\ 0 <= f_size f <= zlen (content h b) /\
  f_size f + FILE_META_SIZE < avail_space c /\
  0 <= f_fid f < 2 ^ 64 /\ 0 <= f_ref f < 2 ^ 16.

Lemma new_rec_fits cs disk c rs now h b f :
  chunk_image cs disk c rs -> write_ready h b f c -> 0 <= now < 2 ^ 64 ->
  rec_fits (new_rec now f (ztake (f_size f) (content h b))).
Proof.
  intros [_ H2 H3 _ H5 H6 _ _] (W & Hs & Ha & Hf & Hr) Hn.
  change DEF_CHUNK_SIZE with (2 ^ 31) in *. change SUPERBLOCK_SIZE with 55 in *.
  zlen_pos. split; cbn; try done; zl.
Qed.

Lemma new_image cs disk c rs now h b f disk' k rest :
  chunk_image cs disk c rs -> write_ready h b f c -> 0 <= now < 2 ^ 64 ->
  let r := new_rec now f (ztake (f_size f) (content h b)) in
  let c' := grown c (f_size f + FILE_META_SIZE) in
  disk' = sb_bytes c' ++ enc_recs (rs ++ [r]) ++ rest -> zlen disk' = cs ->
  k = SUPERBLOCK_SIZE -> chunk_image cs disk' c' (rs ++ [r]).
Proof.
  intros I Hw Hn r c' Hd Hl ->. pose proof (new_rec_fits _ _ _ _ now h b f I Hw Hn) as Hfit.
  destruct I as [_ H2 H3 H4 H5 H6 H7 H8]. destruct Hw as (W & Hs & Ha & Hf & Hr).
  split; try done.
  - by exists rest.
  - cbn. rewrite H5, enc_recs_app, enc_recs_one, zlen_app, zlen_enc_rec. cbn.
    rewrite zlen_take. lia.
  - cbn. lia.
  - cbn. rewrite zlen_app, zlen_cons, zlen_nil. lia.
  - apply Forall_app. auto.
Qed.

(** The chunk's counters after a write, where nothing wraps. *)
Lemma grown_wraps cs disk c rs h b f :
  chunk_image cs disk c rs -> write_ready h b f c ->
  SpyChunk (c_fd c) (c_path c) (chunk_id c) (u32 (files_alloc c + 1)) (u32 (files_count c + 1))
    (u64 (current_offset c + u32 (f_size f + FILE_META_SIZE)))
    (u64 (avail_space c - u32 (f_size f + FILE_META_SIZE))) (c_file_size c)
  = grown c (f_size f + FILE_META_SIZE).
Proof.
  intros I (W & Hs & Ha & Hf & Hr). pose proof (count_bound rs).
  destruct I as [_ H2 H3 H4 H5 H6 H7 H8].
  change DEF_CHUNK_SIZE with (2 ^ 31) in *. change SUPERBLOCK_SIZE with 55 in *.
  change FILE_META_SIZE with 30 in *. zlen_pos. unfold grown.
  rewrite !(u32_small (f_size f + 30)), !u32_small, !u64_small by lia. done.
Qed.

Opaque spy_fill_file_meta spy_write_chunk_superblock write_body_loop spy_pwrite_loop.

(** [spy_write_file] once the header is on disk. *)
Lemma write_file_after_header cs disk c rs now h b f script b1 d1 s1 :
  chunk_image cs disk c rs -> write_ready h b f c ->
  let d := ztake (f_size f) (content h b) in
  let c' := grown c (f_size f + FILE_META_SIZE) in
  spy_fill_file_meta now h f b FILE_META_SIZE
    = Ret (meta_bytes (fr_file (new_rec now f d)), summed f d, b1) ->
  spy_pwrite script disk (meta_bytes (fr_file (new_rec now f d))) (current_offset c)
    = Ret (FILE_META_SIZE, d1, s1) ->
  spy_write_file script now h f c (current_offset c) disk b
  = ('(r, d2, b2, s2) ← write_body_loop (Z.to_nat (f_size f)) s1 h d1 b1
       (current_offset c + FILE_META_SIZE) (f_size f);
     match r with
     | None => Ret (WriteRes (-1) (summed f d) c d2 b2)
     | Some rest =>
         if negb (rest =? 0) then Ret (WriteRes (-1) (summed f d) c d2 b2)
         else
           '(_, d3, _) ← spy_write_chunk_superblock s2 c' d2;
           Ret (WriteRes 0 (summed f d) c' d3 b2)
     end).
Proof.
  intros I Hw d c' E1 E2. pose proof (grown_wraps _ _ _ _ _ _ _ I Hw) as Hg.
  destruct I as [_ H2 H3 H4 H5 H6 _ _]. destruct Hw as (W & Hs & Ha & _ & _).
  unfold spy_write_file. rewrite E1, bind_Ret, E2, bind_Ret.
  rewrite (i32_small FILE_META_SIZE) by done. rewrite Z.eqb_refl. cbn [negb]. cbv zeta.
  change (f_size (summed f d)) with (f_size f).
  rewrite (u64_small (current_offset c + FILE_META_SIZE)), (i32_small (f_size f)) by slia.
  rewrite Hg. done.
Qed.

Definition write_stored cs now h b f c rs (res : write_res) : Prop :=
  let r := new_rec now f (ztake (f_size f) (content h b)) in
  w_retcode res = 0 /\ w_chunk res = grown c (f_size f + FILE_META_SIZE) /\
  zlen (w_disk res) = cs /\
  zsub SUPERBLOCK_SIZE (zlen (enc_recs (rs ++ [r]))) (w_disk res) = enc_recs (rs ++ [r]) /\
  buf_wf h (w_request res) /\ content h (w_request res) = zdrop (f_size f) (content h b).

Lemma zput_record_split now f d disk o :
  0 <= o -> o + FILE_META_SIZE + zlen d <= zlen disk ->
  zput (o + FILE_META_SIZE) d (zput o (meta_bytes (fr_file (new_rec now f d))) disk)
  = zput o (enc_rec (new_rec now f d)) disk.
Proof.
  intros. unfold enc_rec. rewrite <- (zlen_meta (fr_file (new_rec now f d))) at 1.
  rewrite zput_split by (rewrite ?zlen_meta; lia). done.
Qed.

(** The superblock rewrite, complete or torn, does not reach the records. *)
Lemma stored_after_superblock cs disk c rs now h b f k :
  chunk_image cs disk c rs -> write_ready h b f c -> 0 <= k <= SUPERBLOCK_SIZE ->
  let r := new_rec now f (ztake (f_size f) (content h b)) in
  let c' := grown c (f_size f + FILE_META_SIZE) in
  exists sb tail, zput 0 (ztake k (sb_bytes c')) (zput (current_offset c) (enc_rec r) disk)
    = sb ++ enc_recs (rs ++ [r]) ++ tail /\ zlen sb = SUPERBLOCK_SIZE /\
    (k = SUPERBLOCK_SIZE -> sb = sb_bytes c') /\
    zlen (sb ++ enc_recs (rs ++ [r]) ++ tail) = cs.
Proof.
  intros I (W & Hs & Ha & _) Hk r c'.
  assert (Hr : zlen (enc_rec r) = FILE_META_SIZE + f_size f).
  { unfold r. rewrite zlen_enc_rec. cbn. zl. }
  assert (Hz : zlen (zput (current_offset c) (enc_rec r) disk) = cs).
  { destruct I as [_ H2 _ _ H5 H6 _ _]. change SUPERBLOCK_SIZE with 55 in *.
    rewrite zlen_put; zlen_pos; lia. }
  destruct (image_zput_record cs disk c rs (enc_rec r) I) as [tail E]; [lia|].
  destruct (zput_superblock k c c' ((enc_recs rs ++ enc_rec r) ++ tail) Hk) as (sb & E2 & Hl & Hsb).
  exists sb, tail. rewrite E, E2, enc_recs_app, enc_recs_one. split_and!; try done.
  rewrite E in Hz. rewrite zlen_app, Hl. by rewrite zlen_app, zlen_sb_bytes in Hz.
Qed.

Lemma write_file_sound cs disk c rs now h b f script res :
  chunk_image cs disk c rs -> write_ready h b f c ->
  spy_write_file script now h f c (current_offset c) disk b = Ret res ->
  w_file res = summed f (ztake (f_size f) (content h b)) /\
  (write_stored cs now h b f c rs res \/
   (w_retcode res = -1 /\ w_chunk res = c /\ chunk_image cs (w_disk res) c rs)).
Proof.
  intros I Hw H. pose proof Hw as (W & Hs & Ha & _). set (d := ztake (f_size f) (content h b)).
  assert (Hz : zlen d = f_size f) by (unfold d; zl).
  assert (Hb : current_offset c + FILE_META_SIZE + zlen d <= zlen disk /\
    0 <= current_offset c /\ zlen disk < 2 ^ 63 /\ 0 <= f_size f < 2 ^ 31).
  { destruct I as [_ H2 H3 _ H5 H6 _ _]. change DEF_CHUNK_SIZE with (2 ^ 31) in *.
    change SUPERBLOCK_SIZE with 55 in *. change FILE_META_SIZE with 30 in *. zlen_pos. lia. }
  destruct Hb as (Hb1 & Hb2 & Hb3 & Hb4). change FILE_META_SIZE with 30 in *.
  assert (Hi : forall d', zlen d' <= 30 + f_size f ->
    chunk_image cs (zput (current_offset c) d' disk) c rs).
  { intros d' Hd'. apply image_zput_tail; [done|lia|]. rewrite <- (img_len _ _ _ _ I). lia. }
  destruct (fill_file_meta_ok now h f b W Hs) as (b1 & E1 & W1 & Hq). fold d in E1.
  destruct (spy_pwrite script disk (meta_bytes (fr_file (new_rec now f d))) (current_offset c))
    as [[[n d1] s1]| | | |] eqn:E2;
    [|unfold spy_write_file in H; change FILE_META_SIZE with 30 in *;
      rewrite E1, bind_Ret, E2 in H; discriminate H..].
  pose proof E2 as E2'. unfold spy_pwrite in E2'.
  apply spy_pwrite_loop_sound in E2'; [|lia|rewrite zlen_meta; slia].
  rewrite zlen_meta, Z.add_0_l in E2'. change FILE_META_SIZE with 30 in *.
  destruct E2' as [[-> ->]|(-> & k & Hk & ->)]; last first.
  { unfold spy_write_file in H. change FILE_META_SIZE with 30 in *.
    rewrite E1, bind_Ret, E2, bind_Ret in H.
    change (i32 (-1) =? 30) with false in H. cbn [negb] in H.
    inv_ret. split; [done|]. right. split_and!; try done. apply Hi.
    rewrite zlen_take, zlen_meta. change FILE_META_SIZE with 30. lia. }
  assert (Hz1 : zlen (zput (current_offset c) (meta_bytes (fr_file (new_rec now f d))) disk)
    = zlen disk) by (apply zlen_put; rewrite ?zlen_meta; slia).
  pose proof (write_file_after_header cs disk c rs now h b f script b1 _ s1 I Hw E1 E2) as E.
  cbv zeta in E. rewrite E in H. clear E.
  apply bind_Ret_inv in H as ([[[r d2] b2] s2] & E3 & H).
  apply write_body_sound in E3;
    [|done|lia|rewrite (same_queue_content h _ _ Hq); lia|slia|slia|lia].
  rewrite (same_queue_content h _ _ Hq) in E3. fold d in E3.
  destruct E3 as [(-> & -> & W2 & C2 & _)|(-> & d' & Hd' & ->)].
  - cbn [Z.eqb negb] in H. apply bind_Ret_inv in H as ([[r3 d3] s3] & E4 & H). inv_ret.
    rewrite zput_record_split in E4 by slia.
    apply pwrite_superblock in E4 as (k & Hk & -> & _); last first.
    { rewrite zlen_put; [|lia|rewrite zlen_enc_rec; cbn; slia]. pose proof (img_len _ _ _ _ I).
      pose proof (img_offset _ _ _ _ I). destruct (img_avail _ _ _ _ I). slia. }
    destruct (stored_after_superblock cs disk c rs now h b f k I Hw Hk) as (sb & tail & E & Hl & _ & Hcs).
    split; [done|]. left. unfold write_stored. cbn [w_retcode w_chunk w_disk w_request].
    fold d in E, Hcs |- *. rewrite E. split_and!; try done.
    rewrite <- Hl. apply zsub_middle.
  - inv_ret. split; [done|]. right. split_and!; try done. cbn [w_disk].
    rewrite <- (zlen_meta (fr_file (new_rec now f d))).
    rewrite zput_split by (rewrite ?zlen_meta; slia). apply Hi. rewrite zlen_app, zlen_meta. slia.
Qed.

Lemma write_superblock_complete script c disk :
  Forall benign script -> SUPERBLOCK_SIZE <= xfers script -> SUPERBLOCK_SIZE <= zlen disk ->
  exists script', spy_write_chunk_superblock script c disk
    = Ret (0, zput 0 (sb_bytes c) disk, script').
Proof.
  intros Hs Hx Hd. Transparent spy_write_chunk_superblock. unfold spy_write_chunk_superblock.
  rewrite fill_superblock_ok, bind_Ret.
  destruct (spy_pwrite_loop_complete script disk (sb_bytes c) 0 0) as (s1 & E & _);
    [done|rewrite zlen_sb_bytes; lia|lia|rewrite zlen_sb_bytes; lia|].
  unfold spy_pwrite. rewrite E, bind_Ret. by exists s1.
Qed.
Opaque spy_write_chunk_superblock.

(** With a kernel that makes progress, a write for which there is room appends
    exactly one record. *)
Lemma write_file_complete cs disk c rs now h b f script :
  chunk_image cs disk c rs -> write_ready h b f c -> 0 <= now < 2 ^ 64 ->
  Forall benign script -> f_size f + FILE_META_SIZE + SUPERBLOCK_SIZE <= xfers script ->
  exists res, spy_write_file script now h f c (current_offset c) disk b = Ret res /\
    w_retcode res = 0 /\ w_chunk res = grown c (f_size f + FILE_META_SIZE) /\
    chunk_image cs (w_disk res) (w_chunk res)
      (rs ++ [new_rec now f (ztake (f_size f) (content h b))]).
Proof.
  intros I Hw Hn Hs Hx. pose proof Hw as (W & Hf & Ha & _).
  set (d := ztake (f_size f) (content h b)). assert (Hz : zlen d = f_size f) by (unfold d; zl).
  pose proof (img_len _ _ _ _ I) as Hl. pose proof (img_size _ _ _ _ I) as Hc.
  pose proof (img_offset _ _ _ _ I) as Ho. pose proof (img_avail _ _ _ _ I) as [Hv _].
  destruct (fill_file_meta_ok now h f b W Hf) as (b1 & E1 & W1 & Hq). fold d in E1.
  destruct (spy_pwrite_loop_complete script disk (meta_bytes (fr_file (new_rec now f d)))
    (current_offset c) 0) as (s1 & E2 & Hs1 & Hx1); [done|rewrite zlen_meta; slia|slia
    |rewrite zlen_meta; slia|]. rewrite zlen_meta in E2, Hx1.
  pose proof (write_file_after_header cs disk c rs now h b f script b1 _ s1 I Hw E1 E2) as ->.
  set (d1 := zput (current_offset c) (meta_bytes (fr_file (new_rec now f d))) disk) in *.
  assert (Hd1 : zlen d1 = cs) by (unfold d1; rewrite zlen_put; rewrite ?zlen_meta; slia).
  destruct (write_body_complete (Z.to_nat (f_size f)) s1 h d1 b1 (current_offset c + FILE_META_SIZE)
    (f_size f)) as (d2 & b2 & s2 & E3 & Hs2 & Hx2);
    rewrite ?(same_queue_content h _ _ Hq); try done; try slia.
  cbv zeta. rewrite E3, bind_Ret. apply write_body_sound in E3;
    rewrite ?(same_queue_content h _ _ Hq); try done; try slia.
  rewrite (same_queue_content h _ _ Hq) in E3. fold d in E3.
  destruct E3 as [(_ & -> & W2 & C2 & _)|[? _]]; [|done]. unfold d1 in *.
  rewrite zput_record_split by slia. cbn [Z.eqb negb].
  destruct (write_superblock_complete s2 (grown c (f_size f + FILE_META_SIZE))
    (zput (current_offset c) (enc_rec (new_rec now f d)) disk)) as [s3 ->];
    [done|slia|rewrite zlen_put; [slia|slia|rewrite zlen_enc_rec; cbn; slia]|].
  rewrite bind_Ret. eexists. split; [done|]. split; [done|]. split; [done|]. cbn [w_disk w_chunk].
  destruct (stored_after_superblock cs disk c rs now h b f SUPERBLOCK_SIZE I Hw)
    as (sb & tail & E & _ & Hsb & Hcs); [slia|].
  rewrite ztake_all in E by (rewrite zlen_sb_bytes; lia). fold d in E, Hcs.
  specialize (Hsb eq_refl). subst sb.
  eapply (new_image cs disk c rs now h b f _ SUPERBLOCK_SIZE tail I Hw Hn); [exact E| |done].
  fold d. rewrite E. exact Hcs.
Qed.

(** ** Reading *)

Lemma parse_meta_ok f :
  0 <= f_fid f < 2 ^ 64 -> 0 <= f_ref f < 2 ^ 16 -> 0 <= f_size f < 2 ^ 32 ->
  0 <= f_checksum f < 2 ^ 64 -> 0 <= f_timestamp f < 2 ^ 64 ->
  parse_file_meta (meta_bytes f) = Ret f.
Proof.
  intros. unfold parse_file_meta, meta_bytes. cbv zeta.
  rewrite read_write_8, bind_Ret, !(zdrop_exact 8 (spy_mach_write_to_8 (f_fid f))) by done.
  rewrite read_write_2, bind_Ret, !(zdrop_exact 2 (spy_mach_write_to_2 (f_ref f))) by done.
  rewrite read_write_4, bind_Ret, !(zdrop_exact 4 (spy_mach_write_to_4 (f_size f))) by done.
  rewrite read_write_8, bind_Ret, !(zdrop_exact 8 (spy_mach_write_to_8 (f_checksum f))) by done.
  rewrite <- (app_nil_r (spy_mach_write_to_8 (f_timestamp f))), read_write_8, bind_Ret.
  rewrite !u64_small, u32_small, u16_small by lia. by destruct f.
Qed.

Lemma read_body_complete fuel script h disk b offset left :
  buf_wf h b -> 0 <= left < 2 ^ 31 -> left <= Z.of_nat fuel -> left <= cap b - write_pos b ->
  0 <= offset -> offset + left <= zlen disk -> zlen disk < 2 ^ 63 ->
  Forall benign script -> left <= xfers script ->
  exists h' b', read_body_loop fuel script h disk b offset left = Ret (true, h', b') /\
    stored h b (zsub offset left disk) h' b'.
Proof.
  revert script h b offset left. induction fuel as [|fuel IH];
    intros script h b offset left W Hl Hf Hc Ho Hd Hb Hs Hx; cbn [read_body_loop].
  { assert (left = 0) as -> by lia. cbn. exists h, b. rewrite zsub_nil by lia.
    by auto using stored_nil. }
  destruct (Z.ltb_spec 0 left) as [Hp|Hp]; last first.
  { assert (left = 0) as -> by lia. exists h, b. rewrite zsub_nil by lia. by auto using stored_nil. }
  destruct (next_writeable_some h b W) as (rg & b1 & -> & Hq & Hr & Hst); [lia|].
  rewrite bind_Ret. set (n := Z.min left (rg_len rg)) in *.
  assert (Hn : 0 < n <= left /\ n <= rg_len rg) by lia. clearbody n.
  destruct (spy_pread_loop_complete disk script n offset 0 []) as (s1 & E1 & Hs1 & Hx1);
    [done|lia|lia|lia|].
  unfold spy_pread. rewrite E1, bind_Ret, Z.add_0_l, app_nil_l, i32_small by lia.
  assert (Hz : zlen (zsub offset n disk) = n) by zl.
  destruct (Hst (zsub offset n disk)) as (h1 & -> & S1); [lia|].
  rewrite bind_Ret, u64_small, Z.eqb_refl by lia. cbn [negb]. rewrite u64_small by lia.
  rewrite Hz in S1. pose proof S1 as (_ & W1 & _ & _ & _ & Hcap & Hwp & _). rewrite Hz in Hwp.
  destruct (IH s1 h1 (advance_write n b1) (offset + n) (left - n)) as (h2 & b2 & -> & S2);
    try (done || lia).
  exists h2, b2. split; [done|]. replace left with (n + (left - n)) at 1 by lia.
  rewrite zsub_app by lia. by eapply stored_trans.
Qed.

(** The index entry of record [r] that follows the records [pre]. *)
Definition rec_entry (cid : Z) (pre : list file_rec) (r : file_rec) : spy_file_index_entry_t :=
  SpyFileIndexEntry cid (f_fid (fr_file r)) (SUPERBLOCK_SIZE + zlen (enc_recs pre))
    (f_size (fr_file r) + FILE_META_SIZE).

Lemma image_record cs disk c pre r post :
  chunk_image cs disk c (pre ++ r :: post) ->
  zsub (SUPERBLOCK_SIZE + zlen (enc_recs pre)) (zlen (enc_rec r)) disk = enc_rec r /\
  SUPERBLOCK_SIZE + zlen (enc_recs pre) + zlen (enc_rec r) <= zlen disk.
Proof.
  intros [[tail ->] _ _ _ _ _ _ _]. rewrite enc_recs_app, enc_recs_cons.
  rewrite <- !(app_assoc (enc_recs pre)), <- (app_assoc (enc_rec r)).
  rewrite (app_assoc (sb_bytes c)). split.
  - rewrite <- (zlen_sb_bytes c), <- zlen_app. apply zsub_middle.
  - rewrite !zlen_app, zlen_sb_bytes. slia.
Qed.

Lemma rec_parse r : rec_fits r -> parse_file_meta (meta_bytes (fr_file r)) = Ret (fr_file r).
Proof.
  intros [R1 R2 R3 R4 R5 R6]. pose proof (adler_ref_range 0 (fr_data r) reduced_split_0).
  apply parse_meta_ok; slia.
Qed.

Opaque read_body_loop spy_buffer_adler32 parse_file_meta.

(** Reading a record gives its bytes, whatever surrounds it. *)
Lemma read_record_ok disk o r cid h b script :
  rec_fits r -> zsub o (zlen (enc_rec r)) disk = enc_rec r -> 0 <= o ->
  o + zlen (enc_rec r) <= zlen disk -> zlen disk < 2 ^ 63 -> buf_wf h b -> content h b = [] ->
  f_size (fr_file r) + FILE_META_SIZE <= cap b - write_pos b ->
  Forall benign script -> f_size (fr_file r) + FILE_META_SIZE <= xfers script ->
  exists h' b', spy_read_file script h
      (SpyFileIndexEntry cid (f_fid (fr_file r)) o (f_size (fr_file r) + FILE_META_SIZE)) disk b
      = Ret (ReadRes 0 (Some (fr_file r)) h' b') /\
    buf_wf h' b' /\ content h' b' = fr_data r /\ (forall y, y ∉ mem_blocks b -> h' !! y = h !! y).
Proof.
  intros Hfit Hz Ho Hl Hd W Hc Hcap Hs Hx. pose proof (rf_size _ Hfit) as Hfs.
  pose proof (rf_bound _ Hfit) as Hfb. destruct (wf_pos _ _ W) as [Hp _].
  rewrite zlen_enc_rec in Hl. rewrite zlen_enc_rec, <- Hfs, (Z.add_comm FILE_META_SIZE) in Hz.
  unfold spy_read_file. cbn [ie_size ie_offset ie_fid].
  rewrite bind_assert by (apply Z.leb_le; slia).
  destruct (read_body_complete (Z.to_nat (f_size (fr_file r) + FILE_META_SIZE)) script h disk b
    o (f_size (fr_file r) + FILE_META_SIZE))
    as (h1 & b1 & -> & S1 & W1 & C1 & M1 & R1 & Cap1 & Wp1 & Ag1); try done; try slia.
  rewrite bind_Ret. cbn [negb]. rewrite Hc, app_nil_l, Hz in C1.
  destruct (read_n_loop_spec (Z.to_nat FILE_META_SIZE) h1 b1 FILE_META_SIZE [])
    as (b2 & E2 & W2 & C2 & M2 & _); [done|done|done|].
  unfold spy_rw_buffer_read_n. rewrite E2, bind_Ret, app_nil_l, C1. unfold enc_rec.
  rewrite ztake_exact, bind_assert by done. rewrite rec_parse, bind_Ret by done.
  rewrite C1 in C2. unfold enc_rec in C2. rewrite zdrop_exact in C2 by done.
  rewrite u32_small by slia.
  destruct (scan_spec h1 b2 (f_size (fr_file r) + FILE_META_SIZE - FILE_META_SIZE) W2)
    as (b3 & -> & W3 & Q3); [rewrite C2; slia|].
  rewrite bind_Ret, C2, ztake_all, (rf_checksum _ Hfit), !Z.eqb_refl by slia.
  exists h1, b3. split_and!; try done. by rewrite (same_queue_content h1 b2 b3).
Qed.

(** Reading a record of the image, whatever its place. *)
Lemma read_file_ok cs disk c pre r post cid h b script :
  chunk_image cs disk c (pre ++ r :: post) -> buf_wf h b -> content h b = [] ->
  f_size (fr_file r) + FILE_META_SIZE <= cap b - write_pos b ->
  Forall benign script -> f_size (fr_file r) + FILE_META_SIZE <= xfers script ->
  exists h' b', spy_read_file script h (rec_entry cid pre r) disk b
      = Ret (ReadRes 0 (Some (fr_file r)) h' b') /\
    buf_wf h' b' /\ content h' b' = fr_data r /\ (forall y, y ∉ mem_blocks b -> h' !! y = h !! y).
Proof.
  intros I. destruct (image_record _ _ _ _ _ _ I) as [Hz Hl].
  pose proof (img_len _ _ _ _ I) as Hcs. pose proof (img_size _ _ _ _ I) as Hsz.
  pose proof (img_recs _ _ _ _ I) as Hrs. apply Forall_app in Hrs as [_ Hrs].
  apply Forall_cons in Hrs as [Hfit _]. apply read_record_ok; [done|done|slia|done|slia].
Qed.

Lemma spy_pread_len script disk n offset k d s' :
  0 <= n -> 0 <= offset -> spy_pread script disk n offset = Ret (k, d, s') -> zlen d <= n.
Proof.
  unfold spy_pread.
  assert (G : forall script count offset total acc, 0 <= count -> 0 <= offset ->
    spy_pread_loop script disk count offset total acc = Ret (k, d, s') ->
    zlen d <= zlen acc + count).
  { clear. intros script. induction script as [|r script IH]; intros count offset total acc Hc Ho H;
      cbn in H; destruct (Z.ltb_spec 0 count); inv_ret; try slia.
    destruct (sys_pread disk count offset r) as [e|d0] eqn:E.
    - destruct (retryable e); [by eapply IH|inv_ret; slia].
    - assert (Hd0 : zlen d0 <= count).
      { destruct r; cbn in E; [|done]. injection E as <-. zl. }
      case_b; [inv_ret; slia|]. apply IH in H; [|slia|slia]. rewrite zlen_app in H. lia. }
  intros Hn Ho H. apply G in H; [|done|done]. by rewrite zlen_nil in H.
Qed.

Transparent read_body_loop.

(** Whatever the kernel answers, a read loop that completes has delivered the
    bytes of the file. *)
Lemma read_body_sound fuel script h disk b offset left h' b' :
  buf_wf h b -> 0 <= left < 2 ^ 31 -> left <= cap b - write_pos b ->
  0 <= offset -> zlen disk < 2 ^ 63 ->
  read_body_loop fuel script h disk b offset left = Ret (true, h', b') ->
  stored h b (zsub offset left disk) h' b' /\ (0 < left -> offset + left <= zlen disk).
Proof.
  revert script h b offset left. induction fuel as [|fuel IH];
    intros script h b offset left W Hl Hc Ho Hb H; cbn [read_body_loop] in H.
  { case_b; [done|]. inv_ret. rewrite zsub_nil by lia. split; [by apply stored_nil|lia]. }
  destruct (Z.ltb_spec 0 left) as [Hp|Hp]; last first.
  { inv_ret. rewrite zsub_nil by lia. split; [by apply stored_nil|lia]. }
  destruct (next_writeable_some h b W) as (rg & b1 & E1 & Hq & Hr & Hst); [lia|].
  rewrite E1, bind_Ret in H. set (n := Z.min left (rg_len rg)) in *.
  assert (Hn : 0 < n <= left /\ n <= rg_len rg) by lia. clearbody n.
  apply bind_Ret_inv in H as ([[k d] s1] & Hw & H). pose proof Hw as Hw'.
  apply spy_pread_len in Hw'; [|lia|lia].
  unfold spy_pread in Hw. apply spy_pread_loop_sound in Hw; [|lia|lia|lia].
  destruct (Hst d) as (h1 & E2 & S1); [lia|]. rewrite E2, bind_Ret in H.
  destruct Hw as [(-> & -> & Hin)| ->]; last first.
  { destruct (Z.eqb_spec (u64 (i32 (-1))) n) as [E|_]; [|done].
    change (u64 (i32 (-1))) with (2 ^ 64 - 1) in E. lia. }
  specialize (Hin ltac:(lia)). rewrite app_nil_l in *.
  rewrite Z.add_0_l, i32_small, !u64_small, Z.eqb_refl in H by lia. cbn [negb] in H.
  assert (Hz : zlen (zsub offset n disk) = n) by zl. rewrite Hz in S1.
  pose proof S1 as (_ & W1 & _ & _ & _ & Hcap & Hwp & _). rewrite Hz in Hwp.
  apply IH in H as [S2 Hin2]; [|done|lia|lia|lia|done].
  split; [|lia]. replace left with (n + (left - n)) at 1 by lia.
  rewrite zsub_app by lia. by eapply stored_trans.
Qed.

Opaque read_body_loop.

(** A successful read has delivered a body whose checksum and file id match the
    header that precedes it on disk. *)
Lemma read_file_sound script h e disk b res :
  buf_wf h b -> content h b = [] -> FILE_META_SIZE <= ie_size e < 2 ^ 31 ->
  ie_size e <= cap b - write_pos b -> 0 <= ie_offset e -> zlen disk < 2 ^ 63 ->
  spy_read_file script h e disk b = Ret res -> r_retcode res = 0 ->
  exists file, parse_file_meta (zsub (ie_offset e) FILE_META_SIZE disk) = Ret file /\
    r_file res = Some file /\ f_fid file = ie_fid e /\
    content (r_heap res) (r_rsp_body res)
      = zsub (ie_offset e + FILE_META_SIZE) (ie_size e - FILE_META_SIZE) disk /\
    f_checksum file = adler_ref 0 (content (r_heap res) (r_rsp_body res)).
Proof.
  intros W Hc Hs Hcap Ho Hd H H0. unfold spy_read_file in H.
  apply bind_Ret_inv in H as (u & _ & H).
  apply bind_Ret_inv in H as ([[ok h1] b1] & Hb & H).
  destruct ok; cbn [negb] in H; [|by inv_ret].
  apply read_body_sound in Hb as [(_ & W1 & C1 & _) Hin]; [|done|slia|done|done|done].
  specialize (Hin ltac:(slia)). rewrite Hc, app_nil_l in C1.
  destruct (read_n_loop_spec (Z.to_nat FILE_META_SIZE) h1 b1 FILE_META_SIZE [])
    as (b2 & E2 & W2 & C2 & M2 & _); [done|done|done|].
  unfold spy_rw_buffer_read_n in H. rewrite E2, bind_Ret, app_nil_l, C1 in H.
  assert (Hm : ztake FILE_META_SIZE (zsub (ie_offset e) (ie_size e) disk)
    = zsub (ie_offset e) FILE_META_SIZE disk).
  { unfold zsub. rewrite ztake_take. f_equal. lia. }
  assert (Hr : zdrop FILE_META_SIZE (zsub (ie_offset e) (ie_size e) disk)
    = zsub (ie_offset e + FILE_META_SIZE) (ie_size e - FILE_META_SIZE) disk).
  { unfold zsub. rewrite zdrop_take, zdrop_drop by slia. done. }
  rewrite Hm in H. rewrite C1, Hr in C2. apply bind_Ret_inv in H as (u2 & _ & H).
  apply bind_Ret_inv in H as (file & Hf & H). rewrite u32_small in H by slia.
  assert (Hz : zlen (content h1 b2) = ie_size e - FILE_META_SIZE) by (rewrite C2; sizes; zl).
  destruct (scan_spec h1 b2 (ie_size e - FILE_META_SIZE) W2) as (b3 & E3 & W3 & Q3); [slia|].
  rewrite E3, bind_Ret in H. injection H as <-. cbn [r_retcode r_file r_heap r_rsp_body] in *.
  rewrite (same_queue_content h1 b2 b3) by done. exists file.
  destruct (f_fid file =? ie_fid e) eqn:Ef; [|done]. apply Z.eqb_eq in Ef.
  rewrite ztake_all in H0 by lia. cbn [andb] in H0.
  destruct (Z.eqb_spec (f_checksum file) (adler_ref 0 (content h1 b2))); [|done]. done.
Qed.

End Image.

(** ** Properties *)

Module StoreFileProps.

(** A 200-byte chunk file with no record, a request holding two bytes and an
    empty response buffer of 64 bytes, for examples. *)
Definition ex_chunk : spy_chunk_t := SpyChunk 7 [] 1 0 0 55 145 200.
Definition ex_disk : list byte := sb_bytes ex_chunk ++ replicate 145 b00.
Definition ex_mem : gmap loc spy_mem_block_t :=
  {[0%nat := SpyMemBlock 4 (map byte_of_Z [9; 8; 7; 6]);
    1%nat := SpyMemBlock 64 (replicate 64 b00)]}.
Definition ex_request : spy_rw_buffer_t := SpyRwBuffer [0%nat] 1 3 4 (Some 0%nat) (Some 0%nat) 0 0.
Definition ex_rsp : spy_rw_buffer_t := SpyRwBuffer [1%nat] 0 0 64 (Some 1%nat) (Some 1%nat) 0 0.
Definition ex_file : spy_file_t := SpyFile 77 1 2 0 0.

Lemma ex_image : chunk_image 200 ex_disk ex_chunk [].
Proof. split; try (by vm_compute); by eexists. Qed.
Lemma ex_request_wf : buf_wf ex_mem ex_request.
Proof.
  split; cbn; try (by vm_compute).
  - by apply (bool_decide_unpack _).
  - repeat constructor; by eexists.
  - exists [], []. by vm_compute.
  - exists [], []. by vm_compute.
Qed.
Lemma ex_rsp_wf : buf_wf ex_mem ex_rsp.
Proof.
  split; cbn; try (by vm_compute).
  - by apply (bool_decide_unpack _).
  - repeat constructor; by eexists.
  - exists [], []. by vm_compute.
  - exists [], []. by vm_compute.
Qed.
Lemma ex_ready : write_ready ex_mem ex_request ex_file ex_chunk.
Proof. split; [apply ex_request_wf|]. by vm_compute. Qed.

(** A superblock written by [spy_fill_superblock] is accepted by
    [spy_parse_chunk_superblock], which restores every persistent field of the
    chunk and raises [max_chunk_id] to its id; conversely the parser accepts no
    55-byte block other than the one the writer produces for the fields it
    restored (so magic, fields and checksum all have to agree). *)
Theorem superblock_roundtrip c0 c m :
  chunk_fits c ->
  exists sb, spy_fill_superblock c = Ret sb /\ zlen sb = SUPERBLOCK_SIZE /\
    spy_parse_chunk_superblock sb c0 m
    = Ret (same_persistent c0 c, if m <? chunk_id c then chunk_id c else m) /\
    forall sb' c' m', zlen sb' = SUPERBLOCK_SIZE ->
      spy_parse_chunk_superblock sb' c0 m = Ret (c', m') ->
      spy_fill_superblock c' = Ret sb'.
Proof.
  intros Hf. exists (sb_bytes c). rewrite fill_superblock_ok, parse_fill_superblock by done.
  split_and!; try done. intros sb' c' m' Hl H.
  apply parse_superblock_inv in H as (-> & _); [|done]. apply fill_superblock_ok.
Qed.

Lemma superblock_roundtrip_witness :
  exists sb, spy_fill_superblock ex_chunk = Ret sb /\ zlen sb = SUPERBLOCK_SIZE /\
    spy_parse_chunk_superblock sb ex_chunk 0
    = Ret (same_persistent ex_chunk ex_chunk, 1) /\
    forall sb' c' m', zlen sb' = SUPERBLOCK_SIZE ->
      spy_parse_chunk_superblock sb' ex_chunk 0 = Ret (c', m') ->
      spy_fill_superblock c' = Ret sb'.
Proof. apply (superblock_roundtrip ex_chunk ex_chunk 0). by vm_compute. Defined.

(** C14: for every sequence of kernel answers, a [spy_write_file] that returns has
    either stored the file (retcode 0: header, checksum and the request's bytes
    follow the earlier records, which are intact, and the chunk's counters have
    moved past it), or reports -1 with the chunk's fields unchanged and a chunk
    file that still holds the same superblock and records. *)
Theorem write_file_all_or_nothing cs disk c rs now h b f script res :
  chunk_image cs disk c rs -> write_ready h b f c ->
  spy_write_file script now h f c (current_offset c) disk b = Ret res ->
  write_stored cs now h b f c rs res \/
  (w_retcode res = -1 /\ w_chunk res = c /\ chunk_image cs (w_disk res) c rs).
Proof. intros I Hw H. by eapply write_file_sound in H as [_ ?]. Qed.

Lemma write_file_all_or_nothing_witness :
  exists res, spy_write_file [Xfer 30; Xfer 1; SysErr EOTHER] 5 ex_mem ex_file ex_chunk 55 ex_disk
      ex_request = Ret res /\
    (write_stored 200 5 ex_mem ex_request ex_file ex_chunk [] res \/
     (w_retcode res = -1 /\ w_chunk res = ex_chunk /\ chunk_image 200 (w_disk res) ex_chunk [])).
Proof.
  eexists. split; [vm_compute; reflexivity|].
  eapply (write_file_all_or_nothing 200 ex_disk ex_chunk [] 5 ex_mem ex_request ex_file
    [Xfer 30; Xfer 1; SysErr EOTHER]).
  - exact ex_image.
  - exact ex_ready.
  - vm_compute. reflexivity.
Defined.

(** C10: when the kernel makes progress (short transfers and interruptions
    allowed), [spy_write_file] of a file that fits returns 0 and the chunk file
    is then the image of the updated chunk with exactly one more record; reading
    back any record of it, old or new, into an empty response buffer with room
    returns 0 and delivers exactly the stored bytes. *)
Theorem write_then_read cs disk c rs now h b f script h2 b2 script2 pre r post :
  chunk_image cs disk c rs -> write_ready h b f c -> 0 <= now < 2 ^ 64 ->
  Forall benign script -> f_size f + FILE_META_SIZE + SUPERBLOCK_SIZE <= xfers script ->
  rs ++ [new_rec now f (ztake (f_size f) (content h b))] = pre ++ r :: post ->
  buf_wf h2 b2 -> content h2 b2 = [] ->
  f_size (fr_file r) + FILE_META_SIZE <= cap b2 - write_pos b2 ->
  Forall benign script2 -> f_size (fr_file r) + FILE_META_SIZE <= xfers script2 ->
  exists res h' b', spy_write_file script now h f c (current_offset c) disk b = Ret res /\
    w_retcode res = 0 /\ chunk_image cs (w_disk res) (w_chunk res) (pre ++ r :: post) /\
    spy_read_file script2 h2 (rec_entry (chunk_id c) pre r) (w_disk res) b2
      = Ret (ReadRes 0 (Some (fr_file r)) h' b') /\
    content h' b' = fr_data r.
Proof.
  intros I Hw Hn Hs Hx Er W2 C2 Hcap Hs2 Hx2.
  destruct (write_file_complete cs disk c rs now h b f script I Hw Hn Hs Hx)
    as (res & E & H0 & _ & I2). rewrite Er in I2.
  destruct (read_file_ok _ _ _ _ _ _ (chunk_id c) h2 b2 script2 I2 W2 C2 Hcap Hs2 Hx2)
    as (h' & b' & Hr & _ & Hc & _). by exists res, h', b'.
Qed.

Lemma write_then_read_witness :
  let script := [SysErr EINTR] ++ replicate 90 (Xfer 1) in
  let r := new_rec 5 ex_file (map byte_of_Z [8; 7]) in
  exists res h' b', spy_write_file script 5 ex_mem ex_file ex_chunk 55 ex_disk ex_request = Ret res /\
    w_retcode res = 0 /\ chunk_image 200 (w_disk res) (w_chunk res) [r] /\
    spy_read_file script ex_mem (rec_entry 1 [] r) (w_disk res) ex_rsp
      = Ret (ReadRes 0 (Some (fr_file r)) h' b') /\
    content h' b' = map byte_of_Z [8; 7].
Proof.
  intros script r.
  apply (write_then_read 200 ex_disk ex_chunk [] 5 ex_mem ex_request ex_file script ex_mem ex_rsp
    script [] r []); try exact ex_image; try exact ex_ready; try exact ex_rsp_wf;
    try (by vm_compute); by repeat constructor.
Defined.

(** C16: a [spy_read_file] that reports success has delivered the bytes stored
    behind the header at the index entry's offset, and both the file id and the
    Adler-32 checksum in that header match; this holds for any file contents and
    any kernel answers, so a corrupt body is never returned as success. *)
Theorem read_file_integrity script h e disk b res :
  buf_wf h b -> content h b = [] -> FILE_META_SIZE <= ie_size e < 2 ^ 31 ->
  ie_size e <= cap b - write_pos b -> 0 <= ie_offset e -> zlen disk < 2 ^ 63 ->
  spy_read_file script h e disk b = Ret res -> r_retcode res = 0 ->
  exists file, parse_file_meta (zsub (ie_offset e) FILE_META_SIZE disk) = Ret file /\
    r_file res = Some file /\ f_fid file = ie_fid e /\
    content (r_heap res) (r_rsp_body res)
      = zsub (ie_offset e + FILE_META_SIZE) (ie_size e - FILE_META_SIZE) disk /\
    f_checksum file = adler_ref 0 (content (r_heap res) (r_rsp_body res)).
Proof. apply read_file_sound. Qed.

(** The chunk file of the examples after one write. *)
Definition ex_disk1 : list byte :=
  sb_bytes (grown ex_chunk 32) ++ enc_rec (new_rec 5 ex_file (map byte_of_Z [8; 7]))
    ++ replicate 113 b00.

Lemma read_file_integrity_witness :
  exists res file, spy_read_file [Xfer 99] ex_mem (SpyFileIndexEntry 1 77 55 32) ex_disk1 ex_rsp
      = Ret res /\ r_file res = Some file /\
    f_checksum file = adler_ref 0 (content (r_heap res) (r_rsp_body res)).
Proof.
  destruct (spy_read_file [Xfer 99] ex_mem (SpyFileIndexEntry 1 77 55 32) ex_disk1 ex_rsp)
    as [res| | | |] eqn:E; [|vm_compute in E; discriminate E..].
  assert (H0 : r_retcode res = 0) by (vm_compute in E; injection E as <-; reflexivity).
  destruct (read_file_integrity [Xfer 99] ex_mem (SpyFileIndexEntry 1 77 55 32) ex_disk1 ex_rsp res)
    as (file & _ & Hf & _ & _ & Hc);
    [exact ex_rsp_wf|by vm_compute..|exact E|exact H0|].
  exists res, file. auto.
Defined.

End StoreFileProps.
