(* ===== verification/StoreData.v ===== *)
(** * StoreData: the records of a chunk file

    What [spy_write_file] of [chunkserver/spy_store.c] does to the file of a chunk
    whose superblock may be torn: it puts one record at its offset, or something
    shorter when it fails, and touches nothing else but the superblock.  A record
    that is whole is read back by [spy_read_file]. *)

From S2P Require Import Prelude Utils RwBuffer Adler32 Store StoreFile.
Import BigEndian.

(** The record [r] is at offset [o] of the file. *)
Record record_at (disk : list byte) (o : Z) (r : file_rec) : Prop := {
  ra_bytes : zsub o (zlen (enc_rec r)) disk = enc_rec r;
  ra_from : SUPERBLOCK_SIZE <= o;
  ra_end : o + zlen (enc_rec r) <= zlen disk;
  ra_fits : rec_fits r
}.

(** Writes before and after a record leave it alone. *)
Lemma record_at_put disk o r o' d :
  record_at disk o r -> 0 <= o' -> o' + zlen d <= o \/ o + zlen (enc_rec r) <= o' <= zlen disk ->
  record_at (zput o' d disk) o r.
Proof.
  intros [R1 R2 R3 R4] Ho Hd. pose proof (zlen_nonneg d). pose proof (zlen_nonneg (enc_rec r)).
  split; try done.
  - destruct Hd as [Hd|Hd]; [rewrite zsub_zput_after by lia|rewrite zsub_zput_before by slia]; done.
  - rewrite zlen_put_any by lia. lia.
Qed.

(** The chunk's fields after a successful write, at their widths. *)
Definition advanced (c : spy_chunk_t) (f : spy_file_t) : spy_chunk_t :=
  SpyChunk (c_fd c) (c_path c) (chunk_id c) (u32 (files_alloc c + 1)) (u32 (files_count c + 1))
    (u64 (current_offset c + u32 (f_size f + FILE_META_SIZE)))
    (u64 (avail_space c - u32 (f_size f + FILE_META_SIZE))) (c_file_size c).

(** A file of [f_size] bytes can be written at [o]; a size past [INT_MAX] makes the
    code give up after the header. *)
Record writable (f : spy_file_t) (o : Z) (disk : list byte) : Prop := {
  wr_size : 0 <= f_size f < 2 ^ 32;
  wr_from : SUPERBLOCK_SIZE <= o <= zlen disk;
  wr_room : f_size f < 2 ^ 31 -> o + FILE_META_SIZE + f_size f <= zlen disk;
  wr_len : zlen disk < 2 ^ 32
}.

Opaque spy_fill_file_meta spy_write_chunk_superblock write_body_loop spy_pwrite_loop.

Lemma fill_meta_inv now h f b m f' b1 :
  buf_wf h b -> 0 <= f_size f -> spy_fill_file_meta now h f b FILE_META_SIZE = Ret (m, f', b1) ->
  f_size f <= zlen (content h b) /\
  let d := ztake (f_size f) (content h b) in
  m = meta_bytes (fr_file (new_rec now f d)) /\ f' = summed f d /\ buf_wf h b1 /\ content h b1 = content h b.
Proof.
  intros W Hs H. assert (Hle : f_size f <= zlen (content h b)).
  { Transparent spy_fill_file_meta. unfold spy_fill_file_meta, spy_buffer_adler32 in H. Opaque spy_fill_file_meta.
    apply bind_Ret_inv in H as (u & _ & H). apply bind_Ret_inv in H as ([sum b'] & H & _).
    apply bind_Ret_inv in H as (u' & H & _). rewrite (content_len _ _ W).
    unfold c_assert in H. destruct (Z.leb_spec (f_size f) (write_pos b - read_pos b)); [lia|done]. }
  split; [done|]. destruct (fill_file_meta_ok now h f b W) as (b' & E & W' & Hq); [done|].
  cbv zeta in E. rewrite E in H. injection H as <- <- <-. split_and!; try done.
  by apply same_queue_content.
Qed.

(** The three ways [spy_write_file] ends: the record is in the file and the
    superblock is rewritten, in full or in part; or an error, after which only
    bytes from [o] on have changed. *)
Lemma write_file_disk script now h f c o disk b res :
  buf_wf h b -> writable f o disk ->
  spy_write_file script now h f c o disk b = Ret res ->
  f_size f <= zlen (content h b) /\
  let d := ztake (f_size f) (content h b) in
  w_file res = summed f d /\
  ((w_retcode res = 0 /\ f_size f < 2 ^ 31 /\ w_chunk res = advanced c f /\
    exists k, 0 <= k <= SUPERBLOCK_SIZE /\
      w_disk res = zput 0 (ztake k (sb_bytes (w_chunk res))) (zput o (enc_rec (new_rec now f d)) disk)) \/
   (w_retcode res = -1 /\ w_chunk res = c /\
    exists d', w_disk res = zput o d' disk /\ o + zlen d' <= Z.max (zlen disk) (o + FILE_META_SIZE))).
Proof.
  intros W [Hs Ho Hr Hl] H. unfold spy_write_file in H.
  apply bind_Ret_inv in H as ([[m f'] b1] & Em & H).
  destruct (fill_meta_inv _ _ _ _ _ _ _ W (proj1 Hs) Em) as (Hle & -> & -> & W1 & C1). cbv zeta.
  set (d := ztake (f_size f) (content h b)) in *. split; [done|].
  assert (Hz : zlen d = f_size f) by (unfold d; zl).
  apply bind_Ret_inv in H as ([[n d1] s1] & Ew & H). unfold spy_pwrite in Ew.
  apply spy_pwrite_loop_any in Ew; [|sizes; lia]. rewrite zlen_meta in Ew.
  destruct Ew as [[-> ->]|(-> & k & Hk & ->)]; last first.
  { change (i32 (-1)) with (-1) in H. destruct (Z.eqb_spec (-1) FILE_META_SIZE); [done|]. cbn [negb] in H.
    inv_ret. split; [done|]. right. split_and!; try done. eexists. split; [done|].
    rewrite zlen_take, zlen_meta. slia. }
  rewrite Z.add_0_l, (i32_small FILE_META_SIZE), Z.eqb_refl in H by done. cbn [negb] in H. cbv zeta in H.
  change (f_size (summed f d)) with (f_size f) in H.
  apply bind_Ret_inv in H as ([[[r d2] b2] s2] & Eb & H).
  destruct (decide (f_size f < 2 ^ 31)) as [Hsm|Hbig]; last first.
  { assert (Hi : i32 (f_size f) < 0).
    { unfold i32.
      assert (E : (f_size f + 2 ^ 31) mod 2 ^ 32 = f_size f + 2 ^ 31 - 2 ^ 32).
      { symmetry. apply Z.mod_unique with 1; lia. }
      rewrite E. lia. }
    Transparent write_body_loop. replace (Z.to_nat (i32 (f_size f))) with O in Eb by lia. cbn in Eb.
    Opaque write_body_loop. destruct (Z.ltb_spec 0 (i32 (f_size f))); [lia|]. injection Eb as <- <- <- <-.
    destruct (Z.eqb_spec (i32 (f_size f)) 0); [lia|]. cbn [negb] in H. inv_ret.
    split; [done|]. right. split_and!; try done. eexists. split; [done|]. rewrite zlen_meta. lia. }
  specialize (Hr Hsm). rewrite i32_small, u64_small in Eb by slia.
  apply write_body_sound in Eb; [|done|slia|by rewrite C1|slia| |].
  2: { rewrite zlen_put_any, zlen_meta by slia. slia. }
  2: { rewrite zlen_put_any, zlen_meta by slia. slia. }
  rewrite C1 in Eb. fold d in Eb.
  destruct Eb as [(-> & -> & W2 & _)|(-> & d' & Hd' & ->)]; last first.
  { inv_ret. split; [done|]. right. split_and!; try done.
    exists (meta_bytes (fr_file (new_rec now f d)) ++ d').
    rewrite <- zput_split_any by slia. split; [done|]. rewrite zlen_app, zlen_meta. slia. }
  change (negb (0 =? 0)) with false in H. cbv iota in H.
  apply bind_Ret_inv in H as ([[rr d3] s3] & Es & H). fold (advanced c f) in Es, H.
  apply pwrite_superblock in Es as (k & Hk & -> & _); [|rewrite !zlen_put_any; rewrite ?zlen_put_any; slia].
  inv_ret. split; [done|]. left. split_and!; try done. exists k. split; [done|].
  apply (f_equal (zput 0 _)). exact (zput_record_split now f d disk o ltac:(slia) ltac:(slia)).
Qed.

(** ** A chunk and its file *)

(** The records [rs] fill the file of chunk [ch] from the superblock to the write
    position. *)
Record log_on (ch : spy_chunk_t) (disk : list byte) (rs : list file_rec) : Prop := {
  lo_offset : current_offset ch = SUPERBLOCK_SIZE + zlen (enc_recs rs);
  lo_bytes : zsub SUPERBLOCK_SIZE (zlen (enc_recs rs)) disk = enc_recs rs;
  lo_count : files_count ch = zlen rs /\ files_alloc ch = zlen rs;
  lo_fits : Forall rec_fits rs
}.

(** A chunk's counters and its file agree. *)
Record chunk_on (ch : spy_chunk_t) (disk : list byte) : Prop := {
  co_log : exists rs, log_on ch disk rs;
  co_id : 0 <= chunk_id ch < 2 ^ 64;
  co_avail : 0 < avail_space ch;
  co_disk : current_offset ch + avail_space ch <= zlen disk;
  co_size : current_offset ch + avail_space ch <= DEF_CHUNK_SIZE;
  co_len : zlen disk < 2 ^ 32
}.

(** File [fid] is the record [r] at offset [o]. *)
Record stored_in (ch : spy_chunk_t) (disk : list byte) (fid o size : Z) (r : file_rec) : Prop := {
  st_log : exists pre post, log_on ch disk (pre ++ r :: post) /\ o = SUPERBLOCK_SIZE + zlen (enc_recs pre);
  st_fid : f_fid (fr_file r) = fid;
  st_size : size = zlen (enc_rec r)
}.

Lemma stored_record ch disk fid o size r :
  chunk_on ch disk -> stored_in ch disk fid o size r -> record_at disk o r.
Proof.
  intros [_ _ C1 C2 _ _] [(pre & post & [L1 L2 _ L3] & ->) _ _].
  rewrite enc_recs_app, enc_recs_cons in L1, L2. rewrite !zlen_app in L1. zlen_pos.
  apply Forall_app in L3 as [_ [L3 _]%Forall_cons]. split; [|slia|slia|done].
  rewrite <- (zsub_sub SUPERBLOCK_SIZE (zlen (enc_recs pre ++ enc_rec r ++ enc_recs post))) by (rewrite ?zlen_app; slia).
  rewrite L2. apply zsub_middle.
Qed.

Lemma rec_fits_size ch disk pre r post :
  log_on ch disk (pre ++ r :: post) -> f_size (fr_file r) = zlen (fr_data r).
Proof. intros [_ _ _ L]. by apply Forall_app in L as [_ [[] _]%Forall_cons]. Qed.

(** The log of a chunk file is determined: records delimit themselves. *)
Lemma enc_recs_inj rs rs' :
  Forall rec_fits rs -> Forall rec_fits rs' -> enc_recs rs = enc_recs rs' -> rs = rs'.
Proof.
  assert (Hne : forall r rs, enc_recs (r :: rs) <> []).
  { intros r l H. apply (f_equal zlen) in H. rewrite enc_recs_cons, zlen_app, zlen_enc_rec, zlen_nil in H. zlen_pos. slia. }
  revert rs'. induction rs as [|r rs IH]; intros [|r' rs'] F F' E; [done|by destruct (Hne r' rs')|by destruct (Hne r rs)|].
  apply Forall_cons in F as [Hr F], F' as [Hr' F']. rewrite !enc_recs_cons in E. unfold enc_rec in E.
  rewrite <- !app_assoc in E.
  assert (Em : meta_bytes (fr_file r) = meta_bytes (fr_file r')).
  { apply (f_equal (ztake FILE_META_SIZE)) in E. by rewrite !ztake_exact in E. }
  rewrite Em in E. apply app_inv_head in E.
  assert (Ef : fr_file r = fr_file r').
  { pose proof (rec_parse r Hr) as P. rewrite Em, rec_parse in P by done. by injection P as ->. }
  pose proof (rf_size _ Hr) as Z1. pose proof (rf_size _ Hr') as Z2. rewrite Ef in Z1.
  assert (Ed : fr_data r = fr_data r').
  { apply (f_equal (ztake (zlen (fr_data r)))) in E. by rewrite !ztake_exact in E by lia. }
  rewrite Ed in E. apply app_inv_head in E. rewrite (IH rs') by done. by destruct r, r'; cbn in *; subst.
Qed.

Lemma log_unique ch disk rs rs' : log_on ch disk rs -> log_on ch disk rs' -> rs = rs'.
Proof.
  intros [A1 A2 _ A3] [B1 B2 _ B3]. apply enc_recs_inj; [done..|].
  rewrite <- A2, <- B2. f_equal. lia.
Qed.

Definition file_fits (f : spy_file_t) : Prop :=
  0 <= f_fid f < 2 ^ 64 /\ 0 <= f_ref f < 2 ^ 16 /\ 0 <= f_size f < 2 ^ 32.

(** What a write may do to a chunk and its file. *)
Record chunk_step (ch : spy_chunk_t) (disk : list byte) (ch' : spy_chunk_t) (disk' : list byte) : Prop := {
  cs_on : chunk_on ch' disk';
  cs_id : chunk_id ch' = chunk_id ch;
  cs_log : forall rs, log_on ch disk rs -> exists rs', log_on ch' disk' (rs ++ rs')
}.

Lemma chunk_step_stored ch disk ch' disk' fid o size r :
  chunk_step ch disk ch' disk' -> stored_in ch disk fid o size r -> stored_in ch' disk' fid o size r.
Proof.
  intros [_ _ C] [(pre & post & L & Ho) S2 S3]. split; try done. apply C in L as [rs' L].
  rewrite <- app_assoc in L. by exists pre, (post ++ rs').
Qed.

(** The clock's value is stored in 64 bits. *)
Lemma new_rec_now now f d : enc_rec (new_rec now f d) = enc_rec (new_rec (u64 now) f d).
Proof.
  unfold enc_rec, meta_bytes. cbn [fr_file new_rec f_timestamp f_fid f_ref f_size f_checksum fr_data].
  do 5 f_equal. rewrite !write_to_8_be. pose proof (be_enc_dec (be_enc 8 now)) as E.
  by rewrite length_be_enc, be_dec_enc in E.
Qed.

(** A log with a record written at its end, and a part of the superblock. *)
Lemma log_append ch disk rs ch' r sb :
  log_on ch disk rs -> rec_fits r -> current_offset ch + zlen (enc_rec r) <= zlen disk -> zlen sb <= SUPERBLOCK_SIZE ->
  current_offset ch' = current_offset ch + zlen (enc_rec r) ->
  files_count ch' = files_count ch + 1 -> files_alloc ch' = files_alloc ch + 1 ->
  log_on ch' (zput 0 sb (zput (current_offset ch) (enc_rec r) disk)) (rs ++ [r]).
Proof.
  intros [L1 L2 [L3 L4] L5] Hr Hl Hs E1 E2 E3. zlen_pos. split.
  - rewrite E1, L1, enc_recs_app, enc_recs_one, zlen_app. lia.
  - rewrite enc_recs_app, enc_recs_one, zlen_app, zsub_zput_after by slia. rewrite zsub_app by slia.
    rewrite zsub_zput_before, L2, <- L1 by slia. f_equal. apply zsub_zput_same; slia.
  - rewrite E2, E3, L3, L4, zlen_app. done.
  - apply Forall_app. split; [done|by constructor].
Qed.

Lemma write_chunk_step script now h f c disk b res :
  buf_wf h b -> chunk_on c disk -> file_fits f -> u32 (f_size f + FILE_META_SIZE) < avail_space c ->
  spy_write_file script now h f c (current_offset c) disk b = Ret res ->
  chunk_step c disk (w_chunk res) (w_disk res) /\
  (exists d, w_file res = summed f d) /\
  (w_retcode res = 0 -> exists r, fr_data r = ztake (f_size f) (content h b) /\
     stored_in (w_chunk res) (w_disk res) (f_fid f) (current_offset c) (u32 (f_size f + FILE_META_SIZE)) r).
Proof.
  intros W [[rs L] Ci C2 C3 C4 C5] (F1 & F2 & F3) Hroom H. pose proof (lo_offset _ _ _ L) as C1. zlen_pos.
  assert (Hsmall : f_size f < 2 ^ 31 -> u32 (f_size f + FILE_META_SIZE) = f_size f + FILE_META_SIZE).
  { intros. apply u32_small. slia. }
  apply write_file_disk in H as (Hle & Hf & Hres); [|done|split; slia].
  set (d := ztake (f_size f) (content h b)) in *. assert (Hd : zlen d = f_size f) by (unfold d; zl).
  cut (chunk_step c disk (w_chunk res) (w_disk res) /\
    (w_retcode res = 0 -> exists r, fr_data r = d /\
       stored_in (w_chunk res) (w_disk res) (f_fid f) (current_offset c) (u32 (f_size f + FILE_META_SIZE)) r));
    [intros [? ?]; eauto|]. clear Hf.
  destruct Hres as [(-> & Hs & -> & k & Hk & ->)|(-> & -> & d' & -> & Hd')]; last first.
  { assert (Lk : forall l, log_on c disk l -> log_on c (zput (current_offset c) d' disk) l).
    { intros l [A1 A2 A3 A4]. split; try done. rewrite zsub_zput_before by slia. done. }
    split; [|done]. split; [split|done|]; rewrite ?zlen_put_any by slia; try slia; try done.
    - exists rs. by apply Lk.
    - intros l Hl. exists []. rewrite app_nil_r. by apply Lk. }
  specialize (Hsmall Hs). rewrite new_rec_now. set (r := new_rec (u64 now) f d).
  assert (Hfit : rec_fits r).
  { split; try done; cbn; [slia|apply u64_range]. }
  assert (Hz : zlen (enc_rec r) = f_size f + FILE_META_SIZE) by (rewrite zlen_enc_rec; cbn; lia).
  assert (Hsb : zlen (ztake k (sb_bytes (advanced c f))) = k) by (rewrite zlen_take, zlen_sb_bytes; lia).
  set (sb := ztake k _) in *.
  assert (Hl : zlen (zput 0 sb (zput (current_offset c) (enc_rec r) disk)) = zlen disk).
  { rewrite !zlen_put_any; rewrite ?zlen_put_any; slia. }
  assert (Ho : current_offset (advanced c f) = current_offset c + (f_size f + FILE_META_SIZE)).
  { cbn. rewrite Hsmall. apply u64_small. slia. }
  assert (Ha : avail_space (advanced c f) = avail_space c - (f_size f + FILE_META_SIZE)).
  { cbn. rewrite Hsmall. apply u64_small. slia. }
  assert (La : forall l, log_on c disk l ->
    log_on (advanced c f) (zput 0 sb (zput (current_offset c) (enc_rec r) disk)) (l ++ [r])).
  { intros l Hlog. pose proof (count_bound l) as Hcb. pose proof (lo_offset _ _ _ Hlog) as Hol.
    destruct (lo_count _ _ _ Hlog) as [Hc1 Hc2]. zlen_pos.
    apply log_append; try done; [slia|slia|slia|..]; cbn; apply u32_small; slia. }
  split; [split; [split|done|]|]; rewrite ?Ho, ?Ha; try slia; try done.
  - exists (rs ++ [r]). by apply La.
  - intros l Hlog. exists [r]. by apply La.
  - intros _. exists r. split; [done|]. split; [|done|slia]. exists rs, []. split; [by apply La|done].
Qed.
