(* ===== verification/StoreDump.v ===== *)
(** * StoreDump: sending a chunk file to a client

    [spy_dump_chunkfile] of [chunkserver/spy_store.c]: what the client receives,
    and what a partial write of the header does. *)

From S2P Require Import Prelude Utils Store.

(** ** Dumping a chunk file *)

Lemma zlen_dump_header op c : zlen (dump_rsp_header op c) = 6.
Proof. unfold dump_rsp_header. rewrite !zlen_app, !zlen_write_1, zlen_write_4. lia. Qed.

(** The body loop sends the rest of the file when [sendfile64] makes progress. *)
Lemma dump_body_ok script disk out off :
  Forall (fun r => is_xfer r && benign r) script -> 0 <= off <= zlen disk -> zlen disk < 2 ^ 63 ->
  zlen disk - off <= zlen script ->
  exists rest, dump_body_loop script disk out off (zlen disk) = Ret (true, out ++ zdrop off disk, rest).
Proof.
  revert out off. induction script as [|r script IH]; intros out off HF Hoff Hb Hn.
  - rewrite zlen_nil in Hn. replace off with (zlen disk) by lia. cbn. rewrite Z.eqb_refl. cbn.
    rewrite zdrop_all, app_nil_r by lia. eauto.
  - rewrite zlen_cons in Hn. apply Forall_cons in HF as [Hr HF]. destruct r as [n|]; [|done]. cbn in Hr.
    cbn. destruct (Z.eqb_spec off (zlen disk)) as [->|Hne]; cbn.
    + rewrite zdrop_all, app_nil_r by lia. eauto.
    + apply Is_true_true in Hr. rewrite u64_small by lia. set (k := Z.min n (zlen disk - off)).
      assert (Hk : 0 < k <= zlen disk - off) by lia.
      assert (Hd : zlen (zsub off k disk) = k) by (rewrite zlen_sub; lia). rewrite Hd.
      destruct (IH (out ++ zsub off k disk) (off + k) HF ltac:(lia) Hb ltac:(lia)) as [rest ->].
      exists rest. rewrite <- app_assoc. do 4 f_equal. unfold zsub.
      rewrite <- zdrop_drop by lia. apply ztake_drop.
Qed.

(** A write of the whole header ends its loop. *)
Lemma dump_header_whole hdr script n :
  zlen hdr = 6 -> 6 <= n -> dump_header_loop (Xfer n :: script) hdr [] 0 6 = Ret (true, hdr, script).
Proof.
  intros Hh Hn. cbn. rewrite Hh. change (0 <? 6) with true. change (u64 (6 - 0)) with 6. cbn.
  rewrite Z.min_r by lia. rewrite zsub_all by lia. rewrite Hh. by destruct script.
Qed.

(** One round of the loop that takes [n] of the [6 - 2 * sent] bytes it offers. *)
Lemma dump_header_round hdr script out sent n :
  zlen hdr = 6 -> 0 <= sent <= 3 -> 0 <= n <= 6 - 2 * sent ->
  dump_header_loop (Xfer n :: script) hdr out sent (6 - sent)
  = dump_header_loop script hdr (out ++ zsub sent n hdr) (sent + n) (6 - (sent + n)).
Proof.
  intros Hh Hs Hn. cbn. destruct (Z.ltb_spec 0 (6 - sent)); [|lia].
  rewrite u64_small by lia. destruct (Z.ltb_spec (zlen hdr) (sent + (6 - sent - sent))); [lia|].
  rewrite Z.min_l by lia. assert (E : zlen (zsub sent n hdr) = n) by (rewrite zlen_sub; lia).
  rewrite E. by replace (6 - sent - n) with (6 - (sent + n)) by lia.
Qed.

(** The socket takes no more than it is offered. *)
Lemma dump_header_clamp hdr script out sent total n :
  0 < total -> dump_header_loop (Xfer n :: script) hdr out sent total
  = dump_header_loop (Xfer (Z.min n (u64 (total - sent))) :: script) hdr out sent total.
Proof. intros H. cbn. destruct (Z.ltb_spec 0 total); [|lia]. by rewrite <- Z.min_assoc, Z.min_id. Qed.

(** Past the middle of the header the length wraps around. *)
Lemma dump_header_wrapped hdr r script out sent :
  zlen hdr = 6 -> 3 < sent < 6 -> dump_header_loop (r :: script) hdr out sent (6 - sent) = Undef.
Proof.
  intros Hh Hs. cbn. destruct (Z.ltb_spec 0 (6 - sent)); [|lia].
  assert (E : u64 (6 - sent - sent) = 6 - sent - sent + 2 ^ 64).
  { unfold u64. rewrite <- (Z_mod_plus_full _ 1). apply Z.mod_small. lia. }
  rewrite E. destruct (Z.ltb_spec (zlen hdr) (sent + (6 - sent - sent + 2 ^ 64))); [done|lia].
Qed.

(** At the middle it is zero and the loop spins. *)
Lemma dump_header_spins hdr k out :
  zlen hdr = 6 -> dump_header_loop (replicate k (Xfer 6)) hdr out 3 3 = Wait.
Proof.
  intros Hh. revert out. induction k as [|k IH]; intros out; [done|].
  cbn. change (0 <? 3) with true. change (u64 (3 - 3)) with 0. rewrite Hh. cbn.
  rewrite zsub_nil by lia. rewrite app_nil_r. apply IH.
Qed.

(** The socket refuses the header or takes it in one write. *)
Definition header_whole (script : list sysret) : Prop :=
  match script with Xfer n :: _ => 6 <= n | _ => True end.

Lemma dump_body_safe script disk out off size : dump_body_loop script disk out off size <> Undef.
Proof.
  revert out off. induction script as [|[n|e] script IH]; intros out off; cbn;
    destruct (negb _); done || apply IH.
Qed.

Lemma dump_whole_safe script op c disk : header_whole script -> spy_dump_chunkfile script op c disk <> Undef.
Proof.
  pose proof (zlen_dump_header op c) as Hh. intros H. unfold spy_dump_chunkfile.
  assert (R : forall out script', ('(ok, out, _) ← dump_body_loop script' disk out 0 (c_file_size c);
    Ret (if (ok : bool) then 0 else -1, out)) <> Undef).
  { intros out script'. pose proof (dump_body_safe script' disk out 0 (c_file_size c)) as B.
    by destruct (dump_body_loop script' disk out 0 _) as [[[]]| | | |]. }
  destruct script as [|[n|e] script]; [done| |].
  - rewrite dump_header_whole by done. apply R.
  - cbn. rewrite Hh. by change (u64 (6 - 0)) with 6.
Qed.

Module StoreDumpProps.

(** C38: [spy_dump_chunkfile] sends the six header bytes and then exactly the chunk
    file when the socket takes the header in one write.  When it takes only part
    of it, the loop's [total - sent] counts the part twice: after three bytes it
    offers none and loops for ever, however often the socket is ready; after any
    other part the next length wraps around and the write runs past the header. *)
Theorem dump_needs_whole_header script op c disk n :
  c_file_size c = zlen disk -> zlen disk < 2 ^ 63 -> zlen disk <= zlen script ->
  Forall (fun r => is_xfer r && benign r) script -> 1 <= n <= 5 ->
  spy_dump_chunkfile (Xfer 6 :: script) op c disk = Ret (0, dump_rsp_header op c ++ disk) /\
  (n = 3 -> forall k, spy_dump_chunkfile (Xfer n :: replicate k (Xfer 6)) op c disk = Wait) /\
  (n <> 3 -> spy_dump_chunkfile (Xfer n :: replicate 2 (Xfer 6)) op c disk = Undef).
Proof.
  intros Hf Hb Hl HF Hn. pose proof (zlen_dump_header op c) as Hh.
  unfold spy_dump_chunkfile. split_and!.
  - rewrite dump_header_whole by done || lia. rewrite bind_Ret. cbn [negb]. rewrite Hf.
    destruct (dump_body_ok script disk (dump_rsp_header op c) 0 HF) as [rest ->]; try lia.
    { pose proof (zlen_nonneg disk). lia. }
    by rewrite zdrop_neg by lia.
  - intros -> k. pose proof (dump_header_round _ (replicate k (Xfer 6)) [] 0 3 Hh) as E.
    change (6 - 0) with 6 in E.
    rewrite E by lia. by rewrite dump_header_spins.
  - intros Hne. pose proof (dump_header_round _ (replicate 2 (Xfer 6)) [] 0 n Hh) as E.
    change (6 - 0) with 6 in E.
    rewrite E by lia. cbn [replicate]. destruct (decide (n <= 3)) as [Hs|Hs].
    + rewrite dump_header_clamp by lia. rewrite u64_small by lia.
      rewrite Z.min_r by lia. replace (6 - (0 + n) - (0 + n)) with (6 - 2 * n) by lia.
      rewrite dump_header_round by done || lia. by rewrite dump_header_wrapped by done || lia.
    + by rewrite dump_header_wrapped by done || lia.
Qed.

(** A chunk file of three bytes. *)
Definition ex_dump : spy_chunk_t := SpyChunk 7 [] 1 0 0 55 145 3.

Lemma dump_needs_whole_header_witness :
  spy_dump_chunkfile (Xfer 6 :: [Xfer 7; Xfer 7; Xfer 7]) 40 ex_dump (replicate 3 b00)
    = Ret (0, dump_rsp_header 40 ex_dump ++ replicate 3 b00) /\
  spy_dump_chunkfile [Xfer 4; Xfer 6; Xfer 6] 40 ex_dump (replicate 3 b00) = Undef.
Proof.
  destruct (dump_needs_whole_header ([Xfer 7; Xfer 7; Xfer 7]) 40 ex_dump (replicate 3 b00) 4) as (H1 & _ & H3);
    [reflexivity|reflexivity|vm_compute; discriminate|repeat constructor|lia|].
  split; [exact H1|]. apply H3. lia.
Defined.

End StoreDumpProps.
