(* ===== verification/StoreRecover.v ===== *)
(** * StoreRecover: rebuilding the index from the chunk files

    The scan of a chunk file by [spy_parse_next_file] is shown to walk exactly
    the records of the file's image, whatever the records' sizes are relative to
    the parser's buffer, and [spy_create_or_recover_files] to rebuild the index
    of all of them.  [read] on a regular file is taken to return all the bytes
    asked for that the file has ([full]); what the parser does when it does not
    is shown by counterexample. *)

From S2P Require Import Prelude Utils RwBuffer Adler32 Store StoreFile.

(** ** The index as a finite map from file ids to entries *)

Section Index.
Implicit Types s : store_t.

Lemma find_none_forallb fid (l : list spy_file_index_entry_t) :
  List.find (fun e => ie_fid e =? fid) l = None <->
  forallb (fun e => negb (ie_fid e =? fid)) l = true.
Proof.
  induction l as [|e l IH]; cbn; [done|]. destruct (ie_fid e =? fid); [done|]. done.
Qed.

Lemma add_index_ok cid fid offset sz s :
  spy_lookup_file_index fid s = None ->
  exists i, let s' := with_file_index i s in
    spy_add_file_index cid fid offset sz s = Ret s' /\
    forall fid', spy_lookup_file_index fid' s'
      = if decide (fid' = fid) then Some (SpyFileIndexEntry cid fid offset sz)
        else spy_lookup_file_index fid' s.
Proof.
  intros H. unfold spy_add_file_index. cbv zeta. rewrite bind_assert by (by apply find_none_forallb).
  eexists. split; [done|]. intros fid'. unfold spy_lookup_file_index. cbn.
  destruct (decide (fid' = fid)) as [->|Hn].
  - rewrite cell_insert_eq. cbn. by rewrite Z.eqb_refl.
  - destruct (decide (fid' mod FILE_HASH_SIZE = fid mod FILE_HASH_SIZE)) as [E|E].
    + rewrite E, cell_insert_eq. cbn. destruct (Z.eqb_spec fid fid'); [congruence|done].
    + by rewrite cell_insert_ne.
Qed.

Lemma add_index_dup cid fid offset sz s e :
  spy_lookup_file_index fid s = Some e -> spy_add_file_index cid fid offset sz s = Assert.
Proof.
  intros H. unfold spy_add_file_index. cbv zeta.
  destruct (forallb _ _) eqn:E; [|done]. apply find_none_forallb in E.
  unfold spy_lookup_file_index in H. congruence.
Qed.

Lemma with_file_index_twice i i' s : with_file_index i' (with_file_index i s) = with_file_index i' s.
Proof. done. Qed.

End Index.

(** ** The parser *)

Section Parser.
Implicit Types (disk E : list byte) (pr : spy_file_parser_t) (script : list sysret) (s : store_t).

(** [read] on a regular file delivers all that is asked for. *)
Definition full (r : sysret) : bool :=
  match r with Xfer n => BUFFER_SIZE <=? n | SysErr _ => false end.

(** Between two calls the bytes still to be parsed, [E], are the buffered ones
    followed by the unread part of the file. *)
Record parser_inv disk E pr : Prop := {
  pi_stream : zsub (buf_pos pr) (buf_left pr) (pr_buf pr)
    ++ zsub (fpos pr) (chunk_offset pr - fpos pr) disk = E;
  pi_kpos : pr_kpos pr = fpos pr;
  pi_fpos : 0 <= fpos pr <= chunk_offset pr /\ chunk_offset pr < 2 ^ 31;
  pi_file : chunk_offset pr <= zlen disk;
  pi_size : buf_size pr = BUFFER_SIZE /\ zlen (pr_buf pr) <= BUFFER_SIZE;
  pi_buf : 0 <= buf_pos pr /\ 0 <= buf_left pr /\ buf_pos pr + buf_left pr <= zlen (pr_buf pr);
  pi_start : zlen E <= chunk_offset pr
}.

Lemma parser_len disk E pr :
  parser_inv disk E pr -> zlen E = buf_left pr + (chunk_offset pr - fpos pr).
Proof. intros [<- _ H3 H4 _ H6 _]. zl. Qed.

(** One [read] of [rsize] bytes into the buffer at [at_]. *)
Lemma parser_read_full r disk at_ rsize pr :
  full r -> pr_kpos pr = fpos pr -> 0 <= fpos pr ->
  buf_size pr = BUFFER_SIZE -> 0 <= at_ <= zlen (pr_buf pr) -> 0 <= rsize ->
  at_ + rsize <= BUFFER_SIZE -> fpos pr + rsize <= zlen disk ->
  parser_read r disk at_ rsize pr
  = Ret (rsize, SpyFileParser (fpos pr) (pr_chunk_id pr) (chunk_offset pr)
           (zput at_ (zsub (fpos pr) rsize disk) (pr_buf pr)) (buf_size pr) (buf_pos pr)
           (buf_left pr) (fpos pr + rsize)).
Proof.
  intros Hf Hk Hp Hb Ha Hr Hs Hd. unfold parser_read.
  destruct (Z.ltb_spec at_ 0); [lia|]. destruct (Z.ltb_spec (zlen (pr_buf pr)) at_); [lia|].
  destruct (Z.ltb_spec (buf_size pr) (at_ + rsize)); [lia|]. cbn [orb].
  destruct r as [n|]; [|done]. apply Is_true_eq_true, Z.leb_le in Hf. rewrite Hk.
  rewrite Z.min_r by lia. assert (Hz : zlen (zsub (fpos pr) rsize disk) = rsize) by zl.
  rewrite Hz. done.
Qed.

Lemma zput_end o d (l : list byte) : 0 <= o <= zlen l -> ztake (o + zlen d) (zput o d l) = ztake o l ++ d.
Proof.
  intros Ho. unfold zput. rewrite app_assoc. apply ztake_exact. zl.
Qed.

Lemma zsub_0 n (l : list byte) : zsub 0 n l = ztake n l.
Proof. unfold zsub. by rewrite zdrop_neg by lia. Qed.

(** The refill leaves at least a header in the buffer. *)
Lemma refill_ok script disk E pr :
  parser_inv disk E pr -> FILE_META_SIZE <= zlen E ->
  Forall full script -> chunk_offset pr - fpos pr <= zlen script ->
  exists pr' script', parser_refill script disk pr = Ret (Some tt, pr', script') /\
    parser_inv disk E pr' /\ FILE_META_SIZE <= buf_left pr' /\
    chunk_offset pr' = chunk_offset pr /\ pr_chunk_id pr' = pr_chunk_id pr /\
    Forall full script' /\ chunk_offset pr' - fpos pr' <= zlen script'.
Proof.
  intros I HE Hs Hx. pose proof (parser_len _ _ _ I) as Hl. unfold parser_refill.
  destruct (Z.ltb_spec (buf_left pr) FILE_META_SIZE) as [Hlt|]; last by exists pr, script.
  destruct I as [I1 I2 I3 I4 [I5 I6] I7 I8]. change FILE_META_SIZE with 30 in *.
  set (pend := zsub (buf_pos pr) (buf_left pr) (pr_buf pr)) in *.
  assert (Hpend : zlen pend = buf_left pr) by (unfold pend; zl).
  set (buf1 := if 0 <? buf_left pr then zput 0 pend (pr_buf pr) else pr_buf pr).
  assert (Hbuf : ztake (buf_left pr) buf1 = pend /\ buf_left pr <= zlen buf1 <= BUFFER_SIZE).
  { unfold buf1. case_b.
    - rewrite <- Hpend at 1. rewrite <- (Z.add_0_l (zlen pend)), zput_end, ztake_neg by lia.
      rewrite zlen_put by lia. split; [done|lia].
    - assert (zlen pend = 0) as Hp0 by lia. apply zlen_0_nil in Hp0. rewrite Hp0, ztake_neg by lia.
      split; [done|lia]. }
  assert (E1 : (if 0 <? buf_left pr then
         if zlen (pr_buf pr) <? buf_pos pr + buf_left pr then Undef
         else Ret (SpyFileParser (fpos pr) (pr_chunk_id pr) (chunk_offset pr)
                     (zput 0 pend (pr_buf pr))
                     (buf_size pr) (buf_pos pr) (buf_left pr) (pr_kpos pr))
       else Ret pr)
    = Ret (SpyFileParser (fpos pr) (pr_chunk_id pr) (chunk_offset pr) buf1
             (buf_size pr) (buf_pos pr) (buf_left pr) (pr_kpos pr))).
  { unfold buf1. case_b; [|by destruct pr].
    destruct (Z.ltb_spec (zlen (pr_buf pr)) (buf_pos pr + buf_left pr)); [lia|done]. }
  rewrite E1, bind_Ret. clear E1. cbv zeta. unfold with_pos. cbn [fpos chunk_offset buf_left buf_size].
  rewrite (u64_small (chunk_offset pr - fpos pr)), (i32_small (chunk_offset pr - fpos pr)) by lia.
  destruct (Z.leb_spec (chunk_offset pr - fpos pr) 0); [lia|].
  rewrite I5. change BUFFER_SIZE with 4194304 in *. rewrite (i32_small (4194304 - _)) by lia.
  set (rsize := if _ <? _ then _ else _).
  assert (Hrs : rsize = Z.min (chunk_offset pr - fpos pr) (4194304 - buf_left pr))
    by (unfold rsize; case_b; lia). clearbody rsize. rewrite u64_small by lia.
  destruct script as [|r script]; [zl|]. apply Forall_cons in Hs as [Hr Hs]. rewrite zlen_cons in Hx.
  rewrite parser_read_full; cbn [pr_kpos fpos buf_size pr_buf];
    change BUFFER_SIZE with 4194304 in *; try done; try lia.
  rewrite bind_Ret. destruct (Z.eqb_spec rsize 0); [lia|].
  cbn [fpos buf_pos buf_left chunk_offset pr_chunk_id pr_buf buf_size pr_kpos].
  rewrite (u64_small (fpos pr + rsize)), (i32_small (fpos pr + rsize)) by lia.
  rewrite (u64_small (buf_left pr + rsize)), (i32_small (buf_left pr + rsize)) by lia.
  do 2 eexists. split; [done|]. cbn. split_and!; try done; try lia.
  assert (Hz : zlen (zsub (fpos pr) rsize disk) = rsize) by zl.
  assert (Hzp : zlen (zput (buf_left pr) (zsub (fpos pr) rsize disk) buf1) <= 4194304 /\
    buf_left pr + rsize <= zlen (zput (buf_left pr) (zsub (fpos pr) rsize disk) buf1)).
  { unfold zput. zl. }
  split; cbn; change BUFFER_SIZE with 4194304; try done; try lia.
  rewrite zsub_0. rewrite <- Hz at 1. rewrite zput_end by lia. destruct Hbuf as [-> _].
  rewrite <- I1, <- app_assoc. f_equal.
  rewrite <- zsub_app by lia. f_equal. lia.
Qed.

(** Skipping a body that reaches past the buffer: [D] is what is left of it. *)
Lemma skip_body_ok script disk D E pr cur_fleft :
  zsub (fpos pr) (chunk_offset pr - fpos pr) disk = D ++ E -> zlen D = cur_fleft -> 0 < cur_fleft ->
  pr_kpos pr = fpos pr -> 0 <= fpos pr <= chunk_offset pr -> chunk_offset pr < 2 ^ 31 ->
  chunk_offset pr <= zlen disk -> buf_size pr = BUFFER_SIZE -> zlen (pr_buf pr) <= BUFFER_SIZE ->
  Forall full script -> chunk_offset pr - fpos pr <= zlen script ->
  exists pr' script', skip_body_loop script disk pr cur_fleft = Ret (Some tt, pr', script') /\
    parser_inv disk E pr' /\ chunk_offset pr' = chunk_offset pr /\ pr_chunk_id pr' = pr_chunk_id pr /\
    Forall full script' /\ chunk_offset pr' - fpos pr' <= zlen script'.
Proof.
  revert D pr cur_fleft. induction script as [|r script IH];
    intros D pr cur_fleft Hst HD Hc Hk Hp Ho Hf Hb Hbl Hs Hx.
  { apply (f_equal zlen) in Hst. rewrite zlen_nil in Hx. zl. }
  apply Forall_cons in Hs as [Hr Hs]. rewrite zlen_cons in Hx. cbn [skip_body_loop].
  assert (Hlen : chunk_offset pr - fpos pr = cur_fleft + zlen E)
    by (apply (f_equal zlen) in Hst; zl).
  destruct (Z.ltb_spec 0 cur_fleft); [|lia]. zlen_pos.
  rewrite (u64_small (chunk_offset pr - fpos pr)), (i32_small (chunk_offset pr - fpos pr)) by lia.
  destruct (Z.leb_spec (chunk_offset pr - fpos pr) 0); [lia|]. rewrite Hb.
  change BUFFER_SIZE with 4194304 in *. set (rsize := if _ <? _ then _ else _).
  assert (Hrs : rsize = Z.min (chunk_offset pr - fpos pr) 4194304)
    by (unfold rsize; case_b; lia). clearbody rsize. rewrite (u64_small rsize) by lia.
  rewrite parser_read_full; change BUFFER_SIZE with 4194304; try done; try lia.
  rewrite bind_Ret. destruct (Z.eqb_spec rsize 0); [lia|]. unfold with_pos. cbv zeta.
  cbn [fpos buf_pos buf_left chunk_offset pr_chunk_id pr_buf buf_size pr_kpos].
  rewrite (u64_small (fpos pr + rsize)), (i32_small (fpos pr + rsize)), (i32_small rsize),
    (u64_small cur_fleft) by lia.
  assert (Hz : zlen (zsub (fpos pr) rsize disk) = rsize) by zl.
  assert (Hzp : zlen (zput 0 (zsub (fpos pr) rsize disk) (pr_buf pr)) <= 4194304 /\
    rsize <= zlen (zput 0 (zsub (fpos pr) rsize disk) (pr_buf pr))) by (unfold zput; zl).
  assert (Hsplit : D ++ E = zsub (fpos pr) rsize disk
    ++ zsub (fpos pr + rsize) (chunk_offset pr - (fpos pr + rsize)) disk).
  { rewrite <- Hst, <- zsub_app by lia. f_equal. lia. }
  destruct (Z.ltb_spec rsize cur_fleft) as [Hlt|Hge].
  - rewrite u64_small, i32_small by lia.
    destruct (IH (zdrop rsize D) (SpyFileParser (fpos pr + rsize) (pr_chunk_id pr) (chunk_offset pr)
      (zput 0 (zsub (fpos pr) rsize disk) (pr_buf pr)) (buf_size pr) 0 0 (fpos pr + rsize))
      (cur_fleft - rsize)) as (pr' & s' & E' & HI & ?);
      cbn [fpos buf_size pr_buf chunk_offset pr_kpos]; change BUFFER_SIZE with 4194304;
      try done; try lia; [|zl|].
    + apply (f_equal (zdrop rsize)) in Hsplit. rewrite (zdrop_app_le rsize D) in Hsplit by lia.
      by rewrite zdrop_exact in Hsplit.
    + exists pr', s'. done.
  - rewrite i32_small by lia.
    assert (Hend : forall sc dk p, skip_body_loop sc dk p 0 = Ret (Some tt, p, sc)) by (by intros []).
    rewrite Hend. do 2 eexists. split; [done|]. cbn. split_and!; try done; try lia.
    split; cbn; change BUFFER_SIZE with 4194304; try done; try lia.
    assert (Hd : zdrop cur_fleft (D ++ E) = E) by (by apply zdrop_exact).
    rewrite Hsplit, zdrop_app_le in Hd by lia.
    assert (Ht : zsub cur_fleft (rsize - cur_fleft) (zput 0 (zsub (fpos pr) rsize disk) (pr_buf pr))
      = zdrop cur_fleft (zsub (fpos pr) rsize disk)).
    { unfold zput. rewrite ztake_neg, app_nil_l by lia. rewrite zsub_app_l by lia.
      unfold zsub at 1. apply ztake_all. zl. }
    rewrite Ht. exact Hd.
Qed.

(** The header fields the parser reads from a record at the front of [l]. *)
Lemma header_fields r l :
  rec_fits r ->
  spy_mach_read_from_8 (enc_rec r ++ l) = Ret (f_fid (fr_file r)) /\
  spy_mach_read_from_4 (zdrop (8 + 2) (enc_rec r ++ l)) = Ret (zlen (fr_data r)) /\
  spy_mach_read_from_8 (zdrop 4 (zdrop (8 + 2) (enc_rec r ++ l))) = Ret (f_checksum (fr_file r)).
Proof.
  intros [R1 R2 R3 R4 R5 R6]. pose proof (adler_ref_range 0 (fr_data r) reduced_split_0).
  unfold enc_rec, meta_bytes. rewrite <- !app_assoc. split_and!.
  - rewrite read_write_8, u64_small by lia. done.
  - rewrite (app_assoc (spy_mach_write_to_8 _) (spy_mach_write_to_2 _)), zdrop_exact by done.
    rewrite read_write_4, u32_small, R3 by slia. done.
  - rewrite (app_assoc (spy_mach_write_to_8 _) (spy_mach_write_to_2 _)), zdrop_exact by done.
    rewrite zdrop_exact, read_write_8, u64_small by (done || lia). done.
Qed.

(** A buffer prefix of the stream determines the reads that stay inside it. *)
Lemma read_prefix_8 l l' x :
  8 <= zlen l -> spy_mach_read_from_8 (l ++ l') = Ret x -> forall m, spy_mach_read_from_8 (l ++ m) = Ret x.
Proof.
  intros Hl H m. do 8 (destruct l as [|? l]; [zl|rewrite zlen_cons in Hl]). exact H.
Qed.
Lemma read_prefix_4 l l' x :
  4 <= zlen l -> spy_mach_read_from_4 (l ++ l') = Ret x -> forall m, spy_mach_read_from_4 (l ++ m) = Ret x.
Proof.
  intros Hl H m. do 4 (destruct l as [|? l]; [zl|rewrite zlen_cons in Hl]). exact H.
Qed.

Lemma header_fields_buffered r pend unread rest m :
  rec_fits r -> pend ++ unread = enc_rec r ++ rest -> FILE_META_SIZE <= zlen pend ->
  spy_mach_read_from_8 (pend ++ m) = Ret (f_fid (fr_file r)) /\
  spy_mach_read_from_4 (zdrop (8 + 2) (pend ++ m)) = Ret (zlen (fr_data r)) /\
  spy_mach_read_from_8 (zdrop 4 (zdrop (8 + 2) (pend ++ m))) = Ret (f_checksum (fr_file r)).
Proof.
  intros Hf HE Hl. destruct (header_fields r rest Hf) as (H1 & H2 & H3). rewrite <- HE in H1, H2, H3.
  change (8 + 2) with 10 in *. rewrite (zdrop_app_le 10) in H2, H3 |- * by slia.
  rewrite (zdrop_app_le 4) in H3 |- * by (sizes; zl). split_and!.
  - eapply read_prefix_8; [slia|exact H1].
  - eapply read_prefix_4; [sizes; zl|exact H2].
  - eapply read_prefix_8; [sizes; zl|exact H3].
Qed.

(** The body of the record in front, buffered or not, is skipped. *)
Lemma body_ok script disk r rest pr :
  parser_inv disk (enc_rec r ++ rest) pr -> rec_fits r -> FILE_META_SIZE <= buf_left pr ->
  Forall full script -> chunk_offset pr - fpos pr <= zlen script ->
  let pr2 := with_pos (fpos pr) (buf_pos pr + FILE_META_SIZE) (buf_left pr - FILE_META_SIZE) pr in
  let sz := zlen (fr_data r) in
  exists pr' script',
    (if u64 (buf_left pr2) <? sz then skip_body_loop script disk pr2 (i32 (u64 (sz - buf_left pr2)))
     else Ret (Some tt, with_pos (fpos pr2) (i32 (u64 (buf_pos pr2 + sz)))
                          (i32 (u64 (buf_left pr2 - sz))) pr2, script))
    = Ret (Some tt, pr', script') /\
    parser_inv disk rest pr' /\ chunk_offset pr' = chunk_offset pr /\
    pr_chunk_id pr' = pr_chunk_id pr /\ Forall full script' /\
    chunk_offset pr' - fpos pr' <= zlen script'.
Proof.
  intros I Hf Hl Hs Hx pr2 sz. pose proof (parser_len _ _ _ I) as Hlen.
  destruct I as [I1 I2 [I3 I3'] I4 [I5 I6] (I7 & I8 & I9) I10]. pose proof (rf_bound _ Hf) as Hb.
  rewrite zlen_app, zlen_enc_rec in Hlen.
  set (pend := zsub (buf_pos pr) (buf_left pr) (pr_buf pr)) in *.
  assert (Hpend : zlen pend = buf_left pr) by (unfold pend; zl).
  unfold pr2, with_pos in *. cbn [fpos buf_pos buf_left chunk_offset pr_chunk_id pr_buf buf_size pr_kpos].
  rewrite zlen_app, zlen_enc_rec in I10.
  sizes. change BUFFER_SIZE with 4194304 in *. zlen_pos.
  rewrite (u64_small (buf_left pr - 30)) by lia.
  destruct (Z.ltb_spec (buf_left pr - 30) sz) as [Hlt|Hge].
  - rewrite u64_small, i32_small by (unfold sz in *; lia).
    pose proof (skip_body_ok script disk (zdrop (buf_left pr - 30) (fr_data r)) rest pr2
      (sz - (buf_left pr - 30))) as Hsk. unfold pr2 in Hsk.
    cbn [fpos chunk_offset pr_kpos buf_size pr_buf pr_chunk_id] in Hsk.
    apply Hsk; change BUFFER_SIZE with 4194304; try done; try (unfold sz in *; lia); [|unfold sz in *; zl].
    apply (f_equal (zdrop (buf_left pr))) in I1. rewrite zdrop_exact in I1 by done.
    rewrite I1. unfold enc_rec. rewrite <- app_assoc, zdrop_app_ge by (rewrite zlen_meta; slia).
    rewrite zlen_meta. sizes. rewrite zdrop_app_le by (unfold sz in *; lia). done.
  - rewrite (u64_small (buf_pos pr + 30 + sz)), (i32_small (buf_pos pr + 30 + sz)),
      (u64_small (buf_left pr - 30 - sz)), (i32_small (buf_left pr - 30 - sz)) by (unfold sz in *; lia).
    do 2 eexists. split; [done|]. cbn. split_and!; try done.
    split; cbn; change BUFFER_SIZE with 4194304; try done; try (unfold sz in *; lia).
    apply (f_equal (zdrop (30 + sz))) in I1.
    rewrite (zdrop_exact (30 + sz) (enc_rec r)) in I1 by (rewrite zlen_enc_rec; slia).
    rewrite zdrop_app_le in I1 by (unfold sz in *; lia). rewrite <- I1. f_equal.
    unfold pend, zsub. rewrite zdrop_take, zdrop_drop by (unfold sz in *; lia).
    f_equal; [lia|]. f_equal. lia.
Qed.

(** One call parses one record and goes on to index it at its offset. *)
Lemma parse_next_step script disk r rest pr s :
  parser_inv disk (enc_rec r ++ rest) pr -> rec_fits r ->
  Forall full script -> chunk_offset pr - fpos pr <= zlen script ->
  exists pr' script',
    spy_parse_next_file script disk pr s =
      (s' ← spy_add_file_index (pr_chunk_id pr) (f_fid (fr_file r)) (chunk_offset pr - zlen (enc_rec r ++ rest))
              (f_size (fr_file r) + FILE_META_SIZE) s;
       Ret (1, pr', script', s')) /\
    parser_inv disk rest pr' /\ chunk_offset pr' = chunk_offset pr /\
    pr_chunk_id pr' = pr_chunk_id pr /\ Forall full script' /\ chunk_offset pr' - fpos pr' <= zlen script'.
Proof.
  intros I Hf Hs Hx. pose proof (parser_len _ _ _ I) as Hlen.
  rewrite zlen_app, zlen_enc_rec in Hlen. pose proof (rf_bound _ Hf) as Hb.
  pose proof (rf_size _ Hf) as Hsz. unfold spy_parse_next_file.
  replace ((chunk_offset pr <=? u64 (fpos pr)) && (buf_left pr =? 0)) with false; last first.
  { destruct (pi_fpos _ _ _ I) as [Hp Hp']. rewrite u64_small by lia. symmetry.
    apply andb_false_iff. sizes. zlen_pos.
    destruct (Z.leb_spec (chunk_offset pr) (fpos pr)); [right; apply Z.eqb_neq|left]; lia || done. }
  destruct (refill_ok script disk _ pr I) as (pr1 & s1 & -> & I1 & Hl & Ho & Hid & Hs1 & Hx1);
    [rewrite zlen_app, zlen_enc_rec; slia|done|done|].
  rewrite bind_Ret, bind_assert by (by apply Z.leb_le). cbv zeta.
  destruct (header_fields_buffered r (zsub (buf_pos pr1) (buf_left pr1) (pr_buf pr1))
    (zsub (fpos pr1) (chunk_offset pr1 - fpos pr1) disk) rest
    (zdrop (buf_left pr1) (zdrop (buf_pos pr1) (pr_buf pr1))) Hf (pi_stream _ _ _ I1))
    as (F1 & F2 & F3).
  { destruct (pi_buf _ _ _ I1) as (? & ? & ?). rewrite zlen_sub. slia. }
  unfold zsub in F1, F2, F3. rewrite ztake_drop in F1, F2, F3.
  rewrite F1, bind_Ret, F2, bind_Ret, F3, bind_Ret.
  destruct (pi_buf _ _ _ I1) as (B1 & B2 & B3). destruct (pi_size _ _ _ I1) as [_ B4].
  change BUFFER_SIZE with 4194304 in B4.
  rewrite (i32_small (buf_pos pr1 + _)), (i32_small (buf_left pr1 - _)) by slia.
  destruct (body_ok s1 disk r rest pr1 I1 Hf Hl Hs1 Hx1) as (pr2 & s2 & E2 & I2 & Ho2 & Hid2 & Hs2 & Hx2).
  cbv zeta in E2. rewrite E2, bind_Ret. pose proof (parser_len _ _ _ I2) as Hlen2.
  destruct (pi_fpos _ _ _ I2) as [P1 P2]. destruct (pi_buf _ _ _ I2) as (P3 & P4 & P5).
  pose proof (parser_len _ _ _ I1) as Hlen1. rewrite zlen_app, zlen_enc_rec in Hlen1.
  pose proof (pi_start _ _ _ I1) as P6. rewrite zlen_app, zlen_enc_rec in P6.
  rewrite u64_small, u32_small by slia. exists pr2, s2. split_and!; try done; try congruence.
  replace (fpos pr2 - zlen (fr_data r) - FILE_META_SIZE - buf_left pr2)
    with (chunk_offset pr - zlen (enc_rec r ++ rest)) by (rewrite zlen_app, zlen_enc_rec; lia).
  by rewrite Hid2, Hid, Hsz.
Qed.

(** ... which it can when the id is new. *)
Lemma parse_next_ok script disk r rest pr s :
  parser_inv disk (enc_rec r ++ rest) pr -> rec_fits r ->
  Forall full script -> chunk_offset pr - fpos pr <= zlen script ->
  spy_lookup_file_index (f_fid (fr_file r)) s = None ->
  exists pr' script' i, let s' := with_file_index i s in
    spy_parse_next_file script disk pr s = Ret (1, pr', script', s') /\
    parser_inv disk rest pr' /\ chunk_offset pr' = chunk_offset pr /\
    pr_chunk_id pr' = pr_chunk_id pr /\ Forall full script' /\
    chunk_offset pr' - fpos pr' <= zlen script' /\
    forall fid, spy_lookup_file_index fid s'
      = if decide (fid = f_fid (fr_file r))
        then Some (SpyFileIndexEntry (pr_chunk_id pr) (f_fid (fr_file r))
               (chunk_offset pr - zlen (enc_rec r ++ rest)) (f_size (fr_file r) + FILE_META_SIZE))
        else spy_lookup_file_index fid s.
Proof.
  intros I Hf Hs Hx Hn. destruct (parse_next_step script disk r rest pr s I Hf Hs Hx) as (pr' & s' & -> & H).
  destruct (add_index_ok (pr_chunk_id pr) (f_fid (fr_file r)) (chunk_offset pr - zlen (enc_rec r ++ rest))
    (f_size (fr_file r) + FILE_META_SIZE) s Hn) as (i & E & Hi). rewrite E, bind_Ret.
  exists pr', s', i. split; [done|]. by split_and!; try apply H.
Qed.

Definition rec_fids (rs : list file_rec) : list Z := map (fun r => f_fid (fr_file r)) rs.

(** [s'] is [s] with the records [rs], which start at [off], indexed. *)
Definition indexed (cid off : Z) (rs : list file_rec) s s' : Prop :=
  (forall pre r post, rs = pre ++ r :: post ->
    spy_lookup_file_index (f_fid (fr_file r)) s'
    = Some (SpyFileIndexEntry cid (f_fid (fr_file r)) (off + zlen (enc_recs pre))
              (f_size (fr_file r) + FILE_META_SIZE))) /\
  (forall fid, fid ∉ rec_fids rs -> spy_lookup_file_index fid s' = spy_lookup_file_index fid s).

Lemma indexed_nil cid off s : indexed cid off [] s s.
Proof. split; [|done]. intros [|] ? ? H; discriminate H. Qed.

Lemma indexed_cons cid off r rs s s1 s2 :
  f_fid (fr_file r) ∉ rec_fids rs ->
  (forall fid, spy_lookup_file_index fid s1
    = if decide (fid = f_fid (fr_file r))
      then Some (SpyFileIndexEntry cid (f_fid (fr_file r)) off (f_size (fr_file r) + FILE_META_SIZE))
      else spy_lookup_file_index fid s) ->
  indexed cid (off + zlen (enc_rec r)) rs s1 s2 -> indexed cid off (r :: rs) s s2.
Proof.
  intros Hn H1 [H2 H3]. split.
  - intros [|r0 pre] r' post E; injection E as -> E; [subst post|].
    + rewrite H3, H1, decide_True by done. change (enc_recs []) with (@nil byte).
      rewrite zlen_nil, Z.add_0_r. done.
    + subst rs. rewrite (H2 pre r' post eq_refl), enc_recs_cons, zlen_app. do 2 f_equal. lia.
  - intros fid Hf. cbn in Hf. apply not_elem_of_cons in Hf as [Hf1 Hf2].
    rewrite H3, H1, decide_False by done. done.
Qed.

(** The whole scan of an image. *)
Lemma parse_files_ok rs fuel script disk pr s :
  parser_inv disk (enc_recs rs) pr -> Forall rec_fits rs -> NoDup (rec_fids rs) ->
  (forall fid, fid ∈ rec_fids rs -> spy_lookup_file_index fid s = None) ->
  (length rs <= fuel)%nat -> Forall full script -> chunk_offset pr - fpos pr <= zlen script ->
  exists pr' i, parse_files_loop fuel script disk pr s = Ret (pr', with_file_index i s) /\
    fpos pr' = chunk_offset pr /\
    indexed (pr_chunk_id pr) (chunk_offset pr - zlen (enc_recs rs)) rs s (with_file_index i s).
Proof.
  revert fuel script pr s. induction rs as [|r rs IH];
    intros fuel script pr s I Hf Hnd Hfree Hfuel Hs Hx.
  - pose proof (parser_len _ _ _ I) as Hlen. change (enc_recs []) with (@nil byte) in Hlen.
    rewrite (@zlen_nil byte) in Hlen. destruct (pi_fpos _ _ _ I) as [P1 P2].
    destruct (pi_buf _ _ _ I) as (_ & P3 & _).
    assert (E : spy_parse_next_file script disk pr s = Ret (0, pr, script, s)).
    { unfold spy_parse_next_file. rewrite u64_small by lia.
      destruct (Z.leb_spec (chunk_offset pr) (fpos pr)); [|lia].
      destruct (Z.eqb_spec (buf_left pr) 0); [done|lia]. }
    exists pr, (file_index s). replace (with_file_index (file_index s) s) with s by (by destruct s).
    split; [|split; [lia|apply indexed_nil]]. destruct fuel; cbn [parse_files_loop];
      by rewrite E, bind_Ret.
  - rewrite enc_recs_cons in I. apply Forall_cons in Hf as [Hr Hf].
    cbn [rec_fids map] in Hnd. apply NoDup_cons in Hnd as [Hni Hnd].
    destruct (parse_next_ok script disk r (enc_recs rs) pr s I Hr Hs Hx)
      as (pr1 & s1 & i1 & E1 & I1 & Ho & Hid & Hs1 & Hx1 & Hi1);
      [apply Hfree; by left|]. cbv zeta in *.
    destruct fuel as [|fuel]; [cbn in Hfuel; lia|]. cbn [parse_files_loop].
    rewrite E1, bind_Ret. change (1 =? 0) with false. change (1 <? 0) with false.
    destruct (IH fuel s1 pr1 (with_file_index i1 s) I1 Hf Hnd) as (pr2 & i2 & E2 & Hp2 & Hin2);
      [|cbn in Hfuel; lia|done|done|].
    { intros fid Hin. rewrite Hi1, decide_False by (intros ->; done). apply Hfree. by right. }
    rewrite with_file_index_twice in *.
    exists pr2, i2. split; [exact E2|]. split; [congruence|].
    eapply (indexed_cons _ _ _ _ _ (with_file_index i1 s)); [done|exact Hi1|].
    rewrite <- Hid, enc_recs_cons, zlen_app, <- Ho.
    replace (chunk_offset pr1 - (zlen (enc_rec r) + zlen (enc_recs rs)) + zlen (enc_rec r))
      with (chunk_offset pr1 - zlen (enc_recs rs)) by lia. done.
Qed.

(** The ids of the records are different and new to the index. *)
Definition fids_new (rs : list file_rec) s : Prop :=
  NoDup (rec_fids rs) /\ forall fid, fid ∈ rec_fids rs -> spy_lookup_file_index fid s = None.

(** A record whose id is there already ends the scan. *)
Lemma parse_files_dup rs fuel script disk pr s :
  parser_inv disk (enc_recs rs) pr -> Forall rec_fits rs -> ~ fids_new rs s ->
  (length rs <= fuel)%nat -> Forall full script -> chunk_offset pr - fpos pr <= zlen script ->
  parse_files_loop fuel script disk pr s = Assert.
Proof.
  revert fuel script pr s. induction rs as [|r rs IH]; intros fuel script pr s I Hf Hnew Hfuel Hs Hx.
  { destruct Hnew. split; [constructor|]. by intros fid ?%not_elem_of_nil. }
  rewrite enc_recs_cons in I. apply Forall_cons in Hf as [Hr Hf].
  destruct fuel as [|fuel]; [cbn in Hfuel; lia|]. cbn [parse_files_loop].
  destruct (spy_lookup_file_index (f_fid (fr_file r)) s) as [e|] eqn:El.
  { destruct (parse_next_step script disk r (enc_recs rs) pr s I Hr Hs Hx) as (pr1 & s1 & -> & _).
    by rewrite (add_index_dup _ _ _ _ _ e) by done. }
  destruct (parse_next_ok script disk r (enc_recs rs) pr s I Hr Hs Hx El)
    as (pr1 & s1 & i1 & -> & I1 & Ho & Hid & Hs1 & Hx1 & Hi1). cbv zeta in *.
  rewrite bind_Ret. change (1 =? 0) with false. change (1 <? 0) with false. cbv iota.
  apply IH; try done; [|cbn in Hfuel; lia]. intros [N1 N2]. apply Hnew.
  assert (Hni : f_fid (fr_file r) ∉ rec_fids rs).
  { intros Hin. specialize (N2 _ Hin). by rewrite Hi1, decide_True in N2 by done. }
  split; [by constructor|]. intros fid [->|Hin]%elem_of_cons; [done|].
  specialize (N2 fid Hin). rewrite Hi1, decide_False in N2 by (by intros ->). done.
Qed.

End Parser.

(** ** Setting up one chunk *)

Section Setup.
Implicit Types (s : store_t) (c : spy_chunk_t).

(** Every address in a hash chain is a chunk of the heap. *)
Definition chains_ok s : Prop :=
  forall k p, p ∈ cell (chunk_index s) k -> exists c, chunk_heap s !! p = Some c.
Definition ids_of s : list Z :=
  omap (fun p => chunk_id <$> chunk_heap s !! p) (chunks s).
(** ... and is in the list of chunks. *)
Definition chains_listed s : Prop :=
  forall k p, p ∈ cell (chunk_index s) k -> p ∈ chunks s.

Lemma assert_chunk_fresh_ok h bucket id :
  (forall p, p ∈ bucket -> exists c, h !! p = Some c /\ chunk_id c <> id) ->
  assert_chunk_fresh h bucket id = Ret tt.
Proof.
  induction bucket as [|p bucket IH]; intros H; cbn; [done|].
  destruct (H p) as (c & -> & Hc); [by left|]. cbn. rewrite bind_assert.
  - apply IH. intros q Hq. apply H. by right.
  - by apply negb_true_iff, Z.eqb_neq.
Qed.

(** Adding a new chunk whose id is not in use. *)
Lemma add_new_chunk s c :
  chains_ok s -> chains_listed s -> chunk_id c ∉ ids_of s -> 0 <= n_chunks s < 2 ^ 31 - 1 ->
  let p := fresh (dom (chunk_heap s)) in
  let s1 := StoreT (<[p := c]> (chunk_heap s)) (chunks s) (chunk_index s) (n_chunks s)
              (max_chunk_id s) (file_index s) in
  exists s', spy_add_chunk p s1 = Ret s' /\ chains_ok s' /\ chains_listed s' /\
    chunks s' = p :: chunks s /\ chunk_heap s' = <[p := c]> (chunk_heap s) /\
    n_chunks s' = n_chunks s + 1 /\ max_chunk_id s' = max_chunk_id s /\
    file_index s' = file_index s.
Proof.
  intros Hc Hl Hid Hn p s1. unfold spy_add_chunk. cbn [chunk_heap s1].
  assert (Hp : p ∉ dom (chunk_heap s)) by apply is_fresh.
  assert (Hne : forall k q, q ∈ cell (chunk_index s) k -> q <> p).
  { intros k q Hq ->. destruct (Hc k p Hq) as [c' Hc']. apply Hp. by apply elem_of_dom_2 in Hc'. }
  rewrite lookup_insert_eq. cbn [c_deref]. rewrite bind_Ret. cbv zeta. cbn [chunk_index].
  rewrite assert_chunk_fresh_ok, bind_Ret; last first.
  { intros q Hq. destruct (Hc _ _ Hq) as [c' Hc']. exists c'.
    rewrite lookup_insert_ne by (symmetry; by eapply Hne). split; [done|]. intros E. apply Hid.
    unfold ids_of. apply list_elem_of_omap. exists q. split; [by eapply Hl|]. by rewrite Hc', <- E. }
  eexists. split; [done|].
  split_and!; cbn; try done; [| |rewrite i32_small; lia].
  - intros k q. cbn [chunk_heap chunk_index]. intros Hq.
    destruct (decide (q = p)) as [->|Hqp]; [rewrite lookup_insert_eq; eauto|].
    rewrite lookup_insert_ne by done.
    destruct (decide (chunk_id c mod CHUNK_HASH_SIZE = k)) as [E|E].
    + rewrite E, cell_insert_eq in Hq. apply elem_of_cons in Hq as [?|Hq]; [done|eauto].
    + rewrite cell_insert_ne in Hq by done. eauto.
  - intros k q. cbn [chunks chunk_index]. intros Hq.
    destruct (decide (chunk_id c mod CHUNK_HASH_SIZE = k)) as [E|E].
    + rewrite E, cell_insert_eq in Hq. apply elem_of_cons in Hq as [->|Hq]; [by left|right; eauto].
    + rewrite cell_insert_ne in Hq by done. right. eauto.
Qed.

(** What setting up one chunk file adds to the store. *)
Record chunk_added (cid : Z) (path : list byte) c (rs : list file_rec) s s' : Prop := {
  ca_chains : chains_ok s' /\ chains_listed s';
  ca_chunk : exists p c', (p ∉ dom (chunk_heap s)) /\ chunks s' = (p :: chunks s) /\
    chunk_heap s' = <[p := c']> (chunk_heap s) /\ c_path c' = path /\ c' = same_persistent c' c;
  ca_count : n_chunks s' = n_chunks s + 1;
  ca_max : max_chunk_id s' = Z.max (max_chunk_id s) cid;
  ca_files : indexed cid SUPERBLOCK_SIZE rs s s'
}.

Lemma indexed_ext cid off rs s s1 s' s2 :
  file_index s1 = file_index s -> file_index s2 = file_index s' ->
  indexed cid off rs s s' -> indexed cid off rs s1 s2.
Proof. unfold indexed, spy_lookup_file_index. intros -> ->. done. Qed.

Opaque spy_parse_chunk_superblock parse_files_loop.

(** Setting up a chunk whose superblock is whole comes to the scan of its records. *)
Lemma setup_chunk_scan cs cs' disk c rs script fd path s :
  chunk_image cs disk c rs -> Forall full script -> current_offset c <= zlen script -> 0 < fd ->
  exists c1 pr script',
    spy_setup_chunk cs' script fd path disk s =
      ('(parser, s) ← parse_files_loop (length disk) script' disk pr
                        (with_max_chunk_id (Z.max (max_chunk_id s) (chunk_id c)) s);
       if u64 (fpos parser) <? current_offset c then Exit
       else let p := fresh (dom (chunk_heap s)) in
         spy_add_chunk p (StoreT (<[p := c1]> (chunk_heap s)) (chunks s) (chunk_index s) (n_chunks s)
                            (max_chunk_id s) (file_index s))) /\
    c1 = same_persistent c1 c /\ c_path c1 = path /\
    (parser_inv disk (enc_recs rs) pr /\ chunk_offset pr = current_offset c /\ pr_chunk_id pr = chunk_id c) /\
    (length rs <= length disk)%nat /\ Forall full script' /\ chunk_offset pr - fpos pr <= zlen script'.
Proof.
  intros I Hs Hx Hfd. pose proof (image_fits _ _ _ _ I) as Hfit.
  pose proof (img_len _ _ _ _ I) as Hlen. pose proof (img_size _ _ _ _ I) as Hcs.
  pose proof (img_offset _ _ _ _ I) as Ho. destruct (img_avail _ _ _ _ I) as [Hv Hv0].
  destruct (img_disk _ _ _ _ I) as [tail Ed].
  unfold spy_setup_chunk. rewrite !bind_assert by (apply negb_true_iff, Z.eqb_neq || apply Z.leb_le; lia).
  destruct script as [|r script]; [rewrite zlen_nil in Hx; slia|].
  apply Forall_cons in Hs as [Hr Hs]. rewrite zlen_cons in Hx.
  destruct r as [n|]; [|done]. apply Is_true_eq_true, Z.leb_le in Hr.
  change BUFFER_SIZE with 4194304 in Hr. cbn [read_superblock_loop].
  assert (Esb : zsub 0 (Z.min n SUPERBLOCK_SIZE) disk = sb_bytes c).
  { rewrite zsub_0, Z.min_r, Ed by slia. by apply ztake_exact. }
  rewrite Esb. change (zlen (sb_bytes c) <=? 0) with false. rewrite bind_Ret.
  rewrite parse_fill_superblock, bind_Ret by done. cbv zeta.
  set (c1 := same_persistent _ c). set (m := if max_chunk_id s <? _ then _ else _).
  set (pr := spy_alloc_file_parser c1 SUPERBLOCK_SIZE BUFFER_SIZE (zlen (sb_bytes c))).
  assert (Hm : m = Z.max (max_chunk_id s) (chunk_id c)) by (unfold m; case_b; lia). clearbody m. subst m.
  exists c1, pr, script. split; [done|]. split; [done|]. split; [done|]. split; [|split; [|split; [done|cbn; slia]]].
  - split; [|done]. unfold pr, spy_alloc_file_parser, c1. split; cbn; try done; try slia.
    rewrite zsub_nil, app_nil_l, Ho by lia.
    replace (SUPERBLOCK_SIZE + zlen (enc_recs rs) - SUPERBLOCK_SIZE) with (zlen (enc_recs rs)) by lia.
    rewrite Ed, <- (zlen_sb_bytes c). apply zsub_middle.
  - pose proof (count_bound rs). unfold zlen in *. sizes. lia.
Qed.

Lemma setup_chunk_ok cs cs' disk c rs script fd path s :
  chunk_image cs disk c rs -> NoDup (rec_fids rs) ->
  (forall fid, fid ∈ rec_fids rs -> spy_lookup_file_index fid s = None) ->
  chains_ok s -> chains_listed s -> chunk_id c ∉ ids_of s -> 0 <= n_chunks s < 2 ^ 31 - 1 ->
  Forall full script -> current_offset c <= zlen script -> 0 < fd ->
  exists s', spy_setup_chunk cs' script fd path disk s = Ret s' /\
    chunk_added (chunk_id c) path c rs s s'.
Proof.
  intros I Hnd Hfree Hc Hl Hid Hn Hs Hx Hfd. pose proof (image_fits _ _ _ _ I) as Hfit.
  pose proof (img_len _ _ _ _ I) as Hlen. pose proof (img_size _ _ _ _ I) as Hcs.
  pose proof (img_offset _ _ _ _ I) as Ho. destruct (img_avail _ _ _ _ I) as [Hv Hv0].
  destruct (setup_chunk_scan cs cs' disk c rs script fd path s I Hs Hx Hfd)
    as (c1 & pr & script' & -> & Hc1 & Hpath & (Ipr & Hpo & Hpid) & Hfuel & Hs' & Hx').
  set (m := Z.max _ _).
  destruct (parse_files_ok rs (length disk) script' disk pr (with_max_chunk_id m s) Ipr
    (img_recs _ _ _ _ I) Hnd Hfree) as (pr' & i & E & Hp & Hin); [done..|].
  rewrite E, bind_Ret. rewrite Hp, Hpo. rewrite u64_small, Z.ltb_irrefl by slia.
  assert (Hcid : chunk_id c1 = chunk_id c) by by rewrite Hc1.
  destruct (add_new_chunk (with_file_index i (with_max_chunk_id m s)) c1)
    as (s' & E' & C1 & C2 & C3 & C4 & C5 & C6 & C7); [done|done|by rewrite Hcid|done|]. cbv zeta in E' |- *. rewrite E'.
  exists s'. split; [done|]. split; try done.
  - exists (fresh (dom (chunk_heap s))), c1. split_and!; try done. apply is_fresh.
  - eapply (indexed_ext _ _ _ (with_max_chunk_id m s)); [done|exact C7|].
    rewrite Hpid, Hpo in Hin. by replace SUPERBLOCK_SIZE with (current_offset c - zlen (enc_recs rs)) by lia.
Qed.

(** A record whose id is there already makes setting up the chunk fail. *)
Lemma setup_chunk_dup cs cs' disk c rs script fd path s :
  chunk_image cs disk c rs -> ~ fids_new rs s ->
  Forall full script -> current_offset c <= zlen script -> 0 < fd ->
  spy_setup_chunk cs' script fd path disk s = Assert.
Proof.
  intros I Hnew Hs Hx Hfd.
  destruct (setup_chunk_scan cs cs' disk c rs script fd path s I Hs Hx Hfd)
    as (c1 & pr & script' & -> & _ & _ & (Ipr & _) & Hfuel & Hs' & Hx').
  by rewrite (parse_files_dup rs) by (done || apply I).
Qed.

End Setup.

(** ** The data directory *)

Section Directory.
Context (cfg : store_config) (dir : list byte).

(** A directory entry holding the image of a chunk with the given records. *)
Record recoverable (e : dir_entry) (c : spy_chunk_t) (rs : list file_rec) : Prop := {
  rc_reg : d_reg e = true;
  rc_name : spy_check_filename_format cfg (d_name e) = 0;
  rc_path : zlen (dir ++ slash :: d_name e) < 512;
  rc_image : chunk_image (cfg_chunk_size cfg) (d_disk e) c rs;
  rc_full : Forall full (d_script e);
  rc_script : current_offset c <= zlen (d_script e);
  rc_fd : 0 < d_fd e
}.

Abbreviation found := (dir_entry * spy_chunk_t * list file_rec)%type.
Definition found_ids (L : list found) : list Z := map (fun x => chunk_id x.1.2) L.
Definition found_fids (L : list found) : list Z := concat (map (fun x => rec_fids x.2) L).

(** The store knows exactly the chunks and files of [L]. *)
Record recovered (L : list found) (s : store_t) : Prop := {
  rv_chains : chains_ok s /\ chains_listed s;
  rv_listed : forall p, p ∈ chunks s -> p ∈ dom (chunk_heap s);
  rv_heap : forall p c', chunk_heap s !! p = Some c' ->
    p ∈ chunks s /\ exists e c rs, (e, c, rs) ∈ L /\ c' = same_persistent c' c;
  rv_ids : ids_of s = rev (found_ids L);
  rv_count : n_chunks s = zlen L;
  rv_max : Forall (fun i => i <= max_chunk_id s) (found_ids L);
  rv_files : forall e c rs pre r post, (e, c, rs) ∈ L -> rs = pre ++ r :: post ->
    spy_lookup_file_index (f_fid (fr_file r)) s = Some (rec_entry (chunk_id c) pre r);
  rv_only : forall fid, fid ∉ found_fids L -> spy_lookup_file_index fid s = None
}.

Definition empty_store : store_t := StoreT ∅ [] ∅ 0 0 ∅.

Lemma empty_chains : chains_ok empty_store /\ chains_listed empty_store.
Proof.
  split; intros k p Hp; cbn in Hp; unfold cell in Hp; rewrite lookup_empty in Hp; set_solver.
Qed.

Lemma recovered_empty : recovered [] empty_store.
Proof. split; try done; [apply empty_chains|cbn; set_solver..]. Qed.

Lemma ids_of_insert s s' p c :
  (forall q, q ∈ chunks s -> q ∈ dom (chunk_heap s)) -> p ∉ dom (chunk_heap s) ->
  chunks s' = p :: chunks s -> chunk_heap s' = <[p := c]> (chunk_heap s) ->
  ids_of s' = chunk_id c :: ids_of s.
Proof.
  intros Hd Hp Hc Hh. unfold ids_of. rewrite Hc, Hh. cbn [omap list_omap].
  rewrite lookup_insert_eq. cbn. f_equal. apply list_omap_ext.
  apply Forall_Forall2_diag, Forall_forall. intros q Hq.
  rewrite lookup_insert_ne; [done|]. intros ->. by apply Hp, Hd.
Qed.

Lemma recovered_snoc L s s' e c rs path :
  recovered L s -> chunk_added (chunk_id c) path c rs s s' ->
  NoDup (found_fids (L ++ [(e, c, rs)])) -> recovered (L ++ [(e, c, rs)]) s'.
Proof.
  intros R A Hnd. destruct A as [A1 (p & c' & A2 & A3 & A4 & A5 & A6) A7 A8 [A9 A10]].
  assert (Hid : chunk_id c' = chunk_id c) by (rewrite A6; done).
  unfold found_fids in Hnd. rewrite map_app, concat_app in Hnd. cbn in Hnd.
  rewrite app_nil_r in Hnd. apply NoDup_app in Hnd as (_ & Hnd & _).
  split; try done.
  - intros q. rewrite A3, A4. rewrite dom_insert. intros Hq.
    apply elem_of_cons in Hq as [->|Hq]; apply elem_of_union; [left; by apply elem_of_singleton|right].
    by apply (rv_listed _ _ R).
  - intros q x. rewrite A3, A4. destruct (decide (p = q)) as [<-|Hne].
    + rewrite lookup_insert_eq. intros [= <-]. split; [by left|]. exists e, c, rs. split; [|done].
      apply elem_of_app. right. by left.
    + rewrite lookup_insert_ne by done. intros Hq. destruct (rv_heap _ _ R q x Hq) as (H1 & e0 & c0 & rs0 & H2 & H3).
      split; [by right|]. exists e0, c0, rs0. split; [|done]. apply elem_of_app. by left.
  - rewrite (ids_of_insert s s' p c') by (done || apply (rv_listed _ _ R)).
    unfold found_ids. rewrite map_app, rev_app_distr, (rv_ids _ _ R), Hid. done.
  - rewrite A7, (rv_count _ _ R), zlen_app. done.
  - unfold found_ids. rewrite map_app. apply Forall_app. split.
    + eapply Forall_impl; [apply (rv_max _ _ R)|]. cbn. intros. lia.
    + constructor; [cbn; lia|constructor].
  - intros e0 c0 rs0 pre r post Hin E. apply elem_of_app in Hin as [Hin|Hin].
    + rewrite A10; [by eapply (rv_files _ _ R)|]. intros Hr. apply (Hnd (f_fid (fr_file r))); [|done].
      apply list_elem_of_In, in_concat. exists (rec_fids rs0). split.
      * apply in_map_iff. exists (e0, c0, rs0). split; [done|]. by apply list_elem_of_In.
      * rewrite E. unfold rec_fids. rewrite map_app. apply in_or_app. right. by left.
    + apply list_elem_of_singleton in Hin. injection Hin as -> -> ->. by apply (A9 pre r post).
  - intros fid Hf. unfold found_fids in Hf. rewrite map_app, concat_app in Hf. cbn in Hf.
    rewrite app_nil_r in Hf. apply not_elem_of_app in Hf as [Hf1 Hf2].
    rewrite A10 by done. by apply (rv_only _ _ R).
Qed.

Lemma scan_dir_ok L2 L1 s :
  recovered L1 s -> Forall (fun x => recoverable x.1.1 x.1.2 x.2) L2 ->
  NoDup (found_ids (L1 ++ L2)) -> NoDup (found_fids (L1 ++ L2)) -> zlen (L1 ++ L2) < 2 ^ 31 - 1 ->
  exists s', scan_dir cfg dir (map (fun x => x.1.1) L2) s = Ret s' /\ recovered (L1 ++ L2) s'.
Proof.
  revert L1 s. induction L2 as [|[[e c] rs] L2 IH]; intros L1 s R Hg Hi Hf Hl.
  { exists s. by rewrite app_nil_r. }
  apply Forall_cons in Hg as [[G1 G2 G3 G4 G5 G6 G7] Hg]. cbn [fst snd] in *.
  assert (Hf' : NoDup (found_fids L1 ++ rec_fids rs ++ found_fids L2)).
  { unfold found_fids in *. by rewrite map_app, concat_app in Hf. }
  assert (Hi' : NoDup (found_ids L1 ++ chunk_id c :: found_ids L2)).
  { unfold found_ids in *. by rewrite map_app in Hi. }
  rewrite zlen_app, zlen_cons in Hl. cbn [map fst scan_dir]. rewrite G1, G2.
  change (negb (0 =? 0)) with false. rewrite bind_assert by (by apply Z.ltb_lt).
  destruct (setup_chunk_ok (cfg_chunk_size cfg) (cfg_chunk_size cfg) (d_disk e) c rs (d_script e)
    (d_fd e) (dir ++ slash :: d_name e) s G4) as (s1 & -> & A); try done.
  - apply NoDup_app in Hf' as (_ & _ & Hf'). by apply NoDup_app in Hf' as (? & _ & _).
  - intros fid Hin. apply (rv_only _ _ R). intros Hin1.
    apply NoDup_app in Hf' as (_ & Hf' & _). apply (Hf' fid Hin1). by apply elem_of_app; left.
  - apply (rv_chains _ _ R).
  - apply (rv_chains _ _ R).
  - rewrite (rv_ids _ _ R). intros Hin. apply list_elem_of_In, in_rev, list_elem_of_In in Hin.
    apply NoDup_app in Hi' as (_ & Hi' & _). apply (Hi' _ Hin). by left.
  - rewrite (rv_count _ _ R). zlen_pos. lia.
  - rewrite bind_Ret. replace (L1 ++ (e, c, rs) :: L2) with ((L1 ++ [(e, c, rs)]) ++ L2) in *
      by (by rewrite <- app_assoc).
    apply IH; [|done|done|done|rewrite !zlen_app, zlen_cons, zlen_nil; lia].
    eapply recovered_snoc; [done|exact A|]. unfold found_fids in *.
    rewrite map_app, concat_app in Hf. by apply NoDup_app in Hf as (? & _ & _).
Qed.

(** Recovery of a whole directory. *)
Lemma recover_ok envs L :
  L <> [] -> Forall (fun x => recoverable x.1.1 x.1.2 x.2) L ->
  NoDup (found_ids L) -> NoDup (found_fids L) -> zlen L < 2 ^ 31 - 1 ->
  exists s, spy_create_or_recover_files cfg dir (Some (map (fun x => x.1.1) L)) envs empty_store
      = Ret s /\ recovered L s.
Proof.
  intros Hne Hg Hi Hf Hl.
  destruct (scan_dir_ok L [] empty_store recovered_empty Hg Hi Hf Hl) as (s & Hs & R).
  exists s. split; [|done]. unfold spy_create_or_recover_files. rewrite Hs, bind_Ret.
  destruct (chunks s) eqn:E; [|done]. exfalso. pose proof (rv_ids _ _ R) as Hids.
  unfold ids_of in Hids. rewrite E in Hids. cbn in Hids.
  destruct L as [|x L]; [done|]. cbn in Hids. symmetry in Hids. by apply app_nil in Hids as [_ ?].
Qed.

End Directory.

(** ** Properties *)

Module StoreRecoverProps.

(** C11: start-up on a data directory of valid chunk images (any number of chunks,
    records of any size, distinct chunk ids and file ids) returns with an index
    that maps every stored file's id to its chunk, offset and length, and no
    other id to anything; the chunk list, its count and [max_chunk_id] agree. *)
Theorem recover_directory cfg dir envs L :
  L <> [] -> Forall (fun x => recoverable cfg dir x.1.1 x.1.2 x.2) L ->
  NoDup (found_ids L) -> NoDup (found_fids L) -> zlen L < 2 ^ 31 - 1 ->
  exists s, spy_create_or_recover_files cfg dir (Some (map (fun x => x.1.1) L)) envs empty_store
      = Ret s /\ recovered L s.
Proof. apply recover_ok. Qed.

(** A directory with one chunk that holds one file. *)
Definition ex_cfg : store_config := StoreConfig 200 1 1 [].
Definition ex_chunk1 : spy_chunk_t := grown StoreFileProps.ex_chunk 32.
Definition ex_rec : file_rec := new_rec 5 StoreFileProps.ex_file (map byte_of_Z [8; 7]).
Definition ex_entry : dir_entry :=
  DirEntry true (chunk_filename 1 1) 3 StoreFileProps.ex_disk1 (replicate 100 (Xfer 4194304)).

Lemma ex_rec_fits : rec_fits ex_rec.
Proof. split; by vm_compute. Qed.
Lemma ex_image1 : chunk_image 200 StoreFileProps.ex_disk1 ex_chunk1 [ex_rec].
Proof.
  split; try (by vm_compute).
  - exists (replicate 113 b00). rewrite enc_recs_one. done.
  - constructor; [apply ex_rec_fits|constructor].
Qed.
Lemma ex_recoverable : recoverable ex_cfg [] ex_entry ex_chunk1 [ex_rec].
Proof.
  split; try (by vm_compute); [apply ex_image1|]. cbn. by repeat constructor.
Qed.

Lemma recover_directory_witness :
  exists s, spy_create_or_recover_files ex_cfg [] (Some [ex_entry]) [] empty_store = Ret s /\
    recovered [(ex_entry, ex_chunk1, [ex_rec])] s.
Proof.
  apply (recover_directory ex_cfg [] [] [(ex_entry, ex_chunk1, [ex_rec])]).
  - discriminate.
  - constructor; [exact ex_recoverable|constructor].
  - apply (bool_decide_unpack _). by vm_compute.
  - apply (bool_decide_unpack _). by vm_compute.
  - by vm_compute.
Defined.

(** C15: a file whose write was carried out survives a restart: after
    [spy_write_file] on a chunk image, setting the resulting file up in an empty
    store returns a store whose index finds the new file, at the offset the
    write used, and still finds every earlier file of the chunk. *)
Theorem written_file_survives_restart cs cs' disk c rs now h b f script script2 fd path :
  chunk_image cs disk c rs -> write_ready h b f c -> 0 <= now < 2 ^ 64 ->
  Forall benign script -> f_size f + FILE_META_SIZE + SUPERBLOCK_SIZE <= xfers script ->
  NoDup (f_fid f :: rec_fids rs) ->
  Forall full script2 -> cs <= zlen script2 -> 0 < fd ->
  exists res s, spy_write_file script now h f c (current_offset c) disk b = Ret res /\
    spy_setup_chunk cs' script2 fd path (w_disk res) empty_store = Ret s /\
    spy_lookup_file_index (f_fid f) s
    = Some (SpyFileIndexEntry (chunk_id c) (f_fid f) (current_offset c) (f_size f + FILE_META_SIZE)) /\
    forall pre r post, rs = pre ++ r :: post ->
      spy_lookup_file_index (f_fid (fr_file r)) s = Some (rec_entry (chunk_id c) pre r).
Proof.
  intros I Hw Hn Hs Hx Hnd Hs2 Hx2 Hfd. set (r := new_rec now f (ztake (f_size f) (content h b))).
  destruct (write_file_complete cs disk c rs now h b f script I Hw Hn Hs Hx)
    as (res & E & _ & Hc & I2). fold r in I2. exists res.
  assert (Hfids : rec_fids (rs ++ [r]) ≡ₚ f_fid f :: rec_fids rs).
  { unfold rec_fids. rewrite map_app. symmetry. apply Permutation_cons_append. }
  destruct (setup_chunk_ok cs cs' (w_disk res) (w_chunk res) (rs ++ [r]) script2 fd path empty_store I2)
    as (s & Es & A);
    [by rewrite Hfids|done|apply empty_chains|apply empty_chains|apply not_elem_of_nil|done|done| |done|].
  { destruct (img_avail _ _ _ _ I2) as [? ?]. lia. }
  exists s. split; [done|]. split; [done|]. destruct (ca_files _ _ _ _ _ _ A) as [Hin _].
  rewrite Hc in Hin. change (chunk_id (grown c _)) with (chunk_id c) in Hin. split.
  - rewrite (img_offset _ _ _ _ I). apply (Hin rs r []). done.
  - intros pre r0 post ->. apply (Hin pre r0 (post ++ [r])). by rewrite <- app_assoc.
Qed.

Lemma written_file_survives_restart_witness :
  let script := replicate 90 (Xfer 1) in
  exists res s, spy_write_file script 5 StoreFileProps.ex_mem StoreFileProps.ex_file
      StoreFileProps.ex_chunk 55 StoreFileProps.ex_disk StoreFileProps.ex_request = Ret res /\
    spy_setup_chunk 200 (replicate 200 (Xfer 4194304)) 3 [] (w_disk res) empty_store = Ret s /\
    spy_lookup_file_index 77 s = Some (SpyFileIndexEntry 1 77 55 32) /\
    forall pre r post, [] = pre ++ r :: post ->
      spy_lookup_file_index (f_fid (fr_file r)) s = Some (rec_entry 1 pre r).
Proof.
  intros script.
  apply (written_file_survives_restart 200 200 StoreFileProps.ex_disk StoreFileProps.ex_chunk [] 5
    StoreFileProps.ex_mem StoreFileProps.ex_request StoreFileProps.ex_file script
    (replicate 200 (Xfer 4194304)) 3 []);
    [exact StoreFileProps.ex_image|exact StoreFileProps.ex_ready|by vm_compute
    |by repeat constructor|by vm_compute|apply (bool_decide_unpack _); by vm_compute
    |by repeat constructor|by vm_compute|by vm_compute].
Defined.

(** [spy_create_chunk] on a store whose chunk ids do not exceed
    [max_chunk_id] gives the next id to a chunk whose file is, once the kernel
    has made progress, a valid image with no record: all of the chunk size after
    the superblock is available. *)
Theorem create_chunk_fresh cfg env s :
  chains_ok s -> chains_listed s -> (forall p, p ∈ chunks s -> p ∈ dom (chunk_heap s)) ->
  Forall (fun i => i <= max_chunk_id s) (ids_of s) ->
  0 <= max_chunk_id s < 2 ^ 64 - 1 -> 0 <= n_chunks s < 2 ^ 31 - 1 ->
  SUPERBLOCK_SIZE < cfg_chunk_size cfg <= DEF_CHUNK_SIZE ->
  zlen (chunk_path_of cfg (max_chunk_id s + 1)) < 512 ->
  0 <= ce_fd env -> ce_fallocate env = 0 -> Forall benign (ce_script env) ->
  SUPERBLOCK_SIZE <= xfers (ce_script env) ->
  exists disk s' c, spy_create_chunk cfg env s = Ret (0, Some disk, s') /\
    chunk_image (cfg_chunk_size cfg) disk c [] /\ chunk_id c = max_chunk_id s + 1 /\
    max_chunk_id s' = max_chunk_id s + 1 /\ n_chunks s' = n_chunks s + 1 /\
    ids_of s' = chunk_id c :: ids_of s /\ file_index s' = file_index s.
Proof.
  intros Hc Hl Hd Hid Hm Hn Hcs Hp Hfd Hfa Hs Hx. unfold spy_create_chunk.
  rewrite (u64_small (max_chunk_id s + 1)), bind_assert by (lia || by apply Z.ltb_lt).
  destruct (Z.ltb_spec (ce_fd env) 0); [lia|]. rewrite Hfa. change (negb (0 =? 0)) with false.
  set (c := spy_alloc_chunk _ _ _ _ _).
  destruct (add_new_chunk (with_max_chunk_id (max_chunk_id s + 1) s) c)
    as (s' & E & C1 & C2 & C3 & C4 & C5 & C6 & C7); [done|done| |done|].
  { intros Hin. rewrite Forall_forall in Hid. apply Hid in Hin. cbn in Hin. lia. }
  cbv zeta in E |- *. rewrite E, bind_Ret.
  destruct (write_superblock_complete (ce_script env) c
    (replicate (Z.to_nat (cfg_chunk_size cfg)) b00)) as [script' ->];
    [done|done|rewrite zlen_replicate; lia|].
  rewrite bind_Ret. eexists _, s', c. split; [done|]. split_and!; try done; last first.
  { apply (ids_of_insert (with_max_chunk_id (max_chunk_id s + 1) s) s' (fresh (dom (chunk_heap s))) c);
      try done. apply is_fresh. }
  split; try done.
  - exists (zdrop SUPERBLOCK_SIZE (replicate (Z.to_nat (cfg_chunk_size cfg)) b00)).
    rewrite zput_0, zlen_sb_bytes. done.
  - rewrite zlen_put; rewrite ?zlen_sb_bytes, ?zlen_replicate; slia.
  - lia.
  - cbn. lia.
  - cbn. rewrite u64_small by slia. split; [done|lia].
Qed.

Lemma create_chunk_fresh_witness :
  exists disk s' c, spy_create_chunk ex_cfg (CreateEnv 3 0 (replicate 60 (Xfer 1))) empty_store
      = Ret (0, Some disk, s') /\
    chunk_image 200 disk c [] /\ chunk_id c = 0 + 1 /\
    max_chunk_id s' = 0 + 1 /\ n_chunks s' = 0 + 1 /\
    ids_of s' = chunk_id c :: ids_of empty_store /\ file_index s' = ∅.
Proof.
  apply (create_chunk_fresh ex_cfg (CreateEnv 3 0 (replicate 60 (Xfer 1))) empty_store);
    [apply empty_chains|apply empty_chains|by intros ? ?%not_elem_of_nil|constructor
    |by vm_compute..|by repeat constructor|by vm_compute].
Defined.

(** The parser stores the result of [read] in an unsigned variable, so its
    tests for -1 never fire: an interrupted [read] during start-up, which the
    loop around it means to retry, is added to the positions as -1 instead and
    the scan of a valid chunk file ends in a failed assertion. *)
Theorem recovery_read_interrupted_aborts :
  chunk_image 200 StoreFileProps.ex_disk1 ex_chunk1 [ex_rec] /\
  spy_setup_chunk 200 [Xfer 55; SysErr EINTR; Xfer 4194304; Xfer 4194304] 3 []
    StoreFileProps.ex_disk1 empty_store = Assert.
Proof. split; [apply ex_image1|]. by vm_compute. Qed.

(** C40: a valid chunk file is accepted at the start exactly when its file ids are
    different from each other and from those of the index.  For every image (any
    records, any counters) and every store it is added to: if they are, the chunk is
    set up and its records are indexed; if an id occurs twice, in the file or in the
    file and the index, the process ends in a failed assertion (that of
    [spy_add_file_index], since nothing else of the file is wrong). *)
Theorem duplicate_record_aborts_startup cs cs' disk c rs script fd path s :
  chunk_image cs disk c rs -> chains_ok s -> chains_listed s -> chunk_id c ∉ ids_of s ->
  0 <= n_chunks s < 2 ^ 31 - 1 -> Forall full script -> current_offset c <= zlen script -> 0 < fd ->
  (fids_new rs s -> exists s', spy_setup_chunk cs' script fd path disk s = Ret s' /\
     chunk_added (chunk_id c) path c rs s s') /\
  (~ fids_new rs s -> spy_setup_chunk cs' script fd path disk s = Assert).
Proof.
  intros I Hc Hl Hid Hn Hs Hx Hfd. split.
  - intros [H1 H2]. by eapply setup_chunk_ok.
  - intros H. by eapply setup_chunk_dup.
Qed.

(** One record twice, and once. *)
Definition ex_twice : list byte := sb_bytes (grown ex_chunk1 32) ++ enc_recs [ex_rec; ex_rec] ++ replicate 81 b00.

Lemma ex_image2 : chunk_image 200 ex_twice (grown ex_chunk1 32) [ex_rec; ex_rec].
Proof.
  split; try (by vm_compute).
  - by exists (replicate 81 b00).
  - repeat constructor; apply ex_rec_fits.
Qed.

Lemma duplicate_record_aborts_startup_witness :
  (exists s', spy_setup_chunk 200 (replicate 120 (Xfer 4194304)) 3 [] StoreFileProps.ex_disk1 empty_store = Ret s') /\
  spy_setup_chunk 200 (replicate 120 (Xfer 4194304)) 3 [] ex_twice empty_store = Assert.
Proof.
  assert (Hs : Forall full (replicate 120 (Xfer 4194304))) by (apply Forall_replicate; reflexivity).
  split.
  - destruct (duplicate_record_aborts_startup 200 200 StoreFileProps.ex_disk1 ex_chunk1 [ex_rec]
      (replicate 120 (Xfer 4194304)) 3 [] empty_store ex_image1) as [H _];
      [apply empty_chains|apply empty_chains|apply not_elem_of_nil|vm_compute; intuition discriminate|exact Hs
      |vm_compute; discriminate|reflexivity|].
    destruct H as (s' & H & _); [|exists s'; exact H]. split; [apply NoDup_singleton|]. intros fid _. reflexivity.
  - apply (duplicate_record_aborts_startup 200 200 ex_twice (grown ex_chunk1 32) [ex_rec; ex_rec]
      (replicate 120 (Xfer 4194304)) 3 [] empty_store ex_image2);
      [apply empty_chains|apply empty_chains|apply not_elem_of_nil|vm_compute; intuition discriminate|exact Hs
      |vm_compute; discriminate|reflexivity|].
    intros [H _]. apply NoDup_cons in H as [H _]. apply H. left.
Defined.

End StoreRecoverProps.
