(* ===== verification/StoreScan.v ===== *)
(** * StoreScan: functions of [chunkserver/spy_store.c] that are kept beside the ones in use

    [spy_parse_data_block] indexes the records of one buffer, as an earlier form of
    the recovery did; [spy_pwrite_file] is a copy of [spy_pwrite] with other types.
    The first finds the same records as the parser of the recovery, but leaves its
    length alone when it has used up the buffer; the second writes the same. *)

From S2P Require Import Prelude Utils RwBuffer Adler32 Store StoreFile StoreRecover.

Module StoreScan.

(** The [while (1)] loop of [spy_parse_data_block]; [pos] is [p - buf].  The result
    is the final position; the fuel counts records. *)
Fixpoint parse_block_loop (fuel : nat) (cid base_pos len : Z) (buf : list byte) (pos : Z) (s : store_t)
    : outcome (Z * store_t) :=
  match fuel with
  | O => Wait
  | S fuel' =>
      fid ← spy_mach_read_from_8 (zdrop pos buf);
      let p := pos + 8 + 2 in
      size ← spy_mach_read_from_4 (zdrop p buf);
      let p := p + 4 in
      checksum ← spy_mach_read_from_8 (zdrop p buf);
      let p := p + 8 + 8 in
      if len - p <? size then Ret (p - FILE_META_SIZE, s)
      else
        let foff := u64 (base_pos + p - FILE_META_SIZE) in
        s ← spy_add_file_index cid fid foff (u32 (size + FILE_META_SIZE)) s;
        let p := p + size in
        if len - p <? FILE_META_SIZE then Ret (p, s)
        else parse_block_loop fuel' cid base_pos len buf p s
  end.

(** The buffer and [*plen] after the call, and the store. *)
Definition spy_parse_data_block (cid base_pos : Z) (buf : list byte) (plen : Z) (s : store_t)
    : outcome (list byte * Z * store_t) :=
  _ ← c_assert (FILE_META_SIZE <=? plen);
  '(p, s) ← parse_block_loop (Z.to_nat plen) cid base_pos plen buf 0 s;
  let parsed := i32 p in
  let left := i32 (plen - parsed) in
  if 0 <? left then
    if zlen buf <? p + left then Undef
    else Ret (zput 0 (zsub p left buf) buf, left, s)
  else Ret (buf, plen, s).

(** [p] is the data still to be written; [count] is its length. *)
Fixpoint pwrite_file_loop (script : list sysret) (f p : list byte) (offset total : Z)
    : outcome (Z * list byte * list sysret) :=
  if 0 <? zlen p then
    match script with
    | [] => Wait
    | r :: script' =>
        match sys_pwrite f p offset r with
        | inl e =>
            if retryable e then pwrite_file_loop script' f p offset total else Ret (-1, f, script')
        | inr (written, f') =>
            if written <=? 0 then Ret (-1, f', script')
            else pwrite_file_loop script' f' (zdrop written p) (u64 (offset + written)) (total + written)
        end
    end
  else Ret (i32 total, f, script).

Definition spy_pwrite_file (script : list sysret) (f data : list byte) (offset : Z) :=
  pwrite_file_loop script f data offset 0.

End StoreScan.
Export StoreScan.

(** ** One buffer of records *)

Section Block.
Context (cid base_pos len : Z) (buf after : list byte).

(** The header of a record whose first [n] bytes are in the buffer. *)
Lemma header_at before rest r n :
  rec_fits r -> FILE_META_SIZE <= n -> buf = before ++ ztake n (enc_rec r) ++ rest ->
  spy_mach_read_from_8 (zdrop (zlen before) buf) = Ret (f_fid (fr_file r)) /\
  spy_mach_read_from_4 (zdrop (zlen before + 8 + 2) buf) = Ret (zlen (fr_data r)) /\
  spy_mach_read_from_8 (zdrop (zlen before + 8 + 2 + 4) buf) = Ret (f_checksum (fr_file r)).
Proof.
  intros Hr Hn ->. zlen_pos.
  destruct (header_fields_buffered r (ztake n (enc_rec r)) (zdrop n (enc_rec r)) [] rest Hr) as (H1 & H2 & H3).
  - by rewrite ztake_drop, app_nil_r.
  - rewrite zlen_take, zlen_enc_rec. slia.
  - rewrite zdrop_exact by done. change (8 + 2) with 10 in *.
    replace (zlen before + 8 + 2 + 4) with (zlen before + (10 + 4)) by lia.
    replace (zlen before + 8 + 2) with (zlen before + 10) by lia.
    rewrite <- !zdrop_drop by lia. rewrite !(zdrop_exact (zlen before)) by done. done.
Qed.

(** The loop on the records [rs], behind which the first [n] bytes of [r'] follow. *)
Lemma parse_block_ok rs fuel before r' n s :
  buf = before ++ enc_recs rs ++ ztake n (enc_rec r') ++ after ->
  len = zlen before + zlen (enc_recs rs) + n -> FILE_META_SIZE <= zlen (enc_recs rs) + n ->
  0 <= n < zlen (enc_rec r') -> Forall rec_fits rs -> rec_fits r' -> NoDup (rec_fids rs) ->
  (forall fid, fid ∈ rec_fids rs -> spy_lookup_file_index fid s = None) ->
  0 <= base_pos -> base_pos + len < 2 ^ 31 -> (length rs < fuel)%nat ->
  exists i, parse_block_loop fuel cid base_pos len buf (zlen before) s
      = Ret (zlen before + zlen (enc_recs rs), with_file_index i s) /\
    indexed cid (base_pos + zlen before) rs s (with_file_index i s).
Proof.
  revert fuel before s. induction rs as [|r rs IH]; intros fuel before s Hb Hl Hm Hn Hf Hr' Hnd Hfree Hp Hlen Hfu.
  - change (enc_recs []) with (@nil byte) in *. rewrite (@zlen_nil byte) in *. rewrite app_nil_l in Hb.
    destruct (header_at before after r' n Hr' ltac:(lia) Hb) as (H1 & H2 & H3).
    destruct fuel as [|fuel]; [cbn in Hfu; lia|]. cbn [parse_block_loop]. rewrite H1, bind_Ret, H2, bind_Ret, H3, bind_Ret.
    rewrite zlen_enc_rec in Hn. destruct (Z.ltb_spec (len - (zlen before + 8 + 2 + 4 + 8 + 8)) (zlen (fr_data r'))); [|slia].
    exists (file_index s). replace (with_file_index (file_index s) s) with s by (by destruct s).
    split; [|apply indexed_nil]. do 2 f_equal. slia.
  - apply Forall_cons in Hf as [Hr Hf]. rewrite enc_recs_cons, zlen_app in *. rewrite <- app_assoc in Hb.
    cbn [rec_fids map] in Hnd. apply NoDup_cons in Hnd as [Hni Hnd]. zlen_pos.
    destruct (header_at before (enc_recs rs ++ ztake n (enc_rec r') ++ after) r (zlen (enc_rec r)) Hr) as (Q1 & Q2 & Q3);
      [rewrite zlen_enc_rec; slia|by rewrite ztake_all by lia|].
    destruct fuel as [|fuel]; [cbn in Hfu; lia|]. cbn [parse_block_loop]. rewrite Q1, bind_Ret, Q2, bind_Ret, Q3, bind_Ret.
    pose proof (zlen_enc_rec r) as Er. pose proof (rf_size _ Hr) as Hsz. pose proof (rf_bound _ Hr) as Hbd.
    destruct (Z.ltb_spec (len - (zlen before + 8 + 2 + 4 + 8 + 8)) (zlen (fr_data r))); [slia|].
    rewrite u64_small, u32_small by slia.
    destruct (add_index_ok cid (f_fid (fr_file r)) (base_pos + (zlen before + 8 + 2 + 4 + 8 + 8) - FILE_META_SIZE)
      (zlen (fr_data r) + FILE_META_SIZE) s) as (i1 & -> & Hi1); [apply Hfree; by left|]. rewrite bind_Ret.
    replace (zlen before + 8 + 2 + 4 + 8 + 8 + zlen (fr_data r)) with (zlen (before ++ enc_rec r)) by (rewrite zlen_app; slia).
    replace (base_pos + (zlen before + 8 + 2 + 4 + 8 + 8) - FILE_META_SIZE) with (base_pos + zlen before) in Hi1 by slia.
    rewrite <- Hsz in Hi1.
    destruct (Z.ltb_spec (len - zlen (before ++ enc_rec r)) FILE_META_SIZE) as [Hend|Hmore].
    + (* the last record *)
      assert (rs = []) as ->.
      { destruct rs as [|r2 rs]; [done|]. rewrite enc_recs_cons, zlen_app, (zlen_enc_rec r2) in Hl. rewrite zlen_app in Hend. slia. }
      exists i1. change (enc_recs []) with (@nil byte). rewrite (@zlen_nil byte), zlen_app, Z.add_0_r. split; [done|].
      eapply indexed_cons; [done|exact Hi1|apply indexed_nil].
    + destruct (IH fuel (before ++ enc_rec r) (with_file_index i1 s)) as (i2 & E2 & Hin2); try done;
        [by rewrite <- app_assoc|rewrite zlen_app; lia|rewrite zlen_app in Hmore; lia| |cbn in Hfu; lia|].
      { intros fid Hin. rewrite Hi1, decide_False by (intros ->; done). apply Hfree. by right. }
      rewrite with_file_index_twice in *. exists i2. rewrite E2, zlen_app in *. split; [do 2 f_equal; lia|].
      eapply (indexed_cons _ _ _ _ _ (with_file_index i1 s)); [done|exact Hi1|]. by rewrite <- Z.add_assoc.
Qed.

End Block.

Section PwriteFile.

(** As long as the count fits an [int] and the position 64 bits, the two write
    loops do the same. *)
Lemma pwrite_file_loop_eq script f p offset total :
  0 <= offset -> offset + zlen p < 2 ^ 64 -> 0 <= total -> total + zlen p < 2 ^ 31 ->
  pwrite_file_loop script f p offset total = spy_pwrite_loop script f p offset total.
Proof.
  revert f p offset total. induction script as [|r script IH]; intros f p offset total Ho Hp Ht Hl.
  - cbn. zlen_pos. destruct (0 <? zlen p); [done|]. by rewrite i32_small by lia.
  - cbn [pwrite_file_loop spy_pwrite_loop]. zlen_pos. destruct (Z.ltb_spec 0 (zlen p)); [|by rewrite i32_small by lia].
    destruct (sys_pwrite f p offset r) as [e|[written f']] eqn:E; [destruct (retryable e); [by apply IH|done]|].
    destruct (Z.leb_spec written 0); [done|].
    assert (Hw : written <= zlen p).
    { destruct r as [n|e]; [|done]. cbn in E. injection E as <- _. zl. }
    rewrite u64_small by lia. apply IH; zl.
Qed.

End PwriteFile.

Module StoreScanProps.

(** [spy_parse_data_block] on a buffer with the records [rs], the first [n] bytes
    of another one, and whatever memory follows: it indexes exactly [rs], at their
    places in the file from [base_pos] on, and moves the rest to the front.  When
    nothing is left over, buffer and length stay as they are, and a caller that
    goes on with them would parse the same records again. *)
Theorem parse_data_block_spec cid base_pos rs r' n after s :
  let buf := enc_recs rs ++ ztake n (enc_rec r') ++ after in let len := zlen (enc_recs rs) + n in
  FILE_META_SIZE <= len -> 0 <= n < zlen (enc_rec r') -> Forall rec_fits rs -> rec_fits r' -> NoDup (rec_fids rs) ->
  (forall fid, fid ∈ rec_fids rs -> spy_lookup_file_index fid s = None) -> 0 <= base_pos -> base_pos + len < 2 ^ 31 ->
  exists buf' s', spy_parse_data_block cid base_pos buf len s = Ret (buf', if n =? 0 then len else n, s') /\
    indexed cid base_pos rs s s' /\
    (if n =? 0 then buf' = buf else ztake n buf' = ztake n (enc_rec r')).
Proof.
  intros buf len Hl Hn Hf Hr' Hnd Hfree Hb Hlen. pose proof (count_bound rs) as Hc. zlen_pos.
  unfold spy_parse_data_block. rewrite bind_assert by (by apply Z.leb_le).
  destruct (parse_block_ok cid base_pos len buf after rs (Z.to_nat len) [] r' n s) as (i & E & Hin); try done;
    [unfold len in *; unfold zlen in *; sizes; lia|].
  change (zlen (@nil byte)) with 0 in *. rewrite Z.add_0_l in E. rewrite Z.add_0_r in Hin. rewrite E, bind_Ret.
  rewrite (i32_small (zlen (enc_recs rs))), i32_small by (unfold len in *; lia).
  replace (len - zlen (enc_recs rs)) with n by (unfold len; lia).
  destruct (Z.eqb_spec n 0) as [->|Hne].
  - destruct (Z.ltb_spec 0 0); [lia|]. exists buf, (with_file_index i s). done.
  - destruct (Z.ltb_spec 0 n); [|lia]. assert (Ht : zlen (ztake n (enc_rec r')) = n) by (rewrite zlen_take; lia).
    destruct (Z.ltb_spec (zlen buf) (zlen (enc_recs rs) + n)); [unfold buf in *; rewrite !zlen_app in *; zlen_pos; lia|].
    eexists _, (with_file_index i s). split; [done|]. split; [done|].
    rewrite <- Ht at 2. unfold buf. rewrite zsub_middle, zput_0. by apply ztake_exact.
Qed.

(** [spy_pwrite_file] is [spy_pwrite] for counts an [int] can hold. *)
Theorem pwrite_file_is_pwrite script f data offset :
  0 <= offset -> offset + zlen data < 2 ^ 64 -> zlen data < 2 ^ 31 ->
  spy_pwrite_file script f data offset = spy_pwrite script f data offset.
Proof. intros. apply pwrite_file_loop_eq; lia. Qed.

End StoreScanProps.
