(* ===== verification/StoreCrash.v ===== *)
(** * StoreCrash: a write that is cut short

    [spy_write_file] of [chunkserver/spy_store.c] ends, or the process dies, between
    or inside its calls of [pwrite]: the record is on disk in part or as a whole,
    and the superblock is the old one, the new one, or a torn one that begins like
    the new and ends like the old.  What [spy_setup_chunk] makes of each of them at
    the next start, and how far the checksum of the superblock tells a torn one. *)

From S2P Require Import Prelude Utils RwBuffer Adler32 Store StoreFile StoreData StoreRecover.
Import BigEndian.

(** ** Byte sums *)

Section ByteSum.
Implicit Types l m : list byte.

Definition bsum l : Z := foldr (fun b n => Z_of_byte b + n) 0 l.

Lemma bsum_app l m : bsum (l ++ m) = bsum l + bsum m.
Proof. unfold bsum. induction l as [|b l IH]; cbn; [done|]. rewrite IH. lia. Qed.
Lemma bsum_range l : 0 <= bsum l <= 255 * zlen l.
Proof.
  unfold bsum. induction l as [|b l IH]; [done|]. rewrite zlen_cons. cbn.
  pose proof (Z_of_byte_range b). lia.
Qed.

(** A number and the sum of its bytes agree modulo 255. *)
Lemma be_dec_mod l : be_dec l mod 255 = bsum l mod 255.
Proof.
  induction l as [|b l IH]; [done|]. rewrite be_dec_cons. cbn [bsum foldr]. fold (bsum l).
  rewrite Z.add_mod, IH, <- Z.add_mod by lia.
  rewrite (Z.add_mod (_ * _)), (Z.mul_mod (Z_of_byte b)) by lia.
  assert (E : 256 ^ zlen l mod 255 = 1).
  { unfold zlen. induction (length l) as [|n IHn]; [done|].
    rewrite Nat2Z.inj_succ, Z.pow_succ_r, Z.mul_mod, IHn by lia. done. }
  rewrite E, Z.mul_1_r, !Z.mod_mod, <- Z.add_mod by lia. done.
Qed.

Lemma be_dec_app l m : be_dec (l ++ m) = be_dec l * 256 ^ zlen m + be_dec m.
Proof. unfold be_dec at 1. by rewrite foldl_app, be_dec_acc. Qed.

(** The low half of the checksum is the sum of the bytes. *)
Lemma ref_sums_fst st l : (ref_sums st l).1 mod BASE = (st.1 + bsum l) mod BASE.
Proof.
  revert st. induction l as [|b l IH]; intros st; [cbn; by rewrite Z.add_0_r|].
  cbn [ref_sums foldl bsum foldr]. fold (ref_sums (ref_step st b) l) (bsum l). rewrite IH. cbn [ref_step fst].
  rewrite Zplus_mod_idemp_l. f_equal. lia.
Qed.

Lemma adler_bsum l m :
  zlen l <= 256 -> zlen m <= 256 -> adler_ref 0 l = adler_ref 0 m -> bsum l = bsum m.
Proof.
  intros Hl Hm E. assert (R : reduced (split_sums 0)) by done.
  pose proof (ref_sums_reduced _ l R) as [Rl1 Rl2]. pose proof (ref_sums_reduced _ m R) as [Rm1 Rm2].
  pose proof (ref_sums_fst (split_sums 0) l) as Fl. pose proof (ref_sums_fst (split_sums 0) m) as Fm.
  unfold adler_ref in E. apply (f_equal split_sums) in E.
  destruct (ref_sums (split_sums 0) l) as [a1 b1], (ref_sums (split_sums 0) m) as [a2 b2]. cbn [fst snd] in *.
  unfold BASE in *. rewrite !split_join in E by lia. injection E as -> _.
  pose proof (bsum_range l). pose proof (bsum_range m). change (split_sums 0).1 with 0 in *.
  rewrite Fl, !Z.add_0_l, !(Z.mod_small (bsum _)) in Fm by lia. done.
Qed.

End ByteSum.

(** ** Torn bytes *)

(** The first [k] bytes of [new] over [old]. *)
Definition torn {A} (k : Z) (old new : list A) : list A := ztake k new ++ zdrop k old.

Section Torn.
Implicit Types l m : list byte.

Lemma zlen_torn k l m : 0 <= k -> zlen l = zlen m -> zlen (torn k l m) = zlen l.
Proof. intros. unfold torn. zl. Qed.
Lemma torn_le k l m : k <= 0 -> torn k l m = l.
Proof. intros. unfold torn. by rewrite ztake_neg, zdrop_neg. Qed.
Lemma torn_ge k l m : zlen l = zlen m -> zlen m <= k -> torn k l m = m.
Proof. intros. unfold torn. rewrite ztake_all, zdrop_all by lia. apply app_nil_r. Qed.
Lemma torn_app k l1 l2 m1 m2 :
  zlen l1 = zlen m1 -> torn k (l1 ++ l2) (m1 ++ m2) = torn k l1 m1 ++ torn (k - zlen l1) l2 m2.
Proof.
  intros E. unfold torn. destruct (decide (k <= zlen l1)).
  - rewrite ztake_app_le, zdrop_app_le, (ztake_neg (k - _)), (zdrop_neg (k - _)) by lia. by rewrite app_assoc.
  - rewrite ztake_app_ge, zdrop_app_ge, (ztake_all k m1), (zdrop_all k l1) by lia.
    rewrite app_nil_r, <- app_assoc. by rewrite E.
Qed.
Lemma torn_same k l : 0 <= k -> torn k l l = l.
Proof. intros. apply ztake_drop. Qed.

(** A number being incremented: torn, it is the old one or its byte sum has grown
    by one modulo 255. *)
Lemma torn_succ k l m :
  0 <= k -> zlen l = zlen m -> be_dec m = be_dec l + 1 ->
  torn k l m = l \/ bsum (torn k l m) mod 255 = (bsum l + 1) mod 255.
Proof.
  intros Hk Hl E. unfold torn. set (hl := ztake k l). set (tl := zdrop k l). set (hm := ztake k m). set (tm := zdrop k m).
  assert (El : l = hl ++ tl) by (symmetry; apply ztake_drop). assert (Em : m = hm ++ tm) by (symmetry; apply ztake_drop).
  assert (H1 : zlen hl = zlen hm) by (unfold hl, hm; zl). assert (H2 : zlen tl = zlen tm) by (unfold tl, tm; zl).
  rewrite El, Em, !be_dec_app, H2 in E. pose proof (be_dec_range tl) as Rl. pose proof (be_dec_range tm) as Rm.
  rewrite H2 in Rl. set (w := 256 ^ zlen tm) in *.
  assert (Hq : be_dec hm = be_dec hl \/ be_dec hm = be_dec hl + 1) by nia. destruct Hq as [Hq|Hq].
  - left. rewrite El. f_equal. rewrite <- (be_enc_dec hm), <- (be_enc_dec hl), Hq. f_equal. unfold zlen in H1. lia.
  - right. rewrite El, !bsum_app. pose proof (be_dec_mod hm) as Bm. pose proof (be_dec_mod hl) as Bl.
    rewrite Z.add_mod, <- Bm, Hq, <- Z.add_mod by lia. rewrite <- Z.add_assoc, (Z.add_mod (be_dec hl)), Bl, <- Z.add_mod by lia.
    f_equal. lia.
Qed.

End Torn.

(** ** Torn superblocks *)

Section TornSuperblock.
Implicit Types c : spy_chunk_t.

(** Up to [SB_COUNTERS] bytes of a new superblock are the magic, the chunk id and
    the counters of files; [SB_FIELDS] bytes are all of it but the checksum. *)
Definition SB_COUNTERS : Z := 31.
Definition SB_FIELDS : Z := 47.

Definition sb_head c : list byte := SUPERBLOCK_MAGIC ++ spy_mach_write_to_8 (chunk_id c).
Definition sb_rest c : list byte :=
  spy_mach_write_to_8 (current_offset c) ++ spy_mach_write_to_8 (avail_space c).
Lemma sb_fields_split c :
  sb_fields c = sb_head c ++ spy_mach_write_to_4 (files_alloc c) ++ spy_mach_write_to_4 (files_count c) ++ sb_rest c.
Proof. unfold sb_fields, sb_head, sb_rest. by rewrite <- !app_assoc. Qed.

Lemma write_4_succ x : 0 <= x < 2 ^ 32 - 1 -> be_dec (spy_mach_write_to_4 (x + 1)) = be_dec (spy_mach_write_to_4 x) + 1.
Proof. intros H. rewrite !write_to_4_be, !be_dec_enc. change (256 ^ Z.of_nat 4) with (2 ^ 32). rewrite !Z.mod_small; lia. Qed.

(** The parser reads 55 bytes and accepts them or fails an assertion. *)
Lemma parse_superblock_cases sb c0 m :
  zlen sb = SUPERBLOCK_SIZE ->
  spy_parse_chunk_superblock sb c0 m = Assert \/
  exists c m', spy_parse_chunk_superblock sb c0 m = Ret (c, m').
Proof.
  intros Hl. change SUPERBLOCK_SIZE with 55 in Hl. unfold spy_parse_chunk_superblock. cbv zeta.
  change SUPERBLOCK_MAGIC_SIZE with 15. destruct (Z.ltb_spec (zlen sb) 15); [lia|]. rewrite bind_Ret.
  destruct (bool_decide _); cbn [c_assert]; [rewrite bind_Ret|by left].
  repeat match goal with
  | |- context [spy_mach_read_from_8 ?p] => let x := fresh "x" in destruct (read_from_8_ok p) as [x ->]; [zl|]
  | |- context [spy_mach_read_from_4 ?p] => let x := fresh "x" in destruct (read_from_4_ok p) as [x ->]; [zl|]
  end.
  rewrite !bind_Ret.
  rewrite spy_adler32_ok, bind_Ret by (done || zl).
  destruct (_ =? _); [right; eauto|by left].
Qed.

Lemma zlen_torn_sb k c c' : 0 <= k -> zlen (torn k (sb_bytes c) (sb_bytes c')) = SUPERBLOCK_SIZE.
Proof. intros. rewrite zlen_torn; [apply zlen_sb_bytes|done|by rewrite !zlen_sb_bytes]. Qed.
Lemma zlen_torn_fields k c c' : 0 <= k -> zlen (torn k (sb_fields c) (sb_fields c')) = 47.
Proof. intros. rewrite zlen_torn; [apply zlen_sb_fields|done|by rewrite !zlen_sb_fields]. Qed.

(** The fields, torn in or before the counters. *)
Lemma torn_fields_counters k c n :
  0 <= k <= SB_COUNTERS ->
  torn k (sb_fields c) (sb_fields (grown c n)) = sb_head c
    ++ torn (k - 23) (spy_mach_write_to_4 (files_alloc c)) (spy_mach_write_to_4 (files_alloc c + 1))
    ++ torn (k - 27) (spy_mach_write_to_4 (files_count c)) (spy_mach_write_to_4 (files_count c + 1)) ++ sb_rest c.
Proof.
  unfold SB_COUNTERS. intros Hk. rewrite !sb_fields_split. change (sb_head (grown c n)) with (sb_head c).
  cbn [grown files_alloc files_count]. rewrite torn_app, torn_same by (done || lia). f_equal.
  change (zlen (sb_head c)) with 23. rewrite torn_app by done. f_equal. rewrite zlen_write_4, torn_app by done.
  rewrite zlen_write_4, (torn_le (k - 23 - 4 - 4)) by lia. do 2 f_equal. lia.
Qed.

Lemma torn_succ_4 k x :
  0 <= x < 2 ^ 32 - 1 -> let old := spy_mach_write_to_4 x in let t := torn k old (spy_mach_write_to_4 (x + 1)) in
  t = old \/ bsum t mod 255 = (bsum old + 1) mod 255.
Proof.
  intros Hx old t. destruct (decide (k <= 0)); [left; by apply torn_le|].
  apply torn_succ; [lia|by unfold old; rewrite !zlen_write_4|by apply write_4_succ].
Qed.

Lemma mod_255_step a x b y i :
  a mod 255 = (x + 1) mod 255 -> b mod 255 = (y + i) mod 255 -> 0 <= i <= 1 -> a + b <> x + y.
Proof. intros H1 H2 Hi. Z.to_euclidean_division_equations. lia. Qed.

(** When the counters are torn the byte sum of the fields differs. *)
Lemma torn_counters_sum k c n :
  chunk_fits c -> files_alloc c < 2 ^ 32 - 1 -> files_count c < 2 ^ 32 - 1 -> 0 <= k <= SB_COUNTERS ->
  bsum (torn k (sb_fields c) (sb_fields (grown c n))) = bsum (sb_fields c) ->
  torn k (sb_fields c) (sb_fields (grown c n)) = sb_fields c.
Proof.
  intros (_ & Ha & Hc & _) Ha' Hc' Hk. rewrite torn_fields_counters by done. rewrite sb_fields_split, !bsum_app.
  destruct (torn_succ_4 (k - 23) (files_alloc c) ltac:(lia)) as [->|E1],
    (torn_succ_4 (k - 27) (files_count c) ltac:(lia)) as [->|E2]; [done|intros E; exfalso..].
  - apply (mod_255_step _ _ 0 0 0 E2 eq_refl); lia.
  - apply (mod_255_step _ _ 0 0 0 E1 eq_refl); lia.
  - apply (mod_255_step _ _ _ _ 1 E1 E2); lia.
Qed.

Lemma write_8_adler_inj l m :
  spy_mach_write_to_8 (adler_ref 0 l) = spy_mach_write_to_8 (adler_ref 0 m) -> adler_ref 0 l = adler_ref 0 m.
Proof.
  intros E. pose proof (adler_ref_range 0 l ltac:(done)) as A1. pose proof (adler_ref_range 0 m ltac:(done)) as A2.
  rewrite !write_to_8_be in E. apply (f_equal be_dec) in E. rewrite !be_dec_enc in E.
  change (256 ^ Z.of_nat 8) with (2 ^ 64) in E. rewrite !Z.mod_small in E by lia. done.
Qed.

(** A superblock torn in or before the counters that the parser accepts is the old
    one; one torn in the checksum is the new one. *)
Lemma torn_accepted k c n c0 m c1 m' :
  chunk_fits c -> files_alloc c < 2 ^ 32 - 1 -> files_count c < 2 ^ 32 - 1 ->
  0 <= k <= SB_COUNTERS \/ SB_FIELDS <= k ->
  let sb := torn k (sb_bytes c) (sb_bytes (grown c n)) in
  spy_parse_chunk_superblock sb c0 m = Ret (c1, m') -> sb = sb_bytes c \/ sb = sb_bytes (grown c n).
Proof.
  intros Hf Ha Hc Hk sb H. unfold SB_FIELDS in Hk.
  assert (Hk0 : 0 <= k) by (unfold SB_COUNTERS in Hk; lia).
  apply parse_superblock_inv in H as (E & _ & _); [|by apply zlen_torn_sb].
  unfold sb, sb_bytes in E |- *. rewrite torn_app, zlen_sb_fields in E |- * by (by rewrite !zlen_sb_fields).
  apply app_inj_1 in E as [E1 E2];
    [|apply Nat2Z.inj; etransitivity; [by apply zlen_torn_fields|symmetry; apply zlen_sb_fields]].
  destruct Hk as [Hk|Hk].
  - left. rewrite (torn_le (k - 47)) in E2 |- * by (unfold SB_COUNTERS in Hk; lia). f_equal.
    apply write_8_adler_inj in E2. rewrite <- E1 in E2. apply adler_bsum in E2;
      [|by rewrite zlen_sb_fields|by rewrite zlen_torn_fields].
    apply torn_counters_sum; done.
  - right. rewrite (torn_ge k) in E1 |- * by (rewrite ?zlen_sb_fields; lia). f_equal. by rewrite E2, <- E1.
Qed.

End TornSuperblock.

(** ** The next start after a write that was cut short *)

Section Crash.
Implicit Types (c : spy_chunk_t) (disk : list byte).

(** What [spy_setup_chunk] does with a file whose superblock is rejected. *)
Lemma setup_chunk_rejects cs script fd path disk s :
  SUPERBLOCK_SIZE <= zlen disk -> 0 < fd -> Forall full script -> script <> [] ->
  spy_parse_chunk_superblock (ztake SUPERBLOCK_SIZE disk) (spy_alloc_chunk cs fd 0 path (zlen disk)) (max_chunk_id s)
    = Assert ->
  spy_setup_chunk cs script fd path disk s = Assert.
Proof.
  intros Hl Hfd Hs Hne Hp. unfold spy_setup_chunk.
  rewrite !bind_assert by (apply negb_true_iff, Z.eqb_neq || apply Z.leb_le; lia).
  destruct script as [|[n|] script]; [done| |by apply Forall_cons in Hs as [? _]].
  apply Forall_cons in Hs as [Hr Hs]. apply Is_true_eq_true, Z.leb_le in Hr. change BUFFER_SIZE with 4194304 in Hr.
  cbn [read_superblock_loop]. rewrite zsub_0, Z.min_r by slia.
  destruct (Z.leb_spec (zlen (ztake SUPERBLOCK_SIZE disk)) 0) as [Hz|_]; [rewrite zlen_take in Hz; slia|].
  rewrite bind_Ret. by rewrite Hp.
Qed.

Lemma zput_torn k c c' rest :
  0 <= k <= SUPERBLOCK_SIZE ->
  zput 0 (ztake k (sb_bytes c')) (sb_bytes c ++ rest) = torn k (sb_bytes c) (sb_bytes c') ++ rest.
Proof.
  intros Hk. assert (zlen (ztake k (sb_bytes c')) = k) by (rewrite zlen_take, zlen_sb_bytes; lia).
  rewrite zput_app_l, zput_0 by (rewrite ?zlen_sb_bytes; lia). unfold torn. do 3 f_equal. done.
Qed.

(** The file after a write: the old superblock and the old records, or the whole
    record behind a superblock torn somewhere. *)
Definition cut_short cs c rs r disk : Prop :=
  chunk_image cs disk c rs \/
  exists k tail, 0 <= k <= SUPERBLOCK_SIZE /\ zlen disk = cs /\
    disk = torn k (sb_bytes c) (sb_bytes (grown c (zlen (enc_rec r)))) ++ enc_recs (rs ++ [r]) ++ tail.

Lemma write_cut_short cs disk c rs now h b f script res :
  chunk_image cs disk c rs -> write_ready h b f c -> 0 <= now < 2 ^ 64 ->
  spy_write_file script now h f c (current_offset c) disk b = Ret res ->
  cut_short cs c rs (new_rec now f (ztake (f_size f) (content h b))) (w_disk res).
Proof.
  intros I Hw Hn H. pose proof (grown_wraps _ _ _ _ _ _ _ I Hw) as Hg. fold (advanced c f) in Hg.
  pose proof Hw as (W & Hs & Ha & _). pose proof (img_len _ _ _ _ I) as Hl. pose proof (img_size _ _ _ _ I) as Hc.
  pose proof (img_offset _ _ _ _ I) as Ho. destruct (img_avail _ _ _ _ I) as [Hv _].
  change DEF_CHUNK_SIZE with (2 ^ 31) in Hc.
  apply write_file_disk in H as (_ & _ & Hres); [|done|split; slia].
  set (r := new_rec now f (ztake (f_size f) (content h b))) in *.
  assert (Hr : zlen (enc_rec r) = f_size f + FILE_META_SIZE) by (unfold r; rewrite zlen_enc_rec; cbn; zl).
  destruct Hres as [(_ & _ & Ec & k & Hk & ->)|(_ & _ & d' & -> & Hd')]; last first.
  { left. apply image_zput_tail; [done|lia|slia]. }
  right. destruct (image_zput_record cs disk c rs (enc_rec r) I) as [tail E]; [lia|]. exists k, tail.
  assert (Hz : zlen (zput (current_offset c) (enc_rec r) disk) = cs) by (rewrite zlen_put; slia).
  split; [done|]. rewrite Ec, Hg, Hr, E in *. rewrite zput_torn, enc_recs_app, enc_recs_one by done.
  split; [|by rewrite <- app_assoc]. rewrite zlen_app, zlen_torn_sb by lia. by rewrite zlen_app, zlen_sb_bytes in Hz.
Qed.

(** The chunk and the records such a file has, if its superblock is accepted. *)
Lemma cut_short_image cs c rs r disk c0 m c1 m' k tail :
  chunk_image cs disk c rs -> rec_fits r -> zlen (enc_rec r) < avail_space c ->
  0 <= k <= SUPERBLOCK_SIZE -> 0 <= k <= SB_COUNTERS \/ SB_FIELDS <= k ->
  let sb := torn k (sb_bytes c) (sb_bytes (grown c (zlen (enc_rec r)))) in
  let disk' := sb ++ enc_recs (rs ++ [r]) ++ tail in zlen disk' = cs ->
  spy_parse_chunk_superblock sb c0 m = Ret (c1, m') ->
  chunk_image cs disk' c rs \/ chunk_image cs disk' (grown c (zlen (enc_rec r))) (rs ++ [r]).
Proof.
  intros I Hr Ha Hk Ht sb disk' Hl H. pose proof (image_fits _ _ _ _ I) as Hfit. pose proof (count_bound rs) as Hcb.
  destruct I as [[tl0 Hd] H2 H3 H4 H5 [H6 H7] [H8 H9] H10]. change DEF_CHUNK_SIZE with (2 ^ 31) in H3.
  apply torn_accepted in H as [E|E]; try done; [left|right|slia..]; unfold disk'; fold sb in E; rewrite E.
  - split; try done; [|by rewrite <- E; exact Hl]. exists (enc_rec r ++ tail).
    by rewrite enc_recs_app, enc_recs_one, <- !app_assoc.
  - split; cbn [grown chunk_id current_offset avail_space files_count files_alloc]; try done;
      [by exists tail|by rewrite <- E; exact Hl|..|apply Forall_app; auto].
    + rewrite enc_recs_app, enc_recs_one, zlen_app. lia.
    + lia.
    + rewrite zlen_app, zlen_cons, zlen_nil. lia.
Qed.

(** Setting up an image in an empty store. *)
Lemma setup_image cs cs' disk c rs script fd path :
  chunk_image cs disk c rs -> NoDup (rec_fids rs) -> Forall full script -> cs <= zlen script -> 0 < fd ->
  exists s, spy_setup_chunk cs' script fd path disk empty_store = Ret s /\
    indexed (chunk_id c) SUPERBLOCK_SIZE rs empty_store s.
Proof.
  intros I Hd Hs Hx Hfd.
  destruct (setup_chunk_ok cs cs' disk c rs script fd path empty_store I) as (s & E & A);
    [done|done|apply empty_chains|apply empty_chains|apply not_elem_of_nil|done|done| |done|].
  { destruct (img_avail _ _ _ _ I). lia. }
  exists s. split; [done|]. apply (ca_files _ _ _ _ _ _ A).
Qed.

Lemma rec_fids_snoc rs r : rec_fids (rs ++ [r]) ≡ₚ f_fid (fr_file r) :: rec_fids rs.
Proof. unfold rec_fids. rewrite map_app. symmetry. apply Permutation_cons_append. Qed.

End Crash.

(** ** Properties *)

Module StoreCrashProps.

(** C7: a write that is cut short is atomic at the next start, as far as the
    superblock's checksum reaches.  Whatever the kernel answers to the calls of
    [spy_write_file], the superblock it leaves begins with [k] bytes of the new one
    and ends like the old one.  If [k] lies outside the two fields
    [current_offset] and [avail_space], then setting up the file at the next start
    fails the assertion on the checksum, or succeeds with an index of exactly the
    earlier files, or of exactly these and the new one. *)
Theorem cut_write_is_atomic cs cs' disk c rs now h b f script script2 fd path res :
  chunk_image cs disk c rs -> write_ready h b f c -> 0 <= now < 2 ^ 64 ->
  NoDup (f_fid f :: rec_fids rs) -> Forall full script2 -> cs <= zlen script2 -> 0 < fd ->
  spy_write_file script now h f c (current_offset c) disk b = Ret res ->
  let r := new_rec now f (ztake (f_size f) (content h b)) in
  exists k, 0 <= k <= SUPERBLOCK_SIZE /\
    ztake SUPERBLOCK_SIZE (w_disk res) = torn k (sb_bytes c) (sb_bytes (grown c (zlen (enc_rec r)))) /\
    (k <= SB_COUNTERS \/ SB_FIELDS <= k ->
     spy_setup_chunk cs' script2 fd path (w_disk res) empty_store = Assert \/
     exists s, spy_setup_chunk cs' script2 fd path (w_disk res) empty_store = Ret s /\
       (indexed (chunk_id c) SUPERBLOCK_SIZE rs empty_store s \/
        indexed (chunk_id c) SUPERBLOCK_SIZE (rs ++ [r]) empty_store s)).
Proof.
  intros I Hw Hn Hnd Hs Hx Hfd H r. pose proof (new_rec_fits _ _ _ _ now h b f I Hw Hn) as Hfit. fold r in Hfit.
  pose proof Hw as (W & Hsz & Ha & _). apply (write_cut_short cs disk c rs now h b f) in H; [|done..]. fold r in H.
  assert (Hr : zlen (enc_rec r) = f_size f + FILE_META_SIZE) by (unfold r; rewrite zlen_enc_rec; cbn; zl).
  assert (Hd0 : NoDup (rec_fids rs)) by (by apply NoDup_cons in Hnd as [_ ?]).
  destruct H as [I1|(k & tail & Hk & Hl & Ed)].
  - exists 0. split; [slia|]. rewrite torn_le by lia. split.
    + destruct (img_disk _ _ _ _ I1) as [tl E]. rewrite E. by apply ztake_exact.
    + intros _. right. destruct (setup_image cs cs' (w_disk res) c rs script2 fd path) as (s & E & A); eauto.
  - exists k. split; [done|]. assert (Et : ztake SUPERBLOCK_SIZE (w_disk res)
      = torn k (sb_bytes c) (sb_bytes (grown c (zlen (enc_rec r))))).
    { rewrite Ed. apply ztake_exact. apply zlen_torn_sb. lia. }
    split; [done|]. intros Ht.
    destruct (parse_superblock_cases (ztake SUPERBLOCK_SIZE (w_disk res))
      (spy_alloc_chunk cs' fd 0 path (zlen (w_disk res))) (max_chunk_id empty_store)) as [Ep|(c1 & m' & Ep)].
    + rewrite Et. apply zlen_torn_sb. lia.
    + left. apply setup_chunk_rejects; try done.
      * destruct (img_avail _ _ _ _ I). pose proof (img_offset _ _ _ _ I). slia.
      * intros ->. destruct (img_avail _ _ _ _ I). pose proof (img_offset _ _ _ _ I). rewrite zlen_nil in Hx. slia.
    + right. rewrite Et in Ep. rewrite Ed in *.
      destruct (cut_short_image cs c rs r disk _ _ c1 m' k tail I Hfit ltac:(lia) Hk ltac:(lia) Hl Ep) as [I1|I1].
      * destruct (setup_image _ cs' _ c rs script2 fd path I1) as (s & E & A); eauto.
      * destruct (setup_image _ cs' _ _ (rs ++ [r]) script2 fd path I1) as (s & E & A); eauto. by rewrite rec_fids_snoc.
Qed.

(** The second write of the example's chunk, cut after 20 bytes of its superblock. *)
Lemma cut_write_is_atomic_witness :
  exists res k, spy_write_file [Xfer 30; Xfer 2; Xfer 20; SysErr EOTHER] 5 StoreFileProps.ex_mem StoreFileProps.ex_file
      StoreFileProps.ex_chunk 55 StoreFileProps.ex_disk StoreFileProps.ex_request = Ret res /\
    ztake 55 (w_disk res) = torn k (sb_bytes StoreFileProps.ex_chunk) (sb_bytes (grown StoreFileProps.ex_chunk 32)).
Proof.
  eexists. edestruct (cut_write_is_atomic 200 200 StoreFileProps.ex_disk StoreFileProps.ex_chunk [] 5
    StoreFileProps.ex_mem StoreFileProps.ex_request StoreFileProps.ex_file [Xfer 30; Xfer 2; Xfer 20; SysErr EOTHER]
    (replicate 200 (Xfer 4194304)) 3 []) as (k & _ & Ek & _);
    [exact StoreFileProps.ex_image|exact StoreFileProps.ex_ready|by vm_compute
    |apply (bool_decide_unpack _); by vm_compute|by repeat constructor|by vm_compute|by vm_compute
    |vm_compute; reflexivity|].
  exists k. split; [vm_compute; reflexivity|exact Ek].
Defined.

(** A chunk of the default size with one file of 5803 bytes, to which one of 59893
    bytes is added. *)
Definition ex_big : spy_chunk_t := SpyChunk 7 [] 1 1 1 5888 (DEF_CHUNK_SIZE - 5888) DEF_CHUNK_SIZE.

(** The checksum does not tell every torn superblock.  When the rewrite of the
    superblock ends after its first 39 bytes, the parser can accept the result: the
    chunk then has the new write position and the old free space, together more
    than the size of the file. *)
Theorem torn_superblock_accepted :
  exists disk c m,
    spy_write_chunk_superblock [Xfer 39; SysErr EOTHER] (grown ex_big 59923) (sb_bytes ex_big) = Ret (-1, disk, []) /\
    current_offset ex_big + avail_space ex_big = DEF_CHUNK_SIZE /\
    spy_parse_chunk_superblock disk ex_big 0 = Ret (c, m) /\
    current_offset c = current_offset ex_big + 59923 /\ avail_space c = avail_space ex_big.
Proof. do 3 eexists. split; [vm_compute; reflexivity|]. split; [reflexivity|]. split; [vm_compute; reflexivity|]. done. Qed.

End StoreCrashProps.
