(* ===== verification/Event.v ===== *)
(** * Event: [chunkserver/spy_event.c], [chunkserver/spy_event_epoll.c]

    The event loop: the table of registered file events with its mirror in the
    kernel's epoll set, and the list of timers.  Handlers are names ([P]) with
    client data ([D]); the components that register them say what they do.
    Clock readings are arguments. *)

From S2P Require Import Prelude Utils.

Module Event.

Definition AE_OK : Z := 0.
Definition AE_ERR : Z := -1.
Definition AE_NONE : Z := 0.
Definition AE_READABLE : Z := 1.
Definition AE_WRITABLE : Z := 2.
Definition AE_FILE_EVENTS : Z := 1.
Definition AE_TIME_EVENTS : Z := 2.
Definition AE_ALL_EVENTS : Z := Z.lor AE_FILE_EVENTS AE_TIME_EVENTS.
Definition AE_DONT_WAIT : Z := 4.
Definition AE_NOMORE : Z := -1.

(** The kernel's constants. *)
Definition EPOLLIN : Z := 1.
Definition EPOLLOUT : Z := 4.
Definition EPOLLERR : Z := 8.
Definition EPOLLHUP : Z := 16.

(** A clock reading: seconds and milliseconds. *)
Abbreviation clock := (Z * Z)%type.

Section Loop.
Context {P D : Type}.

Record aeFileEvent : Type := AeFileEvent {
  fe_mask : Z;
  rfileProc : option P;
  wfileProc : option P;
  clientData : option D
}.

Record aeTimeEvent : Type := AeTimeEvent {
  te_id : Z;
  when_sec : Z;
  when_ms : Z;
  timeProc : P
}.

(** [epoll] is the kernel's interest set of [apidata->epfd]. *)
Record aeEventLoop : Type := AeEventLoop {
  maxfd : Z;
  setsize : Z;
  timeEventNextId : Z;
  lastTime : Z;
  events : list aeFileEvent;
  timeEventHead : list aeTimeEvent;
  el_stop : bool;
  epoll : gmap Z Z
}.

Definition with_events (m : Z) (es : list aeFileEvent) (ep : gmap Z Z) (el : aeEventLoop) :=
  AeEventLoop m (setsize el) (timeEventNextId el) (lastTime el) es (timeEventHead el)
    (el_stop el) ep.
Definition with_timers (next last : Z) (ts : list aeTimeEvent) (el : aeEventLoop) :=
  AeEventLoop (maxfd el) (setsize el) next last (events el) ts (el_stop el) (epoll el).
Definition with_stop (stop : bool) (el : aeEventLoop) :=
  AeEventLoop (maxfd el) (setsize el) (timeEventNextId el) (lastTime el) (events el)
    (timeEventHead el) stop (epoll el).

(** [aeCreateEventLoop(setsize)]; [ok] tells whether the allocations and
    [epoll_create] succeed. *)
Definition aeCreateEventLoop (ok : bool) (now sz : Z) : option aeEventLoop :=
  if ok then
    Some (AeEventLoop (-1) sz 0 now
            (replicate (Z.to_nat sz) (AeFileEvent AE_NONE None None None)) [] false ∅)
  else None.

(** *** The epoll layer *)

(** The [ee.events] bits for a mask of the loop. *)
Definition ee_events (mask : Z) : Z :=
  Z.lor (if Z.land mask AE_READABLE =? 0 then 0 else EPOLLIN)
        (if Z.land mask AE_WRITABLE =? 0 then 0 else EPOLLOUT).

Inductive epoll_op : Set := EPOLL_CTL_ADD | EPOLL_CTL_MOD | EPOLL_CTL_DEL.

(** [epoll_ctl]: the new interest set, or -1 ([None]) for an [ADD] of a watched
    descriptor, a [MOD] or [DEL] of an unwatched one, or when the kernel refuses
    ([ok] is false). *)
Definition epoll_ctl (ok : bool) (ep : gmap Z Z) (op : epoll_op) (fd ee : Z) : option (gmap Z Z) :=
  match op, ep !! fd with
  | EPOLL_CTL_ADD, None => if ok then Some (<[fd := ee]> ep) else None
  | EPOLL_CTL_MOD, Some _ => if ok then Some (<[fd := ee]> ep) else None
  | EPOLL_CTL_DEL, Some _ => Some (delete fd ep)
  | _, _ => None
  end.

(** [eventLoop->events[fd]]; outside the table the access is undefined. *)
Definition ev_at (el : aeEventLoop) (fd : Z) : outcome aeFileEvent :=
  if fd <? 0 then Undef else c_deref (events el !! Z.to_nat fd).

Definition aeApiAddEvent (ok : bool) (el : aeEventLoop) (fd mask : Z) : outcome (option (gmap Z Z)) :=
  fe ← ev_at el fd;
  let op := if fe_mask fe =? AE_NONE then EPOLL_CTL_ADD else EPOLL_CTL_MOD in
  let mask := Z.lor mask (fe_mask fe) in
  Ret (epoll_ctl ok (epoll el) op fd (ee_events mask)).

(** The result of [epoll_ctl] is ignored. *)
Definition aeApiDelEvent (el : aeEventLoop) (fd delmask : Z) : outcome (gmap Z Z) :=
  fe ← ev_at el fd;
  let mask := Z.land (fe_mask fe) (Z.lnot delmask) in
  let op := if negb (mask =? AE_NONE) then EPOLL_CTL_MOD else EPOLL_CTL_DEL in
  Ret (default (epoll el) (epoll_ctl true (epoll el) op fd (ee_events mask))).

(** *** File events *)

Definition aeCreateFileEvent (ok : bool) (el : aeEventLoop) (fd mask : Z) (proc : P)
    (data : option D) : outcome (Z * aeEventLoop) :=
  if setsize el <=? fd then Ret (AE_ERR, el)
  else
    fe ← ev_at el fd;
    r ← aeApiAddEvent ok el fd mask;
    match r with
    | None => Ret (AE_ERR, el)
    | Some ep =>
        let fe := AeFileEvent (Z.lor (fe_mask fe) mask)
          (if Z.land mask AE_READABLE =? 0 then rfileProc fe else Some proc)
          (if Z.land mask AE_WRITABLE =? 0 then wfileProc fe else Some proc) data in
        Ret (AE_OK, with_events (if maxfd el <? fd then fd else maxfd el)
                      (<[Z.to_nat fd := fe]> (events el)) ep el)
    end.

(** [for (j = maxfd - 1; j >= 0; j--) if (events[j].mask != AE_NONE) break;]; [n]
    is [j + 1]. *)
Fixpoint max_fd_below (es : list aeFileEvent) (n : nat) : Z :=
  match n with
  | O => -1
  | S j =>
      match es !! j with
      | Some fe => if negb (fe_mask fe =? AE_NONE) then Z.of_nat j else max_fd_below es j
      | None => max_fd_below es j
      end
  end.

Definition aeDeleteFileEvent (el : aeEventLoop) (fd mask : Z) : outcome aeEventLoop :=
  if setsize el <=? fd then Ret el
  else
    fe ← ev_at el fd;
    if fe_mask fe =? AE_NONE then Ret el
    else
      let m := Z.land (fe_mask fe) (Z.lnot mask) in
      let es := <[Z.to_nat fd := AeFileEvent m (rfileProc fe) (wfileProc fe) (clientData fe)]>
                  (events el) in
      let mx := if (fd =? maxfd el) && (m =? AE_NONE) then max_fd_below es (Z.to_nat (maxfd el))
                else maxfd el in
      ep ← aeApiDelEvent (with_events mx es (epoll el) el) fd mask;
      Ret (with_events mx es ep el).

(** [close(fd)] takes the descriptor out of the kernel's set. *)
Definition close_fd (fd : Z) (el : aeEventLoop) : aeEventLoop :=
  with_events (maxfd el) (events el) (delete fd (epoll el)) el.

Definition aeGetFileEvents (el : aeEventLoop) (fd : Z) : outcome Z :=
  if setsize el <=? fd then Ret 0 else fe ← ev_at el fd; Ret (fe_mask fe).

(** The loop of [aeResizeSetSize] that resets the slots above [maxfd]. *)
Definition aeResizeSetSize (el : aeEventLoop) (sz : Z) : Z * aeEventLoop :=
  if sz =? setsize el then (AE_OK, el)
  else if sz <=? maxfd el then (AE_ERR, el)
  else
    let none := AeFileEvent AE_NONE None None None in
    let kept := ztake (maxfd el + 1) (events el) in
    let old := zsub (maxfd el + 1) (sz - (maxfd el + 1)) (events el) in
    let reset := map (fun fe => AeFileEvent AE_NONE (rfileProc fe) (wfileProc fe) (clientData fe)) old in
    (AE_OK,
     AeEventLoop (maxfd el) sz (timeEventNextId el) (lastTime el)
       (kept ++ reset ++ replicate (Z.to_nat (sz - zlen kept - zlen old)) none)
       (timeEventHead el) (el_stop el) (epoll el)).

(** *** Timers *)

Definition aeAddMillisecondsToNow (now : clock) (milliseconds : Z) : clock :=
  let when_sec := now.1 + Z.quot milliseconds 1000 in
  let when_ms := now.2 + Z.rem milliseconds 1000 in
  if 1000 <=? when_ms then (when_sec + 1, when_ms - 1000) else (when_sec, when_ms).

(** [aeCreateTimeEvent]; [ok] tells whether the allocation succeeds. *)
Definition aeCreateTimeEvent (ok : bool) (now : clock) (el : aeEventLoop) (milliseconds : Z)
    (proc : P) : Z * aeEventLoop :=
  let id := timeEventNextId el in
  if ok then
    let '(s, ms) := aeAddMillisecondsToNow now milliseconds in
    (id, with_timers (id + 1) (lastTime el) (AeTimeEvent id s ms proc :: timeEventHead el) el)
  else (AE_ERR, with_timers (id + 1) (lastTime el) (timeEventHead el) el).

Fixpoint delete_timer (ts : list aeTimeEvent) (id : Z) : option (list aeTimeEvent) :=
  match ts with
  | [] => None
  | te :: ts' => if te_id te =? id then Some ts' else cons te <$> delete_timer ts' id
  end.

Definition aeDeleteTimeEvent (el : aeEventLoop) (id : Z) : Z * aeEventLoop :=
  match delete_timer (timeEventHead el) id with
  | Some ts => (AE_OK, with_timers (timeEventNextId el) (lastTime el) ts el)
  | None => (AE_ERR, el)
  end.

Definition earlier (a b : aeTimeEvent) : bool :=
  (when_sec a <? when_sec b) || ((when_sec a =? when_sec b) && (when_ms a <? when_ms b)).

Fixpoint search_nearest (ts : list aeTimeEvent) (nearest : option aeTimeEvent) : option aeTimeEvent :=
  match ts with
  | [] => nearest
  | te :: ts' =>
      search_nearest ts'
        (match nearest with
         | None => Some te
         | Some n => if earlier te n then Some te else Some n
         end)
  end.
Definition aeSearchNearestTimer (el : aeEventLoop) : option aeTimeEvent :=
  search_nearest (timeEventHead el) None.

(** [shortest] of [aeProcessEvents]. *)
Definition shortest_timer (flags : Z) (el : aeEventLoop) : option aeTimeEvent :=
  if negb (Z.land flags AE_TIME_EVENTS =? 0) && (Z.land flags AE_DONT_WAIT =? 0)
  then aeSearchNearestTimer el else None.

(** The time [aeProcessEvents] lets [epoll_wait] sleep, in milliseconds; -1 is
    for ever.  [now] is read only when there is a shortest timer. *)
Definition poll_timeout (now : clock) (flags : Z) (el : aeEventLoop) : Z :=
  match shortest_timer flags el with
  | Some te =>
      let tv_sec := when_sec te - now.1 in
      let '(tv_sec, tv_usec) :=
        if when_ms te <? now.2 then (tv_sec - 1, (when_ms te + 1000 - now.2) * 1000)
        else (tv_sec, (when_ms te - now.2) * 1000) in
      let tv_sec := if tv_sec <? 0 then 0 else tv_sec in
      let tv_usec := if tv_usec <? 0 then 0 else tv_usec in
      tv_sec * 1000 + tv_usec / 1000
  | None => if Z.land flags AE_DONT_WAIT =? 0 then -1 else 0
  end.

(** [now >= when] of the timer test. *)
Definition due (now : clock) (te : aeTimeEvent) : bool :=
  (when_sec te <? now.1) || ((now.1 =? when_sec te) && (when_ms te <=? now.2)).

(** [te->when_sec] and [te->when_ms] of the timer with the given id. *)
Definition reschedule (id : Z) (when : clock) (ts : list aeTimeEvent) : list aeTimeEvent :=
  map (fun te => if te_id te =? id then AeTimeEvent id when.1 when.2 (timeProc te) else te) ts.

End Loop.

Arguments aeFileEvent : clear implicits.
Arguments aeTimeEvent : clear implicits.
Arguments aeEventLoop : clear implicits.

(** *** Running the handlers

    A program with state [S] embeds the loop through [get_el] and [set_el]; its
    file handlers and time handlers are [call] and [tick].  The kernel is
    [epoll_wait] (the descriptors that are ready with their event bits, or [None]
    for -1; its arguments are the capacity and the timeout), [gettime] and [time].
    [preempt] is what the other threads of the program do between two steps of
    the loop. *)

Section Run.
Context {P D S : Type} `{EqDecision P}.
Context (get_el : S -> aeEventLoop P D) (set_el : aeEventLoop P D -> S -> S).
Context (call : P -> Z -> option D -> Z -> prog S unit) (tick : P -> Z -> prog S Z).
Context (epoll_wait : Z -> Z -> prog S (option (list (Z * Z)))).
Context (gettime : prog S clock) (time : prog S Z) (preempt : prog S unit).

(** The mask [aeApiPoll] stores for the [events] the kernel reports. *)
Definition fired_mask (e : Z) : Z :=
  Z.lor (if Z.land e EPOLLIN =? 0 then 0 else AE_READABLE)
    (if (Z.land e EPOLLOUT =? 0) && (Z.land e EPOLLERR =? 0) && (Z.land e EPOLLHUP =? 0)
     then 0 else AE_WRITABLE).

(** The entries of [eventLoop->fired] that [aeApiPoll] fills; the array has
    [size] of them. *)
Fixpoint fill_fired (size j : Z) (evs : list (Z * Z)) : outcome (list (Z * Z)) :=
  match evs with
  | [] => Ret []
  | (fd, e) :: evs' =>
      if size <=? j then Undef
      else rest ← fill_fired size (j + 1) evs'; Ret ((fd, fired_mask e) :: rest)
  end.

(** [aeApiPoll]: the first [numevents] entries of [eventLoop->fired], which no
    other function writes.  The timeout is passed as an [int]. *)
Definition aeApiPoll (timeout : Z) : prog S (list (Z * Z)) :=
  s ← pget;
  let size := setsize (get_el s) in
  retval ← epoll_wait size (i32 timeout);
  match retval with
  | Some evs => plift (fill_fired size 0 evs)
  | None => mret []
  end.

(** A handler pointer that is not set is a call through NULL. *)
Definition call_proc (p : option P) (fd : Z) (d : option D) (mask : Z) : prog S unit :=
  match p with
  | Some p => call p fd d mask
  | None => plift Undef
  end.

(** The body of the loop over the fired events. *)
Definition process_fired (fd mask : Z) : prog S unit :=
  s ← pget;
  fe ← plift (ev_at (get_el s) fd);
  let rfired := negb (Z.land (Z.land (fe_mask fe) mask) AE_READABLE =? 0) in
  _ ← (if rfired then call_proc (rfileProc fe) fd (clientData fe) mask else mret tt);
  s ← pget;
  fe ← plift (ev_at (get_el s) fd);
  if negb (Z.land (Z.land (fe_mask fe) mask) AE_WRITABLE =? 0) then
    if negb rfired || negb (bool_decide (wfileProc fe = rfileProc fe))
    then call_proc (wfileProc fe) fd (clientData fe) mask else mret tt
  else mret tt.

Fixpoint process_all_fired (fired : list (Z * Z)) : prog S unit :=
  match fired with
  | [] => mret tt
  | (fd, mask) :: fired' => _ ← preempt; _ ← process_fired fd mask; process_all_fired fired'
  end.

(** The second loop of [processTimeEvents] up to the first timer that is due;
    each test reads the clock. *)
Fixpoint scan_timers (maxId : Z) (ts : list (aeTimeEvent P)) : prog S (option (aeTimeEvent P)) :=
  match ts with
  | [] => mret None
  | te :: ts' =>
      if maxId <? te_id te then scan_timers maxId ts'
      else now ← gettime; if due now te then mret (Some te) else scan_timers maxId ts'
  end.

(** What follows the call of the timer's handler; the timer must still exist when
    it is set again. *)
Definition finish_timer (te : aeTimeEvent P) (retval : Z) : prog S unit :=
  s ← pget;
  let el := get_el s in
  if negb (retval =? AE_NOMORE) then
    now ← gettime;
    s ← pget;
    let el := get_el s in
    if existsb (fun te' => te_id te' =? te_id te) (timeEventHead el) then
      pput (set_el (with_timers (timeEventNextId el) (lastTime el)
        (reschedule (te_id te) (aeAddMillisecondsToNow now retval) (timeEventHead el)) el) s)
    else plift Undef
  else pput (set_el (aeDeleteTimeEvent el (te_id te)).2 s).

(** The second loop of [processTimeEvents]: after a timer has run the scan
    restarts from the head. *)
Fixpoint run_timers (fuel : nat) (maxId : Z) (processed : Z) : prog S Z :=
  match fuel with
  | O => plift Wait
  | Datatypes.S fuel' =>
      _ ← preempt;
      s ← pget;
      r ← scan_timers maxId (timeEventHead (get_el s));
      match r with
      | None => mret processed
      | Some te =>
          retval ← tick (timeProc te) (te_id te);
          _ ← finish_timer te retval;
          run_timers fuel' maxId (processed + 1)
      end
  end.

Definition processTimeEvents (fuel : nat) : prog S Z :=
  now ← time;
  s ← pget;
  let el := get_el s in
  let ts := if now <? lastTime el
            then map (fun te => AeTimeEvent (te_id te) 0 (when_ms te) (timeProc te)) (timeEventHead el)
            else timeEventHead el in
  _ ← pput (set_el (with_timers (timeEventNextId el) now ts el) s);
  run_timers fuel (timeEventNextId el - 1) 0.

Definition aeProcessEvents (fuel : nat) (flags : Z) : prog S Z :=
  if (Z.land flags AE_TIME_EVENTS =? 0) && (Z.land flags AE_FILE_EVENTS =? 0) then mret 0
  else
    s ← pget;
    n ← (if negb (maxfd (get_el s) =? -1)
           || (negb (Z.land flags AE_TIME_EVENTS =? 0) && (Z.land flags AE_DONT_WAIT =? 0))
         then
           now ← match shortest_timer flags (get_el s) with Some _ => gettime | None => mret (0, 0) end;
           fired ← aeApiPoll (poll_timeout now flags (get_el s));
           _ ← process_all_fired fired;
           mret (zlen fired)
         else mret 0);
    if negb (Z.land flags AE_TIME_EVENTS =? 0)
    then k ← processTimeEvents fuel; mret (n + k)
    else mret n.

(** [while (!eventLoop->stop)]; [beforesleep] is NULL, as [aeCreateEventLoop]
    leaves it and nothing sets it.  [fuel] bounds the timers run in one round. *)
Fixpoint main_while (rounds fuel : nat) : prog S unit :=
  match rounds with
  | O => plift Wait
  | Datatypes.S rounds' =>
      s ← pget;
      if el_stop (get_el s) then mret tt
      else _ ← aeProcessEvents fuel AE_ALL_EVENTS; main_while rounds' fuel
  end.

Definition aeMain (rounds fuel : nat) : prog S unit :=
  s ← pget;
  _ ← pput (set_el (with_stop false (get_el s)) s);
  main_while rounds fuel.

End Run.

End Event.
Export Event.

(** ** The table mirrors the kernel's set *)

(** The three parts of [is_maxfd]. *)
Ltac split3 := split; [|split].

Section Table.
Context {P D : Type}.
Implicit Types (el : aeEventLoop P D) (es : list (aeFileEvent P D)) (fe : aeFileEvent P D).

(** What is registered for a descriptor. *)
Definition mask_of el (fd : Z) : Z :=
  if fd <? 0 then AE_NONE
  else match events el !! Z.to_nat fd with Some fe => fe_mask fe | None => AE_NONE end.

(** [k] is the highest descriptor below [n] with a registered event, or -1. *)
Definition is_maxfd es (n : nat) (k : Z) : Prop :=
  -1 <= k < Z.of_nat n /\
  (forall j fe, k < Z.of_nat j < Z.of_nat n -> es !! j = Some fe -> fe_mask fe = AE_NONE) /\
  (0 <= k -> exists fe, es !! Z.to_nat k = Some fe /\ fe_mask fe <> AE_NONE).

Record ev_inv el : Prop := {
  ei_len : zlen (events el) = setsize el;
  ei_mask : forall fd, 0 <= mask_of el fd <= 3;
  ei_epoll : forall fd, epoll el !! fd
    = if mask_of el fd =? AE_NONE then None else Some (ee_events (mask_of el fd));
  ei_max : is_maxfd (events el) (length (events el)) (maxfd el)
}.

Lemma max_fd_below_spec es n : is_maxfd es n (max_fd_below es n).
Proof.
  induction n as [|n IH]; cbn.
  { split3; [lia|intros; lia|lia]. }
  assert (Hskip : (forall fe, es !! n = Some fe -> fe_mask fe = AE_NONE) ->
    is_maxfd es (S n) (max_fd_below es n)).
  { intros Hn. destruct IH as (H1 & H2 & H3). split3; [lia| |done].
    intros j fe Hj Hl. destruct (decide (j = n)) as [->|Hne]; [eauto|]. eapply H2; [|done]. lia. }
  destruct (es !! n) as [fe|] eqn:E; [|by apply Hskip].
  destruct (Z.eqb_spec (fe_mask fe) AE_NONE) as [Ez|Ez]; cbn.
  - apply Hskip. by intros ? [= <-].
  - split3; [lia|intros; lia|]. intros _. exists fe. rewrite Nat2Z.id. done.
Qed.

Lemma mask_cases m : 0 <= m <= 3 -> m = 0 \/ m = 1 \/ m = 2 \/ m = 3.
Proof. lia. Qed.

(** Updating one slot of the table. *)
Lemma mask_of_update el fd fe es' mx ep fd' :
  0 <= fd < zlen (events el) -> es' = <[Z.to_nat fd := fe]> (events el) ->
  mask_of (with_events mx es' ep el) fd' = if decide (fd' = fd) then fe_mask fe else mask_of el fd'.
Proof.
  intros Hfd ->. unfold mask_of. cbn. destruct (decide (fd' = fd)) as [->|Hne].
  - destruct (Z.ltb_spec fd 0); [lia|]. rewrite list_lookup_insert_eq; [done|]. unfold zlen in Hfd. lia.
  - destruct (Z.ltb_spec fd' 0); [done|]. rewrite list_lookup_insert_ne by lia. done.
Qed.

Lemma ev_at_ok el fd :
  0 <= fd < zlen (events el) -> exists fe, ev_at el fd = Ret fe /\
    events el !! Z.to_nat fd = Some fe /\ fe_mask fe = mask_of el fd.
Proof.
  intros Hfd. unfold ev_at, mask_of. destruct (Z.ltb_spec fd 0); [lia|].
  destruct (lookup_lt_is_Some_2 (events el) (Z.to_nat fd)) as [fe Hfe]; [unfold zlen in Hfd; lia|].
  rewrite Hfe. by exists fe.
Qed.

Lemma ev_inv_update el fd fe mx ep :
  ev_inv el -> 0 <= fd < setsize el -> 0 <= fe_mask fe <= 3 ->
  (forall fd', fd' <> fd -> ep !! fd' = epoll el !! fd') ->
  ep !! fd = (if fe_mask fe =? AE_NONE then None else Some (ee_events (fe_mask fe))) ->
  is_maxfd (<[Z.to_nat fd := fe]> (events el)) (length (events el)) mx ->
  ev_inv (with_events mx (<[Z.to_nat fd := fe]> (events el)) ep el).
Proof.
  intros [I1 I2 I3 I4] Hfd Hm Hep Hfep Hmx.
  split; cbn; [|intros fd'|intros fd'|by rewrite length_insert].
  - unfold zlen in *. by rewrite length_insert.
  - rewrite (mask_of_update el fd fe) by (done || lia). destruct (decide _); [done|apply I2].
  - rewrite (mask_of_update el fd fe) by (done || lia). destruct (decide _) as [->|Hne]; [done|].
    rewrite Hep, I3 by done. done.
Qed.

Lemma create_loop_inv now sz el : 0 <= sz -> aeCreateEventLoop true now sz = Some el -> ev_inv el.
Proof.
  intros Hs H. injection H as <-. set (es := replicate _ _).
  assert (Hes : forall j fe, es !! j = Some fe -> fe_mask fe = AE_NONE).
  { intros j fe Hj. apply lookup_replicate in Hj as [-> _]. done. }
  assert (Hm : forall fd, mask_of (AeEventLoop (P:=P) (D:=D) (-1) sz 0 now es [] false ∅) fd = AE_NONE).
  { intros fd. unfold mask_of. cbn. case_b; [done|]. destruct (es !! _) eqn:E; [by eapply Hes|done]. }
  split; cbn.
  - unfold es. rewrite zlen_replicate. lia.
  - intros fd. rewrite Hm. done.
  - intros fd. rewrite Hm. apply lookup_empty.
  - split3; [lia|intros; by eapply Hes|lia].
Qed.

(** Registering an event: the new mask, the handlers, the kernel's set. *)
Lemma create_file_event_ok el fd mask proc data :
  ev_inv el -> 0 <= fd < setsize el -> 1 <= mask <= 3 ->
  exists el', aeCreateFileEvent true el fd mask proc data = Ret (AE_OK, el') /\ ev_inv el' /\
    (forall fd', mask_of el' fd' = if decide (fd' = fd) then Z.lor (mask_of el fd) mask
                                   else mask_of el fd') /\
    setsize el' = setsize el /\ timeEventHead el' = timeEventHead el /\
    exists fe', events el' = <[Z.to_nat fd := fe']> (events el) /\ clientData fe' = data.
Proof.
  intros I Hfd Hmask. pose proof I as [I1 I2 I3 I4]. rewrite <- I1 in Hfd.
  destruct (ev_at_ok el fd Hfd) as (fe & Ha & Hl & Hm).
  unfold aeCreateFileEvent, aeApiAddEvent. destruct (Z.leb_spec (setsize el) fd); [lia|].
  rewrite Ha. cbn [mbind outcome_bind]. rewrite Hm.
  pose proof (I3 fd) as Hep. pose proof (I2 fd) as Hr. set (m := mask_of el fd) in *.
  assert (Hlor : 1 <= Z.lor m mask <= 3 /\ Z.lor mask m = Z.lor m mask).
  { split; [|apply Z.lor_comm]. destruct (mask_cases m Hr) as [->|[->|[->| ->]]];
      destruct (mask_cases mask ltac:(lia)) as [->|[->|[->| ->]]]; (done || lia). }
  destruct Hlor as [Hlor1 ->].
  assert (Hctl : epoll_ctl true (epoll el)
      (if m =? AE_NONE then EPOLL_CTL_ADD else EPOLL_CTL_MOD) fd (ee_events (Z.lor m mask))
    = Some (<[fd := ee_events (Z.lor m mask)]> (epoll el))).
  { unfold epoll_ctl. rewrite Hep. destruct (m =? AE_NONE); done. }
  rewrite Hctl. eexists. split; [done|].
  set (fe' := AeFileEvent _ _ _ _). set (mx := if maxfd el <? fd then _ else _).
  assert (Hz : fe_mask fe' <> AE_NONE) by (cbn; unfold AE_NONE; lia).
  split_and!; try done.
  - apply ev_inv_update; try done; try lia.
    + cbn. lia.
    + intros fd' Hne. by rewrite lookup_insert_ne.
    + rewrite lookup_insert_eq. destruct (Z.eqb_spec (fe_mask fe') AE_NONE); done.
    + destruct I4 as (M1 & M2 & M3). unfold zlen in *. unfold mx. split3.
      * case_b; lia.
      * intros j fe0 Hj Hlk. rewrite list_lookup_insert_ne in Hlk by (case_b; lia).
        eapply M2; [|done]. case_b; lia.
      * intros _. destruct (Z.ltb_spec (maxfd el) fd).
        -- exists fe'. rewrite list_lookup_insert_eq by lia. done.
        -- destruct (decide (maxfd el = fd)) as [->|Hne];
             [exists fe'; by rewrite list_lookup_insert_eq by lia|].
           destruct M3 as (fe0 & Hfe0 & Hm0); [lia|]. exists fe0.
           rewrite list_lookup_insert_ne by lia. done.
  - intros fd'. by rewrite (mask_of_update el fd fe').
  - by exists fe'.
Qed.

Lemma create_file_event_full el fd mask proc data ok :
  setsize el <= fd -> aeCreateFileEvent ok el fd mask proc data = Ret (AE_ERR, el).
Proof. intros. unfold aeCreateFileEvent. destruct (Z.leb_spec (setsize el) fd); [done|lia]. Qed.

(** A refused registration changes nothing. *)
Lemma create_file_event_refused el fd mask proc data :
  ev_inv el -> 0 <= fd -> aeCreateFileEvent false el fd mask proc data = Ret (AE_ERR, el).
Proof.
  intros I Hfd. unfold aeCreateFileEvent. destruct (Z.leb_spec (setsize el) fd); [done|].
  destruct (ev_at_ok el fd) as (fe & Ha & _); [rewrite (ei_len _ I); lia|].
  rewrite Ha. cbn. unfold aeApiAddEvent. rewrite Ha. cbn. unfold epoll_ctl.
  by destruct (fe_mask fe =? AE_NONE), (epoll el !! fd).
Qed.

Lemma land_lnot_range m k : 0 <= m <= 3 -> 1 <= k <= 3 ->
  0 <= Z.land m (Z.lnot k) <= 3 /\ Z.land (Z.land m (Z.lnot k)) (Z.lnot k) = Z.land m (Z.lnot k).
Proof.
  intros Hm Hk. destruct (mask_cases m Hm) as [->|[->|[->| ->]]];
    destruct (mask_cases k ltac:(lia)) as [->|[->|[->| ->]]]; split; (done || lia).
Qed.

(** The slot and [maxfd] after unregistering. *)
Lemma delete_maxfd el fd fe' :
  ev_inv el -> 0 <= fd < zlen (events el) ->
  is_maxfd (<[Z.to_nat fd := fe']> (events el)) (length (events el))
    (if (fd =? maxfd el) && (fe_mask fe' =? AE_NONE)
     then max_fd_below (<[Z.to_nat fd := fe']> (events el)) (Z.to_nat (maxfd el)) else maxfd el)
  \/ (fe_mask fe' <> AE_NONE /\ mask_of el fd = AE_NONE).
Proof.
  intros [I1 I2 I3 I4] Hfd. destruct I4 as (M1 & M2 & M3). unfold zlen in *.
  destruct (decide (mask_of el fd = AE_NONE)) as [Hz|Hz].
  { destruct (decide (fe_mask fe' = AE_NONE)) as [Hz'|Hz']; [|by right]. left.
    assert (fd <> maxfd el) as Hne.
    { intros ->. destruct M3 as (fe0 & Hfe0 & Hm0); [lia|]. unfold mask_of in Hz.
      destruct (Z.ltb_spec (maxfd el) 0); [lia|]. by rewrite Hfe0 in Hz. }
    destruct (Z.eqb_spec fd (maxfd el)); [done|]. cbn. split3; [done| |].
    - intros j fe0 Hj Hl. destruct (decide (j = Z.to_nat fd)) as [->|Hne'].
      + rewrite list_lookup_insert_eq in Hl by lia. by injection Hl as <-.
      + rewrite list_lookup_insert_ne in Hl by done. by eapply M2.
    - intros Hk. destruct M3 as (fe0 & Hfe0 & Hm0); [lia|]. exists fe0.
      rewrite list_lookup_insert_ne by lia. done. }
  left. assert (Hle : fd <= maxfd el).
  { destruct (decide (fd <= maxfd el)); [done|]. exfalso. apply Hz. unfold mask_of.
    destruct (Z.ltb_spec fd 0); [lia|]. destruct (events el !! Z.to_nat fd) eqn:E; [|done].
    eapply M2; [|exact E]. lia. }
  destruct (Z.eqb_spec fd (maxfd el)) as [->|Hne].
  - destruct (Z.eqb_spec (fe_mask fe') AE_NONE) as [Hz'|Hz']; cbn.
    + destruct (max_fd_below_spec (<[Z.to_nat (maxfd el) := fe']> (events el)) (Z.to_nat (maxfd el)))
        as (B1 & B2 & B3). split3; [lia| |done].
      intros j fe0 Hj Hl. destruct (decide (j = Z.to_nat (maxfd el))) as [->|Hj'].
      * rewrite list_lookup_insert_eq in Hl by lia. by injection Hl as <-.
      * destruct (decide (Z.of_nat j < maxfd el)); [eapply B2; [|exact Hl]; lia|].
        rewrite list_lookup_insert_ne in Hl by done. eapply M2; [|exact Hl]. lia.
    + split3; [lia| |].
      * intros j fe0 Hj Hl. rewrite list_lookup_insert_ne in Hl by lia. eapply M2; [|exact Hl]. lia.
      * intros _. exists fe'. rewrite list_lookup_insert_eq by lia. done.
  - cbn. split3; [lia| |].
    + intros j fe0 Hj Hl. rewrite list_lookup_insert_ne in Hl by lia. eapply M2; [|exact Hl]. lia.
    + intros Hk. destruct M3 as (fe0 & Hfe0 & Hm0); [lia|]. exists fe0.
      rewrite list_lookup_insert_ne by lia. done.
Qed.

(** Unregistering, in terms of an arbitrary kernel set: [ep'] is what the
    kernel's set becomes. *)
Lemma delete_shape el fd mask ep :
  ev_inv el -> 0 <= fd < setsize el -> 1 <= mask <= 3 -> mask_of el fd <> AE_NONE ->
  let m := Z.land (mask_of el fd) (Z.lnot mask) in
  exists fe' mx, fe_mask fe' = m /\
    is_maxfd (<[Z.to_nat fd := fe']> (events el)) (length (events el)) mx /\
    aeDeleteFileEvent (with_events (maxfd el) (events el) ep el) fd mask
    = Ret (with_events mx (<[Z.to_nat fd := fe']> (events el))
        (default ep (epoll_ctl true ep (if negb (m =? AE_NONE) then EPOLL_CTL_MOD else EPOLL_CTL_DEL)
           fd (ee_events m))) el).
Proof.
  intros I Hfd Hmask Hnz m. pose proof I as [I1 I2 I3 I4]. rewrite <- I1 in Hfd.
  destruct (ev_at_ok el fd Hfd) as (fe & Ha & Hl & Hm).
  destruct (land_lnot_range (mask_of el fd) mask (I2 fd) Hmask) as [Hr Hidem]. fold m in Hr, Hidem.
  set (fe' := AeFileEvent m (rfileProc fe) (wfileProc fe) (clientData fe)).
  destruct (delete_maxfd el fd fe' I Hfd) as [Hmx|[_ ?]]; [|done].
  exists fe', (if (fd =? maxfd el) && (fe_mask fe' =? AE_NONE)
     then max_fd_below (<[Z.to_nat fd := fe']> (events el)) (Z.to_nat (maxfd el)) else maxfd el).
  split; [done|]. split; [done|]. unfold aeDeleteFileEvent. cbn [setsize with_events].
  destruct (Z.leb_spec (setsize el) fd); [lia|].
  assert (Ha' : ev_at (with_events (maxfd el) (events el) ep el) fd = Ret fe) by exact Ha.
  rewrite Ha', bind_Ret, Hm. destruct (Z.eqb_spec (mask_of el fd) AE_NONE); [done|].
  cbv zeta. fold m fe'. cbn [with_events maxfd events epoll].
  unfold aeApiDelEvent. set (mx := if _ && _ then _ else _).
  assert (Hat : forall e, ev_at (with_events mx (<[Z.to_nat fd := fe']> (events el)) e
      (with_events (maxfd el) (events el) ep el)) fd = Ret fe').
  { intros e. unfold ev_at. cbn. destruct (Z.ltb_spec fd 0); [lia|].
    rewrite list_lookup_insert_eq by (unfold zlen in Hfd; lia). done. }
  rewrite Hat, bind_Ret. change (fe_mask fe') with m. rewrite Hidem. done.
Qed.

Lemma delete_file_event_ok el fd mask :
  ev_inv el -> 0 <= fd < setsize el -> 1 <= mask <= 3 ->
  exists el', aeDeleteFileEvent el fd mask = Ret el' /\ ev_inv el' /\
    (forall fd', mask_of el' fd' = if decide (fd' = fd) then Z.land (mask_of el fd) (Z.lnot mask)
                                   else mask_of el fd') /\
    setsize el' = setsize el /\ timeEventHead el' = timeEventHead el.
Proof.
  intros I Hfd Hmask. destruct (decide (mask_of el fd = AE_NONE)) as [Hz|Hnz].
  { destruct (ev_at_ok el fd) as (fe & Ha & _ & Hm); [rewrite (ei_len _ I); lia|].
    exists el. unfold aeDeleteFileEvent. destruct (Z.leb_spec (setsize el) fd); [lia|].
    rewrite Ha, bind_Ret, Hm, Hz. split_and!; try done.
    intros fd'. destruct (decide (fd' = fd)) as [->|]; [by rewrite Hz|done]. }
  pose proof (ei_epoll _ I fd) as Hep. destruct (Z.eqb_spec (mask_of el fd) AE_NONE); [done|].
  destruct (delete_shape el fd mask (epoll el) I Hfd Hmask Hnz) as (fe' & mx & Hm & Hmx & E).
  destruct (land_lnot_range (mask_of el fd) mask (ei_mask _ I fd) Hmask) as [Hr _].
  replace (with_events (maxfd el) (events el) (epoll el) el) with el in E by (by destruct el).
  cbv zeta in *. rewrite E. eexists. split; [done|]. split_and!; try done.
  - apply ev_inv_update; try done; [by rewrite Hm| |].
    + intros fd' Hne. unfold epoll_ctl. rewrite Hep.
      destruct (negb _); cbn; by rewrite ?lookup_insert_ne, ?lookup_delete_ne.
    + rewrite Hm. unfold epoll_ctl. rewrite Hep.
      destruct (Z.eqb_spec (Z.land (mask_of el fd) (Z.lnot mask)) AE_NONE); cbn.
      * by rewrite lookup_delete_eq.
      * by rewrite lookup_insert_eq.
  - intros fd'. rewrite (mask_of_update el fd fe') by (done || rewrite (ei_len _ I); lia).
    by rewrite Hm.
Qed.

(** How the two operations change the slots. *)
Lemma create_slots ok el fd mask proc data r el' :
  aeCreateFileEvent ok el fd mask proc data = Ret (r, el') ->
  (r = AE_ERR /\ el' = el) \/
  (r = AE_OK /\ exists fe, 0 <= fd /\ events el !! Z.to_nat fd = Some fe /\
     events el' = <[Z.to_nat fd := AeFileEvent (Z.lor (fe_mask fe) mask)
       (if Z.land mask AE_READABLE =? 0 then rfileProc fe else Some proc)
       (if Z.land mask AE_WRITABLE =? 0 then wfileProc fe else Some proc) data]> (events el)).
Proof.
  unfold aeCreateFileEvent, aeApiAddEvent, ev_at. destruct (setsize el <=? fd);
    [intros [= <- <-]; by left|].
  destruct (Z.ltb_spec fd 0); [done|]. destruct (events el !! Z.to_nat fd) as [fe|] eqn:E; [|done].
  cbn. destruct (epoll_ctl _ _ _ _ _); intros [= <- <-]; [right|by left].
  split; [done|]. by exists fe.
Qed.

Lemma delete_slots el fd mask el' :
  aeDeleteFileEvent el fd mask = Ret el' ->
  el' = el \/ exists fe, 0 <= fd /\ events el !! Z.to_nat fd = Some fe /\
    events el' = <[Z.to_nat fd := AeFileEvent (Z.land (fe_mask fe) (Z.lnot mask)) (rfileProc fe)
      (wfileProc fe) (clientData fe)]> (events el).
Proof.
  unfold aeDeleteFileEvent. destruct (setsize el <=? fd); [intros [= <-]; by left|].
  unfold ev_at at 1. destruct (Z.ltb_spec fd 0); [done|].
  destruct (events el !! Z.to_nat fd) as [fe|] eqn:E; [|done]. cbn.
  destruct (fe_mask fe =? AE_NONE); [intros [= <-]; by left|].
  destruct (aeApiDelEvent _ _ _); cbn; intros H0; try done. injection H0 as <-. right. by exists fe.
Qed.

(** [close] followed by unregistering both events, the order in which
    [spy_free_client_connection] does it. *)
Lemma close_delete_ok el fd :
  ev_inv el -> 0 <= fd < setsize el ->
  exists el', aeDeleteFileEvent (close_fd fd el) fd (Z.lor AE_READABLE AE_WRITABLE) = Ret el' /\
    ev_inv el' /\
    (forall fd', mask_of el' fd' = if decide (fd' = fd) then AE_NONE else mask_of el fd') /\
    setsize el' = setsize el /\ timeEventHead el' = timeEventHead el.
Proof.
  intros I Hfd. change (Z.lor AE_READABLE AE_WRITABLE) with 3.
  assert (H0 : forall m, 0 <= m <= 3 -> Z.land m (Z.lnot 3) = AE_NONE).
  { intros m Hm. by destruct (mask_cases m Hm) as [->|[->|[->| ->]]]. }
  pose proof (ei_epoll _ I fd) as Hep. destruct (decide (mask_of el fd = AE_NONE)) as [Hz|Hnz].
  { rewrite Hz in Hep. cbn in Hep. replace (close_fd fd el) with el; last first.
    { unfold close_fd, with_events. rewrite delete_id by done. by destruct el. }
    destruct (delete_file_event_ok el fd 3 I Hfd ltac:(lia)) as (el' & E & I' & Hm & Hs).
    exists el'. split_and!; try apply Hs; try done. intros fd'. rewrite Hm, H0; [done|apply I]. }
  destruct (delete_shape el fd 3 (delete fd (epoll el)) I Hfd ltac:(lia) Hnz)
    as (fe' & mx & Hm & Hmx & E). cbv zeta in *. rewrite H0 in Hm, E by apply I.
  unfold close_fd. rewrite E. eexists. split; [done|]. split_and!; try done.
  - apply ev_inv_update; try done; [by rewrite Hm| |].
    + intros fd' Hne. unfold epoll_ctl. rewrite lookup_delete_eq. cbn. by rewrite lookup_delete_ne.
    + rewrite Hm. unfold epoll_ctl. rewrite lookup_delete_eq. cbn. by rewrite lookup_delete_eq.
  - intros fd'. rewrite (mask_of_update el fd fe') by (done || rewrite (ei_len _ I); lia).
    by rewrite Hm.
Qed.

End Table.

(** ** Timers *)

Section Timers.
Context {P D : Type}.
Implicit Types (te : aeTimeEvent P) (ts : list (aeTimeEvent P)) (el : aeEventLoop P D).

(** A timer's expiry in milliseconds. *)
Definition expiry te : Z := when_sec te * 1000 + when_ms te.
(** Milliseconds fields are below 1000. *)
Definition normal te : Prop := 0 <= when_ms te < 1000.

Lemma earlier_expiry a b : normal a -> normal b -> earlier a b = true <-> expiry a < expiry b.
Proof.
  unfold normal, expiry, earlier. intros.
  rewrite orb_true_iff, andb_true_iff, !Z.ltb_lt, Z.eqb_eq. lia.
Qed.

Lemma search_nearest_spec ts n :
  Forall normal ts -> (forall m, n = Some m -> normal m) ->
  match search_nearest ts n with
  | None => ts = [] /\ n = None
  | Some te => (te ∈ ts \/ n = Some te) /\ (forall x, x ∈ ts -> expiry te <= expiry x) /\
      (forall m, n = Some m -> expiry te <= expiry m)
  end.
Proof.
  revert n. induction ts as [|t ts IH]; intros n Hn Hnn; cbn [search_nearest].
  { destruct n; [|done]. split_and!; [by right|intros x Hx; set_solver|by intros m [= <-]]. }
  apply Forall_cons in Hn as [Ht Hn].
  set (n' := match n with None => _ | Some _ => _ end).
  assert (Hn' : exists m', n' = Some m' /\ normal m' /\ (m' = t \/ n = Some m') /\
    expiry m' <= expiry t /\ forall m, n = Some m -> expiry m' <= expiry m).
  { unfold n'. destruct n as [m|]; [|exists t; split_and!; try done; by left].
    specialize (Hnn m eq_refl). destruct (earlier t m) eqn:E.
    - apply earlier_expiry in E; [|done..]. exists t. split_and!; try done; [by left|].
      intros ? [= <-]. lia.
    - exists m. split_and!; try done; [by right| |intros ? [= <-]; lia].
      assert (~ expiry t < expiry m); [|lia]. rewrite <- earlier_expiry by done. by rewrite E. }
  destruct Hn' as (m' & En & Hm1 & Hm2 & Hm3 & Hm4). rewrite En.
  specialize (IH (Some m') Hn ltac:(by intros ? [= <-])).
  destruct (search_nearest ts (Some m')) as [te|]; [|by destruct IH].
  destruct IH as (H1 & H2 & H3). specialize (H3 m' eq_refl). split_and!.
  - destruct H1 as [H1|[= ->]]; [left; by right|]. destruct Hm2 as [->|Hm2]; [left; by left|by right].
  - intros x Hx. apply elem_of_cons in Hx as [->|Hx]; [lia|by apply H2].
  - intros m Hm. specialize (Hm4 m Hm). lia.
Qed.

Lemma add_ms_spec now ms :
  0 <= now.2 < 1000 -> 0 <= ms ->
  let w := aeAddMillisecondsToNow now ms in
  w.1 * 1000 + w.2 = now.1 * 1000 + now.2 + ms /\ 0 <= w.2 < 1000.
Proof.
  intros Hn Hm. unfold aeAddMillisecondsToNow. cbv zeta.
  pose proof (Z.quot_rem' ms 1000). pose proof (Z.rem_bound_pos ms 1000 Hm ltac:(lia)).
  case_b; cbn; lia.
Qed.

(** The sleep for a timer that is not overdue, and for one that is. *)
Lemma poll_timeout_spec now flags el te :
  Z.land flags AE_TIME_EVENTS <> 0 -> Z.land flags AE_DONT_WAIT = 0 ->
  aeSearchNearestTimer el = Some te -> normal te -> 0 <= now.2 < 1000 ->
  let d := expiry te - (now.1 * 1000 + now.2) in
  poll_timeout now flags el = if 0 <=? d then d else d mod 1000.
Proof.
  intros Hf Hw Hs Hn Hnow. unfold poll_timeout, shortest_timer. rewrite Hs, Hw.
  destruct (Z.eqb_spec (Z.land flags AE_TIME_EVENTS) 0); [done|]. cbn [negb Z.eqb andb].
  unfold expiry, normal in *. destruct (Z.ltb_spec (when_ms te) now.2).
  - destruct (Z.ltb_spec ((when_ms te + 1000 - now.2) * 1000) 0); [lia|].
    rewrite Z.div_mul by lia. destruct (Z.ltb_spec (when_sec te - now.1 - 1) 0).
    + destruct (Z.leb_spec 0 (when_sec te * 1000 + when_ms te - (now.1 * 1000 + now.2))); [lia|].
      rewrite Z.mul_0_l, Z.add_0_l. apply (Zmod_unique_full _ _ (when_sec te - now.1 - 1)).
      * left. lia.
      * lia.
    + destruct (Z.leb_spec 0 (when_sec te * 1000 + when_ms te - (now.1 * 1000 + now.2))); lia.
  - destruct (Z.ltb_spec ((when_ms te - now.2) * 1000) 0); [lia|].
    rewrite Z.div_mul by lia. destruct (Z.ltb_spec (when_sec te - now.1) 0).
    + destruct (Z.leb_spec 0 (when_sec te * 1000 + when_ms te - (now.1 * 1000 + now.2))); [lia|].
      rewrite Z.mul_0_l, Z.add_0_l. apply (Zmod_unique_full _ _ (when_sec te - now.1)).
      * left. lia.
      * lia.
    + destruct (Z.leb_spec 0 (when_sec te * 1000 + when_ms te - (now.1 * 1000 + now.2))); lia.
Qed.

End Timers.

(** ** Every sequence of registrations *)

Module EventSystem.
Section Steps.
Context {P D : Type}.
Abbreviation loop := (aeEventLoop P D).
Implicit Types el : loop.

(** The calls the server makes on its loop: register, unregister, and close a
    descriptor and unregister it. *)
Inductive ev_step : loop -> loop -> Prop :=
| step_create ok el el' fd mask proc data r :
    0 <= fd -> 1 <= mask <= 3 ->
    aeCreateFileEvent ok el fd mask proc data = Ret (r, el') -> ev_step el el'
| step_delete el el' fd mask :
    0 <= fd -> 1 <= mask <= 3 -> aeDeleteFileEvent el fd mask = Ret el' -> ev_step el el'
| step_close el el' fd :
    0 <= fd < setsize el ->
    aeDeleteFileEvent (close_fd fd el) fd (Z.lor AE_READABLE AE_WRITABLE) = Ret el' ->
    ev_step el el'
| step_timer ok now el ms proc :
    ev_step el (aeCreateTimeEvent ok now el ms proc).2.

Inductive ev_reachable (now sz : Z) : loop -> Prop :=
| reach_init el : aeCreateEventLoop true now sz = Some el -> ev_reachable now sz el
| reach_step el el' : ev_reachable now sz el -> ev_step el el' -> ev_reachable now sz el'.

Lemma create_any_ok ok el el' fd mask proc data r :
  ev_inv el -> 0 <= fd -> 1 <= mask <= 3 ->
  aeCreateFileEvent ok el fd mask proc data = Ret (r, el') -> ev_inv el'.
Proof.
  intros I Hfd Hm H. destruct (decide (fd < setsize el)); last first.
  { rewrite create_file_event_full in H by lia. by inv_ret. }
  destruct ok.
  - destruct (create_file_event_ok el fd mask proc data I ltac:(lia) Hm) as (el2 & E & I2 & _).
    rewrite E in H. by inv_ret.
  - rewrite create_file_event_refused in H by done. by inv_ret.
Qed.

Lemma ev_inv_timers el next last ts : ev_inv el -> ev_inv (with_timers next last ts el).
Proof. intros [I1 I2 I3 I4]. by split. Qed.

Lemma ev_step_inv el el' : ev_inv el -> ev_step el el' -> ev_inv el'.
Proof.
  intros I Hst. revert I.
  destruct Hst as [ok e e' fd mask proc data r Hfd Hm H|e e' fd mask Hfd Hm H|e e' fd Hfd H
    |ok now e ms proc]; intros I.
  - by eapply create_any_ok.
  - destruct (decide (fd < setsize e)); last first.
    { unfold aeDeleteFileEvent in H. destruct (Z.leb_spec (setsize e) fd); [by inv_ret|lia]. }
    destruct (delete_file_event_ok e fd mask I ltac:(lia) Hm) as (e2 & E & I2 & _).
    rewrite E in H. by inv_ret.
  - destruct (close_delete_ok e fd I Hfd) as (e2 & E & I2 & _). rewrite E in H. by inv_ret.
  - unfold aeCreateTimeEvent. destruct ok; [destruct (aeAddMillisecondsToNow now ms)|];
      by apply ev_inv_timers.
Qed.

Lemma ev_reachable_inv now sz el : 0 <= sz -> ev_reachable now sz el -> ev_inv el.
Proof.
  intros Hs. induction 1 as [el H|el el' _ IH Hst]; [by eapply create_loop_inv|].
  by eapply ev_step_inv.
Qed.

End Steps.
End EventSystem.

(** ** Properties *)

Module EventProps.
Import EventSystem.

(** C30: in every state reachable by registering, unregistering and closing
    descriptors (with the kernel accepting or refusing at will), the kernel's
    epoll set holds exactly the descriptors with a registered event, with the
    matching event bits, and [maxfd] is the highest of them, or -1. *)
Theorem event_table_mirrors_epoll {P D : Type} now sz (el : aeEventLoop P D) :
  0 <= sz -> ev_reachable now sz el ->
  (forall fd, epoll el !! fd
    = if mask_of el fd =? AE_NONE then None else Some (ee_events (mask_of el fd))) /\
  (forall fd, mask_of el fd <> AE_NONE -> fd <= maxfd el) /\
  (maxfd el = -1 \/ mask_of el (maxfd el) <> AE_NONE) /\ maxfd el < sz.
Proof.
  intros Hs H. assert (Hsz : setsize el = sz).
  { induction H as [e0 H0|e0 e1 _ IH Hst]; [by injection H0 as <-|]. rewrite <- IH.
    destruct Hst as [ok e e' fd mask proc data r ? ? H|e e' fd mask ? ? H|e e' fd ? H|ok nw e ms proc].
    - unfold aeCreateFileEvent in H. destruct (setsize e <=? fd); [by inv_ret|].
      apply bind_Ret_inv in H as (fe & _ & H). apply bind_Ret_inv in H as ([ep|] & _ & H); by inv_ret.
    - unfold aeDeleteFileEvent in H. destruct (setsize e <=? fd); [by inv_ret|].
      apply bind_Ret_inv in H as (fe & _ & H). destruct (fe_mask fe =? AE_NONE); [by inv_ret|].
      apply bind_Ret_inv in H as (ep & _ & H). by inv_ret.
    - unfold aeDeleteFileEvent in H. destruct (setsize (close_fd fd e) <=? fd); [by inv_ret|].
      apply bind_Ret_inv in H as (fe & _ & H). destruct (fe_mask fe =? AE_NONE); [by inv_ret|].
      apply bind_Ret_inv in H as (ep & _ & H). by inv_ret.
    - unfold aeCreateTimeEvent. destruct ok; [by destruct (aeAddMillisecondsToNow nw ms)|done]. }
  apply ev_reachable_inv in H as [I1 I2 I3 (M1 & M2 & M3)]; [|done]. split; [done|].
  unfold zlen in I1. split_and!; [|destruct (decide (maxfd el = -1)); [by left|right]|lia].
  - intros fd Hm. destruct (decide (fd <= maxfd el)); [done|]. exfalso. apply Hm. unfold mask_of.
    destruct (fd <? 0) eqn:E; [done|]. destruct (events el !! Z.to_nat fd) as [fe|] eqn:El; [|done].
    pose proof (lookup_lt_Some _ _ _ El). apply Z.ltb_ge in E. eapply M2; [|exact El]. lia.
  - destruct M3 as (fe & Hl & Hm); [lia|]. unfold mask_of.
    destruct (Z.ltb_spec (maxfd el) 0); [lia|]. by rewrite Hl.
Qed.

(** A loop of four descriptors with one of them registered for reading. *)
Definition ex_loop : aeEventLoop unit unit :=
  AeEventLoop 2 4 0 9 [AeFileEvent 0 None None None; AeFileEvent 0 None None None;
    AeFileEvent 1 (Some tt) None (Some tt); AeFileEvent 0 None None None] [] false {[2 := 1]}.

Lemma ex_loop_reachable : ev_reachable 9 4 ex_loop.
Proof.
  eapply reach_step; [by apply reach_init|].
  apply (step_create true _ _ 2 AE_READABLE tt (Some tt) AE_OK); [done|done|]. by vm_compute.
Qed.

Lemma event_table_mirrors_epoll_witness :
  (forall fd, epoll ex_loop !! fd
    = if mask_of ex_loop fd =? AE_NONE then None else Some (ee_events (mask_of ex_loop fd))) /\
  (forall fd, mask_of ex_loop fd <> AE_NONE -> fd <= 2) /\
  (2 = -1 \/ mask_of ex_loop 2 <> AE_NONE) /\ 2 < 4.
Proof. apply (event_table_mirrors_epoll 9 4 ex_loop); [lia|exact ex_loop_reachable]. Defined.

(** With timers set, the loop picks one that expires no later than any other,
    and when it is not yet overdue the sleep handed to [epoll_wait] ends exactly
    at its expiry, so no timer is slept past. *)
Theorem poll_sleeps_until_nearest_timer {P D : Type} now flags (el : aeEventLoop P D) :
  Z.land flags AE_TIME_EVENTS <> 0 -> Z.land flags AE_DONT_WAIT = 0 -> 0 <= now.2 < 1000 ->
  Forall normal (timeEventHead el) -> timeEventHead el <> [] ->
  exists te, aeSearchNearestTimer el = Some te /\ te ∈ timeEventHead el /\
    (forall x, x ∈ timeEventHead el -> expiry te <= expiry x) /\
    (now.1 * 1000 + now.2 <= expiry te ->
     now.1 * 1000 + now.2 + poll_timeout now flags el = expiry te).
Proof.
  intros Hf Hw Hn Hts Hne. pose proof (search_nearest_spec (timeEventHead el) None Hts ltac:(done)) as H.
  unfold aeSearchNearestTimer. destruct (search_nearest (timeEventHead el) None) as [te|] eqn:E;
    [|by destruct H]. destruct H as ([Hin|?] & Hmin & _); [|done]. exists te. split_and!; try done.
  intros Hd. rewrite (poll_timeout_spec now flags el te); try done.
  - destruct (Z.leb_spec 0 (expiry te - (now.1 * 1000 + now.2))); lia.
  - rewrite Forall_forall in Hts. by apply Hts.
Qed.

(** A loop with two timers. *)
Definition ex_timers : aeEventLoop unit unit :=
  AeEventLoop (-1) 0 2 9 [] [AeTimeEvent 1 12 300 tt; AeTimeEvent 0 10 500 tt] false ∅.

Lemma poll_sleeps_until_nearest_timer_witness :
  exists te, aeSearchNearestTimer ex_timers = Some te /\ te ∈ timeEventHead ex_timers /\
    (forall x, x ∈ timeEventHead ex_timers -> expiry te <= expiry x) /\
    (9 * 1000 + 700 <= expiry te ->
     9 * 1000 + 700 + poll_timeout (9, 700) AE_ALL_EVENTS ex_timers = expiry te).
Proof.
  apply (poll_sleeps_until_nearest_timer (9, 700) AE_ALL_EVENTS ex_timers);
    [by vm_compute|by vm_compute|cbn; lia| |discriminate].
  repeat constructor; by vm_compute.
Defined.

(** An overdue timer does not make the loop poll without sleeping: only the
    seconds of the (negative) remaining time are clamped to zero, so the loop
    still sleeps for its milliseconds part, here 900 ms for a timer that
    expired 1.1 s ago. *)
Theorem overdue_timer_still_sleeps :
  poll_timeout (11, 600) AE_ALL_EVENTS ex_timers = 900 /\
  (exists te, aeSearchNearestTimer ex_timers = Some te /\ due (11, 600) te = true /\
    expiry te = 11 * 1000 + 600 - 1100).
Proof. split; [by vm_compute|]. eexists. by vm_compute. Qed.

End EventProps.
