(* ===== verification/EventApi.v ===== *)
(** * EventApi: memory of the event loop

    Creation and destruction of the loop of [chunkserver/spy_event.c] and of the
    epoll state of [chunkserver/spy_event_epoll.c], over a heap of allocated
    objects and open descriptors: what [aeCreateEventLoop] of [Event.v] hides in
    its flag.  Also [aeWait], [aeStop] and [spy_set_blocking]. *)

From S2P Require Import Prelude Event.

Module EventApi.

(** The live objects and the open descriptors. *)
Record mem_t : Type := MemT { live : gset nat; fds : gset Z }.
Definition with_live (l : gset nat) (m : mem_t) : mem_t := MemT l (fds m).
Definition with_fds (f : gset Z) (m : mem_t) : mem_t := MemT (live m) f.

(** [malloc]: a new object, or NULL. *)
Definition zmalloc (ok : bool) : prog mem_t (option nat) :=
  m ← pget;
  if ok then
    let p := fresh (live m) in
    _ ← pput (with_live ({[p]} ∪ live m) m); mret (Some p)
  else mret None.
(** [free]: NULL is ignored, an object that is not live is an error. *)
Definition zfree (p : option nat) : prog mem_t unit :=
  match p with
  | None => mret tt
  | Some p =>
      m ← pget;
      if decide (p ∈ live m) then pput (with_live (live m ∖ {[p]}) m) else plift Undef
  end.
Definition epoll_create (fd : Z) : prog mem_t Z :=
  _ ← (if fd =? -1 then mret tt else pmod (fun m => with_fds ({[fd]} ∪ fds m) m)); mret fd.
Definition close (fd : Z) : prog mem_t unit := pmod (fun m => with_fds (fds m ∖ {[fd]}) m).

Record aeApiState : Type := AeApiState { st_self : option nat; st_epfd : Z; st_events : option nat }.
Record loop_mem : Type := LoopMem {
  lm_self : option nat; lm_events : option nat; lm_fired : option nat; apidata : aeApiState
}.

(** The answers to the five calls of a creation. *)
Record create_answers : Type := CreateAnswers {
  ok_loop : bool; ok_events : bool; ok_fired : bool; ok_state : bool; ok_epoll_events : bool; ca_epfd : Z
}.

Section Create.
Context (a : create_answers).

Definition aeApiCreate : prog mem_t (option aeApiState) :=
  state ← zmalloc (ok_state a);
  match state with
  | None => mret None
  | Some _ =>
      events ← zmalloc (ok_epoll_events a);
      match events with
      | None => _ ← zfree state; mret None
      | Some _ =>
          epfd ← epoll_create (ca_epfd a);
          if epfd =? -1 then _ ← zfree events; _ ← zfree state; mret None
          else mret (Some (AeApiState state epfd events))
      end
  end.

(** The memory of [aeCreateEventLoop], with its [err] label. *)
Definition create_loop_mem : prog mem_t (option loop_mem) :=
  self ← zmalloc (ok_loop a);
  match self with
  | None => mret None
  | Some _ =>
      events ← zmalloc (ok_events a);
      fired ← zmalloc (ok_fired a);
      let err : prog mem_t (option loop_mem) :=
        _ ← zfree events; _ ← zfree fired; _ ← zfree self; mret None in
      match events, fired with
      | Some _, Some _ =>
          api ← aeApiCreate;
          match api with
          | None => err
          | Some state => mret (Some (LoopMem self events fired state))
          end
      | _, _ => err
      end
  end.

Definition all_ok : bool :=
  ok_loop a && ok_events a && ok_fired a && ok_state a && ok_epoll_events a && negb (ca_epfd a =? -1).
End Create.

Definition aeApiFree (lm : loop_mem) : prog mem_t unit :=
  _ ← close (st_epfd (apidata lm)); _ ← zfree (st_events (apidata lm)); zfree (st_self (apidata lm)).

Definition aeDeleteEventLoop (lm : loop_mem) : prog mem_t unit :=
  _ ← aeApiFree lm; _ ← zfree (lm_events lm); _ ← zfree (lm_fired lm); zfree (lm_self lm).

(** [realloc]: the old object stays when there is no new one. *)
Definition zrealloc (ok : bool) (p : option nat) : prog mem_t (option nat) :=
  q ← zmalloc ok;
  match q with
  | None => mret None
  | Some _ => _ ← zfree p; mret q
  end.
Definition aeApiResize (ok : bool) (lm : loop_mem) : prog mem_t (Z * loop_mem) :=
  let st := apidata lm in
  events ← zrealloc ok (st_events st);
  mret (0, LoopMem (lm_self lm) (lm_events lm) (lm_fired lm) (AeApiState (st_self st) (st_epfd st) events)).

(** The flag [aeMain] tests before each round. *)
Definition aeStop {P D} (el : aeEventLoop P D) : aeEventLoop P D := with_stop true el.
Definition aeGetSetSize {P D} (el : aeEventLoop P D) : Z := setsize el.

(** ** Waiting for one descriptor *)

Definition POLLIN : Z := 1.
Definition POLLOUT : Z := 4.
Definition POLLERR : Z := 8.
Definition POLLHUP : Z := 16.

(** The events [aeWait] asks [poll] for, and its result. *)
Definition wait_events (mask : Z) : Z :=
  Z.lor (if Z.land mask AE_READABLE =? 0 then 0 else POLLIN)
        (if Z.land mask AE_WRITABLE =? 0 then 0 else POLLOUT).
Definition aeWait (poll : Z -> Z * Z) (mask : Z) : Z :=
  let '(retval, revents) := poll (wait_events mask) in
  if retval =? 1 then
    let retmask := if Z.land revents POLLIN =? 0 then 0 else AE_READABLE in
    let retmask := if Z.land revents POLLOUT =? 0 then retmask else Z.lor retmask AE_WRITABLE in
    let retmask := if Z.land revents POLLERR =? 0 then retmask else Z.lor retmask AE_WRITABLE in
    if Z.land revents POLLHUP =? 0 then retmask else Z.lor retmask AE_WRITABLE
  else retval.

(** ** [spy_set_blocking] of [chunkserver/spy_server.c] *)

Definition O_NONBLOCK : Z := 2048.
(** [getfl] is what [F_GETFL] returns, [setfl] tells whether [F_SETFL] succeeds;
    the flags that are set, and the result. *)
Definition spy_set_blocking (getfl : Z) (setfl : bool) (block : bool) : option Z * Z :=
  if getfl =? -1 then (None, -1)
  else
    let flags := if block then Z.land getfl (Z.lnot O_NONBLOCK) else Z.lor getfl O_NONBLOCK in
    if setfl then (Some flags, 0) else (None, -1).

End EventApi.
Export EventApi.

(** ** Proofs *)

(** A program that returns, with a result that satisfies [Q]. *)
Definition gives {A} (q : prog mem_t A) (Q : A -> mem_t -> Prop) (m : mem_t) : Prop :=
  match q m with Ret (a, m') => Q a m' | _ => False end.

Lemma gives_bind {A B} (q : prog mem_t A) (k : A -> prog mem_t B) Q m :
  gives q (fun a => gives (k a) Q) m -> gives (q ≫= k) Q m.
Proof. unfold gives, mbind, prog_bind. by destruct (q m) as [[a m']| | | |]. Qed.
Lemma gives_ret {A} (a : A) (Q : A -> mem_t -> Prop) m : Q a m -> gives (mret a) Q m.
Proof. done. Qed.

Section Taken.
Context (m : mem_t).

(** The objects [l] have been taken in addition to those of [m]; [f] are open. *)
Record taken (l : list nat) (f : gset Z) (m' : mem_t) : Prop := {
  tk_live : live m' = list_to_set l ∪ live m;
  tk_fds : fds m' = f;
  tk_new : forall p, p ∈ l -> p ∉ live m;
  tk_nodup : NoDup l
}.

Lemma taken_none m' : taken [] (fds m) m' -> m' = m.
Proof. intros [L F _ _]. destruct m, m'. cbn in *. rewrite F, L. f_equal. by rewrite (left_id_L ∅ (∪)). Qed.

Lemma malloc_taken ok l f m' (Q : option nat -> mem_t -> Prop) :
  taken l f m' -> (ok = false -> Q None m') ->
  (forall p m2, ok = true -> taken (p :: l) f m2 -> Q (Some p) m2) -> gives (zmalloc ok) Q m'.
Proof.
  intros [L F N D] H0 H1. destruct ok; [|by apply H0]. apply H1; [done|].
  pose proof (is_fresh (live m')) as Hf. set (p := fresh (live m')) in *.
  rewrite L in Hf. apply not_elem_of_union in Hf as [Hl Hm]. rewrite elem_of_list_to_set in Hl. split; cbn.
  - by rewrite L, (assoc_L (∪)).
  - done.
  - by intros q [->|Hq]%elem_of_cons; [|apply N].
  - by constructor.
Qed.

Lemma free_taken p l l' f m' (Q : unit -> mem_t -> Prop) :
  taken l f m' -> l ≡ₚ p :: l' -> (forall m2, taken l' f m2 -> Q tt m2) -> gives (zfree (Some p)) Q m'.
Proof.
  intros [L F N D] Hp HQ. rewrite Hp in D. apply NoDup_cons in D as [D1 D2].
  assert (Hn : p ∉ live m) by (apply N; rewrite Hp; by left).
  assert (El : live m' = {[p]} ∪ (list_to_set l' ∪ live m)).
  { rewrite L, (list_to_set_perm_L _ _ Hp). cbn. by rewrite (assoc_L (∪)). }
  unfold zfree, gives, mbind, prog_bind, pget. cbn. rewrite decide_True by (rewrite El; apply elem_of_union; left; by apply elem_of_singleton).
  apply HQ. split; [|done| |done]; cbn.
  - rewrite El. apply leibniz_equiv. rewrite difference_union_distr_l, difference_diag, (left_id ∅ (∪)).
    apply difference_disjoint. rewrite disjoint_singleton_r, elem_of_union, elem_of_list_to_set. tauto.
  - intros q Hq. apply N. rewrite Hp. by right.
Qed.

Lemma api_create_taken a l f m' :
  taken l f m' ->
  gives (aeApiCreate a) (fun r m2 =>
    match r with
    | None => ok_state a && ok_epoll_events a && negb (ca_epfd a =? -1) = false /\ taken l f m2
    | Some st => ok_state a && ok_epoll_events a && negb (ca_epfd a =? -1) = true /\
        exists p q, st = AeApiState (Some p) (ca_epfd a) (Some q) /\
          taken (q :: p :: l) ({[ca_epfd a]} ∪ f) m2
    end) m'.
Proof.
  intros T. unfold aeApiCreate, epoll_create. apply gives_bind. eapply malloc_taken; [exact T|by intros ->|].
  intros p m1 -> T1. apply gives_bind. eapply malloc_taken; [exact T1|..].
  - intros ->. apply gives_bind. eapply free_taken; [exact T1|reflexivity|]. intros m2 T2. by apply gives_ret.
  - intros q m2 -> T2. apply gives_bind, gives_bind. destruct (Z.eqb_spec (ca_epfd a) (-1)) as [E|E].
    + do 2 apply gives_ret. rewrite E. change (-1 =? -1) with true. cbv iota.
      apply gives_bind. eapply free_taken; [exact T2|reflexivity|]. intros m3 T3. apply gives_bind.
      eapply free_taken; [exact T3|reflexivity|]. intros m4 T4. by apply gives_ret.
    + unfold gives, pmod. cbn. rewrite (proj2 (Z.eqb_neq _ _) E). split; [done|]. exists p, q. split; [done|].
      destruct T2 as [L F N D]. split; cbn; try done. by rewrite F.
Qed.
End Taken.

(** Give an object back. *)
Ltac give T :=
  lazymatch goal with |- gives (_ ≫= _) _ _ => apply gives_bind | _ => idtac end;
  eapply free_taken; [exact T|first [reflexivity | apply perm_swap]|clear T; intros ? T].

Module EventApiProps.

(** Creating the loop never loses memory: when one of its five allocations or
    [epoll_create] fails it gives back everything it had taken and returns NULL;
    otherwise [aeDeleteEventLoop] gives back all it has taken and closes the
    descriptor; nothing is freed twice. *)
Theorem event_loop_memory a m :
  ca_epfd a ∉ fds m ->
  gives (create_loop_mem a) (fun r m' =>
    match r with
    | None => all_ok a = false /\ m' = m
    | Some lm => all_ok a = true /\ aeDeleteEventLoop lm m' = Ret (tt, m)
    end) m.
Proof.
  intros Hfd. assert (T : taken m [] (fds m) m).
  { split; [cbn; by rewrite (left_id_L ∅ (∪))|done|by intros p ?%not_elem_of_nil|constructor]. }
  unfold create_loop_mem, all_ok. apply gives_bind. eapply malloc_taken; [exact T|by intros ->|].
  clear T. intros p m1 -> T. apply gives_bind. eapply malloc_taken; [exact T|..].
  - intros ->. apply gives_bind. eapply malloc_taken; [exact T|..].
    + intros ->. do 2 (apply gives_bind, gives_ret). give T. by apply gives_ret; split; [|apply taken_none].
    + clear T. intros q m2 -> T. apply gives_bind, gives_ret. do 2 give T. by apply gives_ret; split; [|apply taken_none].
  - clear T. intros q m2 -> T. apply gives_bind. eapply malloc_taken; [exact T|..].
    + intros ->. give T. apply gives_bind, gives_ret. give T. by apply gives_ret; split; [|apply taken_none].
    + clear T. intros r m3 -> T. apply gives_bind. pose proof (api_create_taken m a _ _ _ T) as G.
      unfold gives in G |- *. destruct (aeApiCreate a m3) as [[[st|] m4]| | | |]; try done; cbn [andb].
      * destruct G as (-> & u & v & -> & T4). split; [done|].
        assert (G : gives (aeDeleteEventLoop (LoopMem (Some p) (Some q) (Some r) (AeApiState (Some u) (ca_epfd a) (Some v))))
          (fun _ m' => m' = m) m4).
        { unfold aeDeleteEventLoop, aeApiFree, close. cbn [apidata st_epfd st_events st_self lm_self lm_events lm_fired].
          apply gives_bind, gives_bind. unfold gives at 1, pmod.
          assert (T5 : taken m [v; u; r; q; p] (fds m) (with_fds (fds m4 ∖ {[ca_epfd a]}) m4)).
          { destruct T4 as [L F N D]. split; try done. cbn. rewrite F. apply leibniz_equiv.
            rewrite difference_union_distr_l, difference_diag, (left_id ∅ (∪)).
            apply difference_disjoint. by rewrite disjoint_singleton_r. }
          do 5 (cbv beta; give T5). by apply taken_none. }
        unfold gives in G. destruct (aeDeleteEventLoop _ _) as [[[] m5]| | | |]; try done. by rewrite G.
      * destruct G as [-> T4]. change (gives (_ ← zfree (Some q); _ ← zfree (Some r); _ ← zfree (Some p); mret None)
          (fun (r : option loop_mem) m' => match r with None => false = false /\ m' = m | Some lm => false = true /\
             aeDeleteEventLoop lm m' = Ret (tt, m) end) m4).
        do 3 give T4. by apply gives_ret; split; [|apply taken_none].
Qed.

(** [aeWait] reports a descriptor as readable when it is, and as writable when it
    is or has an error; it passes the result of [poll] on otherwise. *)
Theorem wait_reports poll mask :
  let '(retval, revents) := poll (wait_events mask) in
  if retval =? 1 then
    Z.testbit (aeWait poll mask) 0 = negb (Z.land revents POLLIN =? 0) /\
    Z.testbit (aeWait poll mask) 1
      = negb ((Z.land revents POLLOUT =? 0) && (Z.land revents POLLERR =? 0) && (Z.land revents POLLHUP =? 0))
  else aeWait poll mask = retval.
Proof.
  unfold aeWait. destruct (poll _) as [ret rev]. destruct (ret =? 1); [|done].
  destruct (_ =? 0), (_ =? 0), (_ =? 0), (_ =? 0); by vm_compute.
Qed.

(** [spy_set_blocking] changes the one flag. *)
Theorem set_blocking_flag getfl block i :
  getfl <> -1 -> 0 <= i ->
  exists flags, spy_set_blocking getfl true block = (Some flags, 0) /\
    Z.testbit flags i = if i =? 11 then negb block else Z.testbit getfl i.
Proof.
  intros Hg Hi. unfold spy_set_blocking. rewrite (proj2 (Z.eqb_neq _ _) Hg). eexists. split; [reflexivity|].
  change O_NONBLOCK with (2 ^ 11). destruct block.
  - rewrite Z.land_spec, Z.lnot_spec, Z.pow2_bits_eqb by lia.
    destruct (Z.eqb_spec i 11) as [->|Hn]; [by rewrite andb_false_r|].
    rewrite (proj2 (Z.eqb_neq 11 i)) by lia. apply andb_true_r.
  - rewrite Z.lor_spec, Z.pow2_bits_eqb by lia.
    destruct (Z.eqb_spec i 11) as [->|Hn]; [by rewrite orb_true_r|].
    rewrite (proj2 (Z.eqb_neq 11 i)) by lia. apply orb_false_r.
Qed.

End EventApiProps.
