(* ===== verification/WorkQueue.v ===== *)
(** * WorkQueue: [chunkserver/spy_work.c]

    The thread pool.  The queue is a record; each critical section and each
    atomic operation is one function; a system state adds the worker threads and
    the position of the submitting (main) thread, and [wq_step] interleaves
    them.  What a work item does when it runs is the business of its owner. *)

From S2P Require Import Prelude.

Module Work.

Definition SHRINK_PERIOD_PROTECTION : Z := 10.
Definition DEF_WQ_NR_THRS : Z := 10.

Section Queue.
Context {W : Type}.

Record spy_work_queue_t : Type := SpyWorkQueue {
  pending_list : list W;
  finished_list : list W;
  nr_threads : Z;
  nr_works : Z;
  last_expand_time : Z;
  event_count : Z
}.

Definition with_pending (l : list W) (wq : spy_work_queue_t) :=
  SpyWorkQueue l (finished_list wq) (nr_threads wq) (nr_works wq) (last_expand_time wq)
    (event_count wq).
Definition with_nr_threads (n : Z) (wq : spy_work_queue_t) :=
  SpyWorkQueue (pending_list wq) (finished_list wq) n (nr_works wq) (last_expand_time wq)
    (event_count wq).
Definition with_nr_works (n : Z) (wq : spy_work_queue_t) :=
  SpyWorkQueue (pending_list wq) (finished_list wq) (nr_threads wq) n (last_expand_time wq)
    (event_count wq).
Definition with_last_expand (t : Z) (wq : spy_work_queue_t) :=
  SpyWorkQueue (pending_list wq) (finished_list wq) (nr_threads wq) (nr_works wq) t
    (event_count wq).

(** The counters are [int]; they are read into [size_t]. *)
Definition spy_wq_need_shrink (current_time : Z) (wq : spy_work_queue_t) : bool :=
  let works := u64 (nr_works wq) in
  let threads := u64 (nr_threads wq) in
  let works := u64 (works + 1) in
  let threads := u64 (threads + 1) in
  (works <? threads / 2) && (DEF_WQ_NR_THRS / 2 <? threads)
  && (u64 (last_expand_time wq + SHRINK_PERIOD_PROTECTION) <? current_time).

Definition spy_wq_need_expand (wq : spy_work_queue_t) : bool :=
  let threads := u64 (nr_threads wq) in
  let works := u64 (nr_works wq) in
  let threads := u64 (threads + 1) in
  let works := u64 (works + 1) in
  (threads <? works / 2) && (threads <? 2 * DEF_WQ_NR_THRS).

(** [spy_create_worker_threads]: [oks] tells which calls of [pthread_create]
    succeed (after the last of them the next call fails); the result is the return
    value and the number of threads created. *)
Fixpoint spy_create_worker_threads (oks : list bool) (wq : spy_work_queue_t) (n : Z) (made : nat)
    : outcome (Z * spy_work_queue_t * nat) :=
  if nr_threads wq <? n then
    match oks with
    | [] | false :: _ => Ret (-1, wq, made)
    | true :: oks' =>
        spy_create_worker_threads oks' (with_nr_threads (i32 (nr_threads wq + 1)) wq) n (S made)
    end
  else Ret (0, wq, made).

(** [spy_create_work_queue(nr_threads)]: the queue and the number of threads. *)
Definition spy_create_work_queue (oks : list bool) (now n : Z) : outcome (spy_work_queue_t * nat) :=
  '(ret, wq, made) ← spy_create_worker_threads oks (SpyWorkQueue [] [] 0 0 now 0) n 0;
  _ ← c_assert (ret =? 0);
  Ret (wq, made).

(** [spy_queue_work], its atomic increment and its critical section (the signal
    is a step of its own). *)
Definition queue_count (wq : spy_work_queue_t) : spy_work_queue_t :=
  with_nr_works (i32 (nr_works wq + 1)) wq.
Definition queue_critical (oks : list bool) (now : Z) (work : W) (wq : spy_work_queue_t)
    : outcome (spy_work_queue_t * nat) :=
  '(wq, made) ←
    (if spy_wq_need_expand wq then
       '(_, wq, made) ← spy_create_worker_threads oks wq (i32 (nr_threads wq * 2)) 0;
       Ret (with_last_expand now wq, made)
     else Ret (wq, 0%nat));
  Ret (with_pending (pending_list wq ++ [work]) wq, made).

(** The worker's critical sections: the shrink test and the removal of the first
    pending work; then the post to the finished list, and the decrement with the
    notification of the event descriptor. *)
Definition worker_shrink (wq : spy_work_queue_t) : spy_work_queue_t :=
  with_nr_threads (i32 (nr_threads wq - 1)) wq.
Definition worker_take (wq : spy_work_queue_t) : option (W * spy_work_queue_t) :=
  match pending_list wq with
  | [] => None
  | w :: l => Some (w, with_pending l wq)
  end.
Definition worker_post (w : W) (wq : spy_work_queue_t) : spy_work_queue_t :=
  SpyWorkQueue (pending_list wq) (finished_list wq ++ [w]) (nr_threads wq) (nr_works wq)
    (last_expand_time wq) (event_count wq).
Definition worker_notify (wq : spy_work_queue_t) : spy_work_queue_t :=
  SpyWorkQueue (pending_list wq) (finished_list wq) (nr_threads wq) (i32 (nr_works wq - 1))
    (last_expand_time wq) (event_count wq + 1).

(** The main thread's [list_splice_init(&wq->finished_list, &list)], after it has
    read the event descriptor. *)
Definition splice_finished (wq : spy_work_queue_t) : list W * spy_work_queue_t :=
  (finished_list wq,
   SpyWorkQueue (pending_list wq) [] (nr_threads wq) (nr_works wq) (last_expand_time wq) 0).

(** ** Threads *)

(** Where a worker is in [spy_worker_routine]: before taking [pending_lock] at
    the top of its loop, in [pthread_cond_wait], woken up but without the lock,
    running a work, and between the post and the notification. *)
Inductive worker : Type :=
| Top
| Waiting
| Woken
| Busy (w : W)
| Posted.

(** Where the main thread is in [spy_queue_work]. *)
Inductive submitter : Type :=
| Free
| Counted (w : W)
| Signal.

(** The ghost lists record all works submitted, started and handed to [done]. *)
Record wq_sys : Type := WqSys {
  queue : spy_work_queue_t;
  threads : list worker;
  main : submitter;
  submitted : list W;
  started : list W;
  delivered : list W
}.

(** (The counter of outstanding works is an [int]; a work is an io job, of which
    there are 5000, or a dump job.) *)
Inductive wq_step : wq_sys -> wq_sys -> Prop :=
| step_count q ts sub st dl w :
    nr_works q < 2 ^ 31 - 1 ->
    wq_step (WqSys q ts Free sub st dl) (WqSys (queue_count q) ts (Counted w) (sub ++ [w]) st dl)
| step_enqueue q q' ts sub st dl w oks now made :
    queue_critical oks now w q = Ret (q', made) ->
    wq_step (WqSys q ts (Counted w) sub st dl)
            (WqSys q' (ts ++ replicate made Top) Signal sub st dl)
| step_signal q pre post sub st dl :
    wq_step (WqSys q (pre ++ Waiting :: post) Signal sub st dl)
            (WqSys q (pre ++ Woken :: post) Free sub st dl)
| step_signal_none q ts sub st dl :
    Waiting ∉ ts -> wq_step (WqSys q ts Signal sub st dl) (WqSys q ts Free sub st dl)
| step_spurious q pre post m sub st dl :
    wq_step (WqSys q (pre ++ Waiting :: post) m sub st dl)
            (WqSys q (pre ++ Woken :: post) m sub st dl)
| step_shrink q pre post m sub st dl now :
    spy_wq_need_shrink now q = true ->
    wq_step (WqSys q (pre ++ Top :: post) m sub st dl)
            (WqSys (worker_shrink q) (pre ++ post) m sub st dl)
| step_take_top q q' pre post m sub st dl now w :
    spy_wq_need_shrink now q = false -> worker_take q = Some (w, q') ->
    wq_step (WqSys q (pre ++ Top :: post) m sub st dl)
            (WqSys q' (pre ++ Busy w :: post) m sub (st ++ [w]) dl)
| step_wait_top q pre post m sub st dl now :
    spy_wq_need_shrink now q = false -> worker_take q = None ->
    wq_step (WqSys q (pre ++ Top :: post) m sub st dl)
            (WqSys q (pre ++ Waiting :: post) m sub st dl)
| step_take_woken q q' pre post m sub st dl w :
    worker_take q = Some (w, q') ->
    wq_step (WqSys q (pre ++ Woken :: post) m sub st dl)
            (WqSys q' (pre ++ Busy w :: post) m sub (st ++ [w]) dl)
| step_wait_woken q pre post m sub st dl :
    worker_take q = None ->
    wq_step (WqSys q (pre ++ Woken :: post) m sub st dl)
            (WqSys q (pre ++ Waiting :: post) m sub st dl)
| step_post q pre post m sub st dl w :
    wq_step (WqSys q (pre ++ Busy w :: post) m sub st dl)
            (WqSys (worker_post w q) (pre ++ Posted :: post) m sub st dl)
| step_notify q pre post m sub st dl :
    wq_step (WqSys q (pre ++ Posted :: post) m sub st dl)
            (WqSys (worker_notify q) (pre ++ Top :: post) m sub st dl)
| step_deliver q q' ts sub st dl l :
    splice_finished q = (l, q') ->
    wq_step (WqSys q ts Free sub st dl) (WqSys q' ts Free sub st (dl ++ l)).

(** The pool as [spy_setup_work_queue] leaves it. *)
Inductive wq_reachable : wq_sys -> Prop :=
| wq_init oks now q made :
    spy_create_work_queue oks now DEF_WQ_NR_THRS = Ret (q, made) ->
    wq_reachable (WqSys q (replicate made Top) Free [] [] [])
| wq_next s s' : wq_reachable s -> wq_step s s' -> wq_reachable s'.

End Queue.

Arguments spy_work_queue_t : clear implicits.
Arguments worker : clear implicits.
Arguments submitter : clear implicits.
Arguments wq_sys : clear implicits.

End Work.
Export Work.

(** ** The invariant *)

Section Inv.
Context {W : Type}.
Implicit Types (q : spy_work_queue_t W) (ts : list (worker W)) (s : wq_sys W).

Definition busy1 (t : worker W) : list W := match t with Busy w => [w] | _ => [] end.
Definition busy ts : list W := concat (map busy1 ts).
Definition posted1 (t : worker W) : Z := match t with Posted => 1 | _ => 0 end.
Definition woken1 (t : worker W) : Z := match t with Woken => 1 | _ => 0 end.
Definition total (f : worker W -> Z) ts : Z := foldr (fun t n => f t + n) 0 ts.
Definition in_main (m : submitter W) : list W := match m with Counted w => [w] | _ => [] end.
Definition signals (m : submitter W) : Z := match m with Signal => 1 | _ => 0 end.

Record wq_inv s : Prop := {
  wi_threads : nr_threads (queue s) = zlen (threads s);
  wi_bounds : 4 <= nr_threads (queue s) <= 36;
  wi_works : nr_works (queue s) = zlen (pending_list (queue s)) + zlen (busy (threads s))
    + total posted1 (threads s) + zlen (in_main (main s)) /\ nr_works (queue s) < 2 ^ 31;
  wi_fifo : submitted s = started s ++ pending_list (queue s) ++ in_main (main s);
  wi_started : started s ≡ₚ delivered s ++ finished_list (queue s) ++ busy (threads s);
  wi_wakeup : zlen (pending_list (queue s)) <= total woken1 (threads s) + signals (main s)
    \/ Waiting ∉ threads s
}.

Lemma busy_app ts ts' : busy (ts ++ ts') = busy ts ++ busy ts'.
Proof. unfold busy. by rewrite map_app, concat_app. Qed.
Lemma busy_cons t ts : busy (t :: ts) = busy1 t ++ busy ts.
Proof. done. Qed.
Lemma total_app f ts ts' : total f (ts ++ ts') = total f ts + total f ts'.
Proof. induction ts as [|t ts IH]; cbn; [done|]. unfold total in *. lia. Qed.
Lemma total_cons f t ts : total f (t :: ts) = f t + total f ts.
Proof. done. Qed.
Lemma total_nonneg f ts : (forall t, 0 <= f t) -> 0 <= total f ts.
Proof. intros Hf. induction ts as [|t ts IH]; cbn; [lia|]. pose proof (Hf t). unfold total in *. lia. Qed.
Lemma woken_nonneg ts : 0 <= total woken1 ts.
Proof. apply total_nonneg. by intros []. Qed.
Lemma posted_nonneg ts : 0 <= total posted1 ts.
Proof. apply total_nonneg. by intros []. Qed.
Lemma busy_top n : busy (replicate n Top) = [].
Proof. by induction n. Qed.
Lemma total_top f n : f Top = 0 -> total f (replicate n Top) = 0.
Proof. intros Hf. induction n as [|n IH]; cbn; [done|]. rewrite Hf. unfold total in IH. lia. Qed.

Lemma with_nr_threads_id q : with_nr_threads (nr_threads q) q = q.
Proof. by destruct q. Qed.

Lemma create_threads_spec oks q n made r q' made' :
  0 <= nr_threads q < 2 ^ 31 - 1 -> n < 2 ^ 31 ->
  spy_create_worker_threads oks q n made = Ret (r, q', made') ->
  exists k, q' = with_nr_threads (nr_threads q + Z.of_nat k) q /\ made' = (made + k)%nat /\
    nr_threads q + Z.of_nat k <= Z.max (nr_threads q) n /\ (r = 0 -> n <= nr_threads q + Z.of_nat k).
Proof.
  assert (H0 : forall q made r, (r = 0 -> n <= nr_threads q) -> exists k,
    q = with_nr_threads (nr_threads q + Z.of_nat k) q /\ made = (made + k)%nat /\
    nr_threads q + Z.of_nat k <= Z.max (nr_threads q) n /\ (r = 0 -> n <= nr_threads q + Z.of_nat k)).
  { intros x m r0 Hr. exists 0%nat. rewrite Z.add_0_r, Nat.add_0_r, with_nr_threads_id. split_and!; done || lia. }
  revert q made. induction oks as [|ok oks IH]; intros q made Hq Hn H; cbn in H;
    destruct (Z.ltb_spec (nr_threads q) n) as [Hlt|Hge]; inv_ret.
  - apply H0; lia.
  - apply H0; lia.
  - destruct ok.
    + rewrite i32_small in H by lia.
      destruct (decide (nr_threads q + 1 < 2 ^ 31 - 1)); last first.
      { destruct oks as [|ok oks']; cbn in H; destruct (Z.ltb_spec (nr_threads q + 1) n); try lia; inv_ret;
          exists 1%nat; (split_and!; [done|lia|lia|lia]). }
      apply IH in H as (k & -> & -> & Hk & Hr); cbn in *; [|lia|done].
      exists (S k). split_and!; try lia. unfold with_nr_threads. cbn. f_equal. lia.
    + inv_ret. apply H0; lia.
  - apply H0; lia.
Qed.

Lemma queue_critical_spec oks now w q q' made :
  4 <= nr_threads q <= 36 -> 0 <= nr_works q < 2 ^ 31 ->
  queue_critical oks now w q = Ret (q', made) ->
  nr_threads q' = nr_threads q + Z.of_nat made /\ nr_threads q' <= 36 /\
  pending_list q' = pending_list q ++ [w] /\ finished_list q' = finished_list q /\
  nr_works q' = nr_works q.
Proof.
  intros Hq Hw H. unfold queue_critical in H. apply bind_Ret_inv in H as ([q1 made1] & H1 & H).
  inv_ret. destruct (spy_wq_need_expand q) eqn:E; last by (inv_ret; cbn; split_and!; try done; lia).
  apply bind_Ret_inv in H1 as ([[r q2] made2] & H2 & H1). inv_ret.
  unfold spy_wq_need_expand in E. cbv zeta in E. apply andb_true_iff in E as [_ E].
  apply Z.ltb_lt in E. unfold DEF_WQ_NR_THRS in E. rewrite !u64_small in E by (rewrite ?u64_small; lia).
  rewrite i32_small in H2 by lia.
  apply create_threads_spec in H2 as (k & -> & -> & Hk & _); [|lia|lia]. cbn in *.
  split_and!; try done; lia.
Qed.

Lemma need_shrink_threads now q :
  4 <= nr_threads q <= 36 -> spy_wq_need_shrink now q = true -> 5 <= nr_threads q.
Proof.
  intros Hq E. unfold spy_wq_need_shrink in E. cbv zeta in E.
  apply andb_true_iff in E as [E _]. apply andb_true_iff in E as [_ E]. apply Z.ltb_lt in E.
  unfold DEF_WQ_NR_THRS in E. rewrite (u64_small (nr_threads q)) in E by lia.
  rewrite u64_small in E by lia. change (10 / 2) with 5 in E. lia.
Qed.

Lemma worker_take_some q w q' :
  worker_take q = Some (w, q') -> pending_list q = w :: pending_list q' /\
    q' = with_pending (pending_list q') q.
Proof. unfold worker_take. destruct (pending_list q); [done|]. intros [= <- <-]. done. Qed.
Lemma worker_take_none q : worker_take q = None -> pending_list q = [].
Proof. unfold worker_take. by destruct (pending_list q). Qed.

Lemma wq_init_inv oks now q made :
  spy_create_work_queue oks now DEF_WQ_NR_THRS = Ret (q, made) ->
  wq_inv (WqSys q (replicate made Top) Free [] [] []).
Proof.
  intros H. unfold spy_create_work_queue in H. apply bind_Ret_inv in H as ([[r q1] made1] & H1 & H).
  apply bind_Ret_inv in H as (u & Hr & H). apply c_assert_inv, Z.eqb_eq in Hr. inv_ret.
  unfold DEF_WQ_NR_THRS in H1.
  apply create_threads_spec in H1 as (k & -> & -> & Hk & Hk0); [|cbn; lia|lia].
  specialize (Hk0 eq_refl). cbn in *. assert (k = 10%nat) as -> by lia.
  split; cbn; try done. left. rewrite (@zlen_nil W). done.
Qed.

(** Counting after one worker has moved. *)
Ltac counts :=
  cbn [queue threads main submitted started delivered pending_list finished_list nr_threads nr_works
       in_main signals with_pending with_nr_threads with_nr_works worker_post worker_notify
       worker_shrink queue_count] in *;
  rewrite ?busy_app, ?busy_cons, ?total_app, ?total_cons, ?zlen_app, ?zlen_cons in *;
  cbn [busy1 posted1 woken1 app] in *; rewrite ?zlen_cons, ?(@zlen_nil W) in *.

Lemma not_waiting_replace pre post (t t' : worker W) :
  t <> Waiting -> Waiting ∉ pre ++ t' :: post -> Waiting ∉ pre ++ t :: post.
Proof.
  rewrite !not_elem_of_app, !not_elem_of_cons. intros Ht (H1 & H2 & H3). by split_and!.
Qed.

Lemma not_waiting_drop pre post (t : worker W) :
  Waiting ∉ pre ++ t :: post -> Waiting ∉ pre ++ post.
Proof. rewrite !not_elem_of_app, not_elem_of_cons. tauto. Qed.

Lemma waiting_in pre post : ~ (Waiting ∉ pre ++ @Waiting W :: post).
Proof. rewrite not_elem_of_app, not_elem_of_cons. tauto. Qed.

(** The submitting thread's steps keep the invariant. *)
Lemma wq_count_inv q ts sub st dl w :
  nr_works q < 2 ^ 31 - 1 -> wq_inv (WqSys q ts Free sub st dl) ->
  wq_inv (WqSys (queue_count q) ts (Counted w) (sub ++ [w]) st dl).
Proof.
  intros Hn [I1 I2 [I3 I4] I5 I6 I7]. counts.
  pose proof (posted_nonneg ts). zlen_pos.
  split; counts; try done.
  - rewrite i32_small by lia. lia.
  - by rewrite I5, app_nil_r, <- app_assoc.
Qed.

Lemma wq_enqueue_inv q q' ts sub st dl w oks now made :
  queue_critical oks now w q = Ret (q', made) -> wq_inv (WqSys q ts (Counted w) sub st dl) ->
  wq_inv (WqSys q' (ts ++ replicate made Top) Signal sub st dl).
Proof.
  intros H [I1 I2 [I3 I4] I5 I6 I7]. counts. pose proof (posted_nonneg ts).
  apply queue_critical_spec in H as (Q1 & Q2 & Q3 & Q4 & Q5); [|done|zlen_pos; lia].
  split; counts; rewrite ?busy_top, ?total_top, ?app_nil_r by done.
  - unfold zlen in *. rewrite length_replicate. lia.
  - lia.
  - rewrite Q5, Q3, zlen_app, zlen_cons, !zlen_nil. split; [lia|done].
  - by rewrite Q3, I5.
  - by rewrite Q4.
  - rewrite Q3, zlen_app, zlen_cons, zlen_nil. destruct I7 as [I7|I7]; [left; lia|right].
    intros Hin. apply elem_of_app in Hin as [Hin|Hin]; [done|].
    by apply elem_of_replicate_inv in Hin.
Qed.

(** A worker that takes the first pending work. *)
Lemma wq_take_inv q q' pre post m sub st dl w t :
  (t = Top \/ t = Woken) -> worker_take q = Some (w, q') ->
  wq_inv (WqSys q (pre ++ t :: post) m sub st dl) ->
  wq_inv (WqSys q' (pre ++ Busy w :: post) m sub (st ++ [w]) dl).
Proof.
  intros Ht Hq [I1 I2 [I3 I4] I5 I6 I7]. apply worker_take_some in Hq as [Hp ->].
  set (l := pending_list q') in *. clearbody l. counts. rewrite Hp in *. rewrite zlen_cons in *.
  pose proof (woken_nonneg pre). pose proof (woken_nonneg post).
  split; counts; try done.
  - destruct Ht as [-> | ->]; cbn [busy1 posted1] in *; rewrite ?(@zlen_nil W) in *; lia.
  - rewrite I5, <- app_assoc. done.
  - rewrite I6. destruct Ht as [-> | ->]; cbn [busy1 app];
      rewrite <- !app_assoc; do 3 apply Permutation_app_head; symmetry; apply Permutation_cons_append.
  - destruct I7 as [I7|I7]; [left; destruct Ht as [-> | ->]; cbn in I7; lia|right].
    eapply not_waiting_replace; [|exact I7]. done.
Qed.

Lemma wq_step_inv s s' : wq_inv s -> wq_step s s' -> wq_inv s'.
Proof.
  intros I Hst. revert I. destruct Hst as [q ts sub st dl w Hn|q q' ts sub st dl w oks now made H
    |q pre post sub st dl|q ts sub st dl Hn|q pre post m sub st dl|q pre post m sub st dl now H
    |q q' pre post m sub st dl now w H Hq|q pre post m sub st dl now H Hq
    |q q' pre post m sub st dl w Hq|q pre post m sub st dl Hq|q pre post m sub st dl w
    |q pre post m sub st dl|q q' ts sub st dl l Hl]; intros I.
  - by apply wq_count_inv.
  - by eapply wq_enqueue_inv.
  - destruct I as [I1 I2 I3 I4 I5 I6]. counts. split; counts; try done.
    destruct I6 as [I6|I6]; [left; lia|by apply waiting_in in I6].
  - destruct I as [I1 I2 I3 I4 I5 I6]. counts. split; counts; try done. by right.
  - destruct I as [I1 I2 I3 I4 I5 I6]. counts. split; counts; try done.
    destruct I6 as [I6|I6]; [left; lia|by apply waiting_in in I6].
  - destruct I as [I1 I2 I3 I4 I5 I6]. pose proof (need_shrink_threads _ _ I2 H). counts.
    split; counts; rewrite ?i32_small by lia; try done; try lia.
    destruct I6 as [I6|I6]; [by left|right]. by eapply not_waiting_drop.
  - eapply wq_take_inv; [|exact Hq|exact I]. by left.
  - apply worker_take_none in Hq. destruct I as [I1 I2 I3 I4 I5 I6]. counts. split; counts; try done.
    left. rewrite Hq, zlen_nil. pose proof (woken_nonneg pre). pose proof (woken_nonneg post).
    destruct m; cbn; lia.
  - eapply wq_take_inv; [|exact Hq|exact I]. by right.
  - apply worker_take_none in Hq. destruct I as [I1 I2 I3 I4 I5 I6]. counts. split; counts; try done.
    left. rewrite Hq, zlen_nil. pose proof (woken_nonneg pre). pose proof (woken_nonneg post).
    destruct m; cbn; lia.
  - destruct I as [I1 I2 [I3 I3'] I4 I5 I6]. counts. split; counts; try done.
    + lia.
    + rewrite I5, <- !app_assoc. do 2 apply Permutation_app_head. cbn.
      rewrite Permutation_middle. done.
    + destruct I6 as [I6|I6]; [by left|right]. by eapply not_waiting_replace.
  - destruct I as [I1 I2 [I3 I3'] I4 I5 I6]. counts.
    pose proof (posted_nonneg pre). pose proof (posted_nonneg post).
    split; counts; try done.
    + rewrite i32_small by (zlen_pos; lia). lia.
    + destruct I6 as [I6|I6]; [by left|right]. by eapply not_waiting_replace.
  - injection Hl as <- <-. destruct I as [I1 I2 I3 I4 I5 I6]. counts. split; counts; try done.
    by rewrite I5, <- app_assoc.
Qed.

Lemma woken_exists ts : 0 < total woken1 ts -> Woken ∈ ts.
Proof.
  induction ts as [|t ts IH]; cbn; [lia|]. intros H.
  destruct t; cbn in H; try (right; apply IH; exact H). by left.
Qed.

Lemma wq_reachable_inv s : wq_reachable s -> wq_inv s.
Proof.
  induction 1 as [oks now q made H|s s' _ IH Hst]; [by eapply wq_init_inv|by eapply wq_step_inv].
Qed.

End Inv.

(** ** Properties *)

Module WorkQueueProps.

(** C28: in every interleaving of the submitting thread and the workers, works are
    started in exactly the order in which they were submitted, and every work
    that was started is running, posted or delivered, exactly once: none is
    lost and none is run or delivered twice. *)
Theorem works_run_once_in_order {W : Type} (s : wq_sys W) :
  wq_reachable s ->
  submitted s = started s ++ pending_list (queue s) ++ in_main (main s) /\
  started s ≡ₚ delivered s ++ finished_list (queue s) ++ busy (threads s).
Proof. intros H. apply wq_reachable_inv in H as [_ _ _ H1 H2 _]. done. Qed.

(** A pool with one queued work, before its signal. *)
Definition ex_queue : spy_work_queue_t nat := SpyWorkQueue [7%nat] [] 10 1 3 0.
Definition ex_sys : wq_sys nat := WqSys ex_queue (replicate 10 Top) Signal [7%nat] [] [].

Lemma ex_sys_reachable : wq_reachable ex_sys.
Proof.
  eapply wq_next; [eapply wq_next; [apply (wq_init (replicate 10 true) 3); by vm_compute|]|].
  - by apply (step_count _ _ _ _ _ 7%nat).
  - apply (step_enqueue _ ex_queue (replicate 10 Top) _ _ _ 7%nat [] 5 0). by vm_compute.
Qed.

Lemma works_run_once_in_order_witness :
  submitted ex_sys = started ex_sys ++ [7%nat] ++ [] /\
  started ex_sys ≡ₚ delivered ex_sys ++ [] ++ busy (threads ex_sys).
Proof. apply (works_run_once_in_order ex_sys ex_sys_reachable). Defined.

(** C39: the number of worker threads always equals [nr_threads] and stays between
    4 and 36, and [nr_works] counts the works that are queued, running or posted
    and not yet accounted for. *)
Theorem thread_count_bounded {W : Type} (s : wq_sys W) :
  wq_reachable s ->
  nr_threads (queue s) = zlen (threads s) /\ 4 <= nr_threads (queue s) <= 36 /\
  nr_works (queue s) = zlen (pending_list (queue s)) + zlen (busy (threads s))
    + total posted1 (threads s) + zlen (in_main (main s)).
Proof. intros H. apply wq_reachable_inv in H as [H1 H2 [H3 _] _ _ _]. done. Qed.

Lemma thread_count_bounded_witness :
  10 = zlen (threads ex_sys) /\ 4 <= 10 <= 36 /\
  1 = zlen [7%nat] + zlen (busy (threads ex_sys)) + total posted1 (threads ex_sys) + zlen (@nil nat).
Proof. apply (thread_count_bounded ex_sys ex_sys_reachable). Defined.

(** C29: no wake-up is lost: whenever works are pending, the submitting thread is
    about to signal, or some worker is awake (it has been woken, is at the top of
    its loop, or is finishing a work and will come back to the top), even though
    workers leave the pool when it shrinks. *)
Theorem no_lost_wakeup {W : Type} (s : wq_sys W) :
  wq_reachable s -> pending_list (queue s) <> [] ->
  main s = Signal \/ exists t, t ∈ threads s /\ t <> Waiting.
Proof.
  intros H Hp. apply wq_reachable_inv in H as [H1 H2 _ _ _ H6].
  assert (Hn : 0 < zlen (pending_list (queue s))).
  { destruct (pending_list (queue s)); [done|]. zl. }
  destruct H6 as [H6|H6].
  - destruct (main s) eqn:Em; [| |by left]; right; cbn in H6;
      (exists Woken; split; [apply woken_exists; lia|done]).
  - right. destruct (threads s) as [|t ts] eqn:E; [rewrite zlen_nil in H1; lia|].
    exists t. split; [by left|]. intros ->. apply H6. by left.
Qed.

Lemma no_lost_wakeup_witness :
  pending_list (queue ex_sys) <> [] /\
  (main ex_sys = Signal \/ exists t, t ∈ threads ex_sys /\ t <> Waiting).
Proof. split; [done|]. apply (no_lost_wakeup ex_sys ex_sys_reachable). done. Defined.

End WorkQueueProps.
