(* ===== verification/Worker.v ===== *)
(** * Worker: what the pool's threads run ([WORKER_FN] of [chunkserver/spy_store.c])

    Whatever the kernel answers and whatever is on disk, the functions a worker
    runs for a write, a read or a check make no undefined access to the buffers
    of the connection, and leave them well formed. *)

From S2P Require Import Prelude Utils RwBuffer Adler32 Store StoreFile.

(** ** Outcomes without an undefined access *)

Definition safely {A} (m : outcome A) (Q : A -> Prop) : Prop :=
  match m with
  | Ret a => Q a
  | Undef => False
  | Assert | Exit | Wait => True
  end.

Lemma safely_bind {A B} (m : outcome A) (f : A -> outcome B) Q :
  safely m (fun a => safely (f a) Q) -> safely (m ≫= f) Q.
Proof. by destruct m. Qed.
Lemma safely_mono {A} (m : outcome A) (Q R : A -> Prop) :
  safely m Q -> (forall a, Q a -> R a) -> safely m R.
Proof. destruct m; cbn; auto. Qed.
Lemma safely_ret {A} (m : outcome A) a (Q : A -> Prop) : m = Ret a -> Q a -> safely m Q.
Proof. by intros ->. Qed.
Lemma safely_assert b (Q : unit -> Prop) : (b = true -> Q tt) -> safely (c_assert b) Q.
Proof. intros H. destruct b; [by apply H|done]. Qed.

Section Worker.
Implicit Types (h : gmap loc spy_mem_block_t) (b : spy_rw_buffer_t) (disk : list byte)
  (script : list sysret).

Lemma pwrite_safe script disk d offset :
  safely (spy_pwrite script disk d offset) (fun r => r.1.1 = zlen d \/ r.1.1 = -1).
Proof.
  unfold spy_pwrite.
  assert (G : forall script disk d offset total,
    safely (spy_pwrite_loop script disk d offset total) (fun r => r.1.1 = total + zlen d \/ r.1.1 = -1)).
  { clear. induction script as [|r script IH]; intros disk d offset total; cbn [spy_pwrite_loop];
      destruct (Z.ltb_spec 0 (zlen d)); try done; cbn; try (left; zl).
    destruct (sys_pwrite disk d offset r) as [e|[w f']] eqn:E.
    - destruct (retryable e); [apply IH|by right].
    - case_b; [by right|]. eapply safely_mono; [apply IH|]. intros x [->| ->]; [left|by right].
      destruct r; cbn in E; [|done]. injection E as <- _. zl. }
  eapply safely_mono; [apply G|]. intros x [->| ->]; [left; lia|by right].
Qed.

Lemma pread_safe script disk n offset :
  0 <= n ->
  safely (spy_pread script disk n offset) (fun r => zlen r.1.2 <= n /\
    (r.1.1 = zlen r.1.2 \/ r.1.1 = -1)).
Proof.
  intros Hn. unfold spy_pread.
  assert (G : forall script count offset total acc, 0 <= count -> total = zlen acc ->
    safely (spy_pread_loop script disk count offset total acc) (fun r =>
      zlen r.1.2 <= zlen acc + count /\ (r.1.1 = zlen r.1.2 \/ r.1.1 = -1))).
  { clear. induction script as [|r script IH]; intros count offset total acc Hc ->; cbn [spy_pread_loop];
      destruct (Z.ltb_spec 0 count); try done; cbn; try (split; [lia|by left]).
    destruct (sys_pread disk count offset r) as [e|d] eqn:E.
    - destruct (retryable e); [by apply IH|cbn; split; [lia|by right]].
    - assert (Hd : zlen d <= count) by (destruct r; cbn in E; [|done]; injection E as <-; zl).
      case_b; [cbn; split; [lia|by right]|]. eapply safely_mono; [apply IH; [lia|zl]|].
      intros x [H1 H2]. split; [zl|done]. }
  eapply safely_mono; [apply (G script n offset 0 []); [done|reflexivity]|].
  intros x [H1 H2]. by rewrite zlen_nil in H1.
Qed.

Lemma adler_safe h b len :
  buf_wf h b -> safely (spy_buffer_adler32 0 h b len) (fun r => buf_wf h r.2 /\ same_queue b r.2).
Proof.
  intros W. pose proof (content_len _ _ W) as Hl. destruct (decide (len < 0)) as [Hneg|Hpos].
  - unfold spy_buffer_adler32. cbv zeta. apply safely_bind, safely_assert. intros _.
    replace (Z.to_nat len) with O by lia. cbn [buffer_adler_loop].
    destruct (Z.ltb_spec 0 len); [lia|]. rewrite bind_Ret.
    destruct (reset_read_spec h b (read_pos b) W) as (b2 & E & W2 & M2 & R2 & Wr & Cc & _); [apply W|].
    eapply safely_bind, safely_ret; [exact E|]. split; [exact W2|]. split_and!; done.
  - destruct (decide (len <= zlen (content h b))) as [Hle|Hgt].
    + destruct (scan_spec h b len W ltac:(lia)) as (b' & E & W' & Hq). by eapply safely_ret.
    + unfold spy_buffer_adler32. cbv zeta. apply safely_bind, safely_assert. intros H%Z.leb_le. lia.
Qed.

(** ** Writing *)

Lemma write_body_safe fuel script h disk b offset left :
  buf_wf h b -> left < 2 ^ 31 ->
  safely (write_body_loop fuel script h disk b offset left) (fun r =>
    buf_wf h r.1.2 /\ mem_blocks r.1.2 = mem_blocks b).
Proof.
  revert script disk b offset left. induction fuel as [|fuel IH]; intros script disk b offset left W Hl;
    cbn [write_body_loop]; destruct (Z.ltb_spec 0 left) as [Hp|]; try done.
  destruct (wf_pos _ _ W) as [Hpos _].
  destruct (decide (read_pos b = write_pos b)) as [E|E]; [rewrite next_readable_none by done; done|].
  destruct (next_readable_some h b W ltac:(lia)) as (rg & b1 & -> & (Q1 & _) & Hr & Hst). rewrite bind_Ret.
  set (n := Z.min (rg_len rg) left). assert (Hn : 0 < n <= rg_len rg /\ n < 2 ^ 31) by lia.
  rewrite (i32_small n) by lia. destruct (Hst n ltac:(lia)) as (-> & W1 & _). rewrite bind_Ret.
  apply safely_bind. eapply safely_mono; [apply pwrite_safe|]. intros [[nw disk1] script1] Hnw. cbn in Hnw.
  destruct (Z.eqb_spec (i32 nw) n) as [En|En]; cbn [negb].
  - rewrite En. eapply safely_mono; [apply IH; [done|rewrite i32_small; lia]|].
    intros r [Wr Mr]. split; [done|]. by rewrite Mr.
  - cbn. destruct (Hst 0 ltac:(lia)) as (_ & W0 & _). split; [|done].
    destruct b1. unfold advance_read, with_read in W0. cbn in W0. by rewrite Z.add_0_r in W0.
Qed.

Lemma write_file_safe script now h file chunk offset disk b :
  buf_wf h b ->
  safely (spy_write_file script now h file chunk offset disk b) (fun res =>
    buf_wf h (w_request res) /\ mem_blocks (w_request res) = mem_blocks b /\
    chunk_id (w_chunk res) = chunk_id chunk).
Proof.
  intros W. unfold spy_write_file, spy_fill_file_meta. apply safely_bind, safely_bind, safely_assert.
  intros _. apply safely_bind. eapply safely_mono; [by apply adler_safe|].
  intros [sum b1] [W1 (Q1 & _)]. cbn in W1, Q1. cbn [safely]. apply safely_bind.
  eapply safely_mono; [apply pwrite_safe|]. intros [[nw disk1] script1] _. cbn [fst snd].
  destruct (negb _); [by cbn|]. apply safely_bind. eapply safely_mono.
  - apply write_body_safe; [exact W1|]. unfold i32.
    pose proof (Z.mod_pos_bound (f_size file + 2 ^ 31) (2 ^ 32) ltac:(lia)). cbn [f_size]. lia.
  - intros [[[r disk2] b2] script2] [W2 M2]. cbn in W2, M2. rewrite Q1 in M2.
    destruct r as [rest|]; [|by cbn]. destruct (negb _); [by cbn|].
    unfold spy_write_chunk_superblock. apply safely_bind, safely_bind.
    eapply safely_ret; [apply fill_superblock_ok|]. apply safely_bind.
    eapply safely_mono; [apply pwrite_safe|]. intros [[? ?] ?] _. by cbn.
Qed.

(** ** Reading *)

(** What a worker's read leaves of the heap and of its buffer. *)
Definition refilled h b h' b' : Prop :=
  buf_wf h' b' /\ mem_blocks b' = mem_blocks b /\ same_shape h h' /\
  (forall y, y ∉ mem_blocks b -> h' !! y = h !! y).

Lemma refilled_trans h b h1 b1 h2 b2 : refilled h b h1 b1 -> refilled h1 b1 h2 b2 -> refilled h b h2 b2.
Proof.
  intros (_ & M1 & S1 & F1) (W2 & M2 & S2 & F2). rewrite M1 in *.
  split_and!; try done; [by eapply same_shape_trans|]. intros y Hy. by rewrite F2, F1.
Qed.

Lemma read_body_safe fuel script h disk b offset left :
  buf_wf h b -> left < 2 ^ 32 ->
  safely (read_body_loop fuel script h disk b offset left) (fun r => refilled h b r.1.2 r.2).
Proof.
  revert script h b offset left. induction fuel as [|fuel IH]; intros script h b offset left W Hl;
    cbn [read_body_loop]; destruct (Z.ltb_spec 0 left) as [Hp|]; try done.
  destruct (wf_pos _ _ W) as [_ Hcap].
  destruct (decide (write_pos b = cap b)) as [E|E]; [rewrite next_writeable_none by done; done|].
  destruct (next_writeable_some h b W ltac:(lia)) as (rg & b1 & -> & (Q1 & _) & Hr & Hst). rewrite bind_Ret.
  set (n := Z.min left (rg_len rg)). assert (Hn : 0 < n <= rg_len rg /\ n < 2 ^ 32) by lia.
  apply safely_bind. eapply safely_mono; [apply pread_safe; lia|].
  intros [[k d] script1] [Hd Hk]. cbn in Hd, Hk. destruct (Hst d ltac:(lia)) as (h1 & -> & S1).
  rewrite bind_Ret. pose proof S1 as (Hsh & W1 & _ & M1 & _ & _ & _ & Hfr). cbn in M1.
  assert (Hb1 : refilled h b h1 b1).
  { split_and!; try done. destruct (Hst [] ltac:(rewrite (@zlen_nil byte); lia)) as (h0 & _ & Sh0 & W0 & _).
    rewrite (@zlen_nil byte) in W0. eapply (same_shape_wf h0).
    - eapply same_shape_trans; [|exact Hsh]. intros l. by destruct (Sh0 l).
    - destruct b1. unfold advance_write, with_write in W0. cbn in W0. by rewrite Z.add_0_r in W0. }
  destruct (Z.eqb_spec (u64 (i32 k)) n) as [En|En]; cbn [negb]; [|done].
  pose proof (zlen_nonneg d) as Hd0.
  assert (Hkd : i32 k = zlen d).
  { destruct Hk as [->| ->]; [|change (u64 (i32 (-1))) with (2 ^ 64 - 1) in En; lia].
    destruct (decide (zlen d < 2 ^ 31)); [by apply i32_small; lia|].
    assert (Hi : i32 (zlen d) = zlen d - 2 ^ 32).
    { unfold i32. replace (zlen d + 2 ^ 31) with (zlen d - 2 ^ 31 + 1 * 2 ^ 32) by lia.
      rewrite Z.mod_add, Z.mod_small by lia. lia. }
    rewrite Hi in En. unfold u64 in En.
    replace (zlen d - 2 ^ 32) with (zlen d - 2 ^ 32 + 2 ^ 64 + (-1) * 2 ^ 64) in En by lia.
    rewrite Z.mod_add, Z.mod_small in En by lia. lia. }
  rewrite Hkd. eapply safely_mono; [apply IH; [exact W1|lia]|]. intros r Hr2.
  eapply refilled_trans; [|exact Hr2]. split_and!; try done.
Qed.

Lemma parse_meta_safe (l : list byte) : zlen l = FILE_META_SIZE -> safely (parse_file_meta l) (fun _ => True).
Proof.
  intros Hl. change FILE_META_SIZE with 30 in Hl. unfold parse_file_meta.
  destruct (read_from_8_ok l) as [? H1]; [lia|]. eapply safely_bind, safely_ret; [exact H1|].
  destruct (read_from_2_ok (zdrop 8 l)) as [? H2]; [zl|]. eapply safely_bind, safely_ret; [exact H2|].
  destruct (read_from_4_ok (zdrop 2 (zdrop 8 l))) as [? H3]; [zl|]. eapply safely_bind, safely_ret; [exact H3|].
  destruct (read_from_8_ok (zdrop 4 (zdrop 2 (zdrop 8 l)))) as [? H4]; [zl|].
  eapply safely_bind, safely_ret; [exact H4|].
  destruct (read_from_8_ok (zdrop 8 (zdrop 4 (zdrop 2 (zdrop 8 l))))) as [? H5]; [zl|].
  by eapply safely_bind, safely_ret; [exact H5|].
Qed.

Lemma read_file_safe script h x disk b :
  buf_wf h b -> 0 <= ie_size x < 2 ^ 32 ->
  safely (spy_read_file script h x disk b) (fun res => refilled h b (r_heap res) (r_rsp_body res)).
Proof.
  intros W Hs. unfold spy_read_file. apply safely_bind, safely_assert. intros _. apply safely_bind.
  eapply safely_mono; [apply read_body_safe; [done|lia]|]. intros [[okb h1] b1] R1. cbn in R1.
  destruct okb; cbn [negb]; [|done]. pose proof R1 as (W1 & M1 & _).
  destruct (read_n_loop_spec (Z.to_nat FILE_META_SIZE) h1 b1 FILE_META_SIZE [] W1 ltac:(done) ltac:(done))
    as (b2 & E2 & W2 & _ & M2 & _). apply safely_bind. eapply safely_ret; [exact E2|].
  apply safely_bind, safely_assert. intros Hm%Z.eqb_eq. apply safely_bind.
  eapply safely_mono; [by apply parse_meta_safe|]. intros file _. apply safely_bind.
  eapply safely_mono; [by apply adler_safe|]. intros [sum b3] [W3 (M3 & _)]. cbn in W3, M3. cbn.
  eapply refilled_trans; [exact R1|]. split_and!; try done. by rewrite M3.
Qed.

Lemma check_chunk_safe script rand disk : safely (spy_check_chunk script rand disk) (fun _ => True).
Proof.
  unfold spy_check_chunk. apply safely_bind. eapply safely_mono; [by apply pread_safe|].
  by intros [[? ?] ?] _.
Qed.

End Worker.
