(* ===== verification/Server.v ===== *)
(** * Server: [chunkserver/spy_server.c], [chunkserver/spy_obj_cache.c],
    [chunkserver/spy_enum.h]

    The connection state machine, the request handlers, the completion handlers
    of the jobs the worker threads run, and the periodic work, as programs over
    one server state.  Connections, jobs and chunks are objects with identity in
    heaps; a freed connection is gone from its heap, so using it is [Undef].
    The kernel's answers are in [env] and in the scripts of the socket calls. *)

From S2P Require Import Prelude Utils RwBuffer Adler32 Store Event WorkQueue.

Module Server.

(** ** Constants and enumerations *)

Definition DEF_MAX_CLIENTS : Z := 10240.
Definition DEF_MAX_IO_JOBS : Z := 5000.
Definition DEF_MAX_PENDING_WRITES : Z := 20.
Definition DEF_PENDING_WRITE_TIMEOUT : Z := 5.
Definition DEF_DETAIL_INFOS_HDR_SIZE : Z := 76.
Definition REQ_HDR_SIZE : Z := 1 + 4.
Definition REQ_INNER_HDR_SIZE : Z := 2 + 8.
Definition RSP_HDR_SIZE : Z := 1 + 1 + 4.

Definition SUCCESS : Z := 0.
Definition SERVER_ID_MISMATCH : Z := 1.
Definition CHUNK_UNAVAILABLE : Z := 2.
Definition FILE_NOT_FOUND : Z := 3.
Definition FILE_EXISTS : Z := 4.
Definition WRITE_ERROR : Z := 5.
Definition READ_ERROR : Z := 6.
Definition INTERNAL_ERROR : Z := 7.
Definition IO_JOB_UNAVAILABLE : Z := 8.
Definition REACH_MEMORY_LIMIT : Z := 9.
Definition KILLED : Z := 11.
Definition CHUNK_CHECK_ERROR : Z := 12.

Definition OPCODE_WRITE : Z := 0.
Definition OPCODE_READ : Z := 1.
Definition OPCODE_PING : Z := 10.
Definition OPCODE_CHECK_DISK : Z := 11.
Definition OPCODE_KILL_PD_WR : Z := 30.
Definition OPCODE_QUERY_IO_STATUS : Z := 31.
Definition OPCODE_QUERY_DETAIL_INFOS : Z := 32.
Definition OPCODE_DUMP_CHUNK : Z := 40.

Inductive spy_conn_state_t : Set := RECEIVE_HDR | RECEIVE_BODY | PROCESS_REQUEST | SEND_RSP.
#[export] Instance conn_state_eq_dec : EqDecision spy_conn_state_t.
Proof. solve_decision. Defined.

(** ** Data *)

Abbreviation connptr := nat.
Abbreviation jobptr := nat.

Record spy_connection_t : Type := SpyConnection {
  cn_fd : Z;
  request : spy_rw_buffer_t;
  rsp_body : spy_rw_buffer_t;
  rsp_header : list byte;
  sentlen : Z;
  opcode : Z;
  cn_error : Z;
  body_len : Z;
  state : spy_conn_state_t
}.

Definition with_fields (err len : Z) (st : spy_conn_state_t) (c : spy_connection_t) :=
  SpyConnection (cn_fd c) (request c) (rsp_body c) (rsp_header c) (sentlen c) (opcode c)
    err len st.
Definition with_header (hdr : list byte) (c : spy_connection_t) :=
  SpyConnection (cn_fd c) (request c) (rsp_body c) hdr (sentlen c) (opcode c)
    (cn_error c) (body_len c) (state c).
Definition with_request (b : spy_rw_buffer_t) (c : spy_connection_t) :=
  SpyConnection (cn_fd c) b (rsp_body c) (rsp_header c) (sentlen c) (opcode c)
    (cn_error c) (body_len c) (state c).
Definition with_rsp_body (b : spy_rw_buffer_t) (c : spy_connection_t) :=
  SpyConnection (cn_fd c) (request c) b (rsp_header c) (sentlen c) (opcode c)
    (cn_error c) (body_len c) (state c).
Definition with_sentlen (n : Z) (c : spy_connection_t) :=
  SpyConnection (cn_fd c) (request c) (rsp_body c) (rsp_header c) n (opcode c)
    (cn_error c) (body_len c) (state c).
Definition with_opcode (op len : Z) (st : spy_conn_state_t) (c : spy_connection_t) :=
  SpyConnection (cn_fd c) (request c) (rsp_body c) (rsp_header c) (sentlen c) op
    (cn_error c) len st.

(** The pair [work.fn] / [work.done] of an io job. *)
Inductive work_fn : Set := FnWrite | FnRead | FnCheck.

(** The union of [offset] and [index_entry]. *)
Inductive job_union : Type :=
| UOffset (offset : Z)
| UIndex (e : spy_file_index_entry_t).

Record spy_io_job_t : Type := SpyIoJob {
  j_retcode : Z;
  j_union : job_union;
  j_conn : option connptr;
  j_file : spy_file_t;
  j_chunk : option cptr;
  j_fn : option work_fn;
  j_req_time : Z
}.
Definition zero_job : spy_io_job_t :=
  SpyIoJob 0 (UOffset 0) None (SpyFile 0 0 0 0 0) None None 0.

Record spy_dump_job_t : Type := SpyDumpJob {
  dj_retcode : Z;
  dj_conn : connptr;
  dj_chunk : cptr;
  dj_name : list byte
}.

Inductive work : Type := WIo (j : jobptr) | WDump (d : jobptr).
#[export] Instance work_eq_dec : EqDecision work.
Proof. solve_decision. Defined.

(** The handlers registered with the event loop. *)
Inductive proc : Set :=
  P_read_handler | P_write_handler | P_accept_handler | P_wq_thread_done | P_server_cron.
#[export] Instance proc_eq_dec : EqDecision proc.
Proof. solve_decision. Defined.

Record spy_statistic_t : Type := SpyStatistic {
  read_bytes : Z; write_bytes : Z;
  read_count : Z; write_count : Z; read_error : Z; write_error : Z;
  conn_count : Z; reading_count : Z; writing_count : Z
}.

Record spy_report_info_t : Type := SpyReportInfo {
  ri_lock : Z;
  ri_pending_writes : Z; ri_writing_count : Z; ri_reading_count : Z; ri_n_chunks : Z;
  ri_conn_count : Z; ri_status : Z; ri_total_free_space : Z; ri_max_free_space : Z
}.

Record server_t : Type := ServerT {
  sv_store : store_t;
  writing_chunks : list cptr;
  sv_pool : mem_pool;
  sv_el : aeEventLoop proc connptr;
  conns : gmap connptr spy_connection_t;
  io_jobs : gmap jobptr spy_io_job_t;
  free_io_jobs : list jobptr;
  dump_jobs : gmap jobptr spy_dump_job_t;
  pending_writes : list jobptr;
  pending_writes_size : Z;
  sv_wq : spy_work_queue_t work;
  sv_stat : spy_statistic_t;
  sv_report : spy_report_info_t
}.

(** What the kernel and the clock answer during one handler, with the
    configuration: [config.server_id], and [server.status], which start-up sets
    and nothing changes. *)
Record env : Type := Env {
  e_server_id : Z;
  e_status : Z;
  e_now : Z;
  e_epoll : Z -> bool;
  e_threads : list bool;
  e_rand : Z;
  e_calloc : bool;
  e_blocking : bool
}.

Abbreviation M := (prog server_t).

(** *** Access to the parts of the state *)

Definition set_store (x : store_t) (s : server_t) :=
  ServerT x (writing_chunks s) (sv_pool s) (sv_el s) (conns s) (io_jobs s) (free_io_jobs s)
    (dump_jobs s) (pending_writes s) (pending_writes_size s) (sv_wq s) (sv_stat s) (sv_report s).
Definition set_chunk_lists (a w : list cptr) (s : server_t) :=
  ServerT (StoreT (chunk_heap (sv_store s)) a (chunk_index (sv_store s)) (n_chunks (sv_store s))
             (max_chunk_id (sv_store s)) (file_index (sv_store s)))
    w (sv_pool s) (sv_el s) (conns s) (io_jobs s) (free_io_jobs s)
    (dump_jobs s) (pending_writes s) (pending_writes_size s) (sv_wq s) (sv_stat s) (sv_report s).
Definition set_pool (x : mem_pool) (s : server_t) :=
  ServerT (sv_store s) (writing_chunks s) x (sv_el s) (conns s) (io_jobs s) (free_io_jobs s)
    (dump_jobs s) (pending_writes s) (pending_writes_size s) (sv_wq s) (sv_stat s) (sv_report s).
Definition set_el (x : aeEventLoop proc connptr) (s : server_t) :=
  ServerT (sv_store s) (writing_chunks s) (sv_pool s) x (conns s) (io_jobs s) (free_io_jobs s)
    (dump_jobs s) (pending_writes s) (pending_writes_size s) (sv_wq s) (sv_stat s) (sv_report s).
Definition set_conns (x : gmap connptr spy_connection_t) (s : server_t) :=
  ServerT (sv_store s) (writing_chunks s) (sv_pool s) (sv_el s) x (io_jobs s) (free_io_jobs s)
    (dump_jobs s) (pending_writes s) (pending_writes_size s) (sv_wq s) (sv_stat s) (sv_report s).
Definition set_jobs (x : gmap jobptr spy_io_job_t) (f : list jobptr) (s : server_t) :=
  ServerT (sv_store s) (writing_chunks s) (sv_pool s) (sv_el s) (conns s) x f
    (dump_jobs s) (pending_writes s) (pending_writes_size s) (sv_wq s) (sv_stat s) (sv_report s).
Definition set_dump_jobs (x : gmap jobptr spy_dump_job_t) (s : server_t) :=
  ServerT (sv_store s) (writing_chunks s) (sv_pool s) (sv_el s) (conns s) (io_jobs s)
    (free_io_jobs s) x (pending_writes s) (pending_writes_size s) (sv_wq s) (sv_stat s) (sv_report s).
Definition set_pending (l : list jobptr) (n : Z) (s : server_t) :=
  ServerT (sv_store s) (writing_chunks s) (sv_pool s) (sv_el s) (conns s) (io_jobs s)
    (free_io_jobs s) (dump_jobs s) l n (sv_wq s) (sv_stat s) (sv_report s).
Definition set_wq (x : spy_work_queue_t work) (s : server_t) :=
  ServerT (sv_store s) (writing_chunks s) (sv_pool s) (sv_el s) (conns s) (io_jobs s)
    (free_io_jobs s) (dump_jobs s) (pending_writes s) (pending_writes_size s) x (sv_stat s) (sv_report s).
Definition set_stat (x : spy_statistic_t) (s : server_t) :=
  ServerT (sv_store s) (writing_chunks s) (sv_pool s) (sv_el s) (conns s) (io_jobs s)
    (free_io_jobs s) (dump_jobs s) (pending_writes s) (pending_writes_size s) (sv_wq s) x (sv_report s).
Definition set_report (x : spy_report_info_t) (s : server_t) :=
  ServerT (sv_store s) (writing_chunks s) (sv_pool s) (sv_el s) (conns s) (io_jobs s)
    (free_io_jobs s) (dump_jobs s) (pending_writes s) (pending_writes_size s) (sv_wq s) (sv_stat s) x.

Definition get_conn (c : connptr) : M spy_connection_t :=
  s ← pget; plift (c_deref (conns s !! c)).
Definition put_conn (c : connptr) (cn : spy_connection_t) : M unit :=
  pmod (fun s => set_conns (<[c := cn]> (conns s)) s).
Definition get_job (j : jobptr) : M spy_io_job_t :=
  s ← pget; plift (c_deref (io_jobs s !! j)).
Definition put_job (j : jobptr) (job : spy_io_job_t) : M unit :=
  pmod (fun s => set_jobs (<[j := job]> (io_jobs s)) (free_io_jobs s) s).
Definition get_chunk (c : cptr) : M spy_chunk_t :=
  s ← pget; plift (c_deref (chunk_heap (sv_store s) !! c)).
(** [conn->error = err; conn->body_len = len; conn->state = st;] *)
Definition set_reply (c : connptr) (err len : Z) (st : spy_conn_state_t) : M unit :=
  cn ← get_conn c; put_conn c (with_fields err len st cn).

(** Counters of [statistic], at their widths. *)
Definition stat_conn (d : Z) (t : spy_statistic_t) :=
  SpyStatistic (read_bytes t) (write_bytes t) (read_count t) (write_count t) (read_error t)
    (write_error t) (u32 (conn_count t + d)) (reading_count t) (writing_count t).
Definition stat_reading (c d : Z) (t : spy_statistic_t) :=
  SpyStatistic (read_bytes t) (write_bytes t) (u64 (read_count t + c)) (write_count t) (read_error t)
    (write_error t) (conn_count t) (u32 (reading_count t + d)) (writing_count t).
Definition stat_writing (c d : Z) (t : spy_statistic_t) :=
  SpyStatistic (read_bytes t) (write_bytes t) (read_count t) (u64 (write_count t + c)) (read_error t)
    (write_error t) (conn_count t) (reading_count t) (u32 (writing_count t + d)).
Definition stat_read_error (t : spy_statistic_t) :=
  SpyStatistic (read_bytes t) (write_bytes t) (read_count t) (write_count t) (u64 (read_error t + 1))
    (write_error t) (conn_count t) (reading_count t) (writing_count t).
Definition stat_write_error (t : spy_statistic_t) :=
  SpyStatistic (read_bytes t) (write_bytes t) (read_count t) (write_count t) (read_error t)
    (u64 (write_error t + 1)) (conn_count t) (reading_count t) (writing_count t).
Definition stat_read_bytes (n : Z) (t : spy_statistic_t) :=
  SpyStatistic (u64 (read_bytes t + n)) (write_bytes t) (read_count t) (write_count t) (read_error t)
    (write_error t) (conn_count t) (reading_count t) (writing_count t).
Definition stat_write_bytes (n : Z) (t : spy_statistic_t) :=
  SpyStatistic (read_bytes t) (u64 (write_bytes t + n)) (read_count t) (write_count t) (read_error t)
    (write_error t) (conn_count t) (reading_count t) (writing_count t).
Definition count (f : spy_statistic_t -> spy_statistic_t) : M unit :=
  pmod (fun s => set_stat (f (sv_stat s)) s).

(** *** Calls of the other components on the server state *)

Definition remove_file_event (fd mask : Z) : M unit :=
  s ← pget; el ← plift (aeDeleteFileEvent (sv_el s) fd mask); pmod (set_el el).
Definition create_file_event (e : env) (fd mask : Z) (p : proc) (c : option connptr) : M Z :=
  s ← pget;
  '(r, el) ← plift (aeCreateFileEvent (e_epoll e fd) (sv_el s) fd mask p c);
  _ ← pmod (set_el el);
  mret r.
(** [spy_queue_work(server.wq, work)] *)
Definition queue_work (e : env) (w : work) : M unit :=
  s ← pget;
  '(wq, _) ← plift (queue_critical (e_threads e) (e_now e) w (queue_count (sv_wq s)));
  pmod (set_wq wq).
(** Give both buffers of a connection back to the pool. *)
Definition reset_buffers (c : connptr) : M unit :=
  cn ← get_conn c;
  s ← pget;
  let '(p, req) := spy_rw_buffer_reset (sv_pool s) (request cn) in
  let '(p, rsp) := spy_rw_buffer_reset p (rsp_body cn) in
  _ ← pmod (set_pool p);
  put_conn c (with_rsp_body rsp (with_request req cn)).

(** *** The io job cache *)

Definition spy_gen_io_job : M (option jobptr) :=
  s ← pget;
  match free_io_jobs s with
  | [] => mret None
  | j :: rest => _ ← pmod (set_jobs (io_jobs s) rest); mret (Some j)
  end.

Definition spy_free_io_job (j : jobptr) : M unit :=
  _ ← get_job j;
  pmod (fun s => set_jobs (<[j := zero_job]> (io_jobs s)) (j :: free_io_jobs s) s).

(** [spy_init_io_jobs(max)]: the array's elements, each added to the head. *)
Fixpoint init_io_jobs_loop (n : nat) (j : jobptr) (h : gmap jobptr spy_io_job_t) (l : list jobptr)
    : gmap jobptr spy_io_job_t * list jobptr :=
  match n with
  | O => (h, l)
  | S n' => init_io_jobs_loop n' (S j) (<[j := zero_job]> h) (j :: l)
  end.
Definition spy_init_io_jobs (max_io_jobs : Z) (calloc_ok : bool)
    : outcome (gmap jobptr spy_io_job_t * list jobptr) :=
  _ ← c_assert (0 <? max_io_jobs);
  _ ← c_assert calloc_ok;
  Ret (init_io_jobs_loop (Z.to_nat max_io_jobs) 0%nat ∅ []).

(** ** Connections and replies *)

Definition spy_free_client_connection (c : connptr) : M unit :=
  _ ← reset_buffers c;
  cn ← get_conn c;
  _ ← (if negb (cn_fd cn =? 0) then
         _ ← pmod (fun s => set_el (close_fd (cn_fd cn) (sv_el s)) s);
         remove_file_event (cn_fd cn) (Z.lor AE_READABLE AE_WRITABLE)
       else mret tt);
  _ ← count (stat_conn (-1));
  pmod (fun s => set_conns (delete c (conns s)) s).

Definition spy_send_response_if_needed (e : env) (c : connptr) : M unit :=
  cn ← get_conn c;
  if decide (state cn = SEND_RSP) then
    n ← create_file_event e (cn_fd cn) AE_WRITABLE P_write_handler (Some c);
    if n =? AE_ERR then spy_free_client_connection c else mret tt
  else mret tt.

Definition spy_reply_body (e : env) (c : connptr) : M unit := spy_send_response_if_needed e c.

Definition spy_reply_header (e : env) (c : connptr) : M unit :=
  cn ← get_conn c;
  _ ← put_conn c (with_header (spy_mach_write_to_1 (opcode cn) ++ spy_mach_write_to_1 (cn_error cn)
                                 ++ spy_mach_write_to_4 (body_len cn)) cn);
  spy_send_response_if_needed e c.

Definition spy_reset_client_connection (e : env) (c : connptr) : M unit :=
  cn ← get_conn c;
  _ ← remove_file_event (cn_fd cn) AE_WRITABLE;
  _ ← reset_buffers c;
  cn ← get_conn c;
  _ ← put_conn c (with_sentlen 0 (with_fields 0 0 RECEIVE_HDR cn));
  n ← create_file_event e (cn_fd cn) AE_READABLE P_read_handler (Some c);
  plift (c_assert (negb (n =? AE_ERR))).

(** [conn->error = err; ... conn->body_len = 0; conn->state = SEND_RSP;
    spy_reply_header(conn);], the common tail of the error branches. *)
Definition reply_error (e : env) (c : connptr) (err : Z) : M unit :=
  _ ← set_reply c err 0 SEND_RSP; spy_reply_header e c.

(** *** Sending

    The loop of [spy_write_handler]; each round is one [write], which takes
    [Xfer n] (at most what is offered) or fails.  The first component is what the
    socket has taken; the second tells whether the loop ran to its end. *)

Definition rsp_remaining (cn : spy_connection_t) : Z :=
  i32 (u32 (RSP_HDR_SIZE + body_len cn - sentlen cn)).

Fixpoint write_handler_loop (script : list sysret) (c : connptr) (out : list byte)
    : M (list byte * bool) :=
  cn ← get_conn c;
  let remaining := rsp_remaining cn in
  if 0 <? remaining then
    match script with
    | [] => plift Wait
    | r :: script' =>
        if sentlen cn <? RSP_HDR_SIZE then
          let snd := zdrop (sentlen cn) (rsp_header cn) in
          match r with
          | SysErr EAGAIN => mret (out, false)
          | SysErr _ => _ ← spy_free_client_connection c; mret (out, false)
          | Xfer n =>
              let d := ztake n snd in
              _ ← put_conn c (with_sentlen (i32 (sentlen cn + zlen d)) cn);
              write_handler_loop script' c (out ++ d)
          end
        else
          s ← pget;
          '(rg, body) ← plift (spy_rw_buffer_next_readable (mp_heap (sv_pool s)) (rsp_body cn));
          match rg with
          | None => plift Assert
          | Some rg =>
              let len := if remaining <? rg_len rg then remaining else rg_len rg in
              snd ← plift (block_read (mp_heap (sv_pool s)) (rg_block rg) (rg_off rg) len);
              let cn := with_rsp_body body cn in
              _ ← put_conn c cn;
              match r with
              | SysErr EAGAIN => mret (out, false)
              | SysErr _ => _ ← spy_free_client_connection c; mret (out, false)
              | Xfer n =>
                  let d := ztake n snd in
                  _ ← put_conn c (with_sentlen (i32 (sentlen cn + zlen d))
                                    (with_rsp_body (advance_read (zlen d) body) cn));
                  write_handler_loop script' c (out ++ d)
              end
          end
    end
  else mret (out, true).

Definition spy_write_handler (e : env) (script : list sysret) (c : connptr) : M (list byte) :=
  '(out, ended) ← write_handler_loop script c [];
  if (ended : bool) then
    cn ← get_conn c;
    _ ← (if u32 (sentlen cn) =? u32 (RSP_HDR_SIZE + body_len cn)
         then spy_reset_client_connection e c else mret tt);
    mret out
  else mret out.

(** ** Completion of jobs (run by the main thread) *)

Definition spy_read_file_done (e : env) (j : jobptr) : M unit :=
  job ← get_job j;
  c ← plift (c_deref (j_conn job));
  _ ← count (stat_reading 0 (-1));
  if negb (j_retcode job =? 0) then
    _ ← reply_error e c READ_ERROR;
    _ ← count stat_read_error;
    spy_free_io_job j
  else
    cn ← get_conn c;
    _ ← put_conn c (with_fields SUCCESS (f_size (j_file job)) (state cn) cn);
    _ ← spy_reply_header e c;
    cn ← get_conn c;
    _ ← put_conn c (with_fields (cn_error cn) (body_len cn) SEND_RSP cn);
    _ ← spy_reply_body e c;
    _ ← count (stat_read_bytes (f_size (j_file job)));
    spy_free_io_job j.

(** The first pending write that fits the chunk. *)
Fixpoint find_pending (jobs : gmap jobptr spy_io_job_t) (avail : Z) (l : list jobptr)
    : outcome (option jobptr) :=
  match l with
  | [] => Ret None
  | j :: l' =>
      tmp ← c_deref (jobs !! j);
      if u32 (f_size (j_file tmp) + FILE_META_SIZE) <? avail then Ret (Some j)
      else find_pending jobs avail l'
  end.

(** Hand the chunk to a pending write, or back to the allocation list
    ([list_move_tail(&chunk->c_list, &server.chunks)]). *)
Definition reuse_chunk (e : env) (p : cptr) (chunk : spy_chunk_t) : M unit :=
  s ← pget;
  pj ← (if 0 <? pending_writes_size s
        then plift (find_pending (io_jobs s) (avail_space chunk) (pending_writes s))
        else mret None);
  match pj with
  | Some pj =>
      job ← get_job pj;
      _ ← pmod (fun s => set_pending (List.filter (fun j => negb (Nat.eqb j pj)) (pending_writes s))
                           (u32 (pending_writes_size s - 1)) s);
      _ ← put_job pj (SpyIoJob (j_retcode job) (UOffset (current_offset chunk)) (j_conn job)
                        (j_file job) (Some p) (j_fn job) (j_req_time job));
      _ ← count (stat_writing 1 1);
      queue_work e (WIo pj)
  | None =>
      pmod (fun s => set_chunk_lists (chunks (sv_store s) ++ [p])
                       (List.filter (fun q => negb (Nat.eqb q p)) (writing_chunks s)) s)
  end.

Definition spy_write_file_done (e : env) (j : jobptr) : M unit :=
  job ← get_job j;
  c ← plift (c_deref (j_conn job));
  p ← plift (c_deref (j_chunk job));
  cn ← get_conn c;
  _ ← put_conn c (with_fields (cn_error cn) 0 (state cn) cn);
  _ ← count (stat_writing 0 (-1));
  s ← pget;
  let file := j_file job in
  let error_reply (err : Z) : M unit :=
    _ ← count stat_write_error;
    _ ← reply_error e c err;
    spy_free_io_job j in
  match spy_lookup_file_index (f_fid file) (sv_store s) with
  | Some _ => error_reply INTERNAL_ERROR
  | None =>
      chunk ← get_chunk p;
      _ ← reuse_chunk e p chunk;
      if negb (j_retcode job =? 0) then error_reply WRITE_ERROR
      else
        _ ← count (stat_write_bytes (f_size file));
        offset ← plift (match j_union job with UOffset o => Ret o | UIndex _ => Undef end);
        let head := f_fid file mod FILE_HASH_SIZE in
        let entry := SpyFileIndexEntry (chunk_id chunk) (f_fid file) offset
                       (u32 (f_size file + FILE_META_SIZE)) in
        _ ← pmod (fun s => set_store (with_file_index
                    (<[head := entry :: cell (file_index (sv_store s)) head]>
                       (file_index (sv_store s))) (sv_store s)) s);
        cn ← get_conn c;
        _ ← put_conn c (with_fields SUCCESS (body_len cn) SEND_RSP cn);
        _ ← spy_reply_header e c;
        spy_free_io_job j
  end.

Definition spy_check_chunk_done (e : env) (j : jobptr) : M unit :=
  job ← get_job j;
  c ← plift (c_deref (j_conn job));
  _ ← reply_error e c (if j_retcode job =? 0 then SUCCESS else CHUNK_CHECK_ERROR);
  spy_free_io_job j.

Definition spy_dump_chunkfile_done (e : env) (d : jobptr) : M unit :=
  s ← pget;
  job ← plift (c_deref (dump_jobs s !! d));
  _ ← pmod (set_dump_jobs (delete d (dump_jobs s)));
  if negb (dj_retcode job =? 0) then spy_free_client_connection (dj_conn job)
  else if negb (e_blocking e) then spy_free_client_connection (dj_conn job)
  else spy_reset_client_connection e (dj_conn job).

(** [work->done(work)] *)
Definition work_done (e : env) (w : work) : M unit :=
  match w with
  | WDump d => spy_dump_chunkfile_done e d
  | WIo j =>
      job ← get_job j;
      match j_fn job with
      | Some FnWrite => spy_write_file_done e j
      | Some FnRead => spy_read_file_done e j
      | Some FnCheck => spy_check_chunk_done e j
      | None => plift Undef
      end
  end.

Fixpoint done_loop (e : env) (l : list work) : M unit :=
  match l with
  | [] => mret tt
  | w :: l' => _ ← work_done e w; done_loop e l'
  end.

Definition spy_wq_thread_done (e : env) : M unit :=
  s ← pget;
  let '(l, wq) := splice_finished (sv_wq s) in
  _ ← pmod (set_wq wq);
  done_loop e l.

(** ** Request handlers *)

(** The [while] of [spy_kill_pending_writes]. *)
Fixpoint kill_loop (e : env) (l : list jobptr) : M unit :=
  match l with
  | [] => mret tt
  | j :: l' =>
      job ← get_job j;
      _ ← pmod (fun s => set_pending l' (u32 (pending_writes_size s - 1)) s);
      c ← plift (c_deref (j_conn job));
      _ ← reply_error e c KILLED;
      _ ← spy_free_io_job j;
      kill_loop e l'
  end.

Definition spy_kill_pending_writes (e : env) (c : connptr) : M unit :=
  s ← pget;
  _ ← kill_loop e (pending_writes s);
  reply_error e c 0.

(** [while (conn->rsp_body.cap < size) if (spy_rw_buffer_expand(...) < 0) ...]:
    false when the pool gives no block.  Each round adds a block, so the number
    of bytes bounds the rounds. *)
Fixpoint expand_rsp_loop (fuel : nat) (c : connptr) (size : Z) : M bool :=
  cn ← get_conn c;
  if cap (rsp_body cn) <? size then
    match fuel with
    | O => plift Wait
    | S fuel' =>
        s ← pget;
        '(r, p, b) ← plift (spy_rw_buffer_expand (sv_pool s) (rsp_body cn));
        _ ← pmod (set_pool p);
        _ ← put_conn c (with_rsp_body b cn);
        if r <? 0 then mret false else expand_rsp_loop fuel' c size
    end
  else mret true.

(** Reply with the fixed body [body]: both query handlers. *)
Definition reply_with_body (e : env) (c : connptr) (body : list byte) : M unit :=
  ok ← expand_rsp_loop (length body) c (zlen body);
  if negb ok then reply_error e c REACH_MEMORY_LIMIT
  else
    cn ← get_conn c;
    _ ← put_conn c (with_fields 0 (u32 (zlen body)) (state cn) cn);
    _ ← spy_reply_header e c;
    cn ← get_conn c;
    s ← pget;
    '(n, h, b) ← plift (spy_rw_buffer_write_n (mp_heap (sv_pool s)) (rsp_body cn) body);
    _ ← pmod (set_pool (with_mp_heap h (sv_pool s)));
    _ ← put_conn c (with_rsp_body b cn);
    _ ← plift (c_assert (n =? zlen body));
    cn ← get_conn c;
    _ ← put_conn c (with_fields (cn_error cn) (body_len cn) SEND_RSP cn);
    spy_reply_body e c.

Definition spy_query_io_status (e : env) (c : connptr) : M unit :=
  s ← pget;
  reply_with_body e c
    (spy_mach_write_to_4 (pending_writes_size s) ++ spy_mach_write_to_4 (writing_count (sv_stat s))
       ++ spy_mach_write_to_4 (reading_count (sv_stat s))).

(** The two [list_for_each_entry] loops: the bytes for each chunk, and the sum of
    the file counts. *)
Fixpoint detail_chunks (h : gmap cptr spy_chunk_t) (l : list cptr) (files : Z)
    : outcome (list byte * Z) :=
  match l with
  | [] => Ret ([], files)
  | p :: l' =>
      tmp ← c_deref (h !! p);
      '(rest, files) ← detail_chunks h l' (u64 (files + files_count tmp));
      Ret (spy_mach_write_to_8 (chunk_id tmp) ++ spy_mach_write_to_8 (avail_space tmp) ++ rest, files)
  end.

(** The body is built in a [malloc]ed buffer of [size] bytes; writing past it, or
    sending a part that was never written, is undefined. *)
Definition spy_query_detail_infos (e : env) (c : connptr) : M unit :=
  s ← pget;
  let st := sv_store s in
  let t := sv_stat s in
  let size := u64 (DEF_DETAIL_INFOS_HDR_SIZE + u64 (n_chunks st) * 16) in
  '(b1, files) ← plift (detail_chunks (chunk_heap st) (chunks st) 0);
  '(b2, files) ← plift (detail_chunks (chunk_heap st) (writing_chunks s) files);
  let body := spy_mach_write_to_4 (conn_count t) ++ spy_mach_write_to_4 (reading_count t)
    ++ spy_mach_write_to_4 (writing_count t) ++ spy_mach_write_to_4 (pending_writes_size s)
    ++ spy_mach_write_to_8 (read_count t) ++ spy_mach_write_to_8 (write_count t)
    ++ spy_mach_write_to_8 (read_error t) ++ spy_mach_write_to_8 (write_error t)
    ++ spy_mach_write_to_8 (read_bytes t) ++ spy_mach_write_to_8 (write_bytes t)
    ++ spy_mach_write_to_4 (n_chunks st) ++ b1 ++ b2 ++ spy_mach_write_to_8 files in
  _ ← plift (if zlen body =? size then Ret tt else Undef);
  reply_with_body e c body.

Definition spy_handle_ping (e : env) (c : connptr) : M unit :=
  cn ← get_conn c;
  _ ← remove_file_event (cn_fd cn) AE_READABLE;
  reply_error e c SUCCESS.

(** [spy_rw_buffer_read_n(&conn->request, buf, n)] *)
Definition read_request (c : connptr) (n : Z) : M (list byte) :=
  cn ← get_conn c;
  s ← pget;
  '(d, b) ← plift (spy_rw_buffer_read_n (mp_heap (sv_pool s)) (request cn) n);
  _ ← put_conn c (with_request b cn);
  mret d.

(** The first chunk of the allocation list with enough room. *)
Fixpoint find_chunk (h : gmap cptr spy_chunk_t) (need : Z) (l : list cptr)
    : outcome (option cptr) :=
  match l with
  | [] => Ret None
  | p :: l' =>
      tmp ← c_deref (h !! p);
      if need <? avail_space tmp then Ret (Some p) else find_chunk h need l'
  end.

(** The job of a write request, queued or made to wait. *)
Definition submit_write (e : env) (c : connptr) (j : jobptr) (fid len : Z) (chunk : option cptr)
    : M unit :=
  job ← get_job j;
  let file := SpyFile fid 1 len (f_checksum (j_file job)) (f_timestamp (j_file job)) in
  cn ← get_conn c;
  _ ← remove_file_event (cn_fd cn) AE_READABLE;
  match chunk with
  | Some p =>
      _ ← count (stat_writing 1 1);
      ch ← get_chunk p;
      _ ← put_job j (SpyIoJob (j_retcode job) (UOffset (current_offset ch)) (Some c) file (Some p)
                       (Some FnWrite) (j_req_time job));
      queue_work e (WIo j)
  | None =>
      _ ← put_job j (SpyIoJob (j_retcode job) (UOffset 0) (Some c) file None (Some FnWrite) (e_now e));
      pmod (fun s => set_pending (pending_writes s ++ [j]) (u32 (pending_writes_size s + 1)) s)
  end.

Definition spy_handle_write (e : env) (c : connptr) : M unit :=
  let error_reply (err : Z) : M unit := _ ← count stat_write_error; reply_error e c err in
  cn ← get_conn c;
  _ ← plift (c_assert (REQ_INNER_HDR_SIZE <=? body_len cn));
  let len := u32 (body_len cn - 8 - 2) in
  hdr ← read_request c REQ_INNER_HDR_SIZE;
  _ ← plift (c_assert (zlen hdr =? REQ_INNER_HDR_SIZE));
  server_id ← plift (spy_mach_read_from_2 hdr);
  fid ← plift (spy_mach_read_from_8 (zdrop 2 hdr));
  if negb (server_id =? e_server_id e) then error_reply SERVER_ID_MISMATCH
  else
    s ← pget;
    match spy_lookup_file_index fid (sv_store s) with
    | Some _ => error_reply FILE_EXISTS
    | None =>
        chunk ← plift (find_chunk (chunk_heap (sv_store s)) (u32 (len + FILE_META_SIZE))
                         (chunks (sv_store s)));
        if is_none chunk && (DEF_MAX_PENDING_WRITES <=? pending_writes_size s)
        then error_reply CHUNK_UNAVAILABLE
        else
          _ ← (match chunk with
               | Some p =>
                   pmod (fun s => set_chunk_lists
                           (List.filter (fun q => negb (Nat.eqb q p)) (chunks (sv_store s)))
                           (p :: writing_chunks s) s)
               | None => mret tt
               end);
          io_job ← spy_gen_io_job;
          match io_job with
          | None => error_reply IO_JOB_UNAVAILABLE
          | Some j => submit_write e c j fid len chunk
          end
    end.

(** The search of a hash chain for a chunk id; without a match the variable the
    code uses stays uninitialised. *)
Fixpoint lookup_chunk (h : gmap cptr spy_chunk_t) (bucket : list cptr) (id : Z) : outcome (option cptr) :=
  match bucket with
  | [] => Ret None
  | p :: bucket' =>
      ctmp ← c_deref (h !! p);
      if chunk_id ctmp =? id then Ret (Some p) else lookup_chunk h bucket' id
  end.

Definition spy_handle_read (e : env) (c : connptr) : M unit :=
  let error_reply (err : Z) : M unit := _ ← count stat_read_error; reply_error e c err in
  hdr ← read_request c REQ_INNER_HDR_SIZE;
  _ ← plift (c_assert (zlen hdr =? REQ_INNER_HDR_SIZE));
  server_id ← plift (spy_mach_read_from_2 hdr);
  fid ← plift (spy_mach_read_from_8 (zdrop 2 hdr));
  if negb (server_id =? e_server_id e) then error_reply SERVER_ID_MISMATCH
  else
    s ← pget;
    match spy_lookup_file_index fid (sv_store s) with
    | None => error_reply FILE_NOT_FOUND
    | Some entry =>
        let st := sv_store s in
        r ← plift (lookup_chunk (chunk_heap st)
                     (cell (chunk_index st) (ie_chunk_id entry mod CHUNK_HASH_SIZE))
                     (ie_chunk_id entry));
        chunk ← plift (c_deref r);
        ok ← expand_rsp_loop (Z.to_nat (ie_size entry)) c (ie_size entry);
        if negb ok then error_reply REACH_MEMORY_LIMIT
        else
          io_job ← spy_gen_io_job;
          match io_job with
          | None => error_reply IO_JOB_UNAVAILABLE
          | Some j =>
              job ← get_job j;
              _ ← put_job j (SpyIoJob (j_retcode job) (UIndex entry) (Some c) (j_file job) (Some chunk)
                               (Some FnRead) (j_req_time job));
              _ ← count (stat_reading 1 1);
              cn ← get_conn c;
              _ ← remove_file_event (cn_fd cn) AE_READABLE;
              queue_work e (WIo j)
          end
    end.

Definition spy_handle_check_disk (e : env) (c : connptr) : M unit :=
  s ← pget;
  let st := sv_store s in
  _ ← plift (if n_chunks st =? 0 then Undef else Ret tt);
  let id := u64 (Z.rem (e_rand e) (n_chunks st) + 1) in
  r ← plift (lookup_chunk (chunk_heap st) (cell (chunk_index st) (id mod CHUNK_HASH_SIZE)) id);
  chunk ← plift (c_deref r);
  io_job ← spy_gen_io_job;
  match io_job with
  | None => reply_error e c IO_JOB_UNAVAILABLE
  | Some j =>
      job ← get_job j;
      _ ← put_job j (SpyIoJob (j_retcode job) (j_union job) (Some c) (j_file job) (Some chunk)
                       (Some FnCheck) (j_req_time job));
      cn ← get_conn c;
      _ ← remove_file_event (cn_fd cn) AE_READABLE;
      queue_work e (WIo j)
  end.

(** A C string: the bytes before the first zero. *)
Fixpoint c_string (l : list byte) : list byte :=
  match l with
  | [] => []
  | b :: l' => if bool_decide (b = b00) then [] else b :: c_string l'
  end.

Fixpoint find_path (h : gmap cptr spy_chunk_t) (suffix : list byte) (l : list cptr)
    : outcome (option cptr) :=
  match l with
  | [] => Ret None
  | p :: l' =>
      tmp ← c_deref (h !! p);
      if spy_string_ends_with (Some (c_path tmp)) (Some suffix) then Ret (Some p)
      else find_path h suffix l'
  end.

Definition spy_dump_chunk (e : env) (c : connptr) : M unit :=
  _ ← plift (c_assert (e_calloc e));
  cn ← get_conn c;
  if CHUNK_FILENAME_LEN_MAX <=? body_len cn then reply_error e c INTERNAL_ERROR
  else
    name ← read_request c (body_len cn);
    _ ← plift (c_assert (zlen name =? body_len cn));
    s ← pget;
    r ← plift (find_path (chunk_heap (sv_store s)) (slash :: c_string name) (chunks (sv_store s)));
    match r with
    | None => reply_error e c FILE_NOT_FOUND
    | Some p =>
        if negb (e_blocking e) then reply_error e c INTERNAL_ERROR
        else
          let d := fresh (dom (dump_jobs s)) in
          _ ← pmod (fun s => set_dump_jobs (<[d := SpyDumpJob 0 c p name]> (dump_jobs s)) s);
          _ ← remove_file_event (cn_fd cn) AE_READABLE;
          queue_work e (WDump d)
    end.

(** ** Receiving *)

Definition dispatch (e : env) (c : connptr) (op : Z) : M unit :=
  if op =? OPCODE_WRITE then spy_handle_write e c
  else if op =? OPCODE_READ then spy_handle_read e c
  else if op =? OPCODE_PING then spy_handle_ping e c
  else if op =? OPCODE_CHECK_DISK then spy_handle_check_disk e c
  else if op =? OPCODE_KILL_PD_WR then spy_kill_pending_writes e c
  else if op =? OPCODE_QUERY_IO_STATUS then spy_query_io_status e c
  else if op =? OPCODE_QUERY_DETAIL_INFOS then spy_query_detail_infos e c
  else if op =? OPCODE_DUMP_CHUNK then spy_dump_chunk e c
  else spy_free_client_connection c.

Definition queued (b : spy_rw_buffer_t) : Z := write_pos b - read_pos b.

Definition receive_header (c : connptr) : M unit :=
  hdr ← read_request c REQ_HDR_SIZE;
  _ ← plift (c_assert (zlen hdr =? REQ_HDR_SIZE));
  op ← plift (spy_mach_read_from_1 hdr);
  len ← plift (spy_mach_read_from_4 (zdrop 1 hdr));
  cn ← get_conn c;
  put_conn c (with_opcode op len RECEIVE_BODY cn).

Definition spy_process_receive_buffer (e : env) (c : connptr) : M unit :=
  cn ← get_conn c;
  _ ← (if bool_decide (state cn = RECEIVE_HDR) && (REQ_HDR_SIZE <=? queued (request cn))
       then receive_header c else mret tt);
  cn ← get_conn c;
  _ ← (if bool_decide (state cn = RECEIVE_BODY) && (body_len cn <=? queued (request cn))
       then put_conn c (with_fields (cn_error cn) (body_len cn) PROCESS_REQUEST cn) else mret tt);
  cn ← get_conn c;
  if decide (state cn = PROCESS_REQUEST) then dispatch e c (opcode cn) else mret tt.

(** [while (next_writeable(...) < 0) expand]: the writeable region, or [None]
    when the pool gives no block. *)
Fixpoint expand_request_loop (fuel : nat) (c : connptr) : M (option region) :=
  cn ← get_conn c;
  s ← pget;
  '(r, b) ← plift (spy_rw_buffer_next_writeable (mp_heap (sv_pool s)) (request cn));
  _ ← put_conn c (with_request b cn);
  match r with
  | Some r => mret (Some r)
  | None =>
      match fuel with
      | O => plift Wait
      | S fuel' =>
          '(x, p, b) ← plift (spy_rw_buffer_expand (sv_pool s) b);
          _ ← pmod (set_pool p);
          _ ← put_conn c (with_request b (with_request b cn));
          if x <? 0 then mret None else expand_request_loop fuel' c
      end
  end.

(** What [read] on the socket gives: bytes (none at the end of the stream), or
    an error. *)
Inductive sock_read : Type :=
| Got (d : list byte)
| GotErr (e : errno).

(** [spy_read_handler]: an expansion makes the buffer writeable, so the loop
    makes at most two rounds. *)
Definition spy_read_handler (e : env) (r : sock_read) (c : connptr) : M unit :=
  rg ← expand_request_loop 1 c;
  match rg with
  | None => spy_free_client_connection c
  | Some rg =>
      match r with
      | GotErr EAGAIN => mret tt
      | GotErr _ => spy_free_client_connection c
      | Got [] => spy_free_client_connection c
      | Got d =>
          let d := ztake (rg_len rg) d in
          s ← pget;
          h ← plift (block_write (mp_heap (sv_pool s)) (rg_block rg) (rg_off rg) d);
          _ ← pmod (set_pool (with_mp_heap h (sv_pool s)));
          cn ← get_conn c;
          _ ← put_conn c (with_request (advance_write (zlen d) (request cn)) cn);
          spy_process_receive_buffer e c
      end
  end.

Definition spy_create_client_connection (e : env) (fd : Z) : M unit :=
  if negb (e_calloc e) then mret tt
  else
    s ← pget;
    let c := fresh (dom (conns s)) in
    _ ← put_conn c (SpyConnection fd spy_rw_buffer_init spy_rw_buffer_init (replicate 6 b00) 0 0 0 0
                      RECEIVE_HDR);
    n ← create_file_event e fd AE_READABLE P_read_handler (Some c);
    if n =? AE_ERR then pmod (fun s => set_conns (delete c (conns s)) s)
    else count (stat_conn 1).

(** [accept4] gives [cfd]. *)
Definition spy_accept_handler (e : env) (cfd : Z) : M unit :=
  if cfd <? 0 then mret tt else spy_create_client_connection e cfd.

(** ** The periodic work *)

Fixpoint collect_loop (h : gmap cptr spy_chunk_t) (l : list cptr) (total mx : Z) : outcome (Z * Z) :=
  match l with
  | [] => Ret (total, mx)
  | p :: l' =>
      tmp ← c_deref (h !! p);
      collect_loop h l' (u64 (total + avail_space tmp))
        (if mx <? avail_space tmp then avail_space tmp else mx)
  end.

Definition spy_collect_free_space (s : server_t) : outcome (Z * Z) :=
  '(total, mx) ← collect_loop (chunk_heap (sv_store s)) (chunks (sv_store s)) 0 0;
  collect_loop (chunk_heap (sv_store s)) (writing_chunks s) total mx.

(** [spy_atomic_cmp_and_set(&report_info.lock, 0, 1)] fails while the agent
    thread holds the lock. *)
Definition spy_report_server_infos (e : env) : M unit :=
  s ← pget;
  if negb (ri_lock (sv_report s) =? 0) then mret tt
  else
    '(total, mx) ← plift (spy_collect_free_space s);
    pmod (set_report (SpyReportInfo 0 (i32 (pending_writes_size s)) (i32 (writing_count (sv_stat s)))
            (i32 (reading_count (sv_stat s))) (n_chunks (sv_store s)) (i32 (conn_count (sv_stat s)))
            (e_status e) total mx)).

(** The [list_for_each_entry_safe] loop: stop at the first that has time left. *)
Fixpoint timeout_loop (e : env) (l : list jobptr) : M unit :=
  match l with
  | [] => mret tt
  | j :: l' =>
      job ← get_job j;
      if e_now e <? j_req_time job + DEF_PENDING_WRITE_TIMEOUT then mret tt
      else
        _ ← pmod (fun s => set_pending l' (u32 (pending_writes_size s - 1)) s);
        c ← plift (c_deref (j_conn job));
        _ ← reply_error e c CHUNK_UNAVAILABLE;
        _ ← spy_free_io_job j;
        timeout_loop e l'
  end.

Definition spy_remove_timeout_pending_writes (e : env) : M unit :=
  s ← pget;
  if pending_writes_size s =? 0 then mret tt
  else
    _ ← plift (c_assert (negb (bool_decide (pending_writes s = []))));
    timeout_loop e (pending_writes s).

Definition spy_server_cron (e : env) : M Z :=
  _ ← spy_report_server_infos e;
  _ ← spy_remove_timeout_pending_writes e;
  mret 1000.

End Server.
Export Server.
