(* ===== verification/Headers.v ===== *)
(** * Headers: the reply header of a connection is whole

    [conn->rsp_header] of [chunkserver/spy_server.c] is an array of [RSP_HDR_SIZE]
    bytes.  [Hdr Q m]: program [m] leaves every connection with a header of that
    size, and its result satisfies [Q].  The instances follow the programs'
    structure; a connection read from the heap brings its header along. *)

From S2P Require Import Prelude Utils RwBuffer Store StoreDump Event WorkQueue Server.

Definition whole_header (cn : spy_connection_t) : Prop := zlen (rsp_header cn) = RSP_HDR_SIZE.
Definition headers (s : server_t) : Prop := forall c cn, conns s !! c = Some cn -> whole_header cn.

Class Hdr {A} (Q : A -> Prop) (m : M A) : Prop :=
  hdr : forall s a s', headers s -> m s = Ret (a, s') -> headers s' /\ Q a.

Abbreviation any := (fun _ => True).

(** ** The structure of programs *)

Lemma hdr_bind {A B} (Q : A -> Prop) (R : B -> Prop) (m : M A) (f : A -> M B) :
  Hdr Q m -> (forall a, Q a -> Hdr R (f a)) -> Hdr R (m ≫= f).
Proof.
  intros Hm Hf s b s' H E. unfold mbind, prog_bind in E. destruct (m s) as [[a s1]| | | |] eqn:Em; try done.
  destruct (Hm _ _ _ H Em) as [H1 Ha]. by eapply (Hf a Ha).
Qed.
#[export] Instance hdr_ret {A} (a : A) : Hdr any (mret a).
Proof. by intros s b s' H [= _ <-]. Qed.
#[export] Instance hdr_get : Hdr any pget.
Proof. by intros s b s' H [= _ <-]. Qed.
#[export] Instance hdr_lift {A} (m : outcome A) : Hdr any (plift m).
Proof. intros s b s' H E. unfold plift in E. destruct m; cbn in E; try done. by injection E as _ <-. Qed.
Lemma hdr_mod f : (forall s, headers s -> headers (f s)) -> Hdr any (pmod f).
Proof. intros Hf s b s' H [= _ <-]. split; [by apply Hf|done]. Qed.

#[export] Instance get_conn_hdr c : Hdr whole_header (get_conn c).
Proof.
  intros s cn s' H E. unfold get_conn, mbind, prog_bind, pget, plift in E.
  destruct (conns s !! c) as [x|] eqn:Ec; [|done]. injection E as <- <-.
  split; [done|]. by eapply H.
Qed.
Lemma put_conn_hdr c cn : whole_header cn -> Hdr any (put_conn c cn).
Proof.
  intros Hc. apply hdr_mod. intros s H d x. cbn. destruct (decide (c = d)) as [<-|Hne].
  - rewrite lookup_insert_eq. by intros [= <-].
  - rewrite lookup_insert_ne by done. apply H.
Qed.
Lemma headers_delete c s : headers s -> headers (set_conns (delete c (conns s)) s).
Proof. intros H d x. cbn. intros [_ Hx]%lookup_delete_Some. by eapply H. Qed.

(** Instances are found by the name of the program, without unfolding it. *)
#[local] Hint Constants Opaque : typeclass_instances.

(** The header of an updated connection. *)
Ltac whole :=
  unfold whole_header in *; cbn [rsp_header with_request with_rsp_body with_sentlen with_fields with_header];
  first [assumption | reflexivity | apply zlen_dump_header
        | by rewrite !zlen_app, !zlen_write_1, zlen_write_4].
Ltac hdr_step :=
  lazymatch goal with
  | |- Hdr _ (_ ≫= _) => eapply hdr_bind; [|intros ? ?]
  | |- Hdr _ (plift _) => apply hdr_lift
  | |- Hdr _ (put_conn _ _) => apply put_conn_hdr; whole
  | |- Hdr _ (pmod _) => apply hdr_mod; intros ? ?; first [assumption | by apply headers_delete]
  | |- Hdr _ (let _ := _ in _) => cbv zeta
  | |- Hdr _ (match ?x with _ => _ end) => destruct x
  | |- Hdr _ _ => solve [apply _ | eauto]
  end.
Tactic Notation "headed" reference(f) := intros; unfold f; repeat hdr_step.

(** ** Connections *)

#[export] Instance remove_file_event_hdr fd mask : Hdr any (remove_file_event fd mask).
Proof. headed remove_file_event. Qed.
#[export] Instance create_file_event_hdr e fd mask p c : Hdr any (create_file_event e fd mask p c).
Proof. headed create_file_event. Qed.
#[export] Instance get_job_hdr j : Hdr any (get_job j).
Proof. headed get_job. Qed.
#[export] Instance put_job_hdr j job : Hdr any (put_job j job).
Proof. headed put_job. Qed.
#[export] Instance get_chunk_hdr p : Hdr any (get_chunk p).
Proof. headed get_chunk. Qed.
#[export] Instance set_reply_hdr c err len st : Hdr any (set_reply c err len st).
Proof. headed set_reply. Qed.
#[export] Instance count_hdr g : Hdr any (count g).
Proof. headed count. Qed.
#[export] Instance queue_work_hdr e w : Hdr any (queue_work e w).
Proof. headed queue_work. Qed.
#[export] Instance reset_buffers_hdr c : Hdr any (reset_buffers c).
Proof. headed reset_buffers. Qed.
#[export] Instance gen_io_job_hdr : Hdr any spy_gen_io_job.
Proof. headed spy_gen_io_job. Qed.
#[export] Instance free_io_job_hdr j : Hdr any (spy_free_io_job j).
Proof. headed spy_free_io_job. Qed.
#[export] Instance free_connection_hdr c : Hdr any (spy_free_client_connection c).
Proof. headed spy_free_client_connection. Qed.
#[export] Instance send_response_hdr e c : Hdr any (spy_send_response_if_needed e c).
Proof. headed spy_send_response_if_needed. Qed.
#[export] Instance reply_body_hdr e c : Hdr any (spy_reply_body e c).
Proof. headed spy_reply_body. Qed.
#[export] Instance reply_header_hdr e c : Hdr any (spy_reply_header e c).
Proof. headed spy_reply_header. Qed.
#[export] Instance reset_connection_hdr e c : Hdr any (spy_reset_client_connection e c).
Proof. headed spy_reset_client_connection. Qed.
#[export] Instance reply_error_hdr e c err : Hdr any (reply_error e c err).
Proof. headed reply_error. Qed.
#[export] Instance write_loop_hdr script c out : Hdr any (write_handler_loop script c out).
Proof. revert out. induction script as [|r l IH]; headed write_handler_loop. Qed.
#[export] Instance write_handler_hdr e script c : Hdr any (spy_write_handler e script c).
Proof. headed spy_write_handler. Qed.

(** ** Jobs and requests *)

#[export] Instance read_file_done_hdr e j : Hdr any (spy_read_file_done e j).
Proof. headed spy_read_file_done. Qed.
#[export] Instance reuse_chunk_hdr e p ch : Hdr any (reuse_chunk e p ch).
Proof. headed reuse_chunk. Qed.
#[export] Instance write_file_done_hdr e j : Hdr any (spy_write_file_done e j).
Proof. headed spy_write_file_done. Qed.
#[export] Instance check_chunk_done_hdr e j : Hdr any (spy_check_chunk_done e j).
Proof. headed spy_check_chunk_done. Qed.
#[export] Instance dump_done_hdr e d : Hdr any (spy_dump_chunkfile_done e d).
Proof. headed spy_dump_chunkfile_done. Qed.
#[export] Instance work_done_hdr e w : Hdr any (work_done e w).
Proof. headed work_done. Qed.
#[export] Instance done_loop_hdr e l : Hdr any (done_loop e l).
Proof. induction l; headed done_loop. Qed.
#[export] Instance wq_thread_done_hdr e : Hdr any (spy_wq_thread_done e).
Proof. headed spy_wq_thread_done. Qed.
#[export] Instance kill_loop_hdr e l : Hdr any (kill_loop e l).
Proof. induction l; headed kill_loop. Qed.
#[export] Instance kill_pending_hdr e c : Hdr any (spy_kill_pending_writes e c).
Proof. headed spy_kill_pending_writes. Qed.
#[export] Instance expand_rsp_hdr n c size : Hdr any (expand_rsp_loop n c size).
Proof. induction n; headed expand_rsp_loop. Qed.
#[export] Instance reply_with_body_hdr e c body : Hdr any (reply_with_body e c body).
Proof. headed reply_with_body. Qed.
#[export] Instance query_io_hdr e c : Hdr any (spy_query_io_status e c).
Proof. headed spy_query_io_status. Qed.
#[export] Instance query_detail_hdr e c : Hdr any (spy_query_detail_infos e c).
Proof. headed spy_query_detail_infos. Qed.
#[export] Instance ping_hdr e c : Hdr any (spy_handle_ping e c).
Proof. headed spy_handle_ping. Qed.
#[export] Instance read_request_hdr c n : Hdr any (read_request c n).
Proof. headed read_request. Qed.
#[export] Instance receive_header_hdr c : Hdr any (receive_header c).
Proof. headed receive_header. Qed.
#[export] Instance expand_request_hdr n c : Hdr any (expand_request_loop n c).
Proof. induction n; headed expand_request_loop. Qed.
#[export] Instance submit_write_hdr e c j fid len p : Hdr any (submit_write e c j fid len p).
Proof. headed submit_write. Qed.
#[export] Instance handle_write_hdr e c : Hdr any (spy_handle_write e c).
Proof. headed spy_handle_write. Qed.
#[export] Instance handle_read_hdr e c : Hdr any (spy_handle_read e c).
Proof. headed spy_handle_read. Qed.
#[export] Instance check_disk_hdr e c : Hdr any (spy_handle_check_disk e c).
Proof. headed spy_handle_check_disk. Qed.
#[export] Instance dump_chunk_hdr e c : Hdr any (spy_dump_chunk e c).
Proof. headed spy_dump_chunk. Qed.
#[export] Instance dispatch_hdr e c op : Hdr any (dispatch e c op).
Proof. headed dispatch. Qed.
#[export] Instance receive_buffer_hdr e c : Hdr any (spy_process_receive_buffer e c).
Proof. headed spy_process_receive_buffer. Qed.
#[export] Instance read_handler_hdr e r c : Hdr any (spy_read_handler e r c).
Proof. headed spy_read_handler. Qed.
#[export] Instance create_connection_hdr e fd : Hdr any (spy_create_client_connection e fd).
Proof. headed spy_create_client_connection. Qed.
#[export] Instance accept_hdr e fd : Hdr any (spy_accept_handler e fd).
Proof. headed spy_accept_handler. Qed.

(** ** The periodic work *)

#[export] Instance report_hdr e : Hdr any (spy_report_server_infos e).
Proof. headed spy_report_server_infos. Qed.
#[export] Instance timeout_loop_hdr e l : Hdr any (timeout_loop e l).
Proof. induction l; headed timeout_loop. Qed.
#[export] Instance remove_timeout_hdr e : Hdr any (spy_remove_timeout_pending_writes e).
Proof. headed spy_remove_timeout_pending_writes. Qed.
#[export] Instance cron_hdr e : Hdr any (spy_server_cron e).
Proof. headed spy_server_cron. Qed.
