(* ===== verification/ServerConn.v ===== *)
(** * ServerConn: the connections of [chunkserver/spy_server.c]

    A program logic for handlers ([wp]: what holds if the handler returns, that it
    makes no undefined access, and, unless [may_wait], that it does not hang), the invariant that ties live connections
    to the event table and to the buffer pool, and the specifications of the
    functions that touch only one connection: replying, sending, resetting,
    freeing, reading requests and growing buffers. *)

From S2P Require Import Prelude Utils RwBuffer Store Event WorkQueue Server Headers.

(** ** Preconditions of programs *)

(** Whether a handler may be left waiting for further answers of the kernel.  The
    specifications are proved for both readings: [True] gives what holds in every
    run, [False] that the handler comes to an end. *)
Class MayWait : Type := may_wait : Prop.

Section Wp.
Context {S : Type} {mw : MayWait}.

Definition wp {A} (m : prog S A) (Q : A -> S -> Prop) (s : S) : Prop :=
  match m s with
  | Ret (a, s') => Q a s'
  | Undef => False
  | Assert | Exit => True
  | Wait => may_wait
  end.

Lemma wp_def {A} (m : prog S A) Q s :
  wp m Q s = match m s with
             | Ret (a, s') => Q a s'
             | Undef => False
             | Assert | Exit => True
             | Wait => may_wait
             end.
Proof. done. Qed.
Lemma wp_ext {A} (m m' : prog S A) Q s : m s = m' s -> wp m' Q s -> wp m Q s.
Proof. unfold wp. by intros ->. Qed.

Lemma wp_bind {A B} (m : prog S A) (f : A -> prog S B) Q s :
  wp m (fun a => wp (f a) Q) s -> wp (m ≫= f) Q s.
Proof. unfold wp, mbind, prog_bind. by destruct (m s) as [[a s']| | | |]. Qed.

Lemma wp_ret {A} (a : A) (Q : A -> S -> Prop) s : Q a s -> wp (mret a) Q s.
Proof. done. Qed.
Lemma wp_get (Q : S -> S -> Prop) s : Q s s -> wp pget Q s.
Proof. done. Qed.
Lemma wp_mod f (Q : unit -> S -> Prop) s : Q tt (f s) -> wp (pmod f) Q s.
Proof. done. Qed.
Lemma wp_mono {A} (m : prog S A) (Q R : A -> S -> Prop) s :
  wp m Q s -> (forall a s', Q a s' -> R a s') -> wp m R s.
Proof. unfold wp. destruct (m s) as [[a s']| | | |]; auto. Qed.
Lemma wp_run {A} (m : prog S A) (Q : A -> S -> Prop) s :
  wp m Q s -> wp m (fun a s' => Q a s' /\ m s = Ret (a, s')) s.
Proof. unfold wp. destruct (m s) as [[a s']| | | |]; auto. Qed.

(** A call that returned, of a program with a specification. *)
Lemma wp_elim {A} (m : prog S A) (Q : A -> S -> Prop) s a s' : wp m Q s -> m s = Ret (a, s') -> Q a s'.
Proof. unfold wp. intros H E. by rewrite E in H. Qed.
Lemma wp_safe {A} (m : prog S A) (Q : A -> S -> Prop) s : wp m Q s -> m s <> Undef.
Proof. unfold wp. intros H E. by rewrite E in H. Qed.

Lemma wp_returns {A} (m : prog S A) (Q : A -> S -> Prop) s : ~ may_wait -> wp m Q s -> m s <> Wait.
Proof. unfold wp. intros Hw H E. by rewrite E in H. Qed.

Lemma wp_lift {A} (m : outcome A) a (Q : A -> S -> Prop) s : m = Ret a -> Q a s -> wp (plift m) Q s.
Proof. by intros ->. Qed.
Lemma wp_lift_any {A} (m : outcome A) (Q : A -> S -> Prop) s :
  m <> Undef -> (m = Wait -> may_wait) -> (forall a, m = Ret a -> Q a s) -> wp (plift m) Q s.
Proof. unfold wp, plift. destruct m; cbn; auto. Qed.
Lemma wp_assert b (Q : unit -> S -> Prop) s : (b = true -> Q tt s) -> wp (plift (c_assert b)) Q s.
Proof. intros H. destruct b; [by apply H|done]. Qed.
Lemma wp_abort {A} (Q : A -> S -> Prop) s : wp (plift Assert) Q s.
Proof. done. Qed.
Lemma wp_wait {A} (Q : A -> S -> Prop) s : may_wait -> wp (plift Wait) Q s.
Proof. done. Qed.

End Wp.
#[global] Opaque wp.

(** Run the administrative steps of a program. *)
Ltac wp_step :=
  lazymatch goal with
  | |- wp (_ ≫= _) _ _ => apply wp_bind
  | |- wp (mret _) _ _ => apply wp_ret
  | |- wp pget _ _ => apply wp_get
  | |- wp (pmod _) _ _ => apply wp_mod
  | |- wp (plift (c_assert _)) _ _ => apply wp_assert; intros ?
  | |- wp (plift Wait) _ _ => apply wp_wait
  | |- wp (plift Assert) _ _ => apply wp_abort
  | |- wp (let x := _ in _) _ _ => cbv zeta
  | |- wp (match ?x with _ => _ end) _ _ => progress cbv beta iota zeta
  end.
Ltac wp_steps := repeat wp_step.
(** Use the specification [H] of the next call. *)
Tactic Notation "wp_use" uconstr(H) :=
  lazymatch goal with |- wp (_ ≫= _) _ _ => apply wp_bind | _ => idtac end;
  eapply wp_mono; [eapply H|cbn beta].

(** ** What the connection layer leaves alone *)

Record jview_t : Type := JView {
  v_store : store_t;
  v_writing : list cptr;
  v_jobs : gmap jobptr spy_io_job_t;
  v_free : list jobptr;
  v_dumps : gmap jobptr spy_dump_job_t;
  v_pending : list jobptr;
  v_psize : Z;
  v_wq : spy_work_queue_t work
}.
(** The chunks, jobs and queues of a server. *)
Definition jview (s : server_t) : jview_t :=
  JView (sv_store s) (writing_chunks s) (io_jobs s) (free_io_jobs s) (dump_jobs s)
    (pending_writes s) (pending_writes_size s) (sv_wq s).

(** ** Connections and the event table *)

Abbreviation conn_map := (gmap connptr spy_connection_t).
Abbreviation loop_t := (aeEventLoop proc connptr).

(** A registered slot: its data is the connection, and the handlers of the events
    in its mask are the right ones. *)
Definition slot_of (c : connptr) (fe : aeFileEvent proc connptr) : Prop :=
  clientData fe = Some c /\
  (Z.land (fe_mask fe) AE_READABLE <> 0 -> rfileProc fe = Some P_read_handler) /\
  (Z.land (fe_mask fe) AE_WRITABLE <> 0 -> wfileProc fe = Some P_write_handler).

(** The descriptors of the server itself: the listening socket, then the event
    descriptor of the work queue. *)
Definition svc_proc (svc : list Z) (fd : Z) : proc :=
  if decide (head svc = Some fd) then P_accept_handler else P_wq_thread_done.
Definition svc_slot (p : proc) (fe : aeFileEvent proc connptr) : Prop :=
  fe_mask fe = AE_READABLE /\ rfileProc fe = Some p.

(** [svc] are the descriptors of the server itself; [B] the connections that wait
    for a job.  A connection that waits has no event registered, so no handler
    can free it; a descriptor with an event has a live connection behind it. *)
Record conn_inv (svc : list Z) (B : list connptr) (cs : conn_map) (el : loop_t) : Prop := {
  ci_ev : ev_inv el;
  ci_size : setsize el = DEF_MAX_CLIENTS;
  ci_fd : forall c cn, cs !! c = Some cn -> 0 < cn_fd cn < setsize el /\ cn_fd cn ∉ svc;
  ci_inj : forall c c' cn cn', cs !! c = Some cn -> cs !! c' = Some cn' ->
    cn_fd cn = cn_fd cn' -> c = c';
  ci_nodup : NoDup B;
  ci_busy : forall c, c ∈ B -> exists cn, cs !! c = Some cn /\ mask_of el (cn_fd cn) = AE_NONE /\
    state cn = PROCESS_REQUEST;
  ci_slot : forall n fe, events el !! n = Some fe -> fe_mask fe <> AE_NONE -> Z.of_nat n ∉ svc ->
    exists c cn, cs !! c = Some cn /\ cn_fd cn = Z.of_nat n /\ slot_of c fe;
  ci_svc : forall n fe, events el !! n = Some fe -> Z.of_nat n ∈ svc -> svc_slot (svc_proc svc (Z.of_nat n)) fe;
  ci_send : forall c cn, cs !! c = Some cn ->
    Z.land (mask_of el (cn_fd cn)) AE_WRITABLE <> 0 -> state cn = SEND_RSP
}.

Section ConnInv.
Context {svc : list Z}.
Implicit Types (B : list connptr) (cs : conn_map) (el : loop_t) (cn : spy_connection_t).

Lemma mask_of_lookup el fd fe :
  0 <= fd -> events el !! Z.to_nat fd = Some fe -> mask_of el fd = fe_mask fe.
Proof. intros H0 H. unfold mask_of. destruct (Z.ltb_spec fd 0); [lia|]. by rewrite H. Qed.

(** The slot of a live connection. *)
Lemma conn_slot B cs el c cn :
  conn_inv svc B cs el -> cs !! c = Some cn ->
  exists fe, events el !! Z.to_nat (cn_fd cn) = Some fe /\ mask_of el (cn_fd cn) = fe_mask fe /\
    0 <= fe_mask fe <= 3 /\ (fe_mask fe <> AE_NONE -> slot_of c fe).
Proof.
  intros I Hc. destruct (ci_fd _ _ _ _ I c cn Hc) as [Hfd Hs].
  pose proof (ei_len _ (ci_ev _ _ _ _ I)) as Hl.
  destruct (lookup_lt_is_Some_2 (events el) (Z.to_nat (cn_fd cn))) as [fe Hfe];
    [unfold zlen in Hl; lia|].
  exists fe. assert (Hm : mask_of el (cn_fd cn) = fe_mask fe) by (apply mask_of_lookup; [lia|done]).
  split_and!; try done.
  1,2: rewrite <- Hm; apply (ei_mask _ (ci_ev _ _ _ _ I)).
  intros Hnz. destruct (ci_slot _ _ _ _ I _ _ Hfe Hnz) as (c' & cn' & Hc' & Hf' & Hs').
  { by rewrite Z2Nat.id by lia. }
  rewrite Z2Nat.id in Hf' by lia. by rewrite (ci_inj _ _ _ _ I c c' cn cn').
Qed.

(** One connection changes, but not its descriptor. *)
Lemma conn_inv_put B cs el c cn cn' :
  conn_inv svc B cs el -> cs !! c = Some cn -> cn_fd cn' = cn_fd cn ->
  (state cn' = SEND_RSP \/ state cn' = state cn \/ Z.land (mask_of el (cn_fd cn)) AE_WRITABLE = 0) ->
  (c ∉ B) \/ state cn' = state cn ->
  conn_inv svc B (<[c := cn']> cs) el.
Proof.
  intros [I1 Isz I2 I3 I4 I5 I6 I7 I8] Hc Hf Hst Hbs.
  assert (Hl : forall d x, <[c := cn']> cs !! d = Some x ->
    exists y, cs !! d = Some y /\ cn_fd x = cn_fd y).
  { intros d x Hd. destruct (decide (c = d)) as [<-|Hne].
    - rewrite lookup_insert_eq in Hd. injection Hd as <-. eauto.
    - rewrite lookup_insert_ne in Hd by done. eauto. }
  assert (Hr : forall d y, cs !! d = Some y -> exists x, <[c := cn']> cs !! d = Some x /\ cn_fd x = cn_fd y).
  { intros d y Hd. destruct (decide (c = d)) as [<-|Hne].
    - rewrite lookup_insert_eq. eexists. split; [done|]. congruence.
    - rewrite lookup_insert_ne by done. eauto. }
  split; try done.
  - intros d x (y & Hy & ->)%Hl. eauto.
  - intros d d' x x' (y & Hy & ->)%Hl (y' & Hy' & ->)%Hl. eauto.
  - intros d Hd. destruct (I5 d Hd) as (y & Hy & Hm & Hs). destruct (decide (c = d)) as [<-|Hne].
    + exists cn'. rewrite lookup_insert_eq. replace y with cn in * by congruence.
      destruct Hbs as [|Hbs]; [done|]. by rewrite Hf, Hbs.
    + exists y. by rewrite lookup_insert_ne.
  - intros n fe Hn Hnz Hs. destruct (I6 n fe Hn Hnz Hs) as (d & y & Hd & Hfd & Hsl).
    destruct (Hr d y Hd) as (x & Hx & Hfx). exists d, x. by rewrite Hfx.
  - intros d x Hd Hw. destruct (decide (c = d)) as [<-|Hne].
    + rewrite lookup_insert_eq in Hd. injection Hd as <-. rewrite Hf in Hw.
      destruct Hst as [|[->|]]; [done|by eauto|done].
    + rewrite lookup_insert_ne in Hd by done. eauto.
Qed.

(** The slot of one connection changes. *)
Lemma conn_inv_slot B cs el el' c cn fe :
  conn_inv svc B cs el -> cs !! c = Some cn -> ev_inv el' -> setsize el' = setsize el ->
  events el' = <[Z.to_nat (cn_fd cn) := fe]> (events el) ->
  (fe_mask fe <> AE_NONE -> slot_of c fe) -> (c ∈ B -> fe_mask fe = AE_NONE) ->
  (Z.land (fe_mask fe) AE_WRITABLE <> 0 -> state cn = SEND_RSP) ->
  conn_inv svc B cs el'.
Proof.
  intros I Hc Ie Hsz Hev Hsl Hb Hw. pose proof I as [I1 Isz I2 I3 I4 I5 I6 I7 I8].
  destruct (I2 c cn Hc) as [Hfd Hns]. pose proof (ei_len _ I1) as Hlen. unfold zlen in Hlen.
  assert (Hm : forall d x, cs !! d = Some x ->
    mask_of el' (cn_fd x) = if decide (d = c) then fe_mask fe else mask_of el (cn_fd x)).
  { intros d x Hd. destruct (I2 d x Hd) as [Hfx _].
    unfold mask_of. rewrite Hev. destruct (Z.ltb_spec (cn_fd x) 0); [lia|].
    destruct (decide (d = c)) as [->|Hne].
    - replace x with cn by congruence. by rewrite list_lookup_insert_eq by lia.
    - rewrite list_lookup_insert_ne; [done|]. intros E. apply Hne. eapply I3; eauto. lia. }
  split; try done; [congruence|..].
  - intros d x Hd. rewrite Hsz. eauto.
  - intros d Hd. destruct (I5 d Hd) as (x & Hx & Hmx & Hs). exists x. split; [done|].
    split; [|done]. rewrite (Hm d x Hx). destruct (decide _) as [->|]; auto.
  - intros n f Hn Hnz Hs. rewrite Hev in Hn. destruct (decide (n = Z.to_nat (cn_fd cn))) as [->|Hne].
    + rewrite list_lookup_insert_eq in Hn by lia. injection Hn as <-. exists c, cn.
      split_and!; auto; lia.
    + rewrite list_lookup_insert_ne in Hn by done. eauto.
  - intros n f Hn Hs. rewrite Hev in Hn. destruct (decide (n = Z.to_nat (cn_fd cn))) as [->|Hne].
    + rewrite Z2Nat.id in Hs by lia. done.
    + rewrite list_lookup_insert_ne in Hn by done. eauto.
  - intros d x Hd. rewrite (Hm d x Hd). destruct (decide _) as [->|]; [|eauto].
    by replace x with cn by congruence.
Qed.

Lemma conn_inv_weaken B B' cs el :
  conn_inv svc B cs el -> NoDup B' -> (forall c, c ∈ B' -> c ∈ B) -> conn_inv svc B' cs el.
Proof. intros [] Hn Hs. split; auto. Qed.

Lemma conn_inv_perm B B' cs el : B ≡ₚ B' -> conn_inv svc B cs el -> conn_inv svc B' cs el.
Proof.
  intros Hp I. eapply conn_inv_weaken; [done|rewrite <- Hp; apply I|]. intros c. by rewrite Hp.
Qed.

Lemma conn_inv_wait B cs el c cn :
  conn_inv svc B cs el -> c ∉ B -> cs !! c = Some cn -> mask_of el (cn_fd cn) = AE_NONE ->
  state cn = PROCESS_REQUEST -> conn_inv svc (c :: B) cs el.
Proof.
  intros [] Hn Hc Hm Hs. split; try done; [by constructor|].
  intros d Hd. apply elem_of_cons in Hd as [->|Hd]; eauto.
Qed.

End ConnInv.

(** ** Connections and the buffer pool *)

(** The buffers of all connections. *)
Definition bufs_of (cs : conn_map) : list spy_rw_buffer_t :=
  flat_map (fun x => [request x.2; rsp_body x.2]) (map_to_list cs).

Lemma bufs_of_insert cs c cn :
  cs !! c = None -> bufs_of (<[c := cn]> cs) ≡ₚ request cn :: rsp_body cn :: bufs_of cs.
Proof.
  intros Hc. unfold bufs_of. etrans; [apply Permutation_flat_map, map_to_list_insert, Hc|]. done.
Qed.

Lemma bufs_of_focus cs c cn :
  cs !! c = Some cn -> bufs_of cs ≡ₚ request cn :: rsp_body cn :: bufs_of (delete c cs).
Proof.
  intros Hc. rewrite <- (insert_delete_id cs c cn) at 1 by done.
  apply bufs_of_insert, lookup_delete_eq.
Qed.

Lemma bufs_of_put cs c cn cn' :
  cs !! c = Some cn -> bufs_of (<[c := cn']> cs) ≡ₚ request cn' :: rsp_body cn' :: bufs_of (delete c cs).
Proof.
  intros Hc. rewrite <- insert_delete_eq. apply bufs_of_insert, lookup_delete_eq.
Qed.

Lemma pool_ok_perm pre lim p l l' : l ≡ₚ l' -> pool_ok pre lim (p, l) -> pool_ok pre lim (p, l').
Proof.
  intros Hp (I & W & H1 & H2). split; [by eapply pool_inv_perm|]. split; [|done].
  cbn in *. by rewrite <- Hp.
Qed.

(** ** Guarded connections

    A guard names connections that the code under proof must leave alone: one that
    waits for a job as long as it waits, or one that waits for none.  What is
    guarded is the connection, every block of its buffers, and, if wished, a job
    given to the pool.  The specifications
    are proved for any guard; with the empty one they say nothing more. *)

Record guarded : Type := Guarded {
  g_idle : bool; g_conn : spy_connection_t; g_heap : gmap loc spy_mem_block_t;
  g_job : option (jobptr * spy_io_job_t)
}.
Class Guard : Type := guard : connptr -> option guarded.
#[export] Instance no_guard : Guard | 100 := fun _ => None.

(** The blocks of a connection. *)
Definition blocks_of (cn : spy_connection_t) : list loc := mem_blocks (request cn) ++ mem_blocks (rsp_body cn).

Definition holds (x : guarded) (c : connptr) (s : server_t) : Prop :=
  conns s !! c = Some (g_conn x) /\
  forall y, y ∈ blocks_of (g_conn x) -> mp_heap (sv_pool s) !! y = g_heap x !! y.

Lemma holds_view x c s s' : holds x c s -> conns s' = conns s -> sv_pool s' = sv_pool s -> holds x c s'.
Proof. intros [H1 H2] E1 E2. split; [by rewrite E1|by rewrite E2]. Qed.

Lemma blocks_held cs c d cn : c <> d -> cs !! d = Some cn -> forall y, y ∈ blocks_of cn -> y ∈ held (bufs_of (delete c cs)).
Proof.
  intros Hne Hd y Hy. rewrite <- (lookup_delete_ne cs c) in Hd by done.
  rewrite (held_perm _ _ (bufs_of_focus _ _ _ Hd)), !held_cons. unfold blocks_of in Hy. rewrite !elem_of_app in *. tauto.
Qed.

(** ** The invariant of the connection layer *)

Section Env.
Context (svc : list Z) (pre lim : Z) {mw : MayWait} {G : Guard}.

(** [loose]: connection [c] may be changed; [outside]: and no job is under way for it. *)
Definition loose (B : list connptr) (c : connptr) : Prop :=
  forall x, guard c = Some x -> g_idle x = false /\ c ∉ B.
Definition outside (B : list connptr) (c : connptr) : Prop :=
  (c ∉ B) /\ forall x, guard c = Some x -> g_idle x = false.

#[export] Instance outside_perm : Proper ((≡ₚ) ==> (=) ==> iff) outside.
Proof. intros B B' HB c ? <-. unfold outside. by setoid_rewrite HB. Qed.
Lemma outside_loose B c : outside B c -> loose B c.
Proof. intros [H1 H2] x Hx. split; [by apply (H2 x)|done]. Qed.
Lemma outside_in B c : outside B c -> c ∉ B.
Proof. by intros []. Qed.

Record guard_inv (B : list connptr) (s : server_t) : Prop := {
  gi_holds : forall c x, guard c = Some x -> g_idle x = true \/ c ∈ B -> holds x c s;
  gi_idle : forall c x, guard c = Some x -> g_idle x = true -> c ∉ B
}.

Record env_inv (B : list connptr) (s : server_t) : Prop := {
  en_conn : conn_inv svc B (conns s) (sv_el s);
  en_pool : pool_ok pre lim (sv_pool s, bufs_of (conns s));
  en_guard : guard_inv B s
}.

Lemma guard_view B s s' : guard_inv B s -> conns s' = conns s -> sv_pool s' = sv_pool s -> guard_inv B s'.
Proof. intros [H1 H2] E1 E2. split; [|done]. intros c x Hg Hx. eapply holds_view; [by apply H1|done..]. Qed.

(** A connection that is loose changes, and blocks that no other one holds. *)
Lemma guard_update B s s' c :
  guard_inv B s -> loose B c -> (forall d, d <> c -> conns s' !! d = conns s !! d) ->
  (forall y, y ∈ held (bufs_of (delete c (conns s))) -> mp_heap (sv_pool s') !! y = mp_heap (sv_pool s) !! y) ->
  guard_inv B s'.
Proof.
  intros [H1 H2] Hl Hc Hh. split; [|done]. intros d x Hg Hx. destruct (H1 d x Hg Hx) as [A1 A2].
  assert (d <> c) as Hne.
  { intros ->. destruct (Hl x Hg) as [L1 L2]. destruct Hx as [Hx|Hx]; [congruence|done]. }
  split; [by rewrite Hc|]. intros y Hy. rewrite Hh, A2; [done..|]. by eapply (blocks_held _ c d).
Qed.

Lemma env_view B s s' :
  env_inv B s -> conns s' = conns s -> sv_el s' = sv_el s -> sv_pool s' = sv_pool s -> env_inv B s'.
Proof. intros [] H1 H2 H3. split; [congruence..|]. by eapply guard_view. Qed.

Lemma env_perm B B' s : B ≡ₚ B' -> env_inv B s -> env_inv B' s.
Proof.
  intros Hp [I1 I2 [I3 I4]]. split; [by eapply conn_inv_perm|done|]. split.
  - intros c x Hg Hx. apply (I3 c x Hg). by rewrite Hp.
  - intros c x Hg Hx. rewrite <- Hp. by apply (I4 c x).
Qed.

(** The blocks [ys] are in both pools the same. *)
Definition agree (ys : list loc) (p p' : mem_pool) : Prop :=
  forall y, y ∈ ys -> mp_heap p' !! y = mp_heap p !! y.
Lemma agree_refl ys p : agree ys p p.
Proof. done. Qed.

(** One connection and the pool change. *)
Lemma env_update B s s' c cn cn' :
  env_inv B s -> conns s !! c = Some cn ->
  conns s' = <[c := cn']> (conns s) -> sv_el s' = sv_el s -> cn_fd cn' = cn_fd cn ->
  (state cn' = SEND_RSP \/ state cn' = state cn
    \/ Z.land (mask_of (sv_el s) (cn_fd cn)) AE_WRITABLE = 0) ->
  (c ∉ B) \/ state cn' = state cn -> loose B c ->
  (forall rest, pool_ok pre lim (sv_pool s, request cn :: rsp_body cn :: rest) ->
     pool_ok pre lim (sv_pool s', request cn' :: rsp_body cn' :: rest) /\ agree (held rest) (sv_pool s) (sv_pool s')) ->
  env_inv B s'.
Proof.
  intros [I1 I2 I3] Hc H1 H2 Hf Hst Hbs Hl Hp.
  assert (I2' : pool_ok pre lim (sv_pool s, request cn :: rsp_body cn :: bufs_of (delete c (conns s))))
    by (eapply pool_ok_perm; [by apply bufs_of_focus|done]).
  destruct (Hp _ I2') as [Hp1 Hp2]. split; rewrite ?H1, ?H2.
  - by eapply conn_inv_put.
  - eapply pool_ok_perm; [symmetry; by apply (bufs_of_put _ _ cn)|done].
  - eapply guard_update; [done|exact Hl| |done]. intros d Hd. rewrite H1. by rewrite lookup_insert_ne.
Qed.

(** A field other than descriptor and buffers changes. *)
Lemma env_fields_loose B s s' c cn cn' :
  env_inv B s -> conns s !! c = Some cn ->
  conns s' = <[c := cn']> (conns s) -> sv_el s' = sv_el s -> sv_pool s' = sv_pool s ->
  cn_fd cn' = cn_fd cn -> request cn' = request cn -> rsp_body cn' = rsp_body cn ->
  (state cn' = SEND_RSP \/ state cn' = state cn
    \/ Z.land (mask_of (sv_el s) (cn_fd cn)) AE_WRITABLE = 0) ->
  (c ∉ B) \/ state cn' = state cn -> loose B c ->
  env_inv B s'.
Proof.
  intros I Hc H1 H2 H3 Hf Hr Hb Hst Hbs Hl. eapply env_update; try done.
  intros rest. by rewrite H3, Hr, Hb.
Qed.
Lemma env_fields B s s' c cn cn' :
  env_inv B s -> conns s !! c = Some cn ->
  conns s' = <[c := cn']> (conns s) -> sv_el s' = sv_el s -> sv_pool s' = sv_pool s ->
  cn_fd cn' = cn_fd cn -> request cn' = request cn -> rsp_body cn' = rsp_body cn ->
  (state cn' = SEND_RSP \/ state cn' = state cn
    \/ Z.land (mask_of (sv_el s) (cn_fd cn)) AE_WRITABLE = 0) ->
  outside B c -> env_inv B s'.
Proof.
  intros I Hc H1 H2 H3 Hf Hr Hb Hst Ho. eapply env_fields_loose; try done; [left; apply Ho|by apply outside_loose].
Qed.

(** The focus on a connection's two buffers. *)
Lemma env_focus B s c cn :
  env_inv B s -> conns s !! c = Some cn ->
  pool_ok pre lim (sv_pool s, request cn :: rsp_body cn :: bufs_of (delete c (conns s))) /\
  buf_wf (mp_heap (sv_pool s)) (request cn) /\ buf_wf (mp_heap (sv_pool s)) (rsp_body cn).
Proof.
  intros [_ I _] Hc. assert (H : pool_ok pre lim
    (sv_pool s, request cn :: rsp_body cn :: bufs_of (delete c (conns s)))).
  { eapply pool_ok_perm; [by apply bufs_of_focus|done]. }
  split; [done|]. destruct H as (_ & W & _). cbn in W. rewrite !Forall_cons in W. tauto.
Qed.

Lemma env_live B s c : env_inv B s -> c ∈ B -> exists cn, conns s !! c = Some cn.
Proof. intros [I _ _] Hc. destruct (ci_busy _ _ _ _ I c Hc) as (cn & H & _). eauto. Qed.

(** *** Primitive operations *)

Lemma wp_get_conn c cn (Q : _ -> _ -> Prop) s :
  conns s !! c = Some cn -> Q cn s -> wp (get_conn c) Q s.
Proof. intros Hc HQ. unfold get_conn. wp_steps. eapply wp_lift; [by rewrite Hc|done]. Qed.

Lemma remove_file_event_spec B s c cn mask :
  env_inv B s -> conns s !! c = Some cn -> 1 <= mask <= 3 ->
  wp (remove_file_event (cn_fd cn) mask) (fun _ s' => exists el', s' = set_el el' s /\ env_inv B s' /\
    mask_of el' (cn_fd cn) = Z.land (mask_of (sv_el s) (cn_fd cn)) (Z.lnot mask)) s.
Proof.
  intros [I Hp Hg] Hc Hm. destruct (ci_fd _ _ _ _ I c cn Hc) as [Hfd _].
  destruct (conn_slot _ _ _ _ _ I Hc) as (fe & Hfe & Hmo & Hr & Hsl).
  destruct (delete_file_event_ok (sv_el s) (cn_fd cn) mask) as (el' & E & Ie & Hmask & Hsz & _);
    [apply I|lia|done|].
  unfold remove_file_event. wp_steps. eapply wp_lift; [exact E|]. wp_steps.
  exists el'. split; [done|]. rewrite Hmask. destruct (decide _); [|done]. split; [|done].
  split; [|done|by eapply guard_view]. cbn. apply delete_slots in E as [->|(fe0 & _ & Hfe0 & Hev)]; [done|].
  rewrite Hfe in Hfe0. injection Hfe0 as <-.
  assert (Hl : forall k, Z.land (Z.land (fe_mask fe) (Z.lnot mask)) k <> 0 ->
    Z.land (fe_mask fe) k <> 0).
  { intros k Hk Hz. apply Hk. rewrite <- Z.land_assoc, (Z.land_comm (Z.lnot mask)), Z.land_assoc, Hz.
    apply Z.land_0_l. }
  eapply conn_inv_slot; try done; cbn.
  - intros Hnz. assert (Hnz' : fe_mask fe <> AE_NONE) by (intros Hz; rewrite Hz, Z.land_0_l in Hnz; done).
    destruct (Hsl Hnz') as (S1 & S2 & S3). split_and!; [done|auto..].
  - intros Hb. destruct (ci_busy _ _ _ _ I c Hb) as (x & Hx & Hz & _).
    replace x with cn in Hz by congruence. rewrite Hmo in Hz. by rewrite Hz.
  - intros Hk%Hl. apply (ci_send _ _ _ _ I c cn Hc). by rewrite Hmo.
Qed.

Lemma mask_bit m k : 0 <= m <= 3 -> k = 1 \/ k = 2 ->
  (Z.land (Z.lor m k) AE_READABLE <> 0 -> k = 1 \/ Z.land m AE_READABLE <> 0) /\
  (Z.land (Z.lor m k) AE_WRITABLE <> 0 -> k = 2 \/ Z.land m AE_WRITABLE <> 0) /\ Z.lor m k <> AE_NONE.
Proof.
  intros Hm Hk. destruct (mask_cases m Hm) as [->|[->|[->| ->]]]; destruct Hk as [-> | ->];
    split_and!; cbn; (auto || done || (intros; by right) || (intros; by left) || lia).
Qed.

(** Registering a read or a write event for a connection that waits for no job. *)
Lemma create_file_event_spec e B s c cn mask p :
  env_inv B s -> conns s !! c = Some cn -> outside B c ->
  (mask = AE_READABLE /\ p = P_read_handler) \/
  (mask = AE_WRITABLE /\ p = P_write_handler /\ state cn = SEND_RSP) ->
  wp (create_file_event e (cn_fd cn) mask p (Some c))
    (fun r s' => exists el', s' = set_el el' s /\ env_inv B s' /\
       (r = AE_OK \/ r = AE_ERR /\ el' = sv_el s)) s.
Proof.
  intros EI Hc [Hb _] Hmp. pose proof EI as [I Hp Hg]. destruct (ci_fd _ _ _ _ I c cn Hc) as [Hfd _].
  destruct (conn_slot _ _ _ _ _ I Hc) as (fe & Hfe & Hmo & Hr & Hsl).
  assert (Hm : mask = 1 \/ mask = 2) by (destruct Hmp as [[-> _]|[-> _]]; [by left|by right]).
  unfold create_file_event. wp_steps.
  assert (Hcr : exists r el', aeCreateFileEvent (e_epoll e (cn_fd cn)) (sv_el s) (cn_fd cn) mask p (Some c)
    = Ret (r, el') /\ ev_inv el' /\ setsize el' = setsize (sv_el s)).
  { destruct (e_epoll e (cn_fd cn)).
    - destruct (create_file_event_ok (sv_el s) (cn_fd cn) mask p (Some c))
        as (el' & E & Ie & _ & Hs & _); [apply I|lia|lia|]. eauto.
    - rewrite create_file_event_refused by (apply I || lia). pose proof (ci_ev _ _ _ _ I). eauto. }
  destruct Hcr as (r & el' & E & Ie & Hsz). eapply wp_lift; [exact E|]. wp_steps.
  exists el'. split; [done|]. apply create_slots in E as [[-> ->]|(-> & fe0 & _ & Hfe0 & Hev)];
    [split; [by eapply env_view|by right]|]. split; [|by left]. split; [|done|by eapply guard_view]. cbn.
  rewrite Hfe in Hfe0. injection Hfe0 as <-.
  destruct (mask_bit (fe_mask fe) mask Hr Hm) as (B1 & B2 & B3).
  assert (Hold : forall k, Z.land (fe_mask fe) k <> 0 -> slot_of c fe).
  { intros k Hk. apply Hsl. intros Hz. by rewrite Hz, Z.land_0_l in Hk. }
  eapply conn_inv_slot; try done; cbn.
  - intros _. split_and!; [done|cbn..].
    + destruct Hmp as [[-> ->]|(-> & -> & _)]; [done|]. cbn. intros [?|Hk]%B1; [done|].
      by destruct (Hold _ Hk) as (_ & ? & _); auto.
    + destruct Hmp as [[-> ->]|(-> & -> & _)]; [|done]. cbn. intros [?|Hk]%B2; [done|].
      by destruct (Hold _ Hk) as (_ & _ & ?); auto.
  - intros [->|Hk]%B2.
    + destruct Hmp as [[? _]|(_ & _ & Hst)]; done.
    + apply (ci_send _ _ _ _ I c cn Hc). by rewrite Hmo.
Qed.

Lemma reset_heap p b p' b' : spy_rw_buffer_reset p b = (p', b') -> mp_heap p' = mp_heap p.
Proof. unfold spy_rw_buffer_reset. destruct (reset_loop _ _ _). by intros [= <- _]. Qed.

Lemma reset_pool p r b rest :
  pool_ok pre lim (p, r :: b :: rest) ->
  exists p1 p2, spy_rw_buffer_reset p r = (p1, spy_rw_buffer_init) /\
    spy_rw_buffer_reset p1 b = (p2, spy_rw_buffer_init) /\
    pool_ok pre lim (p2, spy_rw_buffer_init :: spy_rw_buffer_init :: rest) /\ mp_heap p2 = mp_heap p.
Proof.
  intros H. destruct (spy_rw_buffer_reset p r) as [p1 r1] eqn:E1.
  assert (r1 = spy_rw_buffer_init) as ->
    by (unfold spy_rw_buffer_reset in E1; destruct (reset_loop _ _ _); by injection E1 as _ <-).
  pose proof (pool_step_ok _ _ _ _ H (step_reset p p1 [] (b :: rest) r _ E1)) as H1. cbn in H1.
  destruct (spy_rw_buffer_reset p1 b) as [p2 b1] eqn:E2.
  assert (b1 = spy_rw_buffer_init) as ->
    by (unfold spy_rw_buffer_reset in E2; destruct (reset_loop _ _ _); by injection E2 as _ <-).
  exists p1, p2. split; [done|]. split; [done|]. split.
  - apply (pool_step_ok _ _ _ _ H1 (step_reset p1 p2 [_] rest b _ E2)).
  - by rewrite (reset_heap _ _ _ _ E2), (reset_heap _ _ _ _ E1).
Qed.

Definition emptied cn := with_rsp_body spy_rw_buffer_init (with_request spy_rw_buffer_init cn).

Lemma reset_buffers_spec B s c cn :
  env_inv B s -> conns s !! c = Some cn -> loose B c ->
  wp (reset_buffers c) (fun _ s' => exists p',
    s' = set_conns (<[c := emptied cn]> (conns s)) (set_pool p' s) /\ env_inv B s') s.
Proof.
  intros I Hc Hl. unfold reset_buffers. wp_step. eapply wp_get_conn; [done|]. wp_steps.
  destruct (env_focus _ _ _ _ I Hc) as (Hp & _).
  destruct (reset_pool _ _ _ _ Hp) as (p1 & p2 & E1 & E2 & _). rewrite E1, E2. unfold put_conn. wp_steps.
  exists p2. split; [done|]. eapply env_update; try done; [by right; left|by right|].
  cbn. intros rest Hr. destruct (reset_pool _ _ _ _ Hr) as (q1 & q2 & F1 & F2 & HR & Hh).
  rewrite E1 in F1. injection F1 as <-. rewrite E2 in F2. injection F2 as <-. split; [done|].
  intros y _. by rewrite Hh.
Qed.

(** *** Freeing and replying *)

(** What such a function guarantees: the invariant again, chunks and jobs
    untouched. *)
Definition kept (B : list connptr) (s s' : server_t) : Prop := env_inv B s' /\ jview s' = jview s.

Lemma kept_trans B s1 s2 s3 : kept B s1 s2 -> kept B s2 s3 -> kept B s1 s3.
Proof. intros [_ H1] [H2 H3]. split; congruence. Qed.
Lemma kept_refl B s : env_inv B s -> kept B s s.
Proof. done. Qed.

(** Only connection [c] may have changed. *)
Definition others (c : connptr) (s s' : server_t) : Prop :=
  forall d, d <> c -> conns s' !! d = conns s !! d.

Lemma count_spec B s f : env_inv B s -> wp (count f) (fun _ s' => kept B s s' /\ conns s' = conns s) s.
Proof. intros I. unfold count. wp_steps. split; [|done]. split; [|done]. by eapply env_view. Qed.

Lemma free_client_spec B s c cn :
  env_inv B s -> conns s !! c = Some cn -> outside B c ->
  wp (spy_free_client_connection c) (fun _ s' => kept B s s' /\ conns s' = delete c (conns s)) s.
Proof.
  intros I Hc Hout. pose proof (outside_in _ _ Hout) as Hb. unfold spy_free_client_connection.
  wp_use reset_buffers_spec; [done..|by apply outside_loose|].
  intros _ s1 (p & -> & I1). wp_step. eapply (wp_get_conn _ (emptied cn)); [apply lookup_insert_eq|].
  destruct (ci_fd _ _ _ _ (en_conn _ _ I) c cn Hc) as [Hfd _]. cbn [cn_fd emptied with_rsp_body with_request].
  destruct (Z.eqb_spec (cn_fd cn) 0) as [?|_]; [lia|]. cbn [negb]. wp_step.
  destruct (close_delete_ok (sv_el s) (cn_fd cn)) as (el' & E & Ie & Hm & Hsz & _);
    [apply I|lia|]. unfold remove_file_event.
  wp_steps. eapply wp_lift; [exact E|]. unfold count. wp_steps.
  assert (Hd : delete c (<[c := emptied cn]> (conns s)) = delete c (conns s)) by apply delete_insert_eq.
  split; [|cbn; done]. split; [|done]. split; cbn; rewrite ?Hd.
  - pose proof (en_conn _ _ I) as CI. pose proof CI as [C1 Csz C2 C3 C4 C5 C6 C7 C8].
    assert (Hne : forall d x, delete c (conns s) !! d = Some x ->
      conns s !! d = Some x /\ cn_fd x <> cn_fd cn /\ c <> d).
    { intros d x Hx. apply lookup_delete_Some in Hx as [Hn Hx]. split_and!; try done.
      intros Hf. apply Hn. by eapply C3. }
    assert (Hev : forall n fe, events el' !! n = Some fe -> fe_mask fe <> AE_NONE ->
      n <> Z.to_nat (cn_fd cn) /\ events (sv_el s) !! n = Some fe).
    { intros n fe Hn Hnz. assert (n <> Z.to_nat (cn_fd cn)) as Hne'.
      { intros ->. specialize (Hm (cn_fd cn)). rewrite decide_True in Hm by done.
        rewrite (mask_of_lookup _ _ fe) in Hm by (done || lia). done. }
      split; [done|]. apply delete_slots in E as [->|(fe0 & _ & _ & Hev)]; [done|].
      rewrite Hev, list_lookup_insert_ne in Hn by done. done. }
    split; try done; [congruence|..].
    + intros d x (Hx & _)%Hne. rewrite Hsz. eauto.
    + intros d d' x x' (Hx & _)%Hne (Hx' & _)%Hne. eauto.
    + intros d Hd'. destruct (C5 d Hd') as (x & Hx & Hz & Hst). exists x.
      assert (Hcd : c <> d) by (intros ->; done). split; [by rewrite lookup_delete_ne|].
      split; [|done]. rewrite Hm. destruct (decide _); done.
    + intros n fe Hn Hnz Hs. destruct (Hev n fe Hn Hnz) as [Hne' Hn'].
      destruct (C6 n fe Hn' Hnz Hs) as (d & x & Hx & Hf & Hsl). exists d, x. split; [|done].
      rewrite lookup_delete_ne; [done|]. intros <-. replace x with cn in Hf by congruence. lia.
    + intros n fe Hn Hs. assert (n <> Z.to_nat (cn_fd cn)) as Hne'.
      { intros ->. rewrite Z2Nat.id in Hs by lia. by destruct (C2 c cn Hc). }
      apply delete_slots in E as [->|(fe0 & _ & _ & Hev')]; [by eauto|].
      rewrite Hev', list_lookup_insert_ne in Hn by done. eauto.
    + intros d x (Hx & Hf & _)%Hne. rewrite Hm. rewrite decide_False by done. eauto.
  - pose proof (en_pool _ _ I1) as Hp. cbn in Hp.
    eapply pool_ok_perm in Hp; [|apply (bufs_of_put _ _ cn); done]. cbn in Hp.
    pose proof (pool_step_ok _ _ _ _ Hp (step_close p [] _ spy_rw_buffer_init eq_refl)) as Hp1.
    exact (pool_step_ok _ _ _ _ Hp1 (step_close p [] _ spy_rw_buffer_init eq_refl)).
  - eapply (guard_update _ _ _ c); [exact (en_guard _ _ I1)|by apply outside_loose| |done].
    intros d Hne. cbn. rewrite lookup_delete_ne, lookup_insert_ne by done. done.
Qed.

Lemma send_response_spec e B s c cn :
  env_inv B s -> conns s !! c = Some cn -> outside B c ->
  wp (spy_send_response_if_needed e c) (fun _ s' => kept B s s' /\ others c s s' /\
    (state cn <> SEND_RSP -> s' = s)) s.
Proof.
  intros I Hc Hb. unfold spy_send_response_if_needed. wp_step. eapply wp_get_conn; [done|].
  destruct (decide (state cn = SEND_RSP)) as [Hst|]; [|by wp_steps].
  wp_use create_file_event_spec; [done..|by right|]. intros r s1 (el' & -> & I1 & _).
  destruct (r =? AE_ERR); [|by wp_steps].
  wp_use free_client_spec; [done..|]. intros _ s2 [H2 Hd].
  split; [eapply kept_trans; [|exact H2]; done|]. split; [|done].
  intros d Hne. rewrite Hd. by rewrite lookup_delete_ne.
Qed.

(** [spy_reply_header] changes the header buffer only. *)
Definition header_of (cn : spy_connection_t) : list byte :=
  spy_mach_write_to_1 (opcode cn) ++ spy_mach_write_to_1 (cn_error cn)
    ++ spy_mach_write_to_4 (body_len cn).

Lemma reply_header_spec e B s c cn :
  env_inv B s -> conns s !! c = Some cn -> outside B c ->
  wp (spy_reply_header e c) (fun _ s' => kept B s s' /\ others c s s' /\
    (state cn <> SEND_RSP -> s' = set_conns (<[c := with_header (header_of cn) cn]> (conns s)) s)) s.
Proof.
  intros I Hc Hb. unfold spy_reply_header. wp_step. eapply wp_get_conn; [done|].
  unfold put_conn. do 2 wp_step. fold (header_of cn).
  set (s1 := set_conns _ s).
  assert (I1 : env_inv B s1) by (eapply (env_fields _ s _ c cn); try done; by right; left).
  wp_use (send_response_spec e B s1 c); [done|apply lookup_insert_eq|done|].
  intros _ s2 (H2 & Ho & Hn). split; [eapply kept_trans; [|exact H2]; done|]. split; [|done].
  intros d Hne. rewrite Ho by done. cbn. by rewrite lookup_insert_ne.
Qed.

Lemma reply_error_spec e B s c cn err :
  env_inv B s -> conns s !! c = Some cn -> outside B c ->
  wp (reply_error e c err) (fun _ s' => kept B s s' /\ others c s s') s.
Proof.
  intros I Hc Hb. unfold reply_error, set_reply. do 2 wp_step. eapply wp_get_conn; [done|].
  unfold put_conn. wp_step. set (s1 := set_conns _ s).
  assert (I1 : env_inv B s1) by (eapply (env_fields _ s _ c cn); try done; by left).
  wp_use (reply_header_spec e B s1 c); [done|apply lookup_insert_eq|done|].
  intros _ s2 (H2 & Ho & _). split; [eapply kept_trans; [|exact H2]; done|].
  intros d Hne. rewrite Ho by done. cbn. by rewrite lookup_insert_ne.
Qed.

Lemma land_clear m k : 0 <= m <= 3 -> k = 1 \/ k = 2 -> Z.land (Z.land m (Z.lnot k)) k = 0.
Proof.
  intros Hm Hk. destruct (mask_cases m Hm) as [->|[->|[->| ->]]]; by destruct Hk as [-> | ->].
Qed.

Lemma reset_client_spec e B s c cn :
  env_inv B s -> conns s !! c = Some cn -> outside B c ->
  wp (spy_reset_client_connection e c) (fun _ s' => kept B s s') s.
Proof.
  intros I Hc Hb. unfold spy_reset_client_connection. wp_step. eapply wp_get_conn; [done|].
  wp_use (remove_file_event_spec B s c cn AE_WRITABLE); [done..|]. intros _ s1 (el' & -> & I1 & Hm).
  wp_use (reset_buffers_spec B _ c cn); [done..|by apply outside_loose|]. intros _ s2 (p & -> & I2).
  wp_step. eapply (wp_get_conn _ (emptied cn)); [apply lookup_insert_eq|].
  unfold put_conn. do 2 wp_step. cbn [cn_fd emptied with_rsp_body with_request].
  set (cn3 := with_sentlen _ _). set (s2 := set_conns _ (set_pool _ _)) in *. set (s3 := set_conns _ s2).
  assert (I3 : env_inv B s3).
  { eapply (env_fields _ s2 _ c (emptied cn)); try done; [apply lookup_insert_eq|].
    right. right. cbn.
    rewrite Hm. apply land_clear; [apply (ei_mask _ (ci_ev _ _ _ _ (en_conn _ _ I)))|by right]. }
  change (cn_fd cn) with (cn_fd cn3).
  wp_use (create_file_event_spec e B s3 c cn3); [done|apply lookup_insert_eq|done|by left|].
  intros r s4 (el4 & -> & I4 & _). wp_steps. done.
Qed.

(** *** Sending *)

Definition live (c : connptr) (s : server_t) : Prop := exists cn, conns s !! c = Some cn.

Lemma advance_read_0 b : advance_read 0 b = b.
Proof. destruct b. unfold advance_read, with_read. cbn. by rewrite Z.add_0_r. Qed.
Lemma advance_write_0 b : advance_write 0 b = b.
Proof. destruct b. unfold advance_write, with_write. cbn. by rewrite Z.add_0_r. Qed.

(** [conn->sentlen] or another plain field is assigned. *)
Lemma put_fields_spec B s c cn cn' :
  env_inv B s -> conns s !! c = Some cn -> cn_fd cn' = cn_fd cn -> request cn' = request cn ->
  rsp_body cn' = rsp_body cn -> (state cn' = SEND_RSP \/ state cn' = state cn) -> outside B c ->
  wp (put_conn c cn') (fun _ s' => s' = set_conns (<[c := cn']> (conns s)) s /\ env_inv B s') s.
Proof.
  intros I Hc Hf Hr Hb Hst Hbs. unfold put_conn. wp_steps. split; [done|].
  eapply (env_fields _ s _ c cn); try done; destruct Hst; auto.
Qed.

(** An answer to [write] on a client's socket: an error, or at least a byte. *)
Definition progress (r : sysret) : Prop := match r with Xfer n => 0 < n | SysErr _ => True end.

(** A byte of the response is left for none of the answers after these. *)
Definition takes_rest (cn : spy_connection_t) (script : list sysret) : Prop :=
  whole_header cn /\ Forall progress script /\ rsp_remaining cn <= zlen script.

Lemma remaining_bound cn : rsp_remaining cn < 2 ^ 31.
Proof. unfold rsp_remaining, i32. Z.to_euclidean_division_equations. lia. Qed.

Lemma remaining_sent cn cn' d :
  body_len cn' = body_len cn -> sentlen cn' = i32 (sentlen cn + d) -> 0 < rsp_remaining cn -> 0 <= d < 2 ^ 31 ->
  rsp_remaining cn' = rsp_remaining cn - d.
Proof.
  intros Hb Hs. unfold rsp_remaining. rewrite Hb, Hs. unfold i32, u32.
  set (x := RSP_HDR_SIZE + body_len cn). clearbody x. Z.to_euclidean_division_equations. lia.
Qed.

Lemma takes_rest_sent cn cn' n d script :
  takes_rest cn (Xfer n :: script) -> 0 < rsp_remaining cn -> rsp_header cn' = rsp_header cn ->
  body_len cn' = body_len cn -> sentlen cn' = i32 (sentlen cn + d) -> 0 < d < 2 ^ 31 -> takes_rest cn' script.
Proof.
  intros (Hh & [_ Hp]%Forall_cons & Hl) Hr Eh Eb Es Hd. rewrite zlen_cons in Hl. split_and!; [|done|].
  - unfold whole_header. by rewrite Eh.
  - rewrite (remaining_sent cn cn' d) by (done || lia). lia.
Qed.

Lemma write_handler_loop_spec script B s c cn out :
  may_wait \/ takes_rest cn script -> env_inv B s -> conns s !! c = Some cn -> outside B c ->
  wp (write_handler_loop script c out) (fun r s' => kept B s s' /\ (r.2 = true -> live c s')) s.
Proof.
  revert s cn out. induction script as [|r script IH]; intros s cn out Hw I Hc Hb; cbn [write_handler_loop].
  { wp_step. eapply wp_get_conn; [done|]. cbv zeta. destruct (Z.ltb_spec 0 (rsp_remaining cn));
      wp_steps; [|split; [done|]; by exists cn].
    destruct Hw as [|(_ & _ & Hl)]; [done|]. rewrite zlen_nil in Hl. lia. }
  wp_step. eapply wp_get_conn; [done|]. cbv zeta. destruct (Z.ltb_spec 0 (rsp_remaining cn)) as [Hrem|];
    [|wp_steps; split; [done|by exists cn]].
  assert (Hfree : forall s1, kept B s s1 -> live c s1 ->
    wp (_ ← spy_free_client_connection c; mret (out, false))
      (fun r s' => kept B s s' /\ (r.2 = true -> live c s')) s1).
  { intros s1 [I1 J1] [cn1 Hc1]. wp_use free_client_spec; [done..|]. intros _ s2 [H2 _]. wp_steps.
    split; [by eapply kept_trans|done]. }
  assert (Hrec : forall n s1 cn1 d o, r = Xfer n -> kept B s s1 -> conns s1 !! c = Some cn1 ->
    rsp_header cn1 = rsp_header cn -> body_len cn1 = body_len cn -> sentlen cn1 = i32 (sentlen cn + d) ->
    (whole_header cn -> 0 < n -> 0 < d < 2 ^ 31) ->
    wp (write_handler_loop script c o) (fun r s' => kept B s s' /\ (r.2 = true -> live c s')) s1).
  { intros n s1 cn1 d o -> [I1 J1] Hc1 Eh Eb Es Hd.
    assert (Hw1 : may_wait \/ takes_rest cn1 script).
    { destruct Hw as [|Hw]; [by left|right]. eapply takes_rest_sent; try done.
      destruct Hw as (Hh & [Hn _]%Forall_cons & _). by apply Hd. }
    eapply wp_mono; [by eapply IH|]. intros x s2 [H2 H3].
    split; [|done]. by eapply kept_trans. }
  destruct (Z.ltb_spec (sentlen cn) RSP_HDR_SIZE) as [Hhdr|Hbody].
  - destruct r as [n|[]].
    + wp_use put_fields_spec; [done..|by right|done|]. intros _ s1 [-> I1].
      eapply Hrec; [done|done|apply lookup_insert_eq|done|done|done|]. intros Hh Hn0. unfold whole_header in Hh.
      change RSP_HDR_SIZE with 6 in *. rewrite zlen_take, zlen_drop. lia.
    + wp_steps. done.
    + apply Hfree; [done|by exists cn].
    + apply Hfree; [done|by exists cn].
  - wp_steps. destruct (env_focus _ _ _ _ I Hc) as (Hp & _ & W).
    pose proof (wf_pos _ _ W) as [Hpos _].
    destruct (decide (read_pos (rsp_body cn) = write_pos (rsp_body cn))) as [E|E].
    { eapply wp_lift; [by apply next_readable_none|]. by wp_steps. }
    destruct (next_readable_some _ _ W ltac:(lia)) as (rg & body & Er & Hq & Hlen & Hread).
    eapply wp_lift; [exact Er|]. cbv zeta. set (len := if rsp_remaining cn <? rg_len rg then rsp_remaining cn else rg_len rg).
    assert (Hl : 0 <= len <= rg_len rg) by (unfold len; case_b; lia).
    destruct (Hread len Hl) as (Hbr & _). wp_step. eapply wp_lift; [exact Hbr|].
    wp_step. unfold put_conn at 1. wp_step. set (s1 := set_conns _ s).
    assert (I1 : env_inv B s1).
    { eapply (env_update B s _ c cn); try done; [by right; left|by right|by apply outside_loose|]. intros rest Hrest. cbn. split; [|done].
      rewrite <- (advance_read_0 body).
      apply (pool_step_ok _ _ _ _ Hrest (step_consume (sv_pool s) [request cn] rest _ _ rg 0 Er ltac:(lia))). }
    assert (Hc1 : conns s1 !! c = Some (with_rsp_body body cn)) by apply lookup_insert_eq.
    destruct r as [n|[]].
    + wp_step. unfold put_conn. wp_step. set (d := ztake n _). set (s2 := set_conns _ s1).
      assert (Hd : 0 <= zlen d <= rg_len rg).
      { unfold d. rewrite !zlen_take, (content_len _ _ W). lia. }
      assert (I2 : env_inv B s2).
      { assert (I2' : env_inv B (set_conns (<[c := with_sentlen (i32 (sentlen cn + zlen d))
            (with_rsp_body (advance_read (zlen d) body) (with_rsp_body body cn))]> (conns s)) s)).
        { eapply (env_update B s _ c cn); try done; [by right; left|by right|by apply outside_loose|]. intros rest Hrest. cbn. split; [|done].
          apply (pool_step_ok _ _ _ _ Hrest (step_consume (sv_pool s) [request cn] rest _ _ rg _ Er Hd)). }
        eapply env_view; [exact I2'|..]; try done. cbn. apply insert_insert_eq. }
      eapply Hrec; [done|done|apply lookup_insert_eq|done|done|done|]. intros _ Hn0.
      unfold d. rewrite !zlen_take, (content_len _ _ W). pose proof (remaining_bound cn). unfold len in *.
      destruct (Z.ltb_spec (rsp_remaining cn) (rg_len rg)); lia.
    + wp_steps. done.
    + apply Hfree; [done|by eexists].
    + apply Hfree; [done|by eexists].
Qed.

Lemma write_handler_spec e script B s c cn :
  may_wait \/ takes_rest cn script -> env_inv B s -> conns s !! c = Some cn -> outside B c ->
  wp (spy_write_handler e script c) (fun _ s' => kept B s s') s.
Proof.
  intros Hw I Hc Hb. unfold spy_write_handler. wp_use write_handler_loop_spec; [done..|].
  intros [out []] s1 [H1 H2]; [|wp_steps; done]. destruct (H2 eq_refl) as [cn1 Hc1].
  destruct H1 as [I1 J1]. wp_step. eapply wp_get_conn; [done|]. wp_step. case_b.
  - wp_use reset_client_spec; [done..|]. intros _ s2 H3. wp_steps. by eapply kept_trans.
  - wp_steps. done.
Qed.

(** *** Reading requests and growing buffers *)

(** A connection whose buffers may have changed, and nothing else. *)
Definition same_conn (cn cn' : spy_connection_t) : Prop :=
  exists r b, cn' = with_rsp_body b (with_request r cn).

Lemma same_conn_refl cn : same_conn cn cn.
Proof. exists (request cn), (rsp_body cn). by destruct cn. Qed.
Lemma same_conn_trans a b c : same_conn a b -> same_conn b c -> same_conn a c.
Proof. intros (r & x & ->) (r' & x' & ->). by exists r', x'. Qed.
Lemma same_conn_fields cn cn' : same_conn cn cn' ->
  cn_fd cn' = cn_fd cn /\ state cn' = state cn /\ opcode cn' = opcode cn /\ body_len cn' = body_len cn.
Proof. by intros (r & b & ->). Qed.

(** What an operation on the buffers of [c] guarantees. *)
Definition buffered (B : list connptr) (c : connptr) (cn : spy_connection_t) (s s' : server_t) : Prop :=
  kept B s s' /\ sv_el s' = sv_el s /\ exists cn', conns s' !! c = Some cn' /\ same_conn cn cn'.

Lemma buffered_trans B c cn cn1 s s1 s2 :
  buffered B c cn s s1 -> conns s1 !! c = Some cn1 -> buffered B c cn1 s1 s2 -> buffered B c cn s s2.
Proof.
  intros (K1 & E1 & x & Hx & S1) Hc (K2 & E2 & cn2 & Hc2 & S2).
  replace x with cn1 in S1 by congruence. split; [by eapply kept_trans|]. split; [congruence|].
  exists cn2. split; [done|]. by eapply same_conn_trans.
Qed.

Lemma buffered_update B s s' c cn cn' :
  env_inv B s -> conns s !! c = Some cn -> same_conn cn cn' ->
  conns s' = <[c := cn']> (conns s) -> sv_el s' = sv_el s -> jview s' = jview s ->
  loose B c ->
  (forall rest, pool_ok pre lim (sv_pool s, request cn :: rsp_body cn :: rest) ->
     pool_ok pre lim (sv_pool s', request cn' :: rsp_body cn' :: rest) /\ agree (held rest) (sv_pool s) (sv_pool s')) ->
  buffered B c cn s s'.
Proof.
  intros I Hc Hs H1 H2 H3 Hl Hp. pose proof (same_conn_fields _ _ Hs) as (F1 & F2 & _).
  split; [split; [|done]|split; [done|]].
  - eapply env_update; try done; [right; by left|by right].
  - exists cn'. split; [|done]. rewrite H1. apply lookup_insert_eq.
Qed.

Lemma read_n_total h b n :
  buf_wf h b -> exists b', spy_rw_buffer_read_n h b n = Ret (ztake n (content h b), b') /\
    buf_wf h b' /\ mem_blocks b' = mem_blocks b.
Proof.
  intros W. destruct (decide (0 <= n)) as [Hn|Hn].
  - destruct (read_n_loop_spec (Z.to_nat n) h b n [] W Hn ltac:(lia)) as (b' & E & W' & _ & Hm & _). eauto.
  - exists b. unfold spy_rw_buffer_read_n. replace (Z.to_nat n) with O by lia. cbn.
    destruct (Z.ltb_spec 0 n); [lia|]. by rewrite ztake_neg by lia.
Qed.

Lemma read_n_pool h b n d b' rest p :
  h = mp_heap p -> spy_rw_buffer_read_n h b n = Ret (d, b') ->
  pool_ok pre lim (p, b :: rest) -> pool_ok pre lim (p, b' :: rest).
Proof.
  intros -> E Hp. destruct (pool_ok_focus _ _ _ [] _ _ Hp) as [I W]. cbn in I.
  destruct (read_n_total _ _ n W) as (b2 & E2 & W2 & Hm). rewrite E2 in E. inv_ret.
  pose proof Hp as (_ & _ & Hl & Ha). apply (pool_ok_replace _ _ p p [] rest b); try done.
  cbn. rewrite <- (with_mp_heap_id p). by eapply pool_inv_shape.
Qed.

Lemma read_request_spec B s c cn n :
  env_inv B s -> conns s !! c = Some cn -> loose B c ->
  wp (read_request c n) (fun d s' => buffered B c cn s s' /\
    d = ztake n (content (mp_heap (sv_pool s)) (request cn))) s.
Proof.
  intros I Hc Hlo. unfold read_request. wp_step. eapply wp_get_conn; [done|]. wp_steps.
  destruct (env_focus _ _ _ _ I Hc) as (_ & W & _).
  destruct (read_n_total _ _ n W) as (b & E & _).
  eapply wp_lift; [exact E|]. unfold put_conn. wp_steps. split; [|done].
  eapply (buffered_update _ _ _ c cn); try done.
  - exists b, (rsp_body cn). by destruct cn.
  - intros rest Hp. cbn. split; [|done]. by eapply (read_n_pool _ (request cn)).
Qed.

Lemma expand_pool p b pool_pre rest :
  pool_ok pre lim (p, pool_pre ++ b :: rest) ->
  exists r p' b', spy_rw_buffer_expand p b = Ret (r, p', b') /\
    pool_ok pre lim (p', pool_pre ++ b' :: rest) /\ agree (held (pool_pre ++ rest)) p p' /\
    ((r = -1 /\ p' = p /\ b' = b) \/ (r = 0 /\ cap b < cap b' /\ write_pos b' = write_pos b)).
Proof.
  intros Hp. destruct (pool_ok_focus _ _ _ _ _ _ Hp) as [I W].
  destruct (take_block p) as [[l p1]|] eqn:Ht.
  - destruct (expand_ok p b _ l p1 I W Ht) as (p2 & b2 & E & _ & _ & _ & _ & Hc & _ & Hw & Hag & _).
    exists 0, p2, b2. split; [done|]. split; [|split; [|by right]].
    + exact (pool_step_ok _ _ _ _ Hp (step_expand p p2 pool_pre rest b b2 0 E)).
    + intros y Hy. apply Hag. rewrite held_cons. apply elem_of_app. by right.
  - exists (-1), p, b. rewrite expand_fail by done. split; [done|]. split; [done|]. split; [done|]. by left.
Qed.

Lemma rsp_cap B s c cn : env_inv B s -> conns s !! c = Some cn -> 0 <= cap (rsp_body cn).
Proof.
  intros I Hc. destruct (env_focus _ _ _ _ I Hc) as (_ & _ & W). pose proof (wf_pos _ _ W). lia.
Qed.

Lemma expand_rsp_spec fuel B s c cn size :
  env_inv B s -> conns s !! c = Some cn -> loose B c -> size - cap (rsp_body cn) <= Z.of_nat fuel ->
  wp (expand_rsp_loop fuel c size) (fun ok s' => buffered B c cn s s' /\
    (ok = true -> forall cn', conns s' !! c = Some cn' -> size <= cap (rsp_body cn'))) s.
Proof.
  revert s cn. induction fuel as [|fuel IH]; intros s cn I Hc Hlo Hfuel; cbn [expand_rsp_loop];
    (wp_step; eapply wp_get_conn; [done|]; destruct (Z.ltb_spec (cap (rsp_body cn)) size) as [Hlt|Hge];
     [|wp_steps; split; [split; [done|]; split; [done|]; exists cn; auto using same_conn_refl
                        |intros _ cn' Hc'; replace cn' with cn by congruence; done]]).
  { lia. }
  wp_steps. destruct (env_focus _ _ _ _ I Hc) as (Hp & _).
  destruct (expand_pool _ _ [request cn] _ Hp) as (r & p' & b' & E & _ & _ & Hr).
  eapply wp_lift; [exact E|]. unfold put_conn. wp_steps.
  set (s1 := set_conns _ _).
  assert (H1 : buffered B c cn s s1).
  { eapply (buffered_update _ _ _ c cn); try done.
    - exists (request cn), b'. by destruct cn.
    - intros rest Hrest. destruct (expand_pool _ _ [request cn] _ Hrest) as (r1 & p1 & b1 & E1 & Hok & Hag & _).
      rewrite E1 in E. inv_ret. split; [done|]. intros y Hy. apply Hag, elem_of_app. by right. }
  assert (Hc1 : conns s1 !! c = Some (with_rsp_body b' cn)) by apply lookup_insert_eq.
  destruct (Z.ltb_spec r 0); [wp_steps; split; [exact H1|done]|].
  eapply wp_mono; [apply (IH s1 (with_rsp_body b' cn)); [apply H1|done|done|cbn; lia]|]. intros ok s2 [H2 H3].
  split; [|done]. exact (buffered_trans _ _ _ _ _ _ _ H1 Hc1 H2).
Qed.

Lemma write_n_pool h b d rest p :
  h = mp_heap p -> forall b0, pool_ok pre lim (p, b0 :: b :: rest) ->
  exists n h' b', spy_rw_buffer_write_n h b d = Ret (n, h', b') /\
    pool_ok pre lim (with_mp_heap h' p, b0 :: b' :: rest) /\ agree (held rest) p (with_mp_heap h' p).
Proof.
  intros -> b0 Hp. destruct (pool_ok_focus _ _ _ [b0] _ _ Hp) as [I W]. cbn in I.
  destruct (write_n_loop_spec (length d) (mp_heap p) b d 0 W ltac:(done)) as (h' & b' & E & S).
  cbv zeta in E, S. exists (0 + Z.min (zlen d) (cap b - write_pos b)), h', b'. split; [done|].
  pose proof Hp as (_ & _ & Hl & Ha). destruct S as (S1 & S2 & _ & S4 & _ & _ & _ & S8).
  assert (Hag : agree (held ([b0] ++ rest)) p (with_mp_heap h' p))
    by (intros y Hy; cbn; apply S8; by eapply held_disjoint).
  split; [|intros y Hy; apply Hag, elem_of_app; by right].
  apply (pool_ok_replace _ _ p _ [b0] rest b); try done. by eapply pool_inv_shape.
Qed.

Lemma reply_with_body_spec e B s c cn body :
  env_inv B s -> conns s !! c = Some cn -> outside B c -> state cn <> SEND_RSP ->
  wp (reply_with_body e c body) (fun _ s' => kept B s s') s.
Proof.
  intros I Hc Hb Hst. pose proof (outside_loose _ _ Hb) as Hlo. unfold reply_with_body. wp_use expand_rsp_spec; [done..| |].
  { pose proof (rsp_cap _ _ _ _ I Hc). unfold zlen. lia. }
  intros ok s1 [(K1 & E1 & cn1 & Hc1 & F1%same_conn_fields) _]. destruct K1 as [I1 J1].
  destruct ok; cbn [negb]; last first.
  { wp_use reply_error_spec; [done..|]. intros _ s2 [K2 _]. by eapply kept_trans. }
  wp_step. eapply wp_get_conn; [done|].
  set (cn2 := with_fields 0 (u32 (zlen body)) (state cn1) cn1).
  wp_use (put_fields_spec B s1 c cn1 cn2); [done..|by right|done|]. intros _ s2 [-> I2].
  wp_use (reply_header_spec e B _ c cn2); [done|apply lookup_insert_eq|done|].
  intros _ s3 ([I3 J3] & _ & Hs3). rewrite Hs3 in * by (cbn; destruct F1 as (_ & -> & _); done). clear s3 Hs3.
  set (cn3 := with_header _ _). set (s3 := set_conns (<[c := cn3]> _) _) in *.
  assert (Hc3 : conns s3 !! c = Some cn3) by apply lookup_insert_eq.
  wp_step. eapply wp_get_conn; [done|]. wp_steps.
  destruct (env_focus _ _ _ _ I3 Hc3) as (Hp & _).
  destruct (write_n_pool _ (rsp_body cn3) body _ _ eq_refl _ Hp) as (n & h' & b' & E & _).
  eapply wp_lift; [exact E|]. wp_steps. unfold put_conn at 1. wp_steps. set (s4 := set_conns _ _).
  assert (H4 : buffered B c cn3 s3 s4).
  { eapply (buffered_update _ _ _ c cn3); try done.
    - exists (request cn3), b'. by destruct cn3.
    - intros rest Hrest. destruct (write_n_pool _ _ body _ _ eq_refl _ Hrest) as (n1 & h1 & b1 & E' & Hok & Hag).
      pose proof (eq_trans (eq_sym E') E). inv_ret. done. }
  assert (Hc4 : conns s4 !! c = Some (with_rsp_body b' cn3)) by apply lookup_insert_eq.
  eapply wp_get_conn; [done|]. destruct H4 as ([I4 J4] & _).
  wp_use put_fields_spec; [done|exact Hc4|done..|by left|done|]. intros _ s5 [-> I5].
  unfold spy_reply_body. wp_use send_response_spec; [done|apply lookup_insert_eq|done|].
  intros _ s6 [[I6 J6] _]. split; [done|]. rewrite J6. cbn. done.
Qed.

(** The writeable region [rg] of buffer [b] takes what [read] delivers. *)
Definition fillable (p : mem_pool) (b : spy_rw_buffer_t) (rg : region) : Prop :=
  0 <= rg_len rg /\ forall d, zlen d <= rg_len rg ->
    exists h', block_write (mp_heap p) (rg_block rg) (rg_off rg) d = Ret h' /\
      forall rest, pool_ok pre lim (p, b :: rest) ->
        pool_ok pre lim (with_mp_heap h' p, advance_write (zlen d) b :: rest) /\ agree (held rest) p (with_mp_heap h' p).

Lemma next_writeable_pool p b r b' :
  buf_wf (mp_heap p) b -> spy_rw_buffer_next_writeable (mp_heap p) b = Ret (r, b') ->
  mem_blocks b' = mem_blocks b /\
  (forall rest, pool_ok pre lim (p, b :: rest) -> pool_ok pre lim (p, b' :: rest)) /\
  match r with None => b' = b | Some rg => fillable p b' rg end.
Proof.
  intros W E. pose proof (wf_pos _ _ W) as [_ Hc].
  destruct (decide (write_pos b = cap b)) as [Hf|Hf]; [rewrite next_writeable_none in E by done; by inv_ret|].
  destruct (next_writeable_some _ _ W ltac:(lia)) as (rg & b1 & E1 & Hq & Hlen & Hst).
  rewrite E1 in E. inv_ret. pose proof Hq as (Q1 & _). split; [done|].
  assert (Hfill : fillable p b' rg).
  { split; [lia|]. intros d Hd. destruct (Hst d Hd) as (h' & Hb & S1 & S2 & _ & S4 & _ & _ & _ & S8).
    exists h'. split; [done|]. intros rest Hp. destruct (pool_ok_focus _ _ _ [] _ _ Hp) as [I _].
    assert (Hag : agree (held rest) p (with_mp_heap h' p))
      by (intros y Hy; cbn; apply S8; rewrite <- Q1; by eapply held_disjoint). split; [|done].
    pose proof Hp as (_ & _ & Hl & Ha). apply (pool_ok_replace _ _ p _ [] rest b'); try done. by eapply pool_inv_shape. }
  split; [|done]. intros rest Hp.
  destruct (pool_ok_focus _ _ _ [] _ _ Hp) as [I _].
  pose proof Hp as (_ & _ & Hl & Ha). apply (pool_ok_replace _ _ p p [] rest b); try done.
  - cbn. rewrite <- (with_mp_heap_id p). by eapply pool_inv_shape.
  - destruct (Hst [] ltac:(rewrite (@zlen_nil byte); lia)) as (h2 & Hb2 & S1 & S2 & _).
    rewrite (@zlen_nil byte), advance_write_0 in S2.
    eapply same_shape_wf; [|exact S2]. intros l. by destruct (S1 l).
Qed.

Lemma next_writeable_safe h b : buf_wf h b -> spy_rw_buffer_next_writeable h b <> Undef.
Proof.
  intros W. pose proof (wf_pos _ _ W) as [_ Hc].
  destruct (decide (write_pos b = cap b)) as [Hf|Hf]; [by rewrite next_writeable_none|].
  destruct (next_writeable_some _ _ W ltac:(lia)) as (rg & b1 & -> & _). done.
Qed.

Lemma next_writeable_waits h b : spy_rw_buffer_next_writeable h b <> Wait.
Proof.
  unfold spy_rw_buffer_next_writeable. case_b; [done|].
  destruct (write_block b) as [l|]; [|done]. cbn. destruct (h !! l) as [m|]; [|done]. cbn. case_b; cbn.
  - destruct (list_next_entry _ _) as [x|]; [|done]. cbn. by destruct (h !! x).
  - destruct (write_block b) as [y|]; [|done]. cbn. by destruct (h !! y).
Qed.

Lemma expand_request_spec fuel B s c cn :
  env_inv B s -> conns s !! c = Some cn -> loose B c ->
  (1 <= fuel)%nat \/ write_pos (request cn) < cap (request cn) ->
  wp (expand_request_loop fuel c) (fun r s' => buffered B c cn s s' /\
    match r with
    | None => True
    | Some rg => forall cn', conns s' !! c = Some cn' -> fillable (sv_pool s') (request cn') rg
    end) s.
Proof.
  revert s cn. induction fuel as [|fuel IH]; intros s cn I Hc Hlo Hroom; cbn [expand_request_loop];
    (wp_step; eapply wp_get_conn; [done|]; wp_steps; destruct (env_focus _ _ _ _ I Hc) as (Hp & W & _);
     apply wp_lift_any; [by apply next_writeable_safe|by intros ?%next_writeable_waits|]; intros [r b] E;
     destruct (next_writeable_pool _ _ _ _ W E) as (Hm & Hj & Hr);
     unfold put_conn; wp_steps; set (s1 := set_conns _ s);
     assert (H1 : buffered B c cn s s1) by
       (eapply (buffered_update _ _ _ c cn); try done;
        [exists b, (rsp_body cn); by destruct cn|intros rest Hp'; split; [by apply Hj|done]]);
     destruct r as [rg|];
     [wp_steps; split; [done|]; intros cn' Hc'; unfold s1 in Hc'; cbn in Hc';
      rewrite lookup_insert_eq in Hc'; injection Hc' as <-; exact Hr|]).
  { destruct Hroom as [?|Hroom]; [lia|]. destruct (next_writeable_some _ _ W Hroom) as (? & ? & E' & _).
    by rewrite E' in E. }
  subst b. destruct (expand_pool _ _ [] _ Hp) as (x & p' & b' & E2 & _ & _ & Hx).
  wp_steps. eapply wp_lift; [exact E2|]. wp_steps. set (s2 := set_conns _ (set_pool p' s1)).
  assert (H2 : buffered B c cn s s2).
  { eapply (buffered_update _ _ _ c cn (with_request b' cn)); try done.
    - exists b', (rsp_body cn). by destruct cn.
    - unfold s2, s1. cbn. apply insert_insert_eq.
    - intros rest Hrest. destruct (expand_pool _ _ [] _ Hrest) as (x1 & p1 & b1 & E3 & Hok & Hag & _).
      pose proof (eq_trans (eq_sym E3) E2). inv_ret. split; [done|]. intros y Hy. by apply Hag, elem_of_app; right. }
  assert (Hc2 : conns s2 !! c = Some (with_request b' cn)) by apply lookup_insert_eq.
  destruct (Z.ltb_spec x 0); [wp_steps; split; [exact H2|done]|].
  eapply wp_mono; [apply (IH s2 (with_request b' cn)); [apply H2|done|done|right; cbn]|].
  { pose proof (wf_pos _ _ W) as [_ ?]. lia. }
 intros ok s3 [H3 H4].
  split; [|done]. exact (buffered_trans _ _ _ _ _ _ _ H2 Hc2 H3).
Qed.

(** *** Accepting *)

(** A descriptor no connection and no service uses: what [accept4] returns. *)
Definition fresh_fd (fd : Z) (s : server_t) : Prop :=
  0 < fd /\ (fd ∉ svc) /\ forall c cn, conns s !! c = Some cn -> cn_fd cn <> fd.

Lemma fresh_fd_mask B s fd : env_inv B s -> fresh_fd fd s -> mask_of (sv_el s) fd = AE_NONE.
Proof.
  intros [I _ _] (H0 & H1 & H2). unfold mask_of. destruct (Z.ltb_spec fd 0); [lia|].
  destruct (events (sv_el s) !! Z.to_nat fd) as [fe|] eqn:E; [|done].
  destruct (decide (fe_mask fe = AE_NONE)) as [|Hnz]; [done|].
  destruct (ci_slot _ _ _ _ I _ _ E Hnz) as (c & cn & Hc & Hf & _); rewrite Z2Nat.id in * by lia; [done|].
  by destruct (H2 c cn Hc).
Qed.

Lemma env_new B s c cn :
  env_inv B s -> conns s !! c = None -> fresh_fd (cn_fd cn) s -> cn_fd cn < setsize (sv_el s) ->
  request cn = spy_rw_buffer_init -> rsp_body cn = spy_rw_buffer_init ->
  env_inv B (set_conns (<[c := cn]> (conns s)) s).
Proof.
  intros I Hc Hf Hsz Hr Hb. pose proof (fresh_fd_mask _ _ _ I Hf) as Hm.
  destruct I as [[I1 Isz I2 I3 I4 I5 I6 I7 I8] Hp [Hg1 Hg2]]. destruct Hf as (F0 & F1 & F2). split; cbn.
  - assert (Hl : forall d x, <[c := cn]> (conns s) !! d = Some x ->
      (d = c /\ x = cn) \/ (d <> c /\ conns s !! d = Some x)).
    { intros d x Hx. destruct (decide (c = d)) as [<-|Hne].
      - rewrite lookup_insert_eq in Hx. injection Hx as <-. by left.
      - rewrite lookup_insert_ne in Hx by done. by right. }
    assert (Hk : forall d x, conns s !! d = Some x -> <[c := cn]> (conns s) !! d = Some x).
    { intros d x Hx. rewrite lookup_insert_ne; [done|]. intros <-. by rewrite Hc in Hx. }
    split; try done.
    + intros d x [[-> ->]|[_ Hx]]%Hl; [done|eauto].
    + intros d d' x x' [[-> ->]|[_ Hx]]%Hl [[-> ->]|[_ Hx']]%Hl; [done|..].
      * intros E. by destruct (F2 d' x' Hx').
      * intros E. by destruct (F2 d x Hx).
      * eauto.
    + intros d Hd. destruct (I5 d Hd) as (x & Hx & Hz & Hst). eauto.
    + intros n fe Hn Hnz Hs. destruct (I6 n fe Hn Hnz Hs) as (d & x & Hx & Hrest). eauto.
    + intros d x [[-> ->]|[_ Hx]]%Hl Hw; [by rewrite Hm in Hw|eauto].
  - eapply pool_ok_perm; [symmetry; by apply bufs_of_insert|]. rewrite Hr, Hb.
    pose proof (pool_step_ok _ _ _ _ Hp (step_new _ [] _)) as Hp1.
    exact (pool_step_ok _ _ _ _ Hp1 (step_new _ [] _)).
  - split; [|done]. intros d x Hd Hx. destruct (Hg1 d x Hd Hx) as [A1 A2]. split; [|done]. cbn.
    rewrite lookup_insert_ne; [done|]. intros <-. by rewrite Hc in A1.
Qed.

Lemma create_client_spec e B s fd :
  env_inv B s -> fresh_fd fd s -> wp (spy_create_client_connection e fd) (fun _ s' => kept B s s') s.
Proof.
  intros I Hf. unfold spy_create_client_connection. destruct (e_calloc e); cbn [negb]; [|by wp_steps].
  wp_steps. set (c := fresh (dom (conns s))). set (cn := SpyConnection _ _ _ _ _ _ _ _ _).
  assert (Hc : conns s !! c = None) by (apply not_elem_of_dom, is_fresh).
  assert (Hd : delete c (<[c := cn]> (conns s)) = conns s) by (by rewrite delete_insert_id).
  unfold put_conn. wp_step. change (fresh_fd (cn_fd cn) s) in Hf.
  change (create_file_event e fd) with (create_file_event e (cn_fd cn)). set (s1 := set_conns _ s).
  destruct (decide (cn_fd cn < setsize (sv_el s))) as [Hlt|Hge].
  - wp_use (create_file_event_spec e B s1 c cn); [by apply env_new|apply lookup_insert_eq| |by left|].
    { split; [intros Hin; destruct (env_live _ _ _ I Hin) as [x Hx]; by rewrite Hc in Hx|].
      intros x Hx. destruct (g_idle x) eqn:Hi; [|done].
      destruct (gi_holds _ _ (en_guard _ _ I) c x Hx ltac:(by left)) as [H _]. by rewrite Hc in H. }
    intros r s2 (el' & -> & I2 & [-> |[-> ->]]); cbn [Z.eqb AE_OK AE_ERR].
    + wp_use count_spec; [done|]. by intros _ s3 [[I3 J3] _].
    + wp_steps. split; [|done]. eapply env_view; [exact I|..]; done.
  - unfold create_file_event. wp_steps. eapply wp_lift; [apply create_file_event_full; change (setsize (sv_el s) <= cn_fd cn); lia|].
    wp_steps. split; [|done]. eapply env_view; [exact I|..]; done.
Qed.

Lemma accept_spec e B s cfd :
  env_inv B s -> (0 <= cfd -> fresh_fd cfd s) -> wp (spy_accept_handler e cfd) (fun _ s' => kept B s s') s.
Proof.
  intros I Hf. unfold spy_accept_handler. case_b; [by wp_steps|]. apply create_client_spec; auto.
Qed.

(** *** The request header *)

Lemma receive_header_spec B s c cn :
  env_inv B s -> conns s !! c = Some cn -> Z.land (mask_of (sv_el s) (cn_fd cn)) AE_WRITABLE = 0 ->
  outside B c -> wp (receive_header c) (fun _ s' => kept B s s' /\ sv_el s' = sv_el s /\
    exists cn', conns s' !! c = Some cn' /\ cn_fd cn' = cn_fd cn /\ state cn' = RECEIVE_BODY) s.
Proof.
  intros I Hc Hm Hb. unfold receive_header. wp_use read_request_spec; [done..|by apply outside_loose|].
  intros d s1 [([I1 J1] & E1 & cn1 & Hc1 & (F1 & F2 & _)%same_conn_fields) Hd]. wp_step. wp_step.
  rename H into Hl. apply Z.eqb_eq in Hl. change REQ_HDR_SIZE with 5 in Hl.
  wp_step. destruct (read_from_1_ok d) as [op Hop]; [lia|]. eapply wp_lift; [exact Hop|].
  wp_step. destruct (read_from_4_ok (zdrop 1 d)) as [len Hlen]; [zl|]. eapply wp_lift; [exact Hlen|].
  wp_step. eapply wp_get_conn; [done|]. unfold put_conn. wp_steps. split; [split|split]; try done.
  - eapply (env_fields B s1 _ c cn1); try done. right. right. by rewrite E1, F1.
  - eexists. split; [apply lookup_insert_eq|]. by rewrite <- F1.
Qed.

End Env.
