(* ===== verification/ServerJobs.v ===== *)
(** * ServerJobs: jobs and chunks of [chunkserver/spy_server.c]

    The invariant over the io jobs, the pending writes, the works given to the
    thread pool and the chunk lists, and how the elementary moves of the handlers
    keep it.  [W] are the works the pool holds or is running, [hand] the jobs the
    running handler holds. *)

From S2P Require Import Prelude Utils RwBuffer Store Event WorkQueue Server ServerConn.

Definition io_of (w : work) : option jobptr := match w with WIo j => Some j | WDump _ => None end.
Definition dump_of (w : work) : option jobptr := match w with WDump d => Some d | WIo _ => None end.
Definition ios (W : list work) : list jobptr := omap io_of W.
Definition dumps (W : list work) : list jobptr := omap dump_of W.

(** The connection that waits for a job, the chunk a write job writes. *)
Definition conn_of (v : jview_t) (j : jobptr) : option connptr := v_jobs v !! j ≫= j_conn.
Definition dconn_of (v : jview_t) (d : jobptr) : option connptr := dj_conn <$> v_dumps v !! d.
Definition written_by (v : jview_t) (j : jobptr) : option cptr :=
  job ← v_jobs v !! j;
  match j_fn job with Some FnWrite => j_chunk job | _ => None end.

Definition busyl (W : list work) (v : jview_t) : list connptr :=
  omap (conn_of v) (v_pending v ++ ios W) ++ omap (dconn_of v) (dumps W).
Definition writers (W : list work) (v : jview_t) : list cptr := omap (written_by v) (ios W).

(** ** The invariant *)

Definition write_job (job : spy_io_job_t) : Prop :=
  is_Some (j_conn job) /\ j_fn job = Some FnWrite /\ exists o, j_union job = UOffset o.

(** A job given to the pool has what its function needs. *)
Definition work_job (v : jview_t) (job : spy_io_job_t) : Prop :=
  is_Some (j_conn job) /\
  exists p, j_chunk job = Some p /\ is_Some (chunk_heap (v_store v) !! p) /\
    match j_fn job with
    | Some FnWrite => p ∈ v_writing v /\ exists o, j_union job = UOffset o
    | Some FnRead => exists x, j_union job = UIndex x /\ 0 <= ie_size x < 2 ^ 32
    | Some FnCheck => True
    | None => False
    end.

(** A guarded job is as it was as long as the pool has it, and not among the
    pending writes; [job_loose]: job [j] is not guarded. *)
Definition job_guard {G : Guard} (W : list work) (v : jview_t) : Prop :=
  forall c x j job, guard c = Some x -> g_job x = Some (j, job) ->
    (j ∉ v_pending v) /\ (j ∈ ios W -> v_jobs v !! j = Some job).
Definition job_loose {G : Guard} (j : jobptr) : Prop :=
  forall c x job, guard c = Some x -> g_job x <> Some (j, job).

Record jobs_inv {G : Guard} (W : list work) (hand : list jobptr) (v : jview_t) : Prop := {
  ji_nodup : NoDup (v_free v ++ hand ++ v_pending v ++ ios W);
  ji_dom : forall j, is_Some (v_jobs v !! j) <-> j ∈ v_free v ++ hand ++ v_pending v ++ ios W;
  ji_pend : forall j, j ∈ v_pending v -> exists job, v_jobs v !! j = Some job /\ write_job job;
  ji_work : forall j, j ∈ ios W -> exists job, v_jobs v !! j = Some job /\ work_job v job;
  ji_excl : NoDup (writers W v);
  ji_dnodup : NoDup (dumps W);
  ji_ddom : forall d, is_Some (v_dumps v !! d) <-> d ∈ dumps W;
  ji_dchunk : forall d x, v_dumps v !! d = Some x -> is_Some (chunk_heap (v_store v) !! dj_chunk x);
  ji_size : v_psize v = zlen (v_pending v) /\ zlen (v_pending v) <= DEF_MAX_PENDING_WRITES;
  ji_guard : job_guard W v
}.

(** Every chunk is in exactly one of the two lists; the hash chains hold live
    chunks; the ids from 1 on are all there, as start-up numbers them; an index
    entry names a chunk. *)
Definition hashed (st : store_t) (id : Z) : Prop :=
  exists p ch, p ∈ cell (chunk_index st) (id mod CHUNK_HASH_SIZE) /\
    chunk_heap st !! p = Some ch /\ chunk_id ch = id.

(** [CH] are the chunks start-up created or found. *)
Record chunk_inv (CH : list cptr) (st : store_t) (writing : list cptr) : Prop := {
  ch_all : chunks st ++ writing ≡ₚ CH;
  ch_nodup : NoDup (chunks st ++ writing);
  ch_dom : forall p, is_Some (chunk_heap st !! p) <-> p ∈ chunks st ++ writing;
  ch_count : n_chunks st = zlen (chunks st ++ writing) /\ 0 < n_chunks st < 2 ^ 31;
  ch_index : forall i p, p ∈ cell (chunk_index st) i -> is_Some (chunk_heap st !! p);
  ch_ids : forall id, 1 <= id <= n_chunks st -> hashed st id;
  ch_self : forall p ch, chunk_heap st !! p = Some ch -> hashed st (chunk_id ch);
  ch_files : forall i x, x ∈ cell (file_index st) i ->
    hashed st (ie_chunk_id x) /\ 0 <= ie_size x < 2 ^ 32
}.

(** ** Elementary moves *)

Definition vset_jobs (m : gmap jobptr spy_io_job_t) (f : list jobptr) (v : jview_t) : jview_t :=
  JView (v_store v) (v_writing v) m f (v_dumps v) (v_pending v) (v_psize v) (v_wq v).
Definition vset_pending (l : list jobptr) (n : Z) (v : jview_t) : jview_t :=
  JView (v_store v) (v_writing v) (v_jobs v) (v_free v) (v_dumps v) l n (v_wq v).
Definition vset_dumps (m : gmap jobptr spy_dump_job_t) (v : jview_t) : jview_t :=
  JView (v_store v) (v_writing v) (v_jobs v) (v_free v) m (v_pending v) (v_psize v) (v_wq v).
Definition vset_store (st : store_t) (w : list cptr) (v : jview_t) : jview_t :=
  JView st w (v_jobs v) (v_free v) (v_dumps v) (v_pending v) (v_psize v) (v_wq v).
Definition vset_wq (q : spy_work_queue_t work) (v : jview_t) : jview_t :=
  JView (v_store v) (v_writing v) (v_jobs v) (v_free v) (v_dumps v) (v_pending v) (v_psize v) q.

Section Moves.
Context {CH : list cptr} {G : Guard}.
Implicit Types (W : list work) (hand : list jobptr) (v : jview_t) (j : jobptr) (job : spy_io_job_t).

Lemma omap_none {A B} (f : A -> option B) (l : list A) :
  (forall x, x ∈ l -> f x = None) -> omap f l = [].
Proof.
  induction l as [|x l IH]; intros H; [done|]. cbn. rewrite H by (by left). apply IH.
  intros y Hy. apply H. by right.
Qed.
Lemma omap_agree {A B} (f g : A -> option B) (l : list A) :
  (forall x, x ∈ l -> f x = g x) -> omap f l = omap g l.
Proof.
  induction l as [|x l IH]; intros H; [done|]. cbn. rewrite <- H by (by left). destruct (f x); [f_equal|];
    apply IH; intros y Hy; apply H; by right.
Qed.

Lemma omap_inj {A B} (f : A -> option B) (l : list A) x y b :
  NoDup (omap f l) -> x ∈ l -> y ∈ l -> f x = Some b -> f y = Some b -> x = y.
Proof.
  intros Hn Hx Hy Fx Fy. induction l as [|z l IH]; [by apply not_elem_of_nil in Hx|].
  assert (Hin : forall w, w ∈ l -> f w = Some b -> b ∈ omap f l) by (intros; apply list_elem_of_omap; eauto).
  cbn in Hn. apply elem_of_cons in Hx, Hy. destruct (f z) as [b'|] eqn:Ez.
  - apply NoDup_cons in Hn as [Hn Hl]. destruct Hx as [->|Hx], Hy as [->|Hy]; [done| | |by apply IH].
    + replace b' with b in Hn by congruence. by destruct Hn; eapply Hin.
    + replace b' with b in Hn by congruence. by destruct Hn; eapply Hin.
  - destruct Hx as [->|Hx]; [congruence|]. destruct Hy as [->|Hy]; [congruence|]. by apply IH.
Qed.

Lemma ios_perm W W' : W ≡ₚ W' -> ios W ≡ₚ ios W'.
Proof. intros H. unfold ios. by rewrite H. Qed.
Lemma dumps_perm W W' : W ≡ₚ W' -> dumps W ≡ₚ dumps W'.
Proof. intros H. unfold dumps. by rewrite H. Qed.

#[local] Instance busyl_perm v : Proper ((≡ₚ) ==> (≡ₚ)) (fun W => busyl W v).
Proof.
  intros W W' H. unfold busyl. rewrite !omap_app. by rewrite (ios_perm _ _ H), (dumps_perm _ _ H).
Qed.

(** The pool has no more of the guarded jobs than before, and they have not changed. *)
Lemma job_guard_step (L : jobptr -> Prop) W W' v v' :
  job_guard W v -> (forall j, L j -> job_loose j) -> (forall j, j ∈ v_pending v' -> j ∈ v_pending v \/ L j) ->
  (forall j, j ∈ ios W' -> L j \/ (j ∈ ios W /\ v_jobs v' !! j = v_jobs v !! j)) -> job_guard W' v'.
Proof.
  intros IG HL Hp Hw c x j job Hc Hx. destruct (IG c x j job Hc Hx) as [A1 A2].
  assert (~ L j) by (intros Hj; by apply (HL j Hj c x job)). split.
  - by intros [?|?]%Hp.
  - intros [?|[Hj ->]]%Hw; [done|by apply A2].
Qed.
Lemma job_guard_same W W' v v' :
  job_guard W v -> (forall j, j ∈ v_pending v' -> j ∈ v_pending v) ->
  (forall j, j ∈ ios W' -> j ∈ ios W /\ v_jobs v' !! j = v_jobs v !! j) -> job_guard W' v'.
Proof. intros IG Hp Hw. apply (job_guard_step (fun _ => False) W W' v v'); [done|done|auto..]. Qed.

Lemma jobs_inv_perm W W' hand v : W ≡ₚ W' -> jobs_inv W hand v -> jobs_inv W' hand v.
Proof.
  intros H [I1 I2 I3 I4 I5 I6 I7 I8 I9 IG]. pose proof (ios_perm _ _ H) as Hi.
  pose proof (dumps_perm _ _ H) as Hd. split; try done.
  - by rewrite <- Hi.
  - intros j. rewrite I2. by rewrite Hi.
  - intros j Hj. apply I4. by rewrite Hi.
  - unfold writers in *. by rewrite <- Hi.
  - by rewrite <- Hd.
  - intros d. rewrite I7. by rewrite Hd.
  - eapply job_guard_same; [exact IG|done|]. intros j. by rewrite Hi.
Qed.

(** A held job is in no list. *)
Lemma hand_notin W j hand v :
  jobs_inv W (j :: hand) v ->
  (j ∉ v_free v) /\ (j ∉ hand) /\ (j ∉ v_pending v) /\ (j ∉ ios W) /\ is_Some (v_jobs v !! j).
Proof.
  intros [I1 I2 _ _ _ _ _ _ _ _].
  assert (is_Some (v_jobs v !! j)) by (apply I2; rewrite !elem_of_app, elem_of_cons; auto).
  assert (Hp : v_free v ++ (j :: hand) ++ v_pending v ++ ios W
    ≡ₚ j :: v_free v ++ hand ++ v_pending v ++ ios W) by solve_Permutation.
  rewrite Hp in I1. apply NoDup_cons in I1 as [I1 _]. rewrite !not_elem_of_app in I1. tauto.
Qed.

(** A work that is done (or a pending write that is given up) comes to hand. *)
Lemma take_work W j hand v :
  jobs_inv (WIo j :: W) hand v ->
  jobs_inv W (j :: hand) v /\ exists job c, v_jobs v !! j = Some job /\ j_conn job = Some c /\
    work_job v job /\ busyl (WIo j :: W) v ≡ₚ c :: busyl W v /\
    (forall p, j_fn job = Some FnWrite -> j_chunk job = Some p -> p ∉ writers W v).
Proof.
  intros [I1 I2 I3 I4 I5 I6 I7 I8 I9 IG]. change (ios (WIo j :: W)) with (j :: ios W) in *.
  change (dumps (WIo j :: W)) with (dumps W) in *.
  destruct (I4 j ltac:(by left)) as (job & Hj & Hok). pose proof Hok as [[c Hc] _].
  assert (Hw : writers (WIo j :: W) v = match written_by v j with Some p => p :: writers W v
    | None => writers W v end) by done.
  assert (Hn : NoDup (writers W v)).
  { rewrite Hw in I5. destruct (written_by v j); [by apply NoDup_cons in I5 as [_ ?]|done]. }
  split.
  - assert (Hp : v_free v ++ hand ++ v_pending v ++ j :: ios W
      ≡ₚ v_free v ++ (j :: hand) ++ v_pending v ++ ios W) by solve_Permutation.
    split; try done.
    + by rewrite <- Hp.
    + intros k. rewrite I2. by rewrite Hp.
    + intros k Hk. apply I4. by right.
    + eapply job_guard_same; [exact IG|done|]. intros k Hk. split; [by right|done].
  - exists job, c. split_and!; try done.
    + unfold busyl. change (ios (WIo j :: W)) with (j :: ios W).
      change (dumps (WIo j :: W)) with (dumps W). rewrite !omap_app. cbn. unfold conn_of at 2. rewrite Hj. cbn. rewrite Hc.
      solve_Permutation.
    + intros p Hf Hp. rewrite Hw in I5. unfold written_by in I5. rewrite Hj in I5. cbn in I5.
      rewrite Hf, Hp in I5. by apply NoDup_cons in I5 as [? _].
Qed.

(** Assigning a held job's fields disturbs nobody. *)
Lemma put_hand W j hand v job :
  jobs_inv W (j :: hand) v ->
  let v' := vset_jobs (<[j := job]> (v_jobs v)) (v_free v) v in
  jobs_inv W (j :: hand) v' /\ busyl W v' = busyl W v /\ writers W v' = writers W v.
Proof.
  intros I v'. destruct (hand_notin _ _ _ _ I) as (H1 & H2 & H3 & H4 & H5).
  destruct I as [I1 I2 I3 I4 I5 I6 I7 I8 I9 IG].
  assert (Hl : forall k, k <> j -> v_jobs v' !! k = v_jobs v !! k)
    by (intros k Hk; cbn; by rewrite lookup_insert_ne).
  assert (Hp : forall k, k ∈ v_pending v ++ ios W -> k <> j).
  { intros k Hk ->. apply elem_of_app in Hk as [Hk|Hk]; contradiction. }
  assert (Hw : writers W v' = writers W v).
  { apply omap_agree. intros k Hk. unfold written_by. rewrite Hl; [done|].
    apply Hp, elem_of_app. by right. }
  assert (Hb : busyl W v' = busyl W v).
  { unfold busyl. f_equal. apply omap_agree. intros k Hk. unfold conn_of. rewrite Hl; [done|]. by apply Hp. }
  split; [|done]. split; try done.
  - intros k. cbn. destruct (decide (j = k)) as [<-|Hne].
    + rewrite lookup_insert_eq. split; [|by eauto]. intros _. rewrite !elem_of_app, elem_of_cons. auto.
    + rewrite lookup_insert_ne by done. apply I2.
  - intros k Hk. rewrite Hl; [auto|]. apply Hp, elem_of_app. by left.
  - intros k Hk. rewrite Hl; [exact (I4 k Hk)|]. apply Hp, elem_of_app. by right.
  - by rewrite Hw.
  - eapply job_guard_same; [exact IG|done|]. intros k Hk. split; [done|]. apply Hl, Hp, elem_of_app. by right.
Qed.

(** A held job goes to the pool. *)
Lemma give_work W j hand v job c :
  jobs_inv W (j :: hand) v -> v_jobs v !! j = Some job -> work_job v job -> j_conn job = Some c ->
  (forall p, j_fn job = Some FnWrite -> j_chunk job = Some p -> p ∉ writers W v) -> job_loose j ->
  jobs_inv (WIo j :: W) hand v /\ busyl (WIo j :: W) v ≡ₚ c :: busyl W v.
Proof.
  intros [I1 I2 I3 I4 I5 I6 I7 I8 I9 IG] Hj Hok Hc Hex Hlo.
  change (ios (WIo j :: W)) with (j :: ios W). split.
  - assert (Hp : v_free v ++ (j :: hand) ++ v_pending v ++ ios W
      ≡ₚ v_free v ++ hand ++ v_pending v ++ ios (WIo j :: W))
      by (change (ios (WIo j :: W)) with (j :: ios W); solve_Permutation).
    split; try done.
    + by rewrite <- Hp.
    + intros k. rewrite I2. by rewrite Hp.
    + intros k Hk. change (ios (WIo j :: W)) with (j :: ios W) in Hk.
      apply elem_of_cons in Hk as [->|Hk]; eauto.
    + change (writers (WIo j :: W) v) with (match written_by v j with Some p => p :: writers W v
        | None => writers W v end). unfold written_by. rewrite Hj. cbn.
      destruct (j_fn job) as [[]|]; try done. destruct (j_chunk job) as [p|]; [|done].
      constructor; [by apply Hex|done].
    + apply (job_guard_step (fun k => k = j) W _ v v); [done|by intros k ->|auto|].
      intros k [->|Hk]%elem_of_cons; auto.
  - unfold busyl. change (ios (WIo j :: W)) with (j :: ios W).
    change (dumps (WIo j :: W)) with (dumps W). rewrite !omap_app. cbn. unfold conn_of at 2.
    rewrite Hj. cbn. rewrite Hc. solve_Permutation.
Qed.

(** A held job starts to wait for a chunk. *)
Lemma give_pending W j hand v job c :
  jobs_inv W (j :: hand) v -> v_jobs v !! j = Some job -> write_job job -> j_conn job = Some c ->
  v_psize v < DEF_MAX_PENDING_WRITES -> job_loose j ->
  let v' := vset_pending (v_pending v ++ [j]) (u32 (v_psize v + 1)) v in
  jobs_inv W hand v' /\ busyl W v' ≡ₚ c :: busyl W v.
Proof.
  intros [I1 I2 I3 I4 I5 I6 I7 I8 [I9 I10] IG] Hj Hok Hc Hsz Hlo v'. unfold DEF_MAX_PENDING_WRITES in *.
  assert (Hp : v_free v ++ (j :: hand) ++ v_pending v ++ ios W
    ≡ₚ v_free v ++ hand ++ (v_pending v ++ [j]) ++ ios W) by solve_Permutation.
  split.
  - split; try done; cbn.
    + by rewrite <- Hp.
    + intros k. rewrite I2. by rewrite Hp.
    + intros k Hk. apply elem_of_app in Hk as [Hk|Hk]; [by eauto|].
      apply list_elem_of_singleton in Hk as ->. eauto.
    + rewrite u32_small by zl. unfold DEF_MAX_PENDING_WRITES. split; zl.
    + apply (job_guard_step (fun k => k = j) W W v v'); [done|by intros k ->| |auto]. cbn.
      intros k [Hk|Hk%list_elem_of_singleton]%elem_of_app; auto.
  - unfold busyl. cbn. rewrite !omap_app. cbn. unfold conn_of at 2. cbn.
    rewrite Hj. cbn. rewrite Hc. solve_Permutation.
Qed.

(** A pending write leaves the list. *)
Lemma take_pending W j l1 l2 hand v :
  jobs_inv W hand v -> v_pending v = l1 ++ j :: l2 ->
  let v' := vset_pending (l1 ++ l2) (u32 (v_psize v - 1)) v in
  jobs_inv W (j :: hand) v' /\ exists job c, v_jobs v !! j = Some job /\ j_conn job = Some c /\
    write_job job /\ busyl W v ≡ₚ c :: busyl W v' /\ writers W v' = writers W v.
Proof.
  intros [I1 I2 I3 I4 I5 I6 I7 I8 [I9 I10] IG] Hl v'. unfold DEF_MAX_PENDING_WRITES in *. rewrite Hl in *.
  destruct (I3 j) as (job & Hj & Hok); [rewrite elem_of_app, elem_of_cons; auto|].
  pose proof Hok as [[c Hc] _].
  assert (Hp : v_free v ++ hand ++ (l1 ++ j :: l2) ++ ios W
    ≡ₚ v_free v ++ (j :: hand) ++ (l1 ++ l2) ++ ios W) by solve_Permutation.
  split.
  - split; try done; cbn.
    + by rewrite <- Hp.
    + intros k. rewrite I2. by rewrite Hp.
    + intros k Hk. apply I3. rewrite elem_of_app, elem_of_cons in *. tauto.
    + rewrite u32_small by zl. unfold DEF_MAX_PENDING_WRITES. split; zl.
    + eapply job_guard_same; [exact IG| |done]. cbn. rewrite Hl. intros k. rewrite !elem_of_app, elem_of_cons. tauto.
  - exists job, c. split_and!; try done. unfold busyl. rewrite Hl. cbn. rewrite !omap_app. cbn.
    unfold conn_of at 2. rewrite Hj. cbn. rewrite Hc. unfold v', conn_of. cbn. solve_Permutation.
Qed.

(** The job cache. *)
Lemma take_free W j rest hand v :
  jobs_inv W hand v -> v_free v = j :: rest ->
  let v' := vset_jobs (v_jobs v) rest v in jobs_inv W (j :: hand) v' /\ busyl W v' = busyl W v.
Proof.
  intros [I1 I2 I3 I4 I5 I6 I7 I8 I9 IG] Hf v'. rewrite Hf in *.
  assert (Hp : (j :: rest) ++ hand ++ v_pending v ++ ios W
    ≡ₚ rest ++ (j :: hand) ++ v_pending v ++ ios W) by solve_Permutation.
  split; [|done]. split; try done; cbn.
  - by rewrite <- Hp.
  - intros k. rewrite I2. by rewrite Hp.
Qed.

Lemma give_free W j hand v :
  jobs_inv W (j :: hand) v ->
  let v' := vset_jobs (<[j := zero_job]> (v_jobs v)) (j :: v_free v) v in
  jobs_inv W hand v' /\ busyl W v' = busyl W v.
Proof.
  intros I v'. destruct (put_hand W j hand v zero_job I) as ([I1 I2 I3 I4 I5 I6 I7 I8 I9 IG] & Hb & Hw).
  assert (Hp : v_free v ++ (j :: hand) ++ v_pending v ++ ios W
    ≡ₚ (j :: v_free v) ++ hand ++ v_pending v ++ ios W) by solve_Permutation.
  split; [|exact Hb]. split; try done; cbn.
  - by rewrite <- Hp.
  - intros k. rewrite <- Hp. apply I2.
Qed.

(** Dump jobs are allocated and freed one by one. *)
Lemma give_dump W d x hand v :
  jobs_inv W hand v -> v_dumps v !! d = None -> is_Some (chunk_heap (v_store v) !! dj_chunk x) ->
  let v' := vset_dumps (<[d := x]> (v_dumps v)) v in
  jobs_inv (WDump d :: W) hand v' /\ busyl (WDump d :: W) v' ≡ₚ dj_conn x :: busyl W v.
Proof.
  intros [I1 I2 I3 I4 I5 I6 I7 I8 I9 IG] Hd Hch v'.
  change (ios (WDump d :: W)) with (ios W). change (dumps (WDump d :: W)) with (d :: dumps W).
  assert (Hn : d ∉ dumps W) by (rewrite <- I7, Hd; by intros [? ?]).
  split.
  - split; try done.
    + cbn. by constructor.
    + intros k. change (dumps (WDump d :: W)) with (d :: dumps W). cbn. rewrite elem_of_cons, <- I7.
      destruct (decide (d = k)) as [<-|Hne].
      * rewrite lookup_insert_eq. split; [auto|by eauto].
      * rewrite lookup_insert_ne by done. split; [auto|]. by intros [->|].
    + intros k y. cbn. destruct (decide (d = k)) as [<-|Hne].
      * rewrite lookup_insert_eq. by intros [= <-].
      * rewrite lookup_insert_ne by done. apply I8.
  - unfold busyl. change (ios (WDump d :: W)) with (ios W).
    change (dumps (WDump d :: W)) with (d :: dumps W).
    change (omap (dconn_of v') (d :: dumps W)) with
      (match dconn_of v' d with Some c => c :: omap (dconn_of v') (dumps W)
       | None => omap (dconn_of v') (dumps W) end).
    unfold dconn_of at 1. cbn [v' vset_dumps v_dumps]. rewrite lookup_insert_eq. cbn [fmap option_fmap option_map].
    rewrite (omap_agree (dconn_of v') (dconn_of v)); last first.
    { intros k Hk. unfold dconn_of. cbn. rewrite lookup_insert_ne; [done|]. by intros ->. }
    rewrite <- Permutation_middle. done.
Qed.

Lemma take_dump W d hand v :
  jobs_inv (WDump d :: W) hand v ->
  exists x, v_dumps v !! d = Some x /\
    let v' := vset_dumps (delete d (v_dumps v)) v in
    jobs_inv W hand v' /\ busyl (WDump d :: W) v ≡ₚ dj_conn x :: busyl W v'.
Proof.
  intros [I1 I2 I3 I4 I5 I6 I7 I8 I9 IG].
  change (ios (WDump d :: W)) with (ios W) in *. change (dumps (WDump d :: W)) with (d :: dumps W) in *.
  destruct (proj2 (I7 d) ltac:(by left)) as [x Hx]. apply NoDup_cons in I6 as [Hn Hd].
  exists x. split; [done|]. set (v' := vset_dumps _ v). cbv zeta.
  split.
  - split; try done.
    + intros k. cbn. destruct (decide (d = k)) as [<-|Hne].
      * rewrite lookup_delete_eq. split; [by intros [? ?]|done].
      * rewrite lookup_delete_ne by done. rewrite I7, elem_of_cons. split; [by intros [->|]|auto].
    + intros k y Hy. cbn in Hy. apply lookup_delete_Some in Hy as [_ Hy]. by eapply I8.
  - unfold busyl. change (ios (WDump d :: W)) with (ios W).
    change (dumps (WDump d :: W)) with (d :: dumps W).
    change (omap (dconn_of v) (d :: dumps W)) with
      (match dconn_of v d with Some c => c :: omap (dconn_of v) (dumps W)
       | None => omap (dconn_of v) (dumps W) end).
    unfold dconn_of at 1. rewrite Hx. cbn [fmap option_fmap option_map].
    rewrite (omap_agree (dconn_of v') (dconn_of v)); last first.
    { intros k Hk. unfold dconn_of. cbn. rewrite lookup_delete_ne; [done|]. by intros ->. }
    rewrite <- Permutation_middle. done.
Qed.

(** Unlinking one element of a list of distinct addresses. *)
Lemma unlink_split (l1 l2 : list nat) p :
  NoDup (l1 ++ p :: l2) -> List.filter (fun q => negb (Nat.eqb q p)) (l1 ++ p :: l2) = l1 ++ l2.
Proof.
  intros Hn. rewrite List.filter_app. cbn. rewrite Nat.eqb_refl. cbn.
  assert (Hf : forall l, p ∉ l -> List.filter (fun q => negb (Nat.eqb q p)) l = l).
  { induction l as [|x l IH]; intros Hp; [done|]. apply not_elem_of_cons in Hp as [H1 H2]. cbn.
    destruct (Nat.eqb_spec x p); [congruence|]. cbn. by rewrite IH. }
  apply NoDup_app in Hn as (_ & H1 & [H2 _]%NoDup_cons).
  rewrite !Hf; [done|done|]. intros Hp. apply (H1 p Hp). by left.
Qed.

Definition vset_lists (a w : list cptr) (v : jview_t) : jview_t :=
  vset_store (StoreT (chunk_heap (v_store v)) a (chunk_index (v_store v)) (n_chunks (v_store v))
    (max_chunk_id (v_store v)) (file_index (v_store v))) w v.

Lemma chunk_inv_lists st w a' w' :
  chunk_inv CH st w -> chunks st ++ w ≡ₚ a' ++ w' ->
  chunk_inv CH (StoreT (chunk_heap st) a' (chunk_index st) (n_chunks st) (max_chunk_id st)
    (file_index st)) w'.
Proof.
  intros [C0 C1 C2 C3 C4 C5 C6 C7] Hp. split; try done; cbn.
  - by rewrite <- Hp.
  - by rewrite <- Hp.
  - intros p. rewrite C2. by rewrite Hp.
  - unfold zlen in *. by rewrite <- Hp.
Qed.

Lemma jobs_inv_lists W hand v a w :
  jobs_inv W hand v -> (forall p, p ∈ v_writing v -> p ∈ writers W v -> p ∈ w) ->
  jobs_inv W hand (vset_lists a w v).
Proof.
  intros [I1 I2 I3 I4 I5 I6 I7 I8 I9 IG] Hw. split; try done. intros j Hj.
  destruct (I4 j Hj) as (job & Hl & Hc & p & Hp & Hh & Hf). exists job. split; [done|].
  split; [done|]. exists p. split; [done|]. split; [done|].
  destruct (j_fn job) as [[]|] eqn:E; try done. destruct Hf as [Hf Ho]. split; [|done].
  apply Hw; [done|]. unfold writers. apply list_elem_of_omap. exists j. split; [done|].
  unfold written_by. rewrite Hl. cbn. by rewrite E.
Qed.

(** [list_move(&chunk->c_list, &server.writing_chunks)] *)
Lemma take_chunk W hand v p :
  jobs_inv W hand v -> chunk_inv CH (v_store v) (v_writing v) -> p ∈ chunks (v_store v) ->
  let v' := vset_lists (List.filter (fun q => negb (Nat.eqb q p)) (chunks (v_store v)))
              (p :: v_writing v) v in
  jobs_inv W hand v' /\ chunk_inv CH (v_store v') (v_writing v') /\ busyl W v' = busyl W v /\
  p ∉ writers W v'.
Proof.
  intros I C Hp v'. apply list_elem_of_split in Hp as (l1 & l2 & El). pose proof (ch_nodup _ _ _ C) as Hn.
  assert (Hf : List.filter (fun q => negb (Nat.eqb q p)) (chunks (v_store v)) = l1 ++ l2).
  { rewrite El. apply unlink_split. rewrite El in Hn. by apply NoDup_app in Hn as (? & _). }
  split_and!; [|unfold v'; cbn; rewrite Hf; apply (chunk_inv_lists _ (v_writing v)); [done|]; rewrite El; solve_Permutation|done|].
  - apply jobs_inv_lists; [done|]. intros q Hq _. by right.
  - change (p ∉ writers W v). intros Hw. apply list_elem_of_omap in Hw as (j & Hj & Hwb).
    destruct (ji_work _ _ _ I j Hj) as (job & Hl & _ & q & Hq & _ & Hm).
    unfold written_by in Hwb. rewrite Hl in Hwb. cbn in Hwb.
    destruct (j_fn job) as [[]|]; try done. replace q with p in Hm by congruence. destruct Hm as [Hm _].
    rewrite El in Hn. apply NoDup_app in Hn as (_ & Hn & _). apply (Hn p); [|done].
    rewrite elem_of_app, elem_of_cons. auto.
Qed.

(** [list_move_tail(&chunk->c_list, &server.chunks)] of a chunk nobody writes. *)
Lemma return_chunk W hand v p :
  jobs_inv W hand v -> chunk_inv CH (v_store v) (v_writing v) -> p ∈ v_writing v -> p ∉ writers W v ->
  let v' := vset_lists (chunks (v_store v) ++ [p])
              (List.filter (fun q => negb (Nat.eqb q p)) (v_writing v)) v in
  jobs_inv W hand v' /\ chunk_inv CH (v_store v') (v_writing v') /\ busyl W v' = busyl W v.
Proof.
  intros I C Hp Hw v'. apply list_elem_of_split in Hp as (l1 & l2 & El). pose proof (ch_nodup _ _ _ C) as Hn.
  assert (Hf : List.filter (fun q => negb (Nat.eqb q p)) (v_writing v) = l1 ++ l2).
  { rewrite El. apply unlink_split. rewrite El in Hn. by apply NoDup_app in Hn as (_ & _ & ?). }
  split_and!; [|unfold v'; cbn; rewrite Hf; apply (chunk_inv_lists _ (v_writing v)); [done|]; rewrite El; solve_Permutation|done].
  apply jobs_inv_lists; [done|]. intros q Hq Hqw. rewrite Hf. rewrite El in Hq.
  rewrite elem_of_app, elem_of_cons in *. destruct Hq as [|[->|]]; auto; contradiction.
Qed.

(** A new index entry for a stored file. *)
Lemma chunk_inv_index st w head x :
  chunk_inv CH st w -> hashed st (ie_chunk_id x) -> 0 <= ie_size x < 2 ^ 32 ->
  chunk_inv CH (with_file_index (<[head := x :: cell (file_index st) head]> (file_index st)) st) w.
Proof.
  intros [C0 C1 C2 C3 C4 C5 C6 C7] Hx Hsz. split; try done. cbn. intros i y Hy.
  destruct (decide (i = head)) as [->|Hne].
  - rewrite cell_insert_eq in Hy. apply elem_of_cons in Hy as [->|Hy]; [done|]. by eapply C7.
  - rewrite cell_insert_ne in Hy by done. by eapply C7.
Qed.

(** *** Searches over the chunks *)

(** The list searches of the server all have this shape: the first element of
    the list that passes a test. *)
Lemma search_ok {X} (F : list nat -> outcome (option nat)) (h : gmap nat X) (t : X -> bool) :
  F [] = Ret None ->
  (forall q l, F (q :: l) = x ← c_deref (h !! q); if t x then Ret (Some q) else F l) ->
  forall l, (forall p, p ∈ l -> is_Some (h !! p)) ->
  exists o, F l = Ret o /\
    match o with
    | Some p => p ∈ l /\ exists x, h !! p = Some x /\ t x = true
    | None => forall p x, p ∈ l -> h !! p = Some x -> t x = false
    end.
Proof.
  intros H0 HS. induction l as [|q l IH]; intros Hl.
  { exists None. split; [done|]. intros p x Hp. by apply not_elem_of_nil in Hp. }
  destruct (Hl q ltac:(by left)) as [x Hq]. rewrite HS, Hq. cbn. destruct (t x) eqn:Et.
  { exists (Some q). split; [done|]. split; [by left|]. by exists x. }
  destruct IH as (o & Ho & Hp); [intros p Hp; apply Hl; by right|]. exists o. split; [done|].
  destruct o as [p|].
  - destruct Hp as (Hp & Hx). split; [by right|done].
  - intros p y Hin Hy. apply elem_of_cons in Hin as [->|Hin]; [congruence|by eapply Hp].
Qed.

Lemma lookup_chunk_ok h bucket id :
  (forall p, p ∈ bucket -> is_Some (h !! p)) ->
  (exists p ch, p ∈ bucket /\ h !! p = Some ch /\ chunk_id ch = id) ->
  exists p ch, lookup_chunk h bucket id = Ret (Some p) /\ h !! p = Some ch /\ chunk_id ch = id.
Proof.
  intros Hb (p & ch & Hp & Hh & Hid).
  destruct (search_ok (fun l => lookup_chunk h l id) h (fun c => chunk_id c =? id) eq_refl
    (fun _ _ => eq_refl) bucket Hb) as ([q|] & E & H).
  - destruct H as (_ & cq & Hq & ?%Z.eqb_eq). by exists q, cq.
  - apply H in Hh; [|done]. by apply Z.eqb_neq in Hh.
Qed.

Lemma hashed_lookup st w id :
  chunk_inv CH st w -> hashed st id ->
  exists p ch, lookup_chunk (chunk_heap st) (cell (chunk_index st) (id mod CHUNK_HASH_SIZE)) id = Ret (Some p) /\
    chunk_heap st !! p = Some ch /\ chunk_id ch = id.
Proof. intros C H. apply lookup_chunk_ok; [|exact H]. intros p. apply (ch_index _ _ _ C). Qed.

Lemma find_chunk_ok h need l :
  (forall p, p ∈ l -> is_Some (h !! p)) ->
  exists o, find_chunk h need l = Ret o /\
    match o with
    | Some p => p ∈ l /\ exists ch, h !! p = Some ch /\ (need <? avail_space ch) = true
    | None => forall p ch, p ∈ l -> h !! p = Some ch -> (need <? avail_space ch) = false
    end.
Proof. by apply (search_ok (find_chunk h need) h (fun c => need <? avail_space c)). Qed.

Lemma find_path_ok h suffix l :
  (forall p, p ∈ l -> is_Some (h !! p)) ->
  exists o, find_path h suffix l = Ret o /\ forall p, o = Some p -> p ∈ l.
Proof.
  intros Hl. destruct (search_ok (find_path h suffix) h
    (fun c => spy_string_ends_with (Some (c_path c)) (Some suffix)) eq_refl (fun _ _ => eq_refl) l Hl)
    as (o & E & H). exists o. split; [done|]. intros p ->. by destruct H.
Qed.

Lemma find_pending_ok jobs avail l :
  (forall j, j ∈ l -> is_Some (jobs !! j)) ->
  exists o, find_pending jobs avail l = Ret o /\ forall j, o = Some j -> j ∈ l.
Proof.
  intros Hl. destruct (search_ok (find_pending jobs avail) jobs
    (fun t => u32 (f_size (j_file t) + FILE_META_SIZE) <? avail) eq_refl (fun _ _ => eq_refl) l Hl)
    as (o & E & H). exists o. split; [done|]. intros p ->. by destruct H.
Qed.

Lemma detail_chunks_ok h l files :
  (forall p, p ∈ l -> is_Some (h !! p)) ->
  exists b files', detail_chunks h l files = Ret (b, files') /\ zlen b = 16 * zlen l.
Proof.
  revert files. induction l as [|q l IH]; intros files Hl; [by exists [], files|]. cbn.
  destruct (Hl q ltac:(by left)) as [cq Hq]. rewrite Hq. cbn.
  destruct (IH (u64 (files + files_count cq))) as (b & f' & E & Hb); [intros p Hp; apply Hl; by right|].
  rewrite E. cbn. eexists _, f'. split; [done|]. rewrite !zlen_app, zlen_cons, Hb.
  assert (zlen (spy_mach_write_to_8 (chunk_id cq)) = 8 /\ zlen (spy_mach_write_to_8 (avail_space cq)) = 8)
    as [-> ->] by done. lia.
Qed.

Lemma collect_loop_ok h l total mx :
  (forall p, p ∈ l -> is_Some (h !! p)) -> exists r, collect_loop h l total mx = Ret r.
Proof.
  revert total mx. induction l as [|q l IH]; intros total mx Hl; [by eexists|]. cbn.
  destruct (Hl q ltac:(by left)) as [cq Hq]. rewrite Hq. cbn. apply IH. intros p Hp. apply Hl. by right.
Qed.

End Moves.
