(* ===== verification/ServerSafe.v ===== *)
(** * ServerSafe: every handler of [chunkserver/spy_server.c] keeps the server's
    invariant and makes no undefined access.

    The invariant joins the connection layer (ServerConn) and the jobs and chunks
    (ServerJobs); [ws] are the works that worker threads are running. *)

From S2P Require Import Prelude Utils RwBuffer Store Event WorkQueue Server ServerConn ServerJobs.

Definition all_works (ws : list work) (q : spy_work_queue_t work) : list work :=
  ws ++ pending_list q ++ finished_list q.

Section Safe.
Context (svc : list Z) (pre lim : Z) (CH : list cptr) {mw : MayWait} {G : Guard}.
Abbreviation env_inv := (env_inv svc pre lim).

Definition works (ws : list work) (s : server_t) : list work := all_works ws (sv_wq s).
Definition busy (ws : list work) (s : server_t) : list connptr := busyl (works ws s) (jview s).

Record sv_inv (ws : list work) (hand : list jobptr) (s : server_t) : Prop := {
  si_jobs : jobs_inv (works ws s) hand (jview s);
  si_chunk : chunk_inv CH (sv_store s) (writing_chunks s);
  si_env : env_inv (busy ws s) s
}.

(** A connection for which no job is under way. *)
Definition idle (ws : list work) (c : connptr) (s : server_t) : Prop := live c s /\ outside (busy ws s) c.

(** ** Elementary steps *)

Lemma same_view s s' : jview s' = jview s ->
  sv_store s' = sv_store s /\ writing_chunks s' = writing_chunks s /\ sv_wq s' = sv_wq s /\
  io_jobs s' = io_jobs s /\ pending_writes s' = pending_writes s.
Proof. intros H. by injection H as -> -> -> _ _ -> _ ->. Qed.

Lemma busy_view ws s s' : jview s' = jview s -> busy ws s' = busy ws s.
Proof. intros H. unfold busy, works. by destruct (same_view _ _ H) as (_ & _ & -> & _); rewrite H. Qed.

Lemma sv_kept ws hand s s' :
  sv_inv ws hand s -> kept svc pre lim (busy ws s) s s' -> sv_inv ws hand s' /\ jview s' = jview s.
Proof.
  intros [I1 I2 I3] [E J]. split; [|done]. pose proof (busy_view ws _ _ J) as Hb.
  destruct (same_view _ _ J) as (H1 & H2 & H3 & _). split.
  - unfold works in *. by rewrite H3, J.
  - by rewrite H1, H2.
  - by rewrite Hb.
Qed.

(** The environment part after a step that touches neither connections, event
    loop nor pool. *)
Lemma env_move B B' s s' :
  env_inv B s -> B ≡ₚ B' -> conns s' = conns s -> sv_el s' = sv_el s -> sv_pool s' = sv_pool s ->
  env_inv B' s'.
Proof. intros I Hp H1 H2 H3. eapply env_perm; [exact Hp|]. by eapply env_view. Qed.

Lemma env_drop c B s :
  env_inv (c :: B) s ->
  env_inv B s /\ outside B c /\ (forall x, guard c = Some x -> holds x c s) /\ exists cn, conns s !! c = Some cn /\
    mask_of (sv_el s) (cn_fd cn) = AE_NONE /\ state cn = PROCESS_REQUEST.
Proof.
  intros [I P [G1 G2]]. pose proof (ci_nodup _ _ _ _ I) as Hn. apply NoDup_cons in Hn as [H1 H2].
  assert (Hin : c ∈ c :: B) by (by left). split; [|split; [split|split]]; try done.
  - split; [|done|].
    + eapply conn_inv_weaken; [done|done|]. intros d Hd. by right.
    + split; intros d x Hd Hx.
      * apply (G1 d x Hd). destruct Hx; [by left|right; by right].
      * intros Hb. destruct (G2 d x Hd Hx). by right.
  - intros x Hx. destruct (g_idle x) eqn:E; [|done]. by destruct (G2 c x Hx E).
  - intros x Hx. apply (G1 c x Hx). by right.
  - apply (ci_busy _ _ _ _ I c). by left.
Qed.

Lemma env_wait c cn B s :
  env_inv B s -> outside B c -> (forall x, guard c = Some x -> holds x c s) ->
  conns s !! c = Some cn -> mask_of (sv_el s) (cn_fd cn) = AE_NONE ->
  state cn = PROCESS_REQUEST -> env_inv (c :: B) s.
Proof.
  intros [I P [G1 G2]] [Hn Ho] Hg Hc Hm Hs. split; [by eapply conn_inv_wait|done|]. split; intros d x Hd Hx.
  - destruct Hx as [Hx|[->|Hx]%elem_of_cons]; [apply (G1 d x Hd); by left|by apply Hg|apply (G1 d x Hd); by right].
  - intros [->|Hb]%elem_of_cons; [by rewrite (Ho x Hd) in Hx|by apply (G2 d x Hd Hx)].
Qed.

Lemma wp_get_job j job (Q : _ -> _ -> Prop) s :
  io_jobs s !! j = Some job -> Q job s -> wp (get_job j) Q s.
Proof. intros H HQ. unfold get_job. wp_steps. eapply wp_lift; [by rewrite H|done]. Qed.
Lemma wp_get_chunk p ch (Q : _ -> _ -> Prop) s :
  chunk_heap (sv_store s) !! p = Some ch -> Q ch s -> wp (get_chunk p) Q s.
Proof. intros H HQ. unfold get_chunk. wp_steps. eapply wp_lift; [by rewrite H|done]. Qed.

Lemma reply_error_ok e ws hand s c err :
  sv_inv ws hand s -> idle ws c s ->
  wp (reply_error e c err) (fun _ s' => sv_inv ws hand s' /\ jview s' = jview s /\ others c s s') s.
Proof.
  intros I [[cn Hc] Hn]. wp_use (reply_error_spec svc pre lim e (busy ws s)); [apply I|done..|].
  intros _ s' [K Ho]. destruct (sv_kept _ _ _ _ I K). done.
Qed.

Lemma count_ok ws hand s f :
  sv_inv ws hand s ->
  wp (count f) (fun _ s' => sv_inv ws hand s' /\ jview s' = jview s /\ conns s' = conns s) s.
Proof.
  intros I. wp_use (count_spec svc pre lim (busy ws s)); [apply I|]. intros _ s' [K Hc].
  destruct (sv_kept _ _ _ _ I K). done.
Qed.

Lemma idle_view ws c s s' : idle ws c s -> jview s' = jview s -> conns s' = conns s -> idle ws c s'.
Proof. intros [H1 H2] J Hc. split; [unfold live in *; by rewrite Hc|]. by rewrite (busy_view ws s). Qed.

(** The free job goes back to the cache. *)
Lemma free_io_job_pending ws j hand s :
  sv_inv ws (j :: hand) s ->
  wp (spy_free_io_job j) (fun _ s' => sv_inv ws hand s' /\ pending_writes s' = pending_writes s /\
    conns s' = conns s /\ busy ws s' = busy ws s) s.
Proof.
  intros [I1 I2 I3]. destruct (hand_notin _ _ _ _ I1) as (_ & _ & _ & _ & job & Hj).
  unfold spy_free_io_job. wp_step. eapply wp_get_job; [done|]. wp_steps.
  destruct (give_free _ _ _ _ I1) as [I1' Hb].
  split; [|done]. split; [exact I1'|done|]. eapply env_move; [exact I3| |done..]. unfold busy at 1. by rewrite <- Hb.
Qed.

Lemma free_io_job_ok ws j hand s :
  sv_inv ws (j :: hand) s -> wp (spy_free_io_job j) (fun _ s' => sv_inv ws hand s') s.
Proof. intros I. wp_use free_io_job_pending; [exact I|]. by intros _ s' [? _]. Qed.

Lemma gen_io_job_ok ws hand s :
  sv_inv ws hand s ->
  wp spy_gen_io_job (fun r s' =>
    match r with
    | None => s' = s
    | Some j => sv_inv ws (j :: hand) s' /\ exists rest, s' = set_jobs (io_jobs s) rest s
    end) s.
Proof.
  intros [I1 I2 I3]. unfold spy_gen_io_job. wp_steps. destruct (free_io_jobs s) as [|j rest] eqn:E; wp_steps; [done|].
  destruct (take_free _ j rest _ _ I1 E) as [I1' Hb]. split; [|by exists rest].
  split; [exact I1'|done|]. eapply env_view; [exact I3|done..].
Qed.

(** [*job = ...] for a held job. *)
Lemma put_job_ok ws j hand s job :
  sv_inv ws (j :: hand) s ->
  wp (put_job j job) (fun _ s' => sv_inv ws (j :: hand) s' /\
    s' = set_jobs (<[j := job]> (io_jobs s)) (free_io_jobs s) s /\ busy ws s' = busy ws s) s.
Proof.
  intros [I1 I2 I3]. unfold put_job. wp_steps. destruct (put_hand _ _ _ _ job I1) as (I1' & Hb & _).
  split; [|done]. split; [exact I1'|done|]. eapply env_move; [exact I3| |done..].
  unfold busy at 1. by rewrite <- Hb.
Qed.

(** Adding to the queue of the pool. *)
Lemma create_threads_lists oks (q : spy_work_queue_t work) n made r q' made' :
  spy_create_worker_threads oks q n made = Ret (r, q', made') ->
  pending_list q' = pending_list q /\ finished_list q' = finished_list q.
Proof.
  revert q made. induction oks as [|ok oks IH]; intros q made H; cbn in H; case_b; inv_ret; try done.
  destruct ok; [|by inv_ret]. by apply IH in H.
Qed.

Lemma queue_work_lists e ws w s :
  wp (queue_work e w) (fun _ s' => exists q, s' = set_wq q s /\
    all_works ws q ≡ₚ w :: all_works ws (sv_wq s)) s.
Proof.
  unfold queue_work. wp_steps. set (q0 := queue_count (sv_wq s)).
  assert (Hc : forall oks q n made, exists r, spy_create_worker_threads (W:=work) oks q n made = Ret r).
  { intros oks. induction oks as [|[] oks IH]; intros q n made; cbn; case_b; eauto. }
  assert (Hp : all_works ws (with_pending (pending_list (sv_wq s) ++ [w]) q0) ≡ₚ w :: all_works ws (sv_wq s)).
  { unfold all_works, q0. cbn. solve_Permutation. }
  assert (Hr : exists r, queue_critical (e_threads e) (e_now e) w q0 = Ret r).
  { unfold queue_critical. destruct (spy_wq_need_expand q0); [|cbn; by eauto].
    destruct (Hc (e_threads e) q0 (i32 (nr_threads q0 * 2)) 0%nat) as [[[? ?] ?] ->]. cbn. by eauto. }
  destruct Hr as [r Hr]. apply wp_lift_any; [by rewrite Hr|by rewrite Hr|clear r Hr Hc].
  intros [q made] E. wp_steps. exists q. split; [done|]. unfold queue_critical in E. inv_ret.
  destruct r as [q1 m1]. cbn in E. inv_ret. destruct (spy_wq_need_expand q0); inv_ret; [|exact Hp].
  destruct r as [[? q2] m2]. inv_ret. apply create_threads_lists in Hr0 as [L1 L2].
  unfold all_works in *. cbn. rewrite L1, L2. exact Hp.
Qed.

(** A held job of connection [c] is given to the pool. *)
Lemma queue_io_ok e ws j hand s job c cn :
  sv_inv ws (j :: hand) s -> io_jobs s !! j = Some job -> work_job (jview s) job -> j_conn job = Some c ->
  (forall p, j_fn job = Some FnWrite -> j_chunk job = Some p -> p ∉ writers (works ws s) (jview s)) ->
  job_loose j -> outside (busy ws s) c -> (forall x, guard c = Some x -> holds x c s) ->
  conns s !! c = Some cn -> mask_of (sv_el s) (cn_fd cn) = AE_NONE ->
  state cn = PROCESS_REQUEST ->
  wp (queue_work e (WIo j)) (fun _ s' => sv_inv ws hand s' /\ busy ws s' ≡ₚ c :: busy ws s /\
    exists q, s' = set_wq q s) s.
Proof.
  intros [I1 I2 I3] Hj Hok Hc Hex Hlo Hn Hg Hcn Hm Hs. wp_use queue_work_lists.
  intros _ s' (q & -> & Hp).
  destruct (give_work _ _ _ _ job c I1 Hj Hok Hc Hex Hlo) as [I1' Hb].
  assert (I1q : jobs_inv (all_works ws q) hand (jview s)).
  { eapply jobs_inv_perm; [symmetry; exact Hp|done]. }
  assert (Hbq : busy ws (set_wq q s) ≡ₚ c :: busy ws s).
  { change (c :: busy ws s) with (c :: busyl (works ws s) (jview s)). rewrite <- Hb.
    change (busyl (all_works ws q) (jview s) ≡ₚ busyl (WIo j :: works ws s) (jview s)).
    unfold busyl. rewrite !omap_app, (ios_perm _ _ Hp), (dumps_perm _ _ Hp). done. }
  split; [|split; [done|by exists q]]. split; [|done|].
  - destruct I1q. by split.
  - eapply env_move; [by eapply (env_wait c)| |done..]. by rewrite Hbq.
Qed.

(** ** Completion of jobs *)

(** A job that no longer needs its connection to wait. *)
Record to_hand (ws : list work) (j : jobptr) (hand : list jobptr) (job : spy_io_job_t) (c : connptr)
    (cn : spy_connection_t) (s : server_t) : Prop := {
  th_inv : sv_inv ws (j :: hand) s;
  th_job : io_jobs s !! j = Some job;
  th_conn : j_conn job = Some c;
  th_live : conns s !! c = Some cn;
  th_idle : outside (busy ws s) c;
  th_mask : mask_of (sv_el s) (cn_fd cn) = AE_NONE;
  th_state : state cn = PROCESS_REQUEST
}.

Lemma work_to_hand ws j hand s :
  sv_inv (WIo j :: ws) hand s ->
  exists job c cn, to_hand ws j hand job c cn s /\ work_job (jview s) job /\
    (forall p, j_fn job = Some FnWrite -> j_chunk job = Some p -> p ∉ writers (works ws s) (jview s)).
Proof.
  intros [I1 I2 I3]. destruct (take_work _ _ _ _ I1) as (I1' & job & c & Hj & Hc & Hok & Hb & Hex).
  eapply env_perm in I3; [|exact Hb]. apply env_drop in I3 as (I3 & Hn & Hgd & cn & Hcn & Hm & Hs).
  exists job, c, cn. done.
Qed.

Lemma th_is_idle ws j hand job c cn s : to_hand ws j hand job c cn s -> idle ws c s.
Proof. intros []. split; [by exists cn|done]. Qed.

(** Reply with an error and free the job: the tail of most completions. *)
Lemma reply_and_free e ws j hand job c cn s err :
  to_hand ws j hand job c cn s ->
  wp (_ ← reply_error e c err; spy_free_io_job j) (fun _ s' => sv_inv ws hand s') s.
Proof.
  intros T. wp_use reply_error_ok; [apply T|by eapply th_is_idle|]. intros _ s1 [I1 _].
  by apply free_io_job_ok.
Qed.

(** Counting changes nothing that matters. *)
Lemma to_hand_count ws j hand job c cn s f :
  to_hand ws j hand job c cn s ->
  wp (count f) (fun _ s' => to_hand ws j hand job c cn s' /\ jview s' = jview s) s.
Proof.
  intros [T1 T2 T3 T4 T5 T6 T7]. unfold count. wp_steps. split; [|done].
  destruct T1 as [I1 I2 I3]. split; try done. split; try done. by eapply env_move.
Qed.

(** [conn->error = ..; conn->body_len = ..;] while no reply has started. *)
Lemma to_hand_put ws j hand job c cn s err len :
  to_hand ws j hand job c cn s ->
  wp (put_conn c (with_fields err len (state cn) cn)) (fun _ s' =>
    to_hand ws j hand job c (with_fields err len (state cn) cn) s' /\ jview s' = jview s) s.
Proof.
  intros [T1 T2 T3 T4 T5 T6 T7]. destruct T1 as [I1 I2 I3].
  wp_use (put_fields_spec svc pre lim (busy ws s) s c cn); [done..|by right|done|].
  intros _ s1 [-> I]. split; [|done]. split; try done. cbn. apply lookup_insert_eq.
Qed.

(** Reply with success: the header while the state is still [PROCESS_REQUEST] or
    already [SEND_RSP], then free the job. *)
Lemma read_file_done_ok e ws j s :
  sv_inv (WIo j :: ws) [] s -> wp (spy_read_file_done e j) (fun _ s' => sv_inv ws [] s') s.
Proof.
  intros I. destruct (work_to_hand _ _ _ _ I) as (job & c & cn & T & Hok & _).
  unfold spy_read_file_done. wp_step. eapply wp_get_job; [apply T|]. wp_step.
  eapply wp_lift; [by rewrite (th_conn _ _ _ _ _ _ _ T)|].
  wp_use to_hand_count; [exact T|]. clear T. intros _ s1 [T J].
  destruct (negb _).
  { wp_use reply_error_ok; [apply T|by eapply th_is_idle|]. intros _ s2 [I2 _].
    wp_use count_ok; [done|]. intros _ s3 (I3 & _). by apply free_io_job_ok. }
  wp_step. eapply wp_get_conn; [by eapply th_live|]. wp_use to_hand_put; [done|].
  clear T J. intros _ s2 [T J]. set (cn2 := with_fields _ _ _ cn) in *.
  pose proof (th_inv _ _ _ _ _ _ _ T) as I2.
  wp_use (reply_header_spec svc pre lim e (busy ws s2)); [apply I2|by eapply th_live|by eapply th_idle|].
  intros _ s3 (K & _ & H3). destruct (sv_kept _ _ _ _ I2 K) as [I3 J3].
  assert (Hst : state cn2 <> SEND_RSP) by (by rewrite (th_state _ _ _ _ _ _ _ T)).
  specialize (H3 Hst). set (cn3 := with_header (header_of cn2) cn2) in *.
  assert (Hc3 : conns s3 !! c = Some cn3) by (rewrite H3; apply lookup_insert_eq).
  assert (Hn3 : outside (busy ws s3) c) by (rewrite (busy_view ws s2) by done; apply T).
  wp_step. eapply wp_get_conn; [exact Hc3|].
  wp_use (put_fields_spec svc pre lim (busy ws s3) s3 c cn3); [apply I3|done..|by left|done|].
  intros _ s4 [-> I4]. unfold spy_reply_body. wp_use (send_response_spec svc pre lim e (busy ws s3));
    [exact I4|apply lookup_insert_eq|done|]. intros _ s5 [K5 _].
  assert (I5 : sv_inv ws [j] s5).
  { destruct I3 as [A1 A2 A3]. eapply (sv_kept ws [j] s3); [by split|].
    destruct K5 as [E5 J5]. by split. }
  wp_use count_ok; [exact I5|]. intros _ s6 (I6 & _). by apply free_io_job_ok.
Qed.

Lemma check_chunk_done_ok e ws j s :
  sv_inv (WIo j :: ws) [] s -> wp (spy_check_chunk_done e j) (fun _ s' => sv_inv ws [] s') s.
Proof.
  intros I. destruct (work_to_hand _ _ _ _ I) as (job & c & cn & T & Hok & _).
  unfold spy_check_chunk_done. wp_step. eapply wp_get_job; [apply T|]. wp_step.
  eapply wp_lift; [by rewrite (th_conn _ _ _ _ _ _ _ T)|]. by eapply reply_and_free.
Qed.

Lemma dump_done_ok e ws d s :
  sv_inv (WDump d :: ws) [] s -> wp (spy_dump_chunkfile_done e d) (fun _ s' => sv_inv ws [] s') s.
Proof.
  intros [I1 I2 I3]. destruct (take_dump _ _ _ _ I1) as (x & Hx & I1' & Hb).
  unfold spy_dump_chunkfile_done. wp_steps. eapply wp_lift; [unfold c_deref; by setoid_rewrite Hx|]. wp_steps.
  set (s1 := set_dump_jobs _ s).
  eapply env_perm in I3; [|exact Hb]. apply env_drop in I3 as (I3 & Hn & Hgd & cn & Hcn & Hm & Hs).
  assert (S1 : sv_inv ws [] s1) by (split; [exact I1'|done|by eapply env_move]).
  assert (Hfree : wp (spy_free_client_connection (dj_conn x)) (fun _ s' => sv_inv ws [] s') s1).
  { wp_use (free_client_spec svc pre lim (busy ws s1)); [apply S1|exact Hcn|exact Hn|].
    intros _ s2 [K _]. by eapply sv_kept. }
  destruct (negb _); [done|]. destruct (negb _); [done|].
  wp_use (reset_client_spec svc pre lim e (busy ws s1)); [apply S1|exact Hcn|exact Hn|].
  intros _ s2 K. by eapply sv_kept.
Qed.

(** *** The chunk of a finished write *)

(** A pending write leaves the list: its job comes to hand. *)
Lemma pending_to_hand ws pj l1 l2 hand s :
  sv_inv ws hand s -> pending_writes s = l1 ++ pj :: l2 ->
  exists job c cn, write_job job /\ (forall x, guard c = Some x -> holds x c s) /\
    to_hand ws pj hand job c cn (set_pending (l1 ++ l2) (u32 (pending_writes_size s - 1)) s) /\
    busy ws s ≡ₚ c :: busy ws (set_pending (l1 ++ l2) (u32 (pending_writes_size s - 1)) s) /\
    writers (works ws s) (jview (set_pending (l1 ++ l2) (u32 (pending_writes_size s - 1)) s))
      = writers (works ws s) (jview s).
Proof.
  intros [I1 I2 I3] Hl. destruct (take_pending _ _ _ _ _ _ I1 Hl) as (I1' & job & c & Hj & Hc & Hok & Hb & Hw).
  set (s1 := set_pending _ _ s).
  eapply env_perm in I3; [|exact Hb]. apply env_drop in I3 as (I3 & Hn & Hgd & cn & Hcn & Hm & Hs).
  exists job, c, cn. split; [done|]. split; [done|]. split; [|done]. split; try done.
  split; [exact I1'|done|]. by eapply env_move.
Qed.

Lemma pending_loose ws hand s j : sv_inv ws hand s -> j ∈ pending_writes s -> job_loose j.
Proof. intros [I1 _ _] Hj c x job Hc Hx. by destruct (ji_guard _ _ _ I1 c x j job Hc Hx). Qed.

Lemma pending_known ws hand s j : sv_inv ws hand s -> j ∈ pending_writes s -> is_Some (io_jobs s !! j).
Proof. intros [I1 _ _] Hj. destruct (ji_pend _ _ _ I1 j Hj) as (job & H & _). by exists job. Qed.

Lemma pending_nodup ws hand s : sv_inv ws hand s -> NoDup (pending_writes s).
Proof.
  intros [I1 _ _]. pose proof (ji_nodup _ _ _ I1) as H. apply NoDup_app in H as (_ & _ & H).
  apply NoDup_app in H as (_ & _ & H). by apply NoDup_app in H as (H & _).
Qed.

(** Giving the chunk to a pending write, or back; the job in hand and its
    connection stay as they are. *)
Lemma reuse_chunk_ok e ws j job c cn s p chunk :
  to_hand ws j [] job c cn s -> p ∈ writing_chunks s -> p ∉ writers (works ws s) (jview s) ->
  chunk_heap (sv_store s) !! p = Some chunk ->
  wp (reuse_chunk e p chunk) (fun _ s' => to_hand ws j [] job c cn s' /\
    chunk_heap (sv_store s') = chunk_heap (sv_store s)) s.
Proof.
  intros T Hp Hw Hch. pose proof (th_inv _ _ _ _ _ _ _ T) as I. unfold reuse_chunk. wp_steps.
  eapply (wp_mono _ (fun r s' => s' = s /\ forall pj, r = Some pj -> pj ∈ pending_writes s)).
  { case_b; [|wp_steps; done].
    destruct (find_pending_ok (io_jobs s) (avail_space chunk) (pending_writes s)) as (o & E & Ho);
      [intros k Hk; by eapply pending_known|]. eapply wp_lift; [exact E|]. done. }
  intros [pj|] s0 [-> Hpj].
  - specialize (Hpj pj eq_refl). pose proof (pending_loose _ _ _ _ I Hpj) as Hlo.
    apply list_elem_of_split in Hpj as (l1 & l2 & El).
    destruct (pending_to_hand _ _ _ _ _ _ I El) as (pjob & pc & pcn & Hok & Hpg & PT & Hb & Hwr).
    pose proof (th_job _ _ _ _ _ _ _ PT) as Hpj. wp_step. eapply wp_get_job; [exact Hpj|]. wp_steps.
    rewrite El, unlink_split by (rewrite <- El; by eapply pending_nodup).
    set (s1 := set_pending (l1 ++ l2) _ s) in *. set (pjob' := SpyIoJob _ _ _ _ _ _ _).
    wp_use put_job_ok; [apply PT|]. intros _ s2 (I2 & -> & Hb2). set (s2 := set_jobs _ _ s1) in *.
    unfold count. wp_steps. set (s3 := set_stat _ s2).
    assert (I3 : sv_inv ws [pj; j] s3) by (destruct I2 as [A1 A2 A3]; split; try done; by eapply env_move).
    assert (Hn3 : outside (busy ws s3) pc) by (change (outside (busy ws s2) pc); rewrite Hb2; apply PT).
    assert (Hw3 : p ∉ writers (works ws s3) (jview s3)).
    { destruct (put_hand _ _ _ _ pjob' (si_jobs _ _ _ (th_inv _ _ _ _ _ _ _ PT))) as (_ & _ & Hw').
      change (p ∉ writers (works ws s1) (vset_jobs (<[pj := pjob']> (v_jobs (jview s1)))
        (v_free (jview s1)) (jview s1))). rewrite Hw'. change (works ws s1) with (works ws s). by rewrite Hwr. }
    destruct Hok as (Hpc & Hpf & Hpo).
    wp_use (queue_io_ok e ws pj [j] s3 pjob' pc pcn); try done.
    + apply lookup_insert_eq.
    + split; [done|]. exists p. split; [done|]. split; [by exists chunk|]. cbn. rewrite Hpf.
      split; [done|]. by eexists.
    + apply PT.
    + by intros q _ [= <-].
    + apply PT.
    + apply PT.
    + apply PT.
    + intros _ s4 (I4 & Hb4 & q & ->). split; [|done]. destruct T as [T1 T2 T3 T4 T5 T6 T7]. split; try done.
      * cbn. rewrite lookup_insert_ne; [done|]. intros ->.
        destruct (hand_notin _ _ _ _ (si_jobs _ _ _ I2)) as (_ & H & _). apply H. by left.
      * rewrite Hb4. change (busy ws s3) with (busy ws s2). rewrite Hb2, <- Hb. done.
  - wp_steps. destruct T as [T1 T2 T3 T4 T5 T6 T7]. destruct T1 as [I1 I2 I3].
    destruct (return_chunk _ _ _ p I1 I2 Hp Hw) as (I1' & I2' & Hb').
    split; [|done]. split; try done.
    split; [exact I1'|exact I2'|]. eapply env_move; [exact I3| |done..]. unfold busy at 1. by rewrite <- Hb'.
Qed.

Lemma error_reply_ok e ws j hand job c cn s f err :
  to_hand ws j hand job c cn s ->
  wp (_ ← count f; _ ← reply_error e c err; spy_free_io_job j) (fun _ s' => sv_inv ws hand s') s.
Proof.
  intros T. wp_use to_hand_count; [exact T|]. intros _ s1 [T1 _]. by eapply reply_and_free.
Qed.

Lemma write_file_done_ok e ws j job s :
  sv_inv (WIo j :: ws) [] s -> io_jobs s !! j = Some job -> j_fn job = Some FnWrite ->
  wp (spy_write_file_done e j) (fun _ s' => sv_inv ws [] s') s.
Proof.
  intros I Hj0 Hfn. destruct (work_to_hand _ _ _ _ I) as (job' & c & cn & T & Hok & Hex).
  pose proof (th_job _ _ _ _ _ _ _ T) as Hj. replace job' with job in * by congruence. clear job' Hj0.
  destruct Hok as (_ & p & Hp & [chunk Hch] & Hwr). rewrite Hfn in Hwr. destruct Hwr as [Hwr [o Ho]].
  specialize (Hex p Hfn Hp).
  unfold spy_write_file_done. wp_step. eapply wp_get_job; [exact Hj|]. wp_step.
  eapply wp_lift; [by rewrite (th_conn _ _ _ _ _ _ _ T)|]. wp_step. eapply wp_lift; [by rewrite Hp|].
  wp_step. eapply wp_get_conn; [by eapply th_live|]. wp_use to_hand_put; [exact T|]. clear T.
  intros _ s1 [T J1]. wp_use to_hand_count; [exact T|]. clear T. intros _ s2 [T J2].
  rewrite J1 in J2. set (cn2 := with_fields _ _ _ cn) in *.
  destruct (same_view _ _ J2) as (V1 & V2 & V3 & V4 & _). wp_steps.
  destruct (spy_lookup_file_index _ _); [by eapply error_reply_ok|].
  wp_step. eapply wp_get_chunk; [by rewrite V1|]. wp_use reuse_chunk_ok; [exact T|by rewrite V2| |by rewrite V1|].
  { unfold works. by rewrite V3, J2. }
  clear T. intros _ s3 [T Hh]. destruct (negb _); [by eapply error_reply_ok|].
  wp_use to_hand_count; [exact T|]. clear T. intros _ s4 [T J4]. rewrite Ho. wp_step.
  eapply wp_lift; [done|]. wp_steps. set (s5 := set_store _ s4).
  assert (I5 : sv_inv ws [j] s5).
  { destruct T as [[A1 A2 A3] _ _ _ _ _ _]. destruct (same_view _ _ J4) as (V5 & _). split.
    - by destruct A1.
    - apply chunk_inv_index; [exact A2| |apply u32_range]. cbn. apply (ch_self _ _ _ A2 p). rewrite V5, Hh. by rewrite V1.
    - by eapply env_move. }
  eapply wp_get_conn; [exact (th_live _ _ _ _ _ _ _ T)|]. destruct T as [T1 T2 T3 T4 T5 T6 T7].
  wp_use (put_fields_spec svc pre lim (busy ws s5) s5 c cn2); [apply I5|exact T4|done..|by left|exact T5|].
  intros _ s6 [-> I6]. wp_use (reply_header_spec svc pre lim e (busy ws s5));
    [exact I6|apply lookup_insert_eq|exact T5|]. intros _ s7 [K7 _].
  apply free_io_job_ok. destruct I5 as [A1 A2 A3]. eapply (sv_kept ws [j] s5); [by split|].
  destruct K7 as [E7 J7]. by split.
Qed.

Lemma work_done_ok e ws w s :
  sv_inv (w :: ws) [] s -> wp (work_done e w) (fun _ s' => sv_inv ws [] s') s.
Proof.
  intros I. destruct w as [j|d]; [|by apply dump_done_ok].
  destruct (work_to_hand _ _ _ _ I) as (job & c & cn & T & Hok & _).
  pose proof (th_job _ _ _ _ _ _ _ T) as Hj. unfold work_done. wp_step. eapply wp_get_job; [exact Hj|].
  destruct (j_fn job) as [[]|] eqn:Ef.
  - by eapply write_file_done_ok.
  - by apply read_file_done_ok.
  - by apply check_chunk_done_ok.
  - destruct Hok as (_ & p & _ & _ & Hf). by rewrite Ef in Hf.
Qed.

Lemma done_loop_ok e l ws s :
  sv_inv (l ++ ws) [] s -> wp (done_loop e l) (fun _ s' => sv_inv ws [] s') s.
Proof.
  revert s. induction l as [|w l IH]; intros s I; cbn [done_loop]; [by wp_steps|].
  wp_use work_done_ok; [exact I|]. intros _ s1 I1. by apply IH.
Qed.

(** Works move between the lists of the pool, its threads and the main thread. *)
Lemma sv_inv_wq ws ws' hand q s :
  sv_inv ws hand s -> works ws s ≡ₚ all_works ws' q -> sv_inv ws' hand (set_wq q s).
Proof.
  intros [I1 I2 I3] Hp. eapply jobs_inv_perm in I1; [|exact Hp]. split; [by destruct I1|done|].
  eapply env_move; [exact I3| |done..].
  change (busyl (works ws s) (jview s) ≡ₚ busyl (all_works ws' q) (jview s)).
  unfold busyl. rewrite !omap_app, (ios_perm _ _ Hp), (dumps_perm _ _ Hp). done.
Qed.

Lemma wq_thread_done_ok e ws s :
  sv_inv ws [] s -> wp (spy_wq_thread_done e) (fun _ s' => sv_inv ws [] s') s.
Proof.
  intros I. unfold spy_wq_thread_done. wp_steps. cbn [splice_finished]. wp_steps.
  apply done_loop_ok. eapply sv_inv_wq; [exact I|]. unfold works, all_works. cbn. solve_Permutation.
Qed.

(** ** Pending writes that are given up *)

(** Connection [c] stays, and no job starts for it. *)
Definition stays (ws : list work) (c : connptr) (s s' : server_t) : Prop :=
  idle ws c s -> idle ws c s'.

Lemma give_up_pending e ws j l s err :
  sv_inv ws [] s -> pending_writes s = j :: l ->
  exists job, io_jobs s !! j = Some job /\ forall (k : M unit) Q,
    (forall s', sv_inv ws [] s' -> pending_writes s' = l -> (forall c, stays ws c s s') -> wp k Q s') ->
    wp (_ ← pmod (fun s => set_pending l (u32 (pending_writes_size s - 1)) s);
        c ← plift (c_deref (j_conn job)); _ ← reply_error e c err; _ ← spy_free_io_job j; k) Q s.
Proof.
  intros I Hl. destruct (pending_to_hand ws j [] l [] s I Hl) as (job & c & cn & Hok & _ & T & Hb & _).
  exists job. split; [apply T|]. intros k Q Hk. wp_steps.
  eapply wp_lift; [by rewrite (th_conn _ _ _ _ _ _ _ T)|]. wp_step.
  wp_use reply_error_ok; [apply T|by eapply th_is_idle|]. intros _ s2 (I2 & J2 & Ho).
  destruct (same_view _ _ J2) as (_ & _ & _ & _ & Hp). cbn in Hp.
  wp_use free_io_job_pending; [exact I2|]. intros _ s3 (I3 & Hp3 & Hc3 & Hb3). apply Hk; [done|congruence|].
  intros d [[x Hx] Hd]. rewrite Hb in Hd. destruct Hd as [[Hne Hd]%not_elem_of_cons Hg]. split.
  - exists x. rewrite Hc3, Ho by done. exact Hx.
  - rewrite Hb3, (busy_view ws _ _ J2). by split.
Qed.

Lemma kill_loop_ok e ws l s :
  sv_inv ws [] s -> pending_writes s = l ->
  wp (kill_loop e l) (fun _ s' => sv_inv ws [] s' /\ forall c, stays ws c s s') s.
Proof.
  revert s. induction l as [|j l IH]; intros s I Hl; cbn [kill_loop];
    [wp_steps; split; [done|intros c; exact (fun H => H)]|].
  destruct (give_up_pending e ws j l s KILLED I Hl) as (job & Hj & Hk).
  wp_step. eapply wp_get_job; [exact Hj|]. apply Hk. intros s1 I1 Hl1 Hs1.
  wp_use IH; [done..|]. intros _ s2 [I2 Hs2]. split; [done|]. intros c Hc. by apply Hs2, Hs1.
Qed.

Lemma timeout_loop_ok e ws l s :
  sv_inv ws [] s -> pending_writes s = l -> wp (timeout_loop e l) (fun _ s' => sv_inv ws [] s') s.
Proof.
  revert s. induction l as [|j l IH]; intros s I Hl; cbn [timeout_loop]; [by wp_steps|].
  destruct (give_up_pending e ws j l s CHUNK_UNAVAILABLE I Hl) as (job & Hj & Hk).
  wp_step. eapply wp_get_job; [exact Hj|]. case_b; [by wp_steps|]. apply Hk. auto.
Qed.

Lemma server_cron_ok e ws s :
  sv_inv ws [] s -> wp (spy_server_cron e) (fun _ s' => sv_inv ws [] s') s.
Proof.
  intros I. unfold spy_server_cron, spy_report_server_infos, spy_remove_timeout_pending_writes.
  wp_steps. eapply (wp_mono _ (fun _ s' => sv_inv ws [] s')).
  - destruct (negb _); [by wp_steps|]. pose proof (ch_dom _ _ _ (si_chunk _ _ _ I)) as Hd.
    unfold spy_collect_free_space. wp_step.
    destruct (collect_loop_ok (chunk_heap (sv_store s)) (chunks (sv_store s)) 0 0) as [[t m] E1].
    { intros p Hp. apply Hd, elem_of_app. by left. }
    destruct (collect_loop_ok (chunk_heap (sv_store s)) (writing_chunks s) t m) as [[t2 m2] E2].
    { intros p Hp. apply Hd, elem_of_app. by right. }
    eapply wp_lift; [rewrite E1; cbn; exact E2|]. wp_steps. destruct I as [A1 A2 A3].
    split; try done. by eapply env_move.
  - clear s I. intros _ s I. wp_steps.
    eapply (wp_mono _ (fun _ s' => sv_inv ws [] s')); [|intros _ s' I'; by wp_steps].
    case_b; [by wp_steps|]. wp_steps. by apply timeout_loop_ok.
Qed.

(** ** Request handlers *)

(** The pool has the guarded jobs. *)
Definition guard_jobs (ws : list work) (s : server_t) : Prop :=
  forall c x j job, guard c = Some x -> g_job x = Some (j, job) -> j ∈ ios (works ws s).

Lemma guard_jobs_view ws s s' : jview s' = jview s -> guard_jobs ws s -> guard_jobs ws s'.
Proof. intros J H. unfold guard_jobs, works. by destruct (same_view _ _ J) as (_ & _ & -> & _). Qed.

(** The connection whose request is being processed. *)
Record ready (ws : list work) (hand : list jobptr) (c : connptr) (cn : spy_connection_t) (s : server_t)
    : Prop := {
  rd_inv : sv_inv ws hand s;
  rd_live : conns s !! c = Some cn;
  rd_idle : outside (busy ws s) c;
  rd_guard : guard c = None;
  rd_jobs : guard_jobs ws s;
  rd_state : state cn = PROCESS_REQUEST
}.

Lemma ready_idle ws hand c cn s : ready ws hand c cn s -> idle ws c s.
Proof. intros []. split; [by exists cn|done]. Qed.

Lemma ready_mask ws hand c cn s :
  ready ws hand c cn s -> Z.land (mask_of (sv_el s) (cn_fd cn)) (Z.lnot AE_READABLE) = AE_NONE.
Proof.
  intros [I Hc _ _ _ Hs]. destruct (si_env _ _ _ I) as [CI _ _].
  pose proof (ei_mask _ (ci_ev _ _ _ _ CI) (cn_fd cn)) as Hr.
  assert (Hw : Z.land (mask_of (sv_el s) (cn_fd cn)) AE_WRITABLE = 0).
  { destruct (decide (Z.land (mask_of (sv_el s) (cn_fd cn)) AE_WRITABLE = 0)) as [|Hn]; [done|].
    apply (ci_send _ _ _ _ CI c cn Hc) in Hn. congruence. }
  revert Hw. by destruct (mask_cases _ Hr) as [->|[->|[->| ->]]].
Qed.

Lemma ready_buffered ws hand c cn s s' :
  ready ws hand c cn s -> buffered svc pre lim (busy ws s) c cn s s' ->
  exists cn', ready ws hand c cn' s' /\ same_conn cn cn' /\ jview s' = jview s.
Proof.
  intros [I Hc Hn Hg Hgj Hs] (K & _ & cn' & Hc' & Hsame). destruct (sv_kept _ _ _ _ I K) as [I' J].
  exists cn'. split; [|done]. split; [done|done| |done| |].
  - by rewrite (busy_view ws s).
  - by eapply guard_jobs_view.
  - destruct (same_conn_fields _ _ Hsame) as (_ & -> & _). done.
Qed.

Lemma ready_loose ws hand c cn s : ready ws hand c cn s -> loose (busy ws s) c.
Proof. intros R. apply outside_loose, R. Qed.
Lemma ready_job ws hand j c cn s : ready ws (j :: hand) c cn s -> job_loose j.
Proof.
  intros R d x job Hd Hx. destruct (hand_notin _ _ _ _ (si_jobs _ _ _ (rd_inv _ _ _ _ _ R))) as (_ & _ & _ & H & _).
  apply H. exact (rd_jobs _ _ _ _ _ R d x j job Hd Hx).
Qed.
Lemma ready_unguarded ws hand c cn s : ready ws hand c cn s -> forall x, guard c = Some x -> holds x c s.
Proof. intros R x Hx. by rewrite (rd_guard _ _ _ _ _ R) in Hx. Qed.

(** [spy_remove_file_event(..., AE_READABLE)]: no event is left. *)
Lemma stop_reading_ok ws hand c cn s :
  ready ws hand c cn s ->
  wp (remove_file_event (cn_fd cn) AE_READABLE) (fun _ s' => ready ws hand c cn s' /\
    mask_of (sv_el s') (cn_fd cn) = AE_NONE /\ jview s' = jview s /\ conns s' = conns s) s.
Proof.
  intros R. pose proof (ready_mask _ _ _ _ _ R) as Hm. destruct R as [I Hc Hn Hg Hgj Hs].
  wp_use (remove_file_event_spec svc pre lim (busy ws s)); [apply I|done..|].
  intros _ s1 (el & -> & I1 & Hm1). split; [|cbn; by rewrite Hm1].
  destruct I as [A1 A2 A3]. by split.
Qed.

Lemma read_request_ok ws hand c cn s n :
  ready ws hand c cn s ->
  wp (read_request c n) (fun d s' => exists cn', ready ws hand c cn' s' /\ same_conn cn cn' /\
    jview s' = jview s /\ d = ztake n (content (mp_heap (sv_pool s)) (request cn))) s.
Proof.
  intros R. wp_use (read_request_spec svc pre lim (busy ws s)); [apply R|by eapply rd_live|by eapply ready_loose|].
  intros d s' [Hb ->]. destruct (ready_buffered _ _ _ _ _ _ R Hb) as (cn' & R' & S' & J'). by exists cn'.
Qed.

Lemma reply_ready e ws c cn s err :
  ready ws [] c cn s -> wp (reply_error e c err) (fun _ s' => sv_inv ws [] s') s.
Proof.
  intros R. wp_use reply_error_ok; [apply R|by eapply ready_idle|]. by intros _ s' (? & _).
Qed.

Lemma count_ready ws hand c cn s f :
  ready ws hand c cn s ->
  wp (count f) (fun _ s' => ready ws hand c cn s' /\ jview s' = jview s /\ sv_el s' = sv_el s) s.
Proof.
  intros [I Hc Hn Hg Hgj Hs]. unfold count. wp_steps. split; [|done]. destruct I as [A1 A2 A3].
  split; try done. split; try done. by eapply env_move.
Qed.

Lemma count_reply e ws c cn s f err :
  ready ws [] c cn s -> wp (_ ← count f; reply_error e c err) (fun _ s' => sv_inv ws [] s') s.
Proof. intros R. wp_use count_ready; [exact R|]. intros _ s1 (R1 & _). by eapply reply_ready. Qed.

Lemma ping_ok e ws c cn s :
  ready ws [] c cn s -> wp (spy_handle_ping e c) (fun _ s' => sv_inv ws [] s') s.
Proof.
  intros R. unfold spy_handle_ping. wp_step. eapply wp_get_conn; [by eapply rd_live|].
  wp_use stop_reading_ok; [exact R|]. intros _ s1 (R1 & _). by eapply reply_ready.
Qed.

Lemma kill_ok e ws c cn s :
  ready ws [] c cn s -> wp (spy_kill_pending_writes e c) (fun _ s' => sv_inv ws [] s') s.
Proof.
  intros R. unfold spy_kill_pending_writes. wp_steps. wp_use kill_loop_ok; [apply R|done|].
  intros _ s1 [I1 Hs]. wp_use reply_error_ok; [exact I1|apply Hs; by eapply ready_idle|].
  by intros _ s2 (? & _).
Qed.

Lemma with_body_ok e ws c cn s body :
  ready ws [] c cn s -> wp (reply_with_body e c body) (fun _ s' => sv_inv ws [] s') s.
Proof.
  intros R. wp_use (reply_with_body_spec svc pre lim e (busy ws s)); [apply R|by eapply rd_live|apply R| |].
  - by rewrite (rd_state _ _ _ _ _ R).
  - intros _ s1 K. by eapply sv_kept; [apply R|].
Qed.

Lemma detail_ok e ws c cn s :
  ready ws [] c cn s -> wp (spy_query_detail_infos e c) (fun _ s' => sv_inv ws [] s') s.
Proof.
  intros R. pose proof (si_chunk _ _ _ (rd_inv _ _ _ _ _ R)) as C. pose proof (ch_dom _ _ _ C) as Hd.
  unfold spy_query_detail_infos. wp_steps.
  destruct (detail_chunks_ok (chunk_heap (sv_store s)) (chunks (sv_store s)) 0) as (b1 & f1 & E1 & L1).
  { intros p Hp. apply Hd, elem_of_app. by left. }
  destruct (detail_chunks_ok (chunk_heap (sv_store s)) (writing_chunks s) f1) as (b2 & f2 & E2 & L2).
  { intros p Hp. apply Hd, elem_of_app. by right. }
  eapply wp_lift; [exact E1|]. wp_steps. eapply wp_lift; [exact E2|]. wp_steps.
  set (body := spy_mach_write_to_4 _ ++ _).
  assert (Hl : zlen body = u64 (DEF_DETAIL_INFOS_HDR_SIZE + u64 (n_chunks (sv_store s)) * 16)).
  { destruct (ch_count _ _ _ C) as [Hc Hr]. unfold body. rewrite !zlen_app, L1, L2.
    rewrite !zlen_write_4, !zlen_write_8. unfold DEF_DETAIL_INFOS_HDR_SIZE.
    rewrite (u64_small (n_chunks _)) by lia. rewrite u64_small by lia. rewrite Hc, zlen_app. lia. }
  rewrite Hl, Z.eqb_refl. eapply wp_lift; [done|]. by eapply with_body_ok.
Qed.

(** A held job is filled in, its connection stops reading, and it is queued: the
    common end of the handlers that start a job. *)
Lemma start_job_ok e ws j job c cn s :
  ready ws [j] c cn s -> mask_of (sv_el s) (cn_fd cn) = AE_NONE -> io_jobs s !! j = Some job ->
  work_job (jview s) job -> j_conn job = Some c ->
  (forall p, j_fn job = Some FnWrite -> j_chunk job = Some p -> p ∉ writers (works ws s) (jview s)) ->
  wp (queue_work e (WIo j)) (fun _ s' => sv_inv ws [] s') s.
Proof.
  intros R Hm Hj Hok Hc Hex. wp_use (queue_io_ok e ws j [] s job c cn); try done;
    [apply R|by eapply ready_job|apply R|by eapply ready_unguarded|apply R|apply R|].
  by intros _ s1 (? & _).
Qed.

Lemma gen_ready ws c cn s :
  ready ws [] c cn s ->
  wp spy_gen_io_job (fun r s' =>
    match r with
    | None => s' = s
    | Some j => ready ws [j] c cn s' /\ (exists job, io_jobs s' !! j = Some job) /\
        exists rest, s' = set_jobs (io_jobs s) rest s
    end) s.
Proof.
  intros [I Hc Hn Hg Hgj Hs]. wp_use gen_io_job_ok; [exact I|]. intros [j|] s1 H; [|done].
  destruct H as [I1 [rest ->]]. split; [by split|]. split; [|by exists rest].
  by destruct (hand_notin _ _ _ _ (si_jobs _ _ _ I1)) as (_ & _ & _ & _ & H).
Qed.

Lemma put_ready ws j c cn s job :
  ready ws [j] c cn s ->
  wp (put_job j job) (fun _ s' => ready ws [j] c cn s' /\
    s' = set_jobs (<[j := job]> (io_jobs s)) (free_io_jobs s) s /\
    writers (works ws s') (jview s') = writers (works ws s) (jview s)) s.
Proof.
  intros [I Hc Hn Hg Hgj Hs]. wp_use put_job_ok; [exact I|]. intros _ s1 (I1 & -> & Hb).
  split; [split; try done; by rewrite Hb|]. split; [done|].
  by destruct (put_hand _ _ _ _ job (si_jobs _ _ _ I)) as (_ & _ & Hw).
Qed.

Lemma submit_write_ok e ws j c cn s fid len chunk :
  ready ws [j] c cn s -> (exists job, io_jobs s !! j = Some job) ->
  match chunk with
  | Some p => p ∈ writing_chunks s /\ is_Some (chunk_heap (sv_store s) !! p) /\
      p ∉ writers (works ws s) (jview s)
  | None => pending_writes_size s < DEF_MAX_PENDING_WRITES
  end ->
  wp (submit_write e c j fid len chunk) (fun _ s' => sv_inv ws [] s') s.
Proof.
  intros R [job Hj] Hch. unfold submit_write. wp_step. eapply wp_get_job; [exact Hj|]. wp_steps.
  eapply wp_get_conn; [by eapply rd_live|]. wp_use stop_reading_ok; [exact R|]. clear R.
  intros _ s1 (R & Hm & J & Hc). destruct (same_view _ _ J) as (V1 & V2 & V3 & V4 & V5).
  destruct chunk as [p|].
  - destruct Hch as (Hp & [ch Hh] & Hw). wp_use count_ready; [exact R|]. clear R.
    intros _ s2 (R & J2 & El). rewrite J in J2. destruct (same_view _ _ J2) as (U1 & U2 & U3 & U4 & _).
    wp_step. eapply wp_get_chunk; [by rewrite U1|]. wp_use put_ready; [exact R|]. clear R.
    intros _ s3 (R & -> & Hw3). eapply start_job_ok; [exact R|by cbn; rewrite El|apply lookup_insert_eq| |done|].
    + split; [by exists c|]. exists p. split; [done|]. cbn. rewrite U1, U2. split; [by exists ch|].
      split; [done|]. by eexists.
    + intros q _ [= <-]. rewrite Hw3. unfold works. by rewrite U3, J2.
  - wp_use put_ready; [exact R|]. intros _ s2 (R2 & -> & _). wp_steps. set (s3 := set_pending _ _ _).
    pose proof (ready_unguarded _ _ _ _ _ R2) as Hu2. pose proof (ready_job _ _ _ _ _ _ R2) as Hlo. destruct R2 as [[A1 A2 A3] Hc2 Hn2 Hg2 Hgj2 Hs2]. set (s2 := set_jobs _ _ s1) in *.
    destruct (give_pending _ _ _ _ _ c A1 (lookup_insert_eq _ _ _)) as [B1 Hb].
    { split; [by exists c|]. split; [done|]. by eexists. }
    { done. }
    { cbn. by injection J as _ _ _ _ _ _ -> _. }
    { exact Hlo. }
    split; [exact B1|done|]. eapply env_move; [by eapply (env_wait c)| |done..].
    change (c :: busyl (works ws s2) (jview s2) ≡ₚ busy ws s3). rewrite <- Hb. done.
Qed.

Lemma move_ready ws c cn s p :
  ready ws [] c cn s -> p ∈ chunks (sv_store s) ->
  let s' := set_chunk_lists (List.filter (fun q => negb (Nat.eqb q p)) (chunks (sv_store s)))
              (p :: writing_chunks s) s in
  ready ws [] c cn s' /\ p ∉ writers (works ws s') (jview s').
Proof.
  intros [[A1 A2 A3] Hc Hn Hg Hgj Hs] Hp s'. destruct (take_chunk _ _ _ p A1 A2 Hp) as (B1 & B2 & Hb & Hw).
  split; [|exact Hw]. split; try done.
  split; [exact B1|exact B2|]. eapply env_move; [exact A3| |done..]. unfold busy at 1. by rewrite <- Hb.
Qed.

(** The ten bytes of server id and file id. *)
Lemma inner_header_ok (d : list byte) :
  (zlen d =? REQ_INNER_HDR_SIZE) = true ->
  exists sid fid, spy_mach_read_from_2 d = Ret sid /\ spy_mach_read_from_8 (zdrop 2 d) = Ret fid.
Proof.
  intros Hl%Z.eqb_eq. change REQ_INNER_HDR_SIZE with 10 in Hl.
  destruct (read_from_2_ok d) as [sid H1]; [lia|]. destruct (read_from_8_ok (zdrop 2 d)) as [fid H2]; [zl|].
  eauto.
Qed.

Lemma handle_write_ok e ws c cn s :
  ready ws [] c cn s -> wp (spy_handle_write e c) (fun _ s' => sv_inv ws [] s') s.
Proof.
  intros R. unfold spy_handle_write. wp_steps. eapply wp_get_conn; [by eapply rd_live|]. wp_steps.
  wp_use read_request_ok; [exact R|]. clear R. intros d s1 (cn1 & R & _). wp_steps.
  destruct (inner_header_ok d) as (sid & fid & E1 & E2); [done|]. eapply wp_lift; [exact E1|]. wp_step.
  eapply wp_lift; [exact E2|]. destruct (negb _); [by eapply count_reply|]. wp_steps.
  destruct (spy_lookup_file_index _ _); [by eapply count_reply|].
  pose proof (si_chunk _ _ _ (rd_inv _ _ _ _ _ R)) as C. pose proof (ch_dom _ _ _ C) as Hd. wp_step.
  destruct (find_chunk_ok (chunk_heap (sv_store s1)) (u32 (u32 (body_len cn - 8 - 2) + FILE_META_SIZE))
    (chunks (sv_store s1))) as (o & E & Ho). { intros p Hp. apply Hd, elem_of_app. by left. }
  eapply wp_lift; [exact E|]. destruct (is_none o && _) eqn:En; [by eapply count_reply|].
  destruct o as [p|]; wp_steps.
  - destruct Ho as (Hp & ch & Hh & _). destruct (move_ready _ _ _ _ _ R Hp) as [R2 Hw].
    set (s2 := set_chunk_lists _ _ s1) in *. wp_use gen_ready; [exact R2|].
    intros [j|] s3 Hg; [|subst; by eapply count_reply]. destruct Hg as (R3 & Hj & rest & ->).
    eapply submit_write_ok; [exact R3|exact Hj|]. split; [by left|]. split; [by exists ch|exact Hw].
  - cbn in En. apply Z.leb_gt in En. wp_use gen_ready; [exact R|].
    intros [j|] s3 Hg; [|subst; by eapply count_reply]. destruct Hg as (R3 & Hj & rest & ->).
    by eapply submit_write_ok.
Qed.

Lemma index_hashed ws hand s fid x :
  sv_inv ws hand s -> spy_lookup_file_index fid (sv_store s) = Some x ->
  hashed (sv_store s) (ie_chunk_id x) /\ 0 <= ie_size x < 2 ^ 32.
Proof.
  intros [_ C _] H. unfold spy_lookup_file_index in H. apply find_some in H as [H _].
  apply list_elem_of_In in H. by apply (ch_files _ _ _ C _ x) in H.
Qed.

Lemma handle_read_ok e ws c cn s :
  ready ws [] c cn s -> wp (spy_handle_read e c) (fun _ s' => sv_inv ws [] s') s.
Proof.
  intros R. unfold spy_handle_read. wp_steps.
  wp_use read_request_ok; [exact R|]. clear R. intros d s1 (cn1 & R & _). wp_steps.
  destruct (inner_header_ok d) as (sid & fid & E1 & E2); [done|]. eapply wp_lift; [exact E1|]. wp_step.
  eapply wp_lift; [exact E2|]. destruct (negb _); [by eapply count_reply|]. wp_steps.
  destruct (spy_lookup_file_index _ _) as [x|] eqn:El; [|by eapply count_reply]. wp_steps.
  destruct (index_hashed _ _ _ _ _ (rd_inv _ _ _ _ _ R) El) as [Hx Hsz].
  destruct (hashed_lookup _ _ _ (si_chunk _ _ _ (rd_inv _ _ _ _ _ R)) Hx) as (p & ch & Ep & Hh & _).
  eapply wp_lift; [exact Ep|]. wp_step. eapply wp_lift; [done|].
  wp_use (expand_rsp_spec svc pre lim _ (busy ws s1)); [apply R|by eapply rd_live|by eapply ready_loose| |].
  { pose proof (rsp_cap svc pre lim _ _ _ _ (si_env _ _ _ (rd_inv _ _ _ _ _ R)) (rd_live _ _ _ _ _ R)). lia. }
  intros ok s2 [Hb _].
  destruct (ready_buffered _ _ _ _ _ _ R Hb) as (cn2 & R2 & _ & J2). clear R.
  destruct ok; cbn [negb]; [|by eapply count_reply].
  wp_use gen_ready; [exact R2|]. intros [j|] s3 Hg; [|subst; by eapply count_reply].
  destruct Hg as (R3 & [job Hj] & rest & E3). wp_step. eapply wp_get_job; [exact Hj|].
  wp_use put_ready; [exact R3|]. intros _ s4 (R4 & E4 & _).
  wp_use count_ready; [exact R4|]. intros _ s5 (R5 & J5 & _). wp_step. eapply wp_get_conn; [by eapply rd_live|].
  wp_use stop_reading_ok; [exact R5|]. intros _ s6 (R6 & Hm & J6 & _).
  assert (J : jview s6 = jview s4) by congruence. destruct (same_view _ _ J) as (V1 & _ & _ & V4 & _).
  eapply start_job_ok; [exact R6|exact Hm|rewrite V4, E4; apply lookup_insert_eq| |done|done].
  split; [by exists c|]. exists p. split; [done|]. split; [|by eexists].
  destruct (same_view _ _ J2) as (U1 & _). cbn. rewrite V1, E4. cbn. rewrite E3. cbn. rewrite U1. by exists ch.
Qed.

Lemma check_disk_ok e ws c cn s :
  0 <= e_rand e -> ready ws [] c cn s -> wp (spy_handle_check_disk e c) (fun _ s' => sv_inv ws [] s') s.
Proof.
  intros Hr R. unfold spy_handle_check_disk. wp_steps.
  pose proof (si_chunk _ _ _ (rd_inv _ _ _ _ _ R)) as C. destruct (ch_count _ _ _ C) as [_ Hn].
  destruct (Z.eqb_spec (n_chunks (sv_store s)) 0); [lia|]. eapply wp_lift; [done|]. wp_steps.
  assert (Hid : 1 <= u64 (Z.rem (e_rand e) (n_chunks (sv_store s)) + 1) <= n_chunks (sv_store s)).
  { pose proof (Z.rem_bound_pos (e_rand e) (n_chunks (sv_store s)) Hr ltac:(lia)).
    rewrite u64_small by lia. lia. }
  destruct (hashed_lookup _ _ _ C (ch_ids _ _ _ C _ Hid)) as (p & ch & Ep & Hh & _).
  eapply wp_lift; [exact Ep|]. wp_step. eapply wp_lift; [done|].
  wp_use gen_ready; [exact R|]. intros [j|] s1 Hg; [|subst; by eapply reply_ready].
  destruct Hg as (R1 & [job Hj] & rest & E1). wp_step. eapply wp_get_job; [exact Hj|].
  wp_use put_ready; [exact R1|]. intros _ s2 (R2 & E2 & _). wp_step. eapply wp_get_conn; [by eapply rd_live|].
  wp_use stop_reading_ok; [exact R2|]. intros _ s3 (R3 & Hm & J & _).
  destruct (same_view _ _ J) as (V1 & _ & _ & V4 & _).
  eapply start_job_ok; [exact R3|exact Hm|rewrite V4, E2; apply lookup_insert_eq| |done|done].
  split; [by exists c|]. exists p. split; [done|]. split; [|done].
  cbn. rewrite V1, E2. cbn. rewrite E1. cbn. by exists ch.
Qed.

Lemma dump_chunk_ok e ws c cn s :
  ready ws [] c cn s -> wp (spy_dump_chunk e c) (fun _ s' => sv_inv ws [] s') s.
Proof.
  intros R. unfold spy_dump_chunk. wp_steps. eapply wp_get_conn; [by eapply rd_live|].
  case_b; [by eapply reply_ready|]. wp_use read_request_ok; [exact R|].
  intros d s1 (cn1 & R1 & Hsame & J & _). wp_steps.
  pose proof (si_chunk _ _ _ (rd_inv _ _ _ _ _ R1)) as C. pose proof (ch_dom _ _ _ C) as Hd.
  destruct (find_path_ok (chunk_heap (sv_store s1)) (slash :: c_string d) (chunks (sv_store s1)))
    as (o & E & Ho). { intros p Hp. apply Hd, elem_of_app. by left. }
  eapply wp_lift; [exact E|]. destruct o as [p|]; [|by eapply reply_ready].
  destruct (negb _); [by eapply reply_ready|]. wp_steps. set (x := SpyDumpJob _ _ _ _).
  set (k := fresh (dom (dump_jobs s1))). set (s2 := set_dump_jobs _ s1).
  pose proof (ready_unguarded _ _ _ _ _ R1) as Hu1. destruct R1 as [[A1 A2 A3] Hc1 Hn1 Hg1 Hgj1 Hs1].
  destruct (give_dump _ k x _ _ A1) as [B1 Hb].
  { apply not_elem_of_dom, is_fresh. }
  { cbn. apply Hd, elem_of_app. left. by apply Ho. }
  destruct (same_conn_fields _ _ Hsame) as (F1 & _). rewrite <- F1.
  assert (A3' : env_inv (busy ws s1) s2) by (by eapply env_move).
  assert (Hm0 := ready_mask ws [] c cn1 s1 ltac:(by split)).
  wp_use (remove_file_event_spec svc pre lim (busy ws s1) s2 c cn1); [done..|].
  intros _ s3 (el & -> & I3 & Hm). set (s3 := set_el el s2) in *.
  wp_use (queue_work_lists e ws). intros _ s4 (q & -> & Hp).
  eapply jobs_inv_perm in B1; [|symmetry; exact Hp].
  split; [by destruct B1|done|].
  eapply env_move; [eapply (env_wait c cn1 (busy ws s1) s3)| |done..]; try done.
  - cbn. by rewrite Hm.
  - change (dj_conn x) with c in Hb. change (c :: busyl (works ws s1) (jview s1)
      ≡ₚ busyl (all_works ws q) (vset_dumps (<[k := x]> (v_dumps (jview s1))) (jview s1))).
    rewrite <- Hb. unfold busyl. rewrite !omap_app, (ios_perm _ _ Hp), (dumps_perm _ _ Hp). done.
Qed.

(** ** Receiving *)

Lemma dispatch_ok e ws c cn s op :
  0 <= e_rand e -> ready ws [] c cn s -> wp (dispatch e c op) (fun _ s' => sv_inv ws [] s') s.
Proof.
  intros Hr R. unfold dispatch.
  repeat case_b; eauto using handle_write_ok, handle_read_ok, ping_ok, check_disk_ok, kill_ok, detail_ok,
    dump_chunk_ok.
  - unfold spy_query_io_status. wp_steps. by eapply with_body_ok.
  - wp_use (free_client_spec svc pre lim (busy ws s)); [apply R|by eapply rd_live|apply R|].
    intros _ s1 [K _]. by eapply sv_kept; [apply R|].
Qed.

Lemma process_receive_ok e ws c cn s :
  0 <= e_rand e -> sv_inv ws [] s -> conns s !! c = Some cn -> outside (busy ws s) c -> guard c = None ->
  guard_jobs ws s ->
  wp (spy_process_receive_buffer e c) (fun _ s' => sv_inv ws [] s') s.
Proof.
  intros Hr I Hc Hn Hg Hgj. unfold spy_process_receive_buffer. wp_step. eapply wp_get_conn; [exact Hc|]. wp_step.
  assert (Hsend : forall x s0, env_inv (busy ws s) s0 -> conns s0 !! c = Some x -> state x <> SEND_RSP ->
    Z.land (mask_of (sv_el s0) (cn_fd x)) AE_WRITABLE = 0).
  { intros x s0 [CI _ _] Hx Hs. destruct (decide (Z.land (mask_of (sv_el s0) (cn_fd x)) AE_WRITABLE = 0))
      as [|Hw]; [done|]. by apply (ci_send _ _ _ _ CI c x Hx) in Hw. }
  eapply (wp_mono _ (fun _ s1 => kept svc pre lim (busy ws s) s s1 /\ exists cn1, conns s1 !! c = Some cn1)).
  { destruct (bool_decide (state cn = RECEIVE_HDR)) eqn:Eb; cbn [andb];
      [|wp_steps; split; [split; [apply I|done]|by exists cn]].
    apply bool_decide_eq_true in Eb. case_b; [|wp_steps; split; [split; [apply I|done]|by exists cn]].
    wp_use (receive_header_spec svc pre lim (busy ws s)); [apply I|exact Hc| |exact Hn|].
    - apply (Hsend cn s); [apply I|done|congruence].
    - intros _ s1 (K & _ & cn1 & Hc1 & _). eauto. }
  intros _ s1 [K1 (cn1 & Hc1)]. pose proof K1 as [E1 J1]. wp_step. eapply wp_get_conn; [exact Hc1|]. wp_step.
  eapply (wp_mono _ (fun _ s2 => kept svc pre lim (busy ws s) s s2 /\ exists cn2, conns s2 !! c = Some cn2)).
  { destruct (bool_decide (state cn1 = RECEIVE_BODY)) eqn:Eb; cbn [andb];
      [|wp_steps; split; [done|by exists cn1]].
    apply bool_decide_eq_true in Eb. case_b; [|wp_steps; split; [done|by exists cn1]].
    unfold put_conn. wp_steps. split; [split|].
    - eapply (env_fields svc pre lim _ s1 _ c cn1); try done. right. right.
      apply (Hsend cn1 s1); [done|done|congruence].
    - exact J1.
    - eexists. apply lookup_insert_eq. }
  intros _ s2 [K2 (cn2 & Hc2)]. destruct (sv_kept _ _ _ _ I K2) as [I2 J2].
  wp_step. eapply wp_get_conn; [exact Hc2|]. destruct (decide (state cn2 = PROCESS_REQUEST)) as [Hs|];
    [|by wp_steps]. eapply (dispatch_ok e ws c cn2); [done|]. split; try done.
  - by rewrite (busy_view ws s).
  - by eapply guard_jobs_view.
Qed.

Lemma read_handler_ok e r ws c cn s :
  0 <= e_rand e -> sv_inv ws [] s -> conns s !! c = Some cn -> outside (busy ws s) c -> guard c = None ->
  guard_jobs ws s ->
  wp (spy_read_handler e r c) (fun _ s' => sv_inv ws [] s') s.
Proof.
  intros Hr I Hc Hn Hg Hgj. unfold spy_read_handler.
  wp_use (expand_request_spec svc pre lim 1 (busy ws s)); [apply I|exact Hc|by apply outside_loose|by left|].
  intros rg s1 [(K & _ & cn1 & Hc1 & _) Hfill]. destruct (sv_kept _ _ _ _ I K) as [I1 J1].
  assert (Hn1 : outside (busy ws s1) c) by (by rewrite (busy_view ws s)).
  assert (Hfree : wp (spy_free_client_connection c) (fun _ s' => sv_inv ws [] s') s1).
  { wp_use (free_client_spec svc pre lim (busy ws s1)); [apply I1|exact Hc1|exact Hn1|].
    intros _ s2 [K2 _]. by eapply sv_kept. }
  destruct rg as [rg|]; [|done]. destruct r as [[|b d]|[]]; [done| |by wp_steps|done|done].
  set (d' := ztake (rg_len rg) (b :: d)). destruct (Hfill cn1 Hc1) as [Hpos Hf].
  destruct (Hf d') as (h' & Hw & Hp); [unfold d'; rewrite zlen_take; lia|].
  wp_steps. eapply wp_lift; [exact Hw|]. wp_steps. eapply wp_get_conn; [exact Hc1|]. unfold put_conn. wp_steps.
  set (s2 := set_conns _ _).
  assert (K2 : kept svc pre lim (busy ws s1) s1 s2).
  { split; [|done]. eapply (env_update svc pre lim _ s1 _ c cn1); try done; [apply I1|by right; left|by right|by apply outside_loose|].
    intros rest Hrest. destruct (Hp _ Hrest) as [Hp1 Hp2]. split; [done|]. intros y Hy. apply Hp2.
    rewrite held_cons. apply elem_of_app. by right. }
  destruct (sv_kept _ _ _ _ I1 K2) as [I2 J2].
  eapply (process_receive_ok e ws c); [done|exact I2|apply lookup_insert_eq|by rewrite (busy_view ws s1)|done|].
  eapply guard_jobs_view; [|exact Hgj]. congruence.
Qed.

Lemma write_handler_ok e script ws c cn s :
  may_wait \/ takes_rest cn script -> sv_inv ws [] s -> conns s !! c = Some cn -> outside (busy ws s) c ->
  wp (spy_write_handler e script c) (fun _ s' => sv_inv ws [] s') s.
Proof.
  intros Hw I Hc Hn.
  wp_use (write_handler_spec svc pre lim e script (busy ws s)); [exact Hw|apply I|exact Hc|exact Hn|].
  intros _ s1 K. by eapply sv_kept.
Qed.

Lemma accept_ok e cfd ws s :
  sv_inv ws [] s -> (0 <= cfd -> fresh_fd svc cfd s) ->
  wp (spy_accept_handler e cfd) (fun _ s' => sv_inv ws [] s') s.
Proof.
  intros I Hf. wp_use (accept_spec svc pre lim e (busy ws s)); [apply I|exact Hf|].
  intros _ s1 K. by eapply sv_kept.
Qed.

End Safe.
