(* ===== verification/System.v ===== *)
(** * System: the whole chunk server

    Start-up ([main] of [chunkserver/spy_server.c] after the options are parsed),
    the calls the event loop makes into the handlers, the works the pool's
    threads run on the shared state ([spy_worker_routine]), and all of it as one
    transition system.  A handler of the main thread and the body of a work are
    each one step. *)

From S2P Require Import Prelude Utils RwBuffer Adler32 Store StoreFile StoreDump Event WorkQueue.
From S2P Require Import Server Headers ServerConn ServerJobs ServerSafe Worker.

Module System.

(** ** Start-up *)

(** What the kernel answers during start-up, the descriptors it hands out, the
    limit given on the command line, and the store that recovery has built. *)
Record boot : Type := Boot {
  b_listen_fd : Z;
  b_event_fd : Z;
  b_listen : bool;
  b_loop : bool;
  b_epoll : bool;
  b_timer : bool;
  b_clock : clock;
  b_threads : list bool;
  b_mb_limit : Z;
  b_oom : bool;
  b_calloc : bool;
  b_store : store_t
}.

Definition spy_setup_listen_events (b : boot) : outcome loop_t :=
  if negb (b_listen b) then Exit
  else
    match aeCreateEventLoop (b_loop b) (b_clock b).1 DEF_MAX_CLIENTS with
    | None => Exit
    | Some el =>
        '(n, el) ← aeCreateFileEvent (b_epoll b) el (b_listen_fd b) AE_READABLE P_accept_handler None;
        if n =? AE_ERR then Exit
        else
          let '(n, el) := aeCreateTimeEvent (b_timer b) (b_clock b) el 1000 P_server_cron in
          if n =? AE_ERR then Exit else Ret el
    end.

(** [spy_setup_work_queue]; the handler's client data is the queue itself. *)
Definition spy_setup_work_queue (b : boot) (el : loop_t) : outcome (spy_work_queue_t work * loop_t) :=
  '(wq, _) ← spy_create_work_queue (b_threads b) (b_clock b).1 DEF_WQ_NR_THRS;
  '(n, el) ← aeCreateFileEvent (b_epoll b) el (b_event_fd b) AE_READABLE P_wq_thread_done None;
  if n =? AE_ERR then Exit else Ret (wq, el).

Definition zero_stat : spy_statistic_t := SpyStatistic 0 0 0 0 0 0 0 0 0.
Definition zero_report : spy_report_info_t := SpyReportInfo 0 0 0 0 0 0 0 0 0.

(** The setup calls of [main], in their order. *)
Definition spy_setup (b : boot) : outcome server_t :=
  el ← spy_setup_listen_events b;
  '(wq, el) ← spy_setup_work_queue b el;
  pool ← spy_setup_mem_blocks PREALLOC_COUNT (b_mb_limit b) (b_oom b);
  '(jobs, free) ← spy_init_io_jobs DEF_MAX_IO_JOBS (b_calloc b);
  Ret (ServerT (b_store b) [] pool el ∅ jobs free ∅ [] 0 wq zero_stat zero_report).

(** ** The event loop's calls *)

Record answers : Type := Answers {
  a_env : env;
  a_read : sock_read;
  a_write : list sysret;
  a_accept : Z
}.

(** A connection handler gets its connection as client data. *)
Definition call (a : answers) (p : proc) (fd : Z) (d : option connptr) (mask : Z) : M unit :=
  match p with
  | P_read_handler => c ← plift (c_deref d); spy_read_handler (a_env a) (a_read a) c
  | P_write_handler =>
      c ← plift (c_deref d); _ ← spy_write_handler (a_env a) (a_write a) c; mret tt
  | P_accept_handler => spy_accept_handler (a_env a) (a_accept a)
  | P_wq_thread_done => spy_wq_thread_done (a_env a)
  | P_server_cron => plift Undef
  end.

(** ** The works *)

(** The chunk files, by chunk. *)
Abbreviation disks_t := (gmap cptr (list byte)).

Definition put_chunk (p : cptr) (ch : spy_chunk_t) : M unit :=
  pmod (fun s => let st := sv_store s in
    set_store (StoreT (<[p := ch]> (chunk_heap st)) (chunks st) (chunk_index st) (n_chunks st)
                 (max_chunk_id st) (file_index st)) s).

Definition with_result (ret : Z) (file : spy_file_t) (job : spy_io_job_t) : spy_io_job_t :=
  SpyIoJob ret (j_union job) (j_conn job) file (j_chunk job) (j_fn job) (j_req_time job).

(** [spy_write_file] on the objects its job points to. *)
Definition run_write (script : list sysret) (now : Z) (ds : disks_t) (j : jobptr) (job : spy_io_job_t)
    (p : cptr) (chunk : spy_chunk_t) (disk : list byte) : M disks_t :=
  c ← plift (c_deref (j_conn job));
  cn ← get_conn c;
  s ← pget;
  offset ← plift (match j_union job with UOffset o => Ret o | UIndex _ => Undef end);
  res ← plift (spy_write_file script now (mp_heap (sv_pool s)) (j_file job) chunk offset disk
                 (request cn));
  _ ← put_job j (with_result (w_retcode res) (w_file res) job);
  _ ← put_chunk p (w_chunk res);
  _ ← put_conn c (with_request (w_request res) cn);
  mret (<[p := w_disk res]> ds).

(** [spy_read_file] on the objects its job points to. *)
Definition run_read (script : list sysret) (ds : disks_t) (j : jobptr) (job : spy_io_job_t)
    (disk : list byte) : M disks_t :=
  c ← plift (c_deref (j_conn job));
  cn ← get_conn c;
  s ← pget;
  x ← plift (match j_union job with UIndex x => Ret x | UOffset _ => Undef end);
  res ← plift (spy_read_file script (mp_heap (sv_pool s)) x disk (rsp_body cn));
  _ ← put_job j (with_result (r_retcode res) (default (j_file job) (r_file res)) job);
  _ ← pmod (set_pool (with_mp_heap (r_heap res) (sv_pool s)));
  _ ← put_conn c (with_rsp_body (r_rsp_body res) cn);
  mret ds.

(** [work->fn(work)] for an io job: [spy_write_file], [spy_read_file] or
    [spy_check_chunk]. *)
Definition run_io (script : list sysret) (now rand : Z) (ds : disks_t) (j : jobptr) : M disks_t :=
  job ← get_job j;
  p ← plift (c_deref (j_chunk job));
  chunk ← get_chunk p;
  disk ← plift (c_deref (ds !! p));
  match j_fn job with
  | Some FnWrite => run_write script now ds j job p chunk disk
  | Some FnRead => run_read script ds j job disk
  | Some FnCheck =>
      ret ← plift (spy_check_chunk script rand disk);
      _ ← put_job j (with_result ret (j_file job) job);
      mret ds
  | None => plift Undef
  end.

Definition run_dump (script : list sysret) (ds : disks_t) (d : jobptr) : M disks_t :=
  s ← pget;
  job ← plift (c_deref (dump_jobs s !! d));
  cn ← get_conn (dj_conn job);
  chunk ← get_chunk (dj_chunk job);
  disk ← plift (c_deref (ds !! dj_chunk job));
  _ ← put_conn (dj_conn job) (with_header (dump_rsp_header (opcode cn) chunk) cn);
  '(ret, _) ← plift (spy_dump_chunkfile script (opcode cn) chunk disk);
  _ ← pmod (set_dump_jobs (<[d := SpyDumpJob ret (dj_conn job) (dj_chunk job) (dj_name job)]> (dump_jobs s)));
  mret ds.

Definition run_work (script : list sysret) (now rand : Z) (ds : disks_t) (w : work) : M disks_t :=
  match w with
  | WIo j => run_io script now rand ds j
  | WDump d => run_dump script ds d
  end.

(** ** The transition system *)

Record sys : Type := Sys { srv : server_t; running : list work; disks : disks_t }.

Section Steps.
Context (b : boot).

(** The descriptors of the server itself. *)
Definition svc_fds : list Z := [b_listen_fd b; b_event_fd b].

(** [epoll_wait] reports descriptors of the table, [accept4] returns one that is
    not in use and not 0 (standard input stays open or is [/dev/null]), and
    [rand()] is not negative. *)
Definition fair (a : answers) (s : server_t) : Prop :=
  0 <= e_rand (a_env a) /\ (0 <= a_accept a -> fresh_fd svc_fds (a_accept a) s).

Inductive sys_step : sys -> sys -> Prop :=
| step_event a fd mask s s' ws ds :
    0 <= fd < DEF_MAX_CLIENTS -> fair a s ->
    process_fired sv_el (call a) fd mask s = Ret (tt, s') ->
    sys_step (Sys s ws ds) (Sys s' ws ds)
| step_cron e r s s' ws ds :
    spy_server_cron e s = Ret (r, s') -> sys_step (Sys s ws ds) (Sys s' ws ds)
| step_timers next last ts s ws ds :
    sys_step (Sys s ws ds) (Sys (set_el (with_timers next last ts (sv_el s)) s) ws ds)
| step_take w q s ws ds :
    worker_take (sv_wq s) = Some (w, q) ->
    sys_step (Sys s ws ds) (Sys (set_wq q s) (w :: ws) ds)
| step_run script now rand w l1 l2 s s' ds ds' :
    run_work script now rand ds w s = Ret (ds', s') ->
    sys_step (Sys s (l1 ++ w :: l2) ds)
             (Sys (set_wq (worker_notify (worker_post w (sv_wq s'))) s') (l1 ++ l2) ds')
| step_shrink s ws ds :
    sys_step (Sys s ws ds) (Sys (set_wq (worker_shrink (sv_wq s)) s) ws ds).

(** Start-up gives every chunk a file. *)
Inductive sys_reachable : sys -> Prop :=
| sys_start s ds :
    spy_setup b = Ret s -> (forall p, is_Some (chunk_heap (b_store b) !! p) -> is_Some (ds !! p)) ->
    sys_reachable (Sys s [] ds)
| sys_next x y : sys_reachable x -> sys_step x y -> sys_reachable y.

End Steps.

End System.
Export System.

(** ** Every connection has a whole reply header *)

Section WholeHeaders.
#[local] Hint Constants Opaque : typeclass_instances.

#[export] Instance call_hdr a p fd d mask : Hdr any (call a p fd d mask).
Proof. headed call. Qed.
#[export] Instance call_proc_hdr a p fd d mask : Hdr any (call_proc (call a) p fd d mask).
Proof. headed call_proc. Qed.
#[export] Instance process_fired_hdr a fd mask : Hdr any (process_fired sv_el (call a) fd mask).
Proof. headed process_fired. Qed.
#[export] Instance put_chunk_hdr p ch : Hdr any (put_chunk p ch).
Proof. headed put_chunk. Qed.
#[export] Instance run_write_hdr script now ds j job p ch d : Hdr any (run_write script now ds j job p ch d).
Proof. headed run_write. Qed.
#[export] Instance run_read_hdr script ds j job d : Hdr any (run_read script ds j job d).
Proof. headed run_read. Qed.
#[export] Instance run_io_hdr script now rand ds j : Hdr any (run_io script now rand ds j).
Proof. headed run_io. Qed.
#[export] Instance run_dump_hdr script ds d : Hdr any (run_dump script ds d).
Proof. headed run_dump. Qed.
#[export] Instance run_work_hdr script now rand ds w : Hdr any (run_work script now rand ds w).
Proof. headed run_work. Qed.
End WholeHeaders.

Lemma reachable_headers b x : sys_reachable b x -> headers (srv x).
Proof.
  induction 1 as [s ds H _|x y _ IH Hst].
  { unfold spy_setup in H. apply bind_Ret_inv in H as (el1 & _ & H). apply bind_Ret_inv in H as ([wq el2] & _ & H).
    apply bind_Ret_inv in H as (pool & _ & H). apply bind_Ret_inv in H as ([jobs free] & _ & H).
    injection H as <-. intros c cn. cbn. by rewrite lookup_empty. }
  destruct Hst as [a fd mask s s' ws ds _ _ H|e r s s' ws ds H|next last ts s ws ds|w q s ws ds H
    |script now rand w l1 l2 s s' ds ds' H|s ws ds]; cbn [srv] in *; try exact IH.
  - exact (proj1 (process_fired_hdr _ _ _ _ _ _ IH H)).
  - exact (proj1 (cron_hdr _ _ _ _ IH H)).
  - exact (proj1 (run_work_hdr _ _ _ _ _ _ _ _ IH H)).
Qed.

(** The answers to [write]: each fails or takes at least a byte, and there is one
    for every byte of a response of any length. *)
Definition sends (a : answers) : Prop := Forall progress (a_write a) /\ 2 ^ 31 <= zlen (a_write a).

Lemma sends_rest a s c cn : headers s -> sends a -> conns s !! c = Some cn -> takes_rest cn (a_write a).
Proof. intros H [Hp Hl] Hc. split_and!; [by eapply H|done|]. pose proof (remaining_bound cn). lia. Qed.

(** ** The event loop keeps the invariant *)

Section Loop.
Context (svc : list Z) (pre lim : Z) (CH : list cptr) {mw : MayWait} {G : Guard}.
Abbreviation sv_inv := (sv_inv svc pre lim CH).

Lemma land_sub m k x : Z.land (Z.land m k) x <> 0 -> Z.land m x <> 0.
Proof.
  intros H Hz. apply H. rewrite <- Z.land_assoc, (Z.land_comm k x), Z.land_assoc, Hz. apply Z.land_0_l.
Qed.

(** The connection behind a descriptor whose event fired is live and waits for
    no job. *)
Lemma fired_conn ws hand s fd fe k :
  sv_inv ws hand s -> 0 <= fd -> events (sv_el s) !! Z.to_nat fd = Some fe -> fd ∉ svc ->
  Z.land (fe_mask fe) k <> 0 ->
  exists c cn, conns s !! c = Some cn /\ cn_fd cn = fd /\ (c ∉ busy ws s) /\ slot_of c fe.
Proof.
  intros I Hfd Hfe Hs Hk. destruct (si_env _ _ _ _ _ _ _ I) as [CI _ _].
  assert (Hnz : fe_mask fe <> AE_NONE) by (intros Hz; by rewrite Hz, Z.land_0_l in Hk).
  destruct (ci_slot _ _ _ _ CI _ _ Hfe Hnz) as (c & cn & Hc & Hf & Hsl); [by rewrite Z2Nat.id|].
  rewrite Z2Nat.id in Hf by done. exists c, cn. split_and!; try apply Hsl; try done.
  intros Hb. destruct (ci_busy _ _ _ _ CI c Hb) as (x & Hx & Hm & _).
  replace x with cn in Hm by congruence. rewrite Hf, (mask_of_lookup _ _ fe) in Hm by done. done.
Qed.

(** The guard is not about the descriptor at hand, and a guarded connection that is
    said to wait does wait. *)
Definition guard_off (fd : Z) : Prop := forall c x, guard c = Some x -> g_idle x = true -> cn_fd (g_conn x) <> fd.
Definition guard_busy (ws : list work) (s : server_t) : Prop :=
  forall c x, guard c = Some x -> g_idle x = false -> c ∈ busy ws s.

Lemma off_outside ws hand s c cn :
  sv_inv ws hand s -> conns s !! c = Some cn -> c ∉ busy ws s -> guard_off (cn_fd cn) -> outside (busy ws s) c.
Proof.
  intros I Hc Hn Ho. split; [done|]. intros x Hx. destruct (g_idle x) eqn:Ei; [|done].
  destruct (gi_holds _ _ (en_guard _ _ _ _ _ (si_env _ _ _ _ _ _ _ I)) c x Hx ltac:(by left)) as [H _].
  destruct (Ho c x Hx Ei). congruence.
Qed.
Lemma off_none ws hand s c cn :
  sv_inv ws hand s -> conns s !! c = Some cn -> c ∉ busy ws s -> guard_off (cn_fd cn) -> guard_busy ws s -> guard c = None.
Proof.
  intros I Hc Hn Ho Hb. destruct (guard c) as [x|] eqn:Hx; [|done].
  destruct (off_outside _ _ _ _ _ I Hc Hn Ho) as [_ H]. by destruct Hn; eapply Hb, H.
Qed.

(** The slot of a descriptor in range. *)
Lemma slot_at ws s fd :
  sv_inv ws [] s -> 0 <= fd < DEF_MAX_CLIENTS ->
  exists fe, ev_at (sv_el s) fd = Ret fe /\ events (sv_el s) !! Z.to_nat fd = Some fe.
Proof.
  intros I Hfd. destruct (si_env _ _ _ _ _ _ _ I) as [CI _ _].
  destruct (ev_at_ok (sv_el s) fd) as (fe & E & H & _); [|by eauto].
  rewrite (ei_len _ (ci_ev _ _ _ _ CI)), (ci_size _ _ _ _ CI). done.
Qed.

(** The first call for a fired descriptor. *)
Definition read_part (a : answers) (fe : aeFileEvent proc connptr) (fd mask : Z) : M unit :=
  if negb (Z.land (Z.land (fe_mask fe) mask) AE_READABLE =? 0)
  then call_proc (call a) (rfileProc fe) fd (clientData fe) mask else mret tt.

#[export] Instance read_part_hdr a fe fd mask : Hdr any (read_part a fe fd mask).
Proof. unfold read_part. destruct (negb _); apply _. Qed.

Lemma read_part_ok a ws s fd mask fe :
  guard_off fd -> guard_busy ws s -> guard_jobs ws s -> sv_inv ws [] s -> 0 <= fd < DEF_MAX_CLIENTS -> 0 <= e_rand (a_env a) ->
  (0 <= a_accept a -> fresh_fd svc (a_accept a) s) -> events (sv_el s) !! Z.to_nat fd = Some fe ->
  wp (read_part a fe fd mask) (fun _ s' => sv_inv ws [] s') s.
Proof.
  intros Hoff Hbg Hgj I Hfd Hr Hacc Hfe. unfold read_part. destruct (negb _) eqn:Er; [|by wp_steps].
  apply negb_true_iff, Z.eqb_neq, land_sub in Er. destruct (decide (fd ∈ svc)) as [Hs|Hs].
  - destruct (si_env _ _ _ _ _ _ _ I) as [CI _ _].
    destruct (ci_svc _ _ _ _ CI (Z.to_nat fd) fe Hfe) as [_ ->]; [by rewrite Z2Nat.id by lia|].
    unfold svc_proc. destruct (decide _); cbn.
    + by apply accept_ok.
    + by apply wq_thread_done_ok.
  - destruct (fired_conn _ _ _ _ _ _ I (proj1 Hfd) Hfe Hs Er) as (c & cn & Hc & <- & Hn & D & P & _).
    rewrite (P Er), D. cbn. wp_step. eapply wp_lift; [done|].
    eapply read_handler_ok; [done..|by eapply off_outside|by eapply off_none|done].
Qed.

(** The second one. *)
Lemma write_part_ok a ws s fd mask fe :
  guard_off fd -> may_wait \/ (headers s /\ sends a) -> sv_inv ws [] s -> 0 <= fd < DEF_MAX_CLIENTS ->
  events (sv_el s) !! Z.to_nat fd = Some fe -> Z.land (Z.land (fe_mask fe) mask) AE_WRITABLE <> 0 ->
  wp (call_proc (call a) (wfileProc fe) fd (clientData fe) mask) (fun _ s' => sv_inv ws [] s') s.
Proof.
  intros Hoff Hw I Hfd Hfe Ew%land_sub. destruct (decide (fd ∈ svc)) as [Hs|Hs].
  - destruct (si_env _ _ _ _ _ _ _ I) as [CI _ _].
    destruct (ci_svc _ _ _ _ CI (Z.to_nat fd) fe Hfe) as [Hm _]; [by rewrite Z2Nat.id by lia|].
    by rewrite Hm in Ew.
  - destruct (fired_conn _ _ _ _ _ _ I (proj1 Hfd) Hfe Hs Ew) as (c & cn & Hc & <- & Hn & D & _ & P).
    rewrite (P Ew), D. cbn. wp_step. eapply wp_lift; [done|].
    wp_use write_handler_ok; [|done..|by eapply off_outside|intros _ s1 I1; by wp_steps].
    destruct Hw as [|[Hh Ha]]; [by left|right; by eapply sends_rest].
Qed.

Lemma process_fired_ok a ws s fd mask :
  guard_off fd -> guard_busy ws s -> guard_jobs ws s -> may_wait \/ (headers s /\ sends a) -> sv_inv ws [] s -> 0 <= fd < DEF_MAX_CLIENTS -> 0 <= e_rand (a_env a) ->
  (0 <= a_accept a -> fresh_fd svc (a_accept a) s) ->
  wp (process_fired sv_el (call a) fd mask) (fun _ s' => sv_inv ws [] s') s.
Proof.
  intros Hoff Hbg Hgj Hw I Hfd Hr Hacc. unfold process_fired. wp_steps.
  destruct (slot_at _ _ _ I Hfd) as (fe & E & Hfe). eapply wp_lift; [exact E|]. wp_steps.
  eapply wp_mono; [apply wp_run, (read_part_ok a ws s fd mask fe); done|].
  assert (Hw' : forall s1, read_part a fe fd mask s = Ret (tt, s1) -> may_wait \/ (headers s1 /\ sends a)).
  { intros s1 H1. destruct Hw as [|[Hh Ha]]; [by left|right]. split; [|done].
    exact (proj1 (read_part_hdr _ _ _ _ _ _ _ Hh H1)). }
  clear I E Hfe Hacc Hbg Hgj Hw. intros [] s1 [I Hs%Hw']. clear Hw'. wp_steps.
  destruct (slot_at _ _ _ I Hfd) as (fe' & E & Hfe). eapply wp_lift; [exact E|].
  destruct (negb (Z.land (Z.land (fe_mask fe') mask) AE_WRITABLE =? 0)) eqn:Ew; [|by wp_steps].
  apply negb_true_iff, Z.eqb_neq in Ew. destruct (_ || _); [|by wp_steps]. by apply write_part_ok.
Qed.

(** ** The works keep the invariant *)

Lemma put_work W hand v j job ret file :
  jobs_inv W hand v -> v_jobs v !! j = Some job -> j ∈ ios W -> job_loose j ->
  let v' := vset_jobs (<[j := with_result ret file job]> (v_jobs v)) (v_free v) v in
  jobs_inv W hand v' /\ busyl W v' = busyl W v.
Proof.
  intros [I1 I2 I3 I4 I5 I6 I7 I8 I9 IG] Hj Hin Hlo v'.
  assert (Hl : forall k, exists f, v_jobs v' !! k = f <$> v_jobs v !! k /\
    forall x, j_conn (f x) = j_conn x /\ j_chunk (f x) = j_chunk x /\ j_fn (f x) = j_fn x /\
      j_union (f x) = j_union x).
  { intros k. cbn. destruct (decide (j = k)) as [<-|Hne].
    - exists (with_result ret file). rewrite lookup_insert_eq, Hj. done.
    - exists id. rewrite lookup_insert_ne by done. split; [by destruct (v_jobs v !! k)|done]. }
  assert (Hs : forall k, is_Some (v_jobs v' !! k) <-> is_Some (v_jobs v !! k)).
  { intros k. destruct (Hl k) as (f & -> & _). apply fmap_is_Some. }
  assert (Hc : forall k, conn_of v' k = conn_of v k).
  { intros k. unfold conn_of. destruct (Hl k) as (f & -> & Hf). destruct (v_jobs v !! k) as [x|]; [|done].
    cbn. by destruct (Hf x) as (-> & _). }
  assert (Hw : writers W v' = writers W v).
  { apply omap_agree. intros k _. unfold written_by. destruct (Hl k) as (f & -> & Hf).
    destruct (v_jobs v !! k) as [x|]; [|done]. cbn. by destruct (Hf x) as (_ & -> & -> & _). }
  split.
  - split; try done.
    + intros k. rewrite Hs. apply I2.
    + intros k Hk. destruct (I3 k Hk) as (x & Hx & H1 & H2 & H3). destruct (Hl k) as (f & E & Hf).
      rewrite E, Hx. exists (f x). split; [done|]. destruct (Hf x) as (F1 & F2 & F3 & F4).
      unfold write_job. by rewrite F1, F3, F4.
    + intros k Hk. destruct (I4 k Hk) as (x & Hx & H1 & p & H2). destruct (Hl k) as (f & E & Hf).
      rewrite E, Hx. exists (f x). split; [done|]. destruct (Hf x) as (F1 & F2 & F3 & F4).
      unfold work_job. rewrite F1, F2, F3, F4. by split; [|exists p].
    + by rewrite Hw.
    + apply (job_guard_step (fun k => k = j) W W v v'); [done|by intros k ->|auto|]. intros k Hk.
      destruct (decide (k = j)) as [->|Hne]; [by left|right]. split; [done|]. cbn. by rewrite lookup_insert_ne.
  - unfold busyl. f_equal. apply omap_agree. intros k _. apply Hc.
Qed.

(** A chunk's counters change, but not its id. *)
Lemma hashed_put st p ch ch' id :
  chunk_heap st !! p = Some ch -> chunk_id ch' = chunk_id ch -> hashed st id ->
  hashed (StoreT (<[p := ch']> (chunk_heap st)) (chunks st) (chunk_index st) (n_chunks st)
    (max_chunk_id st) (file_index st)) id.
Proof.
  intros Hp Hid (q & x & H1 & H2 & H3). destruct (decide (p = q)) as [<-|Hne].
  - exists p, ch'. cbn. rewrite lookup_insert_eq. split_and!; try done. congruence.
  - exists q, x. cbn. by rewrite lookup_insert_ne.
Qed.

Lemma chunk_inv_put st w p ch ch' :
  chunk_inv CH st w -> chunk_heap st !! p = Some ch -> chunk_id ch' = chunk_id ch ->
  chunk_inv CH (StoreT (<[p := ch']> (chunk_heap st)) (chunks st) (chunk_index st) (n_chunks st)
    (max_chunk_id st) (file_index st)) w.
Proof.
  intros [C0 C1 C2 C3 C4 C5 C6 C7] Hp Hid.
  assert (Hs : forall q, is_Some (<[p := ch']> (chunk_heap st) !! q) <-> is_Some (chunk_heap st !! q)).
  { intros q. destruct (decide (p = q)) as [<-|Hne]; [rewrite lookup_insert_eq, Hp|by rewrite lookup_insert_ne].
    split; by eauto. }
  split; try done; cbn.
  - intros q. rewrite Hs. apply C2.
  - intros i q Hq. rewrite Hs. by eapply C4.
  - intros id H. eapply hashed_put; eauto.
  - intros q x Hq. eapply hashed_put; [done..|]. destruct (decide (p = q)) as [<-|Hne].
    + rewrite lookup_insert_eq in Hq. injection Hq as <-. rewrite Hid. by eapply C6.
    + rewrite lookup_insert_ne in Hq by done. by eapply C6.
  - intros i x Hx. destruct (C7 i x Hx) as [H1 H2]. split; [|done]. by eapply hashed_put.
Qed.

Lemma jobs_inv_heap W hand v h :
  jobs_inv W hand v -> (forall p, is_Some (chunk_heap (v_store v) !! p) -> is_Some (h !! p)) ->
  let st := v_store v in
  jobs_inv W hand (vset_store (StoreT h (chunks st) (chunk_index st) (n_chunks st) (max_chunk_id st)
    (file_index st)) (v_writing v) v).
Proof.
  intros [I1 I2 I3 I4 I5 I6 I7 I8 I9 IG] Hh st. split; try done.
  - intros j Hj. destruct (I4 j Hj) as (job & Hl & Hc & p & Hp & Hs & Hf). exists job. split; [done|].
    split; [done|]. exists p. split; [done|]. split; [by apply Hh|done].
  - intros d x Hx. cbn. apply Hh. by eapply I8.
Qed.

(** The buffers a worker has used. *)
Lemma pool_refilled p q1 q2 bf h' bf' :
  pool_ok pre lim (p, q1 ++ bf :: q2) -> refilled (mp_heap p) bf h' bf' ->
  pool_ok pre lim (with_mp_heap h' p, q1 ++ bf' :: q2) /\ agree (held (q1 ++ q2)) p (with_mp_heap h' p).
Proof.
  intros Hp (W & M & Sh & Hf). destruct (pool_ok_focus _ _ _ _ _ _ Hp) as [I _].
  assert (Hag : agree (held (q1 ++ q2)) p (with_mp_heap h' p))
    by (intros y Hy; cbn; apply Hf; by eapply held_disjoint). split; [|done].
  pose proof Hp as (_ & _ & Hl & Ha). apply (pool_ok_replace _ _ p _ q1 q2 bf); try done. by eapply pool_inv_shape.
Qed.

Lemma work_in l1 l2 j s : j ∈ ios (works (l1 ++ WIo j :: l2) s).
Proof.
  apply list_elem_of_omap. exists (WIo j). split; [|done]. unfold works, all_works.
  rewrite !elem_of_app, elem_of_cons. auto.
Qed.

(** What a work leaves: the invariant, and a file for every chunk. *)
Definition ran (ws : list work) (s : server_t) (ds' : disks_t) (s' : server_t) : Prop :=
  sv_inv ws [] s' /\ sv_wq s' = sv_wq s /\
  (forall p, is_Some (chunk_heap (sv_store s') !! p) -> is_Some (ds' !! p)).

(** A job that a thread runs: its connection waits, so its buffers are there. *)
Lemma running_job ws s j :
  sv_inv ws [] s -> j ∈ ios (works ws s) ->
  exists job c cn p chunk, io_jobs s !! j = Some job /\ j_conn job = Some c /\ j_chunk job = Some p /\
    work_job (jview s) job /\ chunk_heap (sv_store s) !! p = Some chunk /\ conns s !! c = Some cn /\
    buf_wf (mp_heap (sv_pool s)) (request cn) /\ buf_wf (mp_heap (sv_pool s)) (rsp_body cn).
Proof.
  intros [I1 I2 I3] Hin. destruct (ji_work _ _ _ I1 j Hin) as (job & Hj & Hok).
  pose proof Hok as ([c Hc] & p & Hp & [chunk Hch] & _).
  assert (Hb : c ∈ busy ws s).
  { unfold busy, busyl. apply elem_of_app. left. apply list_elem_of_omap. exists j.
    split; [apply elem_of_app; by right|]. unfold conn_of. rewrite Hj. cbn. done. }
  destruct (ci_busy _ _ _ _ (en_conn _ _ _ _ _ I3) c Hb) as (cn & Hcn & _ & Hst).
  destruct (env_focus _ _ _ _ _ _ _ I3 Hcn) as (_ & Wr & Wb).
  exists job, c, cn, p, chunk. by split_and!.
Qed.

(** The result is stored in the job and a buffer of its connection is used up or
    filled. *)
Lemma env_ran ws s s' j job ret file c cn cn' :
  sv_inv ws [] s -> j ∈ ios (works ws s) -> io_jobs s !! j = Some job -> conns s !! c = Some cn ->
  sv_el s' = sv_el s -> sv_wq s' = sv_wq s -> conns s' = <[c := cn']> (conns s) ->
  cn_fd cn' = cn_fd cn -> state cn' = state cn ->
  busyl (works ws s) (vset_jobs (<[j := with_result ret file job]> (io_jobs s)) (free_io_jobs s) (jview s))
    = busy ws s' -> guard c = None -> job_loose j ->
  (forall rest, pool_ok pre lim (sv_pool s, request cn :: rsp_body cn :: rest) ->
     pool_ok pre lim (sv_pool s', request cn' :: rsp_body cn' :: rest) /\ agree (held rest) (sv_pool s) (sv_pool s')) ->
  env_inv svc pre lim (busy ws s') s'.
Proof.
  intros [I1 I2 I3] Hin Hj Hc He Hq Hcs Hf Hst Hb Hg Hlo Hp.
  destruct (put_work _ _ _ _ _ ret file I1 Hj Hin Hlo) as [_ Jb]. pose proof (eq_trans (eq_sym Jb) Hb) as Hbb.
  eapply (env_update _ _ _ _ s _ c cn); [|exact Hc|done..| |by right|by intros x; rewrite Hg|done]; [|by right; left].
  eapply env_move; [exact I3| |done..]. by rewrite <- Hbb.
Qed.

Lemma run_write_ok script now ds j ws s job c cn p chunk disk :
  may_wait -> sv_inv ws [] s -> (forall p, is_Some (chunk_heap (sv_store s) !! p) -> is_Some (ds !! p)) ->
  j ∈ ios (works ws s) -> io_jobs s !! j = Some job -> j_conn job = Some c ->
  guard c = None -> job_loose j -> (exists o, j_union job = UOffset o) -> chunk_heap (sv_store s) !! p = Some chunk ->
  conns s !! c = Some cn -> buf_wf (mp_heap (sv_pool s)) (request cn) ->
  wp (run_write script now ds j job p chunk disk) (ran ws s) s.
Proof.
  intros Hmw I Hds Hin Hj Hc Hg Hlo [o Ho] Hch Hcn Wr. unfold run_write. wp_step. eapply wp_lift; [by rewrite Hc|].
  wp_step. eapply wp_get_conn; [exact Hcn|]. wp_steps. rewrite Ho. eapply wp_lift; [done|]. wp_step.
  pose proof (write_file_safe script now _ (j_file job) chunk o disk (request cn) Wr) as Hs.
  apply wp_lift_any; [by intros E; rewrite E in Hs|done|]. intros res Er. rewrite Er in Hs. cbn in Hs.
  destruct Hs as (W' & M' & Hid). unfold put_job, put_chunk, put_conn. wp_steps. pose proof I as [I1 I2 _].
  destruct (put_work _ _ _ _ _ (w_retcode res) (w_file res) I1 Hj Hin Hlo) as [J1 _].
  split; [|split; [done|]].
  - split.
    + apply (jobs_inv_heap _ _ _ (<[p := w_chunk res]> (chunk_heap (sv_store s)))) in J1; [exact J1|].
      intros q Hq. cbn in Hq. destruct (decide (p = q)) as [<-|Hne];
        [rewrite lookup_insert_eq; by eauto|by rewrite lookup_insert_ne].
    + cbn. by eapply chunk_inv_put.
    + eapply (env_ran ws s _ j job (w_retcode res) (w_file res) c cn); try done.
      intros rest Hrest. cbn. split; [|done]. rewrite <- (with_mp_heap_id (sv_pool s)).
      by apply (pool_refilled _ [] _ (request cn)).
  - intros q. cbn. destruct (decide (p = q)) as [<-|Hne].
    + rewrite !lookup_insert_eq. by eauto.
    + rewrite !lookup_insert_ne by done. apply Hds.
Qed.

Lemma run_read_ok script ds j ws s job c cn x disk :
  may_wait -> sv_inv ws [] s -> (forall p, is_Some (chunk_heap (sv_store s) !! p) -> is_Some (ds !! p)) ->
  j ∈ ios (works ws s) -> io_jobs s !! j = Some job -> j_conn job = Some c ->
  guard c = None -> job_loose j -> j_union job = UIndex x -> 0 <= ie_size x < 2 ^ 32 ->
  conns s !! c = Some cn -> buf_wf (mp_heap (sv_pool s)) (rsp_body cn) ->
  wp (run_read script ds j job disk) (ran ws s) s.
Proof.
  intros Hmw I Hds Hin Hj Hc Hg Hlo Hx Hsz Hcn Wb. unfold run_read. wp_step. eapply wp_lift; [by rewrite Hc|].
  wp_step. eapply wp_get_conn; [exact Hcn|]. wp_steps. rewrite Hx. eapply wp_lift; [done|]. wp_step.
  pose proof (read_file_safe script _ x disk (rsp_body cn) Wb Hsz) as Hs.
  apply wp_lift_any; [by intros E; rewrite E in Hs|done|]. intros res Er. rewrite Er in Hs. cbn in Hs.
  unfold put_job, put_conn. wp_steps. pose proof I as [I1 I2 _].
  destruct (put_work _ _ _ _ _ (r_retcode res) (default (j_file job) (r_file res)) I1 Hj Hin Hlo) as [J1 _].
  split; [|done]. split; [exact J1|done|].
  eapply (env_ran ws s _ j job (r_retcode res) (default (j_file job) (r_file res)) c cn); try done.
  intros rest Hrest. cbn. destruct (pool_refilled _ [request cn] _ (rsp_body cn) _ _ Hrest Hs) as [H1 H2].
  split; [done|]. intros y Hy. by apply H2, elem_of_app; right.
Qed.

Lemma run_io_ok script now rand ds j l1 l2 s :
  let ws := l1 ++ WIo j :: l2 in
  may_wait -> sv_inv ws [] s ->
  (forall p, is_Some (chunk_heap (sv_store s) !! p) -> is_Some (ds !! p)) ->
  (forall c, conn_of (jview s) j = Some c -> guard c = None) -> job_loose j ->
  wp (run_io script now rand ds j) (ran ws s) s.
Proof.
  intros ws Hmw I Hds Hg Hlo. pose proof (work_in l1 l2 j s) as Hin. fold ws in Hin.
  destruct (running_job ws s j I Hin) as (job & c & cn & p & chunk & Hj & Hc & Hp & Hok & Hch & Hcn & Wr & Wb).
  assert (Hgc : guard c = None) by (apply Hg; unfold conn_of; cbn; by rewrite Hj).
  destruct Hok as (_ & p' & Hp' & _ & Hf). replace p' with p in * by congruence.
  destruct (Hds p) as [disk Hd]; [by exists chunk|].
  unfold run_io. wp_step. eapply wp_get_job; [exact Hj|]. wp_step. eapply wp_lift; [by rewrite Hp|].
  wp_step. eapply wp_get_chunk; [exact Hch|]. wp_step. eapply wp_lift; [by rewrite Hd|].
  destruct (j_fn job) as [[]|] eqn:Ef; [| | |done].
  - destruct Hf as [_ Ho]. by eapply run_write_ok.
  - destruct Hf as [x [Hx Hsz]]. by eapply run_read_ok.
  - wp_step. pose proof (check_chunk_safe script rand disk) as Hs.
    apply wp_lift_any; [by intros E; rewrite E in Hs|done|]. intros ret _. unfold put_job. wp_steps.
    destruct I as [I1 I2 I3]. destruct (put_work _ _ _ _ _ ret (j_file job) I1 Hj Hin Hlo) as [J1 Jb].
    split; [|done]. split; [exact J1|done|].
    eapply env_move; [exact I3| |done..]. unfold busy at 1. by rewrite <- Jb.
Qed.

Lemma put_dump W hand v d x r :
  jobs_inv W hand v -> v_dumps v !! d = Some x ->
  let v' := vset_dumps (<[d := SpyDumpJob r (dj_conn x) (dj_chunk x) (dj_name x)]> (v_dumps v)) v in
  jobs_inv W hand v' /\ busyl W v' = busyl W v.
Proof.
  intros [I1 I2 I3 I4 I5 I6 I7 I8 I9 IG] Hx v'. split.
  - split; try done.
    + intros k. cbn. destruct (decide (d = k)) as [<-|Hne].
      * rewrite lookup_insert_eq. rewrite <- I7, Hx. split; by eauto.
      * by rewrite lookup_insert_ne.
    + intros k y. cbn. destruct (decide (d = k)) as [<-|Hne].
      * rewrite lookup_insert_eq. intros [= <-]. cbn. exact (I8 d x Hx).
      * rewrite lookup_insert_ne by done. apply I8.
  - unfold busyl. f_equal. apply omap_agree. intros k _. unfold dconn_of. cbn.
    destruct (decide (d = k)) as [<-|Hne]; [by rewrite lookup_insert_eq, Hx|by rewrite lookup_insert_ne].
Qed.

(** The dump is free of undefined accesses when the socket takes its header in one
    write, but not otherwise: see [dump_needs_whole_header]. *)
Lemma run_dump_safe script ds d ws s :
  sv_inv ws [] s -> (forall p, is_Some (chunk_heap (sv_store s) !! p) -> is_Some (ds !! p)) ->
  WDump d ∈ ws -> header_whole script -> run_dump script ds d s <> Undef.
Proof.
  intros [I1 I2 I3] Hds Hd Hh.
  assert (Hin : d ∈ dumps (works ws s)).
  { apply list_elem_of_omap. exists (WDump d). split; [|done]. unfold works, all_works. set_solver. }
  destruct (proj2 (ji_ddom _ _ _ I1 d) Hin) as [x Hx].
  destruct (ji_dchunk _ _ _ I1 d x Hx) as [ch Hch]. destruct (Hds _ (mk_is_Some _ _ Hch)) as [disk Hdisk].
  destruct (env_live _ _ _ _ _ (dj_conn x) I3) as [cn Hcn].
  { unfold busy, busyl. apply elem_of_app. right. apply list_elem_of_omap. exists d. split; [done|].
    unfold dconn_of. by rewrite Hx. }
  pose proof (dump_whole_safe script (opcode cn) ch disk Hh) as Hs.
  unfold run_dump, get_conn, put_conn, get_chunk, mbind, prog_bind, pget, plift, pmod, mret, prog_ret. cbn.
  change (dump_jobs s !! d = Some x) in Hx. rewrite Hx. cbn. rewrite Hcn. cbn.
  change (chunk_heap (sv_store s) !! dj_chunk x = Some ch) in Hch. rewrite Hch. cbn. rewrite Hdisk. cbn.
  by destruct (spy_dump_chunkfile script (opcode cn) ch disk) as [[]| | | |].
Qed.

Lemma run_dump_ret script ds d ws s ds' s' :
  sv_inv ws [] s -> (forall p, is_Some (chunk_heap (sv_store s) !! p) -> is_Some (ds !! p)) ->
  (forall c, dconn_of (jview s) d = Some c -> guard c = None) ->
  run_dump script ds d s = Ret (ds', s') -> ran ws s ds' s'.
Proof.
  intros [I1 I2 I3] Hds Hg H. unfold run_dump, get_conn, put_conn, get_chunk, mbind, prog_bind, pget, plift, pmod, mret,
    prog_ret in H. cbn in H.
  destruct (dump_jobs s !! d) as [x|] eqn:Ex; [|done]. cbn in H.
  destruct (conns s !! dj_conn x) as [cn|] eqn:Ec; [|done]. cbn in H.
  destruct (chunk_heap (sv_store s) !! dj_chunk x) as [chunk|]; [|done]. cbn in H.
  destruct (ds !! dj_chunk x) as [disk|]; [|done]. cbn in H.
  destruct (spy_dump_chunkfile script (opcode cn) chunk disk) as [[r out]| | | |]; try done. cbn in H.
  injection H as <- <-. destruct (put_dump _ _ _ _ _ r I1 Ex) as [J1 Jb].
  split; [|done]. split; [exact J1|done|]. eapply env_move; [| |done..].
  - eapply (env_fields_loose _ _ _ _ s _ _ cn (with_header (dump_rsp_header (opcode cn) chunk) cn) I3 Ec);
      [done..|by right; left|by right|].
    intros y Hy. rewrite Hg in Hy; [done|]. unfold dconn_of. cbn. by rewrite Ex.
  - unfold busy at 1. by rewrite <- Jb.
Qed.

End Loop.

(** Without a guard there is nothing to spare. *)
Lemma no_guard_off fd : guard_off (G := no_guard) fd.
Proof. done. Qed.
Lemma no_guard_busy ws s : guard_busy (G := no_guard) ws s.
Proof. done. Qed.
Lemma no_guard_jobs ws s : guard_jobs (G := no_guard) ws s.
Proof. done. Qed.

(** ** Start-up establishes the invariant *)

Section Boot.
(** Whatever the kernel answers. *)
#[local] Instance any_answers : MayWait := True.
Context (b : boot).
Hypothesis Hfds : b_listen_fd b <> b_event_fd b /\ 0 <= b_listen_fd b < DEF_MAX_CLIENTS /\
  0 <= b_event_fd b < DEF_MAX_CLIENTS.
Hypothesis Hstore : chunk_inv (chunks (b_store b)) (b_store b) [].

(** Registering a service descriptor on a loop without connections. *)
Lemma service_loop (sp : Z -> proc) ok el fd p el' n svc :
  ev_inv el -> setsize el = DEF_MAX_CLIENTS -> 0 <= fd < DEF_MAX_CLIENTS -> fd ∉ svc ->
  p = sp fd ->
  (forall k fe, events el !! k = Some fe -> if decide (Z.of_nat k ∈ svc) then svc_slot (sp (Z.of_nat k)) fe
     else fe_mask fe = AE_NONE) ->
  aeCreateFileEvent ok el fd AE_READABLE p None = Ret (n, el') -> n <> AE_ERR ->
  ev_inv el' /\ setsize el' = DEF_MAX_CLIENTS /\ timeEventHead el' = timeEventHead el /\
  (forall k fe, events el' !! k = Some fe -> if decide (Z.of_nat k ∈ fd :: svc) then svc_slot (sp (Z.of_nat k)) fe
     else fe_mask fe = AE_NONE).
Proof.
  intros Ie Hsz Hfd Hn Hp Hsl E Hne. destruct ok; last first.
  { rewrite create_file_event_refused in E by (done || lia). injection E as <- <-. done. }
  destruct (create_file_event_ok el fd AE_READABLE p None Ie ltac:(lia) ltac:(unfold AE_READABLE; lia))
    as (el2 & E2 & I2 & _ & Hs2 & Ht2 & _). rewrite E2 in E. injection E as <- <-.
  split; [done|]. split; [congruence|]. split; [done|]. intros k fe Hk.
  apply create_slots in E2 as [[? _]|(_ & fe0 & _ & Hfe0 & Hev)]; [done|]. rewrite Hev in Hk.
  assert (Hlen := ei_len _ Ie). unfold zlen in Hlen.
  destruct (decide (k = Z.to_nat fd)) as [->|Hk'].
  - rewrite list_lookup_insert_eq in Hk by lia. injection Hk as <-.
    rewrite decide_True by (rewrite Z2Nat.id by lia; by left).
    specialize (Hsl _ _ Hfe0). rewrite decide_False in Hsl by (by rewrite Z2Nat.id by lia).
    rewrite Z2Nat.id by lia. split; cbn; [by rewrite Hsl|]. by rewrite Hp.
  - rewrite list_lookup_insert_ne in Hk by done. specialize (Hsl k fe Hk).
    destruct (decide (Z.of_nat k ∈ svc)) as [Hi|Hi].
    + rewrite decide_True by (by right). done.
    + rewrite decide_False; [done|]. intros [Hf|Hi']%elem_of_cons; [lia|done].
Qed.

Lemma create_loop_shape ok now sz (el : loop_t) :
  0 <= sz -> aeCreateEventLoop ok now sz = Some el ->
  ev_inv el /\ setsize el = sz /\ forall k fe, events el !! k = Some fe -> fe_mask fe = AE_NONE.
Proof.
  intros Hs E. destruct ok; [|done]. split; [by eapply create_loop_inv|]. injection E as <-.
  split; [done|]. cbn. by intros k fe [-> _]%lookup_replicate.
Qed.

Lemma init_io_jobs_spec n j h l :
  (forall k, is_Some (h !! k) <-> k ∈ l) -> NoDup l -> (forall k, k ∈ l -> (k < j)%nat) ->
  let r := init_io_jobs_loop n j h l in
  (forall k, is_Some (r.1 !! k) <-> k ∈ r.2) /\ NoDup r.2.
Proof.
  revert j h l. induction n as [|n IH]; intros j h l H1 H2 H3; cbn; [done|].
  apply IH.
  - intros k. rewrite elem_of_cons, <- H1. destruct (decide (j = k)) as [<-|Hne].
    + rewrite lookup_insert_eq. split; [auto|by eauto].
    + rewrite lookup_insert_ne by done. split; [auto|]. by intros [->|].
  - constructor; [|done]. intros Hj. specialize (H3 j Hj). lia.
  - intros k [->|Hk]%elem_of_cons; [lia|]. specialize (H3 k Hk). lia.
Qed.

Lemma init_io_jobs_ok n ok jobs free :
  spy_init_io_jobs n ok = Ret (jobs, free) -> (forall k, is_Some (jobs !! k) <-> k ∈ free) /\ NoDup free.
Proof.
  intros H. unfold spy_init_io_jobs in H. apply bind_Ret_inv in H as (u & _ & H).
  apply bind_Ret_inv in H as (u' & _ & H).
  destruct (init_io_jobs_spec (Z.to_nat n) 0 ∅ []) as [J1 J2].
  { intros k. rewrite lookup_empty. split; [by intros [? ?]|by intros ?%not_elem_of_nil]. }
  { constructor. }
  { by intros k ?%not_elem_of_nil. }
  injection H as H. by rewrite H in J1, J2.
Qed.

Lemma setup_inv s :
  spy_setup b = Ret s -> sv_inv (svc_fds b) PREALLOC_COUNT (b_mb_limit b) (chunks (b_store b)) [] [] s.
Proof.
  intros H. unfold spy_setup in H. apply bind_Ret_inv in H as (el1 & H1 & H).
  apply bind_Ret_inv in H as ([wq el2] & H2 & H). apply bind_Ret_inv in H as (pool & H3 & H).
  apply bind_Ret_inv in H as ([jobs free] & H4 & H). injection H as <-.
  destruct Hfds as (Hd & Hlf & Hef).
  assert (L1 : ev_inv el1 /\ setsize el1 = DEF_MAX_CLIENTS /\
    (forall k fe, events el1 !! k = Some fe -> if decide (Z.of_nat k ∈ [b_listen_fd b]) then svc_slot (svc_proc (svc_fds b) (Z.of_nat k)) fe
       else fe_mask fe = AE_NONE)).
  { unfold spy_setup_listen_events in H1. destruct (negb (b_listen b)); [done|].
    destruct (aeCreateEventLoop _ _ _) as [el0|] eqn:E0; [|done].
    destruct (create_loop_shape _ _ DEF_MAX_CLIENTS _ ltac:(done) E0) as (I0 & Z0 & M0). clear E0.
    apply bind_Ret_inv in H1 as ([n el3] & E3 & H1). destruct (Z.eqb_spec n AE_ERR) as [|Hne]; [done|].
    destruct (service_loop (svc_proc (svc_fds b)) (b_epoll b) el0 (b_listen_fd b) P_accept_handler el3 n []) as (I3 & S3 & _ & Sl3);
      [done|done|done|apply not_elem_of_nil|by unfold svc_proc; rewrite decide_True| |exact E3|done|].
    - intros k fe Hk. rewrite decide_False by apply not_elem_of_nil. by eapply M0.
    - destruct (aeCreateTimeEvent _ _ _ _ _) as [n2 el4] eqn:E4. destruct (n2 =? AE_ERR); [done|].
      injection H1 as <-. unfold aeCreateTimeEvent in E4.
      assert (Hel : exists a t ts, el4 = with_timers a t ts el3).
      { destruct (b_timer b); [destruct (aeAddMillisecondsToNow _ _)|]; injection E4 as _ <-; eauto. }
      destruct Hel as (x & t & ts & ->). destruct I3 as [J1 J2 J3 J4]. by split. }
  destruct L1 as (I1 & S1 & Sl1). unfold spy_setup_work_queue in H2.
  apply bind_Ret_inv in H2 as ([q made] & Hq & H2). apply bind_Ret_inv in H2 as ([n el3] & E3 & H2).
  destruct (Z.eqb_spec n AE_ERR) as [|Hne]; [done|]. injection H2 as <- <-.
  destruct (service_loop (svc_proc (svc_fds b)) (b_epoll b) el1 (b_event_fd b) P_wq_thread_done el3 n [b_listen_fd b]) as (I3 & S3 & _ & Sl3);
    try done; [rewrite list_elem_of_singleton; congruence|unfold svc_proc; rewrite decide_False; [done|cbn; congruence]|].
  assert (Hsvc : forall k, k ∈ svc_fds b <-> k ∈ [b_event_fd b; b_listen_fd b]).
  { intros k. unfold svc_fds. rewrite !elem_of_cons. tauto. }
  assert (Hwq : pending_list q = [] /\ finished_list q = []).
  { unfold spy_create_work_queue in Hq. apply bind_Ret_inv in Hq as ([[r q1] m1] & Hc & Hq).
    apply bind_Ret_inv in Hq as (u & _ & Hq). injection Hq as <- <-. by apply create_threads_lists in Hc. }
  destruct Hwq as [Q1 Q2]. split; cbn.
  - unfold works, all_works. cbn. rewrite Q1, Q2. cbn.
    apply init_io_jobs_ok in H4 as [J1 J2].
    split; cbn; rewrite ?app_nil_r; try done; try constructor.
    all: try (by intros ? ?%not_elem_of_nil).
    + intros [? ?]. by rewrite lookup_empty in *.
    + by intros ?%not_elem_of_nil.
  - done.
  - split; cbn.
    + unfold busy, works, all_works. cbn. rewrite Q1, Q2. cbn. split; try done.
      * constructor.
      * by intros c ?%not_elem_of_nil.
      * intros k fe Hk Hnz Hn. specialize (Sl3 k fe Hk). rewrite Hsvc in Hn. by rewrite decide_False in Sl3.
      * intros k fe Hk Hn. specialize (Sl3 k fe Hk). rewrite Hsvc in Hn. by rewrite decide_True in Sl3.
    + unfold bufs_of. rewrite map_to_list_empty. cbn. eapply setup_ok; [|exact H3]. done.
    + by split.
Qed.

(** ** Every reachable state satisfies the invariant *)

Definition sys_inv (x : sys) : Prop :=
  sv_inv (svc_fds b) PREALLOC_COUNT (b_mb_limit b) (chunks (b_store b)) (running x) [] (srv x) /\
  forall p, is_Some (chunk_heap (sv_store (srv x)) !! p) -> is_Some (disks x !! p).

Lemma files_for {G : Guard} ws hand ws' hand' s s' (ds : disks_t) :
  sv_inv (svc_fds b) PREALLOC_COUNT (b_mb_limit b) (chunks (b_store b)) ws hand s ->
  sv_inv (svc_fds b) PREALLOC_COUNT (b_mb_limit b) (chunks (b_store b)) ws' hand' s' ->
  (forall p, is_Some (chunk_heap (sv_store s) !! p) -> is_Some (ds !! p)) ->
  forall p, is_Some (chunk_heap (sv_store s') !! p) -> is_Some (ds !! p).
Proof.
  intros I I' Hds p Hp. apply Hds. pose proof (si_chunk _ _ _ _ _ _ _ I) as C.
  pose proof (si_chunk _ _ _ _ _ _ _ I') as C'. apply (ch_dom _ _ _ C). rewrite (ch_all _ _ _ C).
  rewrite <- (ch_all _ _ _ C'). by apply (ch_dom _ _ _ C').
Qed.

(** The invariant does not depend on the timers. *)
Lemma sv_inv_timers {G : Guard} svc pre lim CH ws hand next last ts s :
  sv_inv svc pre lim CH ws hand s ->
  sv_inv svc pre lim CH ws hand (set_el (with_timers next last ts (sv_el s)) s).
Proof.
  intros [I1 I2 [[Ie I3 I4 I5 I6 I7 I8 I9 I10] Ip Ig]]. split; [done|done|]. split; [|done|by eapply guard_view].
  split; try done. by apply EventSystem.ev_inv_timers.
Qed.

Lemma works_post l1 w l2 s :
  works (l1 ++ w :: l2) s ≡ₚ all_works (l1 ++ l2) (worker_notify (worker_post w (sv_wq s))).
Proof. unfold works, all_works. cbn. solve_Permutation. Qed.

(** The connection that waits for a work. *)
Definition conn_for (v : jview_t) (w : work) : option connptr :=
  match w with WIo j => conn_of v j | WDump d => dconn_of v d end.

(** A work that is none of the guard's. *)
Definition spared {G : Guard} (v : jview_t) (w : work) : Prop :=
  (forall c, conn_for v w = Some c -> guard c = None) /\ forall j, w = WIo j -> job_loose j.

(** A step keeps the invariant with a guard, unless it is the turn of a guarded
    connection ([P]). *)
Lemma sys_step_guarded {G : Guard} (P : Prop) x y :
  sv_inv (svc_fds b) PREALLOC_COUNT (b_mb_limit b) (chunks (b_store b)) (running x) [] (srv x) ->
  (forall p, is_Some (chunk_heap (sv_store (srv x)) !! p) -> is_Some (disks x !! p)) ->
  guard_busy (running x) (srv x) -> guard_jobs (running x) (srv x) -> sys_step b x y ->
  (forall a fd mask, process_fired sv_el (call a) fd mask (srv x) = Ret (tt, srv y) -> guard_off fd \/ P) ->
  (forall w, running x ≡ₚ w :: running y -> spared (jview (srv x)) w \/ P) ->
  (sv_inv (svc_fds b) PREALLOC_COUNT (b_mb_limit b) (chunks (b_store b)) (running y) [] (srv y) /\
   forall p, is_Some (chunk_heap (sv_store (srv y)) !! p) -> is_Some (disks y !! p)) \/ P.
Proof.
  intros I Hds Hbg Hgj Hst Hev Hrun. destruct Hst as [a fd mask s s' ws ds Hfd [Hr Ha] H|e r s s' ws ds H|next last ts s ws ds
    |w q s ws ds H|script now rand w l1 l2 s s' ds ds' H|s ws ds]; cbn [srv running disks] in *.
  - destruct (Hev a fd mask H) as [Hoff|]; [left|by right].
    assert (I' := wp_elim _ _ _ _ _ (process_fired_ok _ _ _ _ a ws s fd mask Hoff Hbg Hgj (or_introl Logic.I) I Hfd Hr Ha) H). cbn in I'.
    split; [done|]. cbn. exact (files_for _ _ _ _ _ _ _ I I' Hds).
  - left. assert (I' := wp_elim _ _ _ _ _ (server_cron_ok _ _ _ _ e ws s I) H). cbn in I'.
    split; [done|]. cbn. exact (files_for _ _ _ _ _ _ _ I I' Hds).
  - left. split; [by apply sv_inv_timers|done].
  - left. split; [|done]. eapply sv_inv_wq; [exact I|]. apply worker_take_some in H as [Hp ->].
    set (l := pending_list q) in *. clearbody l. unfold works, all_works. rewrite Hp. cbn. solve_Permutation.
  - destruct (Hrun w) as [[Hg Hlo]|]; [symmetry; apply Permutation_middle|left|by right].
    assert (R : ran (svc_fds b) PREALLOC_COUNT (b_mb_limit b) (chunks (b_store b)) (l1 ++ w :: l2) s ds' s').
    { destruct w as [j|d].
      - exact (wp_elim _ _ _ _ _ (run_io_ok _ _ _ _ script now rand ds j l1 l2 s Logic.I I Hds Hg (Hlo j eq_refl)) H).
      - exact (run_dump_ret _ _ _ _ script ds d _ s ds' s' I Hds Hg H). }
    destruct R as (I' & _ & Hd'). split; [|done]. eapply sv_inv_wq; [exact I'|].
    apply works_post.
  - left. split; [|done]. eapply sv_inv_wq; [exact I|]. done.
Qed.

Lemma sys_step_inv x y : sys_inv x -> sys_step b x y -> sys_inv y.
Proof.
  intros [I Hds] Hst. by destruct (sys_step_guarded False x y I Hds ltac:(done) ltac:(done) Hst) as [?|[]]; [left..|].
Qed.

Lemma sys_reachable_inv x : sys_reachable b x -> sys_inv x.
Proof.
  induction 1 as [s ds H Hds|x y _ IH Hst]; [|by eapply sys_step_inv].
  pose proof (setup_inv s H) as I. split; [done|]. cbn. intros p Hp. apply Hds.
  pose proof (si_chunk _ _ _ _ _ _ _ I) as C. apply (ch_dom _ _ _ Hstore).
  rewrite app_nil_r. rewrite <- (ch_all _ _ _ C). by apply (ch_dom _ _ _ C).
Qed.

Lemma running_safe x w script now rand :
  sys_inv x -> w ∈ running x -> io_of w <> None ->
  run_work script now rand (disks x) w (srv x) <> Undef.
Proof.
  intros [I Hds] Hw Hio. apply list_elem_of_split in Hw as (l1 & l2 & El). rewrite El in I.
  destruct w as [j|d]; [|done]. eapply wp_safe, run_io_ok; [exact Logic.I|exact I|exact Hds|done|done].
Qed.

End Boot.

(** ** Properties *)

Module SystemProps.

(** A server with one chunk. *)
Definition ex_chunk : spy_chunk_t := SpyChunk 7 [] 1 0 0 55 145 200.
Definition ex_store : store_t := StoreT {[0%nat := ex_chunk]} [0%nat] {[1 := [0%nat]]} 1 1 ∅.
Definition ex_boot : boot :=
  Boot 3 4 true true true true (100, 0) (replicate 10 true) 64 false true ex_store.
Definition ex_disks : disks_t := {[0%nat := []]}.

Lemma ex_store_inv : chunk_inv (chunks ex_store) ex_store [].
Proof.
  assert (H1 : hashed ex_store 1) by (by exists 0%nat, ex_chunk; vm_compute; repeat constructor).
  assert (Hl : forall p, is_Some (chunk_heap ex_store !! p) <-> p = 0%nat).
  { intros p. cbn. destruct (decide (0%nat = p)) as [<-|Hne].
    - rewrite lookup_singleton_eq. split; by eauto.
    - rewrite lookup_singleton_ne by done. split; [by intros [? ?]|by intros ->]. }
  split; try done.
  - by apply NoDup_singleton.
  - intros p. rewrite Hl. cbn. by rewrite list_elem_of_singleton.
  - intros i p Hp. rewrite Hl. unfold cell in Hp. cbn in Hp. destruct (decide (1 = i)) as [<-|Hne].
    + rewrite lookup_singleton_eq in Hp. by apply list_elem_of_singleton in Hp.
    + rewrite lookup_singleton_ne in Hp by done. by apply not_elem_of_nil in Hp.
  - intros id Hid. cbn in Hid. by replace id with 1 by lia.
  - intros p ch Hp. cbn in Hp. apply lookup_singleton_Some in Hp as [_ <-]. done.
  - intros i x Hx. unfold cell in Hx. cbn in Hx. rewrite lookup_empty in Hx. by apply not_elem_of_nil in Hx.
Qed.

(** A client connects on descriptor 5 and sends a write of three bytes, which a
    worker thread takes. *)
Definition ex_env : env := Env 1 0 100 (fun _ => true) [] 0 true true.
Definition ex_request : list byte :=
  spy_mach_write_to_1 OPCODE_WRITE ++ spy_mach_write_to_4 13 ++ spy_mach_write_to_2 1
    ++ spy_mach_write_to_8 42 ++ replicate 3 b00.
Definition ex_accept : answers := Answers ex_env (GotErr EAGAIN) [] 5.
Definition ex_receive : answers := Answers ex_env (Got ex_request) [] (-1).

Definition ex_open : outcome server_t :=
  s0 ← spy_setup ex_boot;
  '(_, s1) ← process_fired sv_el (call ex_accept) 3 AE_READABLE s0;
  Ret s1.

Definition ex_run : outcome (server_t * list work) :=
  s1 ← ex_open;
  '(_, s2) ← process_fired sv_el (call ex_receive) 5 AE_READABLE s1;
  match worker_take (sv_wq s2) with
  | None => Wait
  | Some (w, q) => Ret (set_wq q s2, [w])
  end.

Lemma outcome_ret {A} (o : outcome A) (P : A -> Prop) :
  match o with Ret x => P x | _ => False end -> exists x, o = Ret x /\ P x.
Proof. destruct o; try done. eauto. Qed.

Definition ex_shape (x : server_t * list work) : Prop :=
  writers (works x.2 x.1) (jview x.1) = [0%nat] /\ busy x.2 x.1 = [0%nat] /\
  match x.2 with [w] => io_of w <> None | _ => False end.

Lemma ex_run_writes : exists x, ex_run = Ret x /\ ex_shape x.
Proof.
  apply (outcome_ret ex_run ex_shape). vm_compute. split_and!; try reflexivity. discriminate.
Qed.

Lemma ex_disks_cover p : is_Some (chunk_heap (b_store ex_boot) !! p) -> is_Some (ex_disks !! p).
Proof.
  unfold ex_disks. cbn. destruct (decide (0%nat = p)) as [<-|Hne].
  - rewrite !lookup_singleton_eq. eauto.
  - by rewrite lookup_singleton_ne.
Qed.

Lemma ex_fresh s : conns s = ∅ -> fresh_fd (svc_fds ex_boot) 5 s.
Proof.
  intros Hc. split; [done|]. split.
  - unfold svc_fds. cbn. rewrite !elem_of_cons, elem_of_nil. lia.
  - intros c cn Hx. by rewrite Hc, lookup_empty in Hx.
Qed.

(** These are steps of the system, whatever the chunk files hold. *)
Lemma ex_open_steps s ds : ex_open = Ret s ->
  exists s0, spy_setup ex_boot = Ret s0 /\ rtc (sys_step ex_boot) (Sys s0 [] ds) (Sys s [] ds).
Proof.
  intros H. unfold ex_open in H. apply bind_Ret_inv in H as (s0 & E0 & H).
  apply bind_Ret_inv in H as ([[] s1] & E1 & H). injection H as <-.
  assert (Hc : conns s0 = ∅).
  { clear - E0. unfold spy_setup in E0. apply bind_Ret_inv in E0 as (? & _ & E0).
    apply bind_Ret_inv in E0 as ([? ?] & _ & E0). apply bind_Ret_inv in E0 as (? & _ & E0).
    apply bind_Ret_inv in E0 as ([? ?] & _ & E0). by injection E0 as <-. }
  exists s0. split; [done|]. apply rtc_once.
  eapply step_event; [| |exact E1]; [unfold DEF_MAX_CLIENTS; lia|]. split; [cbn; lia|]. intros _.
  exact (ex_fresh _ Hc).
Qed.

Lemma ex_run_steps s ws ds : ex_run = Ret (s, ws) ->
  exists s0, spy_setup ex_boot = Ret s0 /\ rtc (sys_step ex_boot) (Sys s0 [] ds) (Sys s ws ds).
Proof.
  intros H. unfold ex_run in H. apply bind_Ret_inv in H as (s1 & E1 & H).
  apply bind_Ret_inv in H as ([[] s2] & E2 & H).
  destruct (worker_take (sv_wq s2)) as [[w q]|] eqn:Et; [|done].
  replace s with (set_wq q s2) by congruence. replace ws with [w] by congruence.
  destruct (ex_open_steps s1 ds E1) as (s0 & E0 & R). exists s0. split; [done|].
  eapply rtc_r; [eapply rtc_r; [exact R|]|by apply step_take].
  eapply step_event; [| |exact E2]; [unfold DEF_MAX_CLIENTS; lia|]. split; cbn; lia.
Qed.

Lemma ex_reach s0 s ws :
  spy_setup ex_boot = Ret s0 /\ rtc (sys_step ex_boot) (Sys s0 [] ex_disks) (Sys s ws ex_disks) ->
  sys_reachable ex_boot (Sys s ws ex_disks).
Proof.
  intros [E R]. assert (H0 := sys_start ex_boot s0 ex_disks E ex_disks_cover).
  induction R as [|x y z Hst _ IH]; [done|]. apply IH. by eapply sys_next.
Qed.

Lemma ex_open_reachable s : ex_open = Ret s -> sys_reachable ex_boot (Sys s [] ex_disks).
Proof. intros [s0 H]%(ex_open_steps s ex_disks). by eapply ex_reach. Qed.

Lemma ex_run_reachable s ws : ex_run = Ret (s, ws) -> sys_reachable ex_boot (Sys s ws ex_disks).
Proof. intros [s0 H]%(ex_run_steps s ws ex_disks). by eapply ex_reach. Qed.

(** After the connection is accepted its descriptor waits for input. *)
Lemma ex_reading :
  exists s fe, sys_reachable ex_boot (Sys s [] ex_disks) /\ events (sv_el s) !! 5%nat = Some fe /\
    fe_mask fe = AE_READABLE.
Proof.
  assert (H : exists s, ex_open = Ret s /\ (fe_mask <$> events (sv_el s) !! 5%nat) = Some AE_READABLE).
  { apply (outcome_ret ex_open (fun s => (fe_mask <$> events (sv_el s) !! 5%nat) = Some AE_READABLE)).
    vm_compute. reflexivity. }
  destruct H as (s & E & H). apply ex_open_reachable in E. apply fmap_Some in H as (fe & H1 & H2). eauto.
Qed.

Lemma ex_fds : b_listen_fd ex_boot <> b_event_fd ex_boot /\
  0 <= b_listen_fd ex_boot < DEF_MAX_CLIENTS /\ 0 <= b_event_fd ex_boot < DEF_MAX_CLIENTS.
Proof. done. Qed.

(** The state of the example, and what it shows: a write under way on chunk 0 for
    connection 0. *)
Lemma ex_writing :
  exists s w, sys_reachable ex_boot (Sys s [w] ex_disks) /\ writers (works [w] s) (jview s) = [0%nat] /\
    busy [w] s = [0%nat] /\ io_of w <> None.
Proof.
  destruct ex_run_writes as ([s ws] & E & H1 & H2 & H3). cbn in H1, H2, H3.
  apply ex_run_reachable in E. destruct ws as [|w [|]]; [done| |done]. by exists s, w.
Qed.

(** What start-up must provide: two descriptors of its own in the table's range,
    and a store whose chunks are numbered from 1 without gaps. *)
Definition booted (b : boot) : Prop :=
  (b_listen_fd b <> b_event_fd b /\ 0 <= b_listen_fd b < DEF_MAX_CLIENTS /\
   0 <= b_event_fd b < DEF_MAX_CLIENTS) /\
  chunk_inv (chunks (b_store b)) (b_store b) [].

Lemma ex_booted : booted ex_boot.
Proof. exact (conj ex_fds ex_store_inv). Qed.

Lemma reachable_parts b x :
  booted b -> sys_reachable b x -> sys_inv b x.
Proof. intros [H1 H2]. by apply sys_reachable_inv. Qed.

(** C1: in every reachable state of the server (clients connecting, sending and
    reading at will, kernel calls failing or transferring part of what is asked,
    worker threads taking and finishing works in any order) no event handler, no
    run of the periodic timer and no read, write or check job of a worker makes
    an undefined access: no freed connection, job or chunk is used, no buffer is
    overrun, no uninitialised pointer followed.  The dump job is left out: see
    [dump_needs_whole_header]. *)
Theorem server_memory_safe b x :
  booted b -> sys_reachable b x ->
  (forall a fd mask, 0 <= fd < DEF_MAX_CLIENTS -> fair b a (srv x) ->
     process_fired sv_el (call a) fd mask (srv x) <> Undef) /\
  (forall e, spy_server_cron e (srv x) <> Undef) /\
  (forall script now rand w, w ∈ running x -> io_of w <> None ->
     run_work script now rand (disks x) w (srv x) <> Undef).
Proof.
  intros Hb Hx. pose proof (reachable_parts _ _ Hb Hx) as I. split_and!.
  - intros a fd mask Hfd [Hr Ha]. eapply (wp_safe (mw:=True)), process_fired_ok; [done|done|done|by left|apply I|done..].
  - intros e. eapply (wp_safe (mw:=True)), server_cron_ok, I.
  - intros script now rand w Hw Hio. by eapply running_safe.
Qed.

Lemma server_memory_safe_witness :
  exists s w, sys_reachable ex_boot (Sys s [w] ex_disks) /\
    run_work [] 0 0 ex_disks w s <> Undef /\ spy_server_cron ex_env s <> Undef.
Proof.
  destruct ex_writing as (s & w & H & _ & _ & Hw). exists s, w. split; [exact H|].
  destruct (server_memory_safe ex_boot (Sys s [w] ex_disks) ex_booted H) as (_ & H2 & H3).
  split; [|apply H2]. apply (H3 [] 0 0 w); [apply list_elem_of_singleton; reflexivity|exact Hw].
Defined.

(** C12: the main thread never hangs.  In every reachable state the handler of a
    fired event and the periodic timer come to an end: they return, or the process
    stops in a failed assertion.  Nothing is asked of the kernel's answers but that
    a [write] to a client's socket which does not fail takes at least one of the
    bytes it is offered, as POSIX promises for a count that is not zero: each round
    of the sending loop then leaves fewer bytes to send, and no response needs more
    than 2^31 of them.  The other loops (growing a buffer, the jobs that are done,
    the pending writes that time out) need no such bound. *)
Theorem main_thread_comes_back b x :
  booted b -> sys_reachable b x ->
  (forall a fd mask, 0 <= fd < DEF_MAX_CLIENTS -> fair b a (srv x) ->
     Forall progress (a_write a) -> 2 ^ 31 <= zlen (a_write a) ->
     process_fired sv_el (call a) fd mask (srv x) <> Wait) /\
  (forall e, spy_server_cron e (srv x) <> Wait).
Proof.
  intros Hb Hx. pose proof (reachable_parts _ _ Hb Hx) as I. split.
  - intros a fd mask Hfd [Hr Ha] Hp Hl. eapply (wp_returns (mw:=False)), process_fired_ok;
      [by intros []|done|done|done|right; split; [by eapply reachable_headers|done]|apply I|done..].
  - intros e. eapply (wp_returns (mw:=False)), server_cron_ok, I. by intros [].
Qed.

(** A client asks for the state of the server: its response, with a body, waits to be
    sent. *)
Definition ex_query : answers :=
  Answers ex_env (Got (spy_mach_write_to_1 OPCODE_QUERY_IO_STATUS ++ spy_mach_write_to_4 0)) [] (-1).
Definition ex_asked : outcome server_t :=
  s1 ← ex_open;
  '(_, s2) ← process_fired sv_el (call ex_query) 5 AE_READABLE s1;
  Ret s2.

Lemma ex_answering :
  exists s cn, sys_reachable ex_boot (Sys s [] ex_disks) /\ conns s !! 0%nat = Some cn /\
    state cn = SEND_RSP /\ 6 < rsp_remaining cn.
Proof.
  destruct (outcome_ret ex_asked (fun s => match conns s !! 0%nat with
    | Some cn => state cn = SEND_RSP /\ 6 < rsp_remaining cn | None => False end)) as (s & E & H);
    [vm_compute; split; reflexivity|].
  destruct (conns s !! 0%nat) as [cn|] eqn:Hc; [|destruct H]. exists s, cn. split; [|exact (conj Hc H)].
  unfold ex_asked in E. apply bind_Ret_inv in E as (s1 & E1 & E). apply bind_Ret_inv in E as ([[] s2] & E2 & E).
  injection E as <-. destruct (ex_open_steps s1 ex_disks E1) as (s0 & E0 & R). eapply (ex_reach s0). split; [exact E0|].
  eapply rtc_r; [exact R|]. eapply step_event; [| |exact E2]; [unfold DEF_MAX_CLIENTS; lia|]. split; cbn; lia.
Qed.

(** A socket that takes one byte at a time. *)
Definition ex_dripping : answers := Answers ex_env (GotErr EAGAIN) (replicate (Z.to_nat (2 ^ 31)) (Xfer 1)) (-1).

Lemma main_thread_comes_back_witness :
  exists s cn, sys_reachable ex_boot (Sys s [] ex_disks) /\
    conns s !! 0%nat = Some cn /\ state cn = SEND_RSP /\ 6 < rsp_remaining cn /\
    process_fired sv_el (call ex_dripping) 5 AE_WRITABLE s <> Wait /\ spy_server_cron ex_env s <> Wait.
Proof.
  destruct ex_answering as (s & cn & H & Hc & Hs & Hr). exists s, cn.
  destruct (main_thread_comes_back ex_boot (Sys s [] ex_disks) ex_booted H) as [W1 W2].
  split; [exact H|]. split; [exact Hc|]. split; [exact Hs|]. split; [exact Hr|]. split; [|apply W2].
  apply (W1 ex_dripping 5 AE_WRITABLE).
  - split; [discriminate|reflexivity].
  - split; [discriminate|]. intros Ha. exfalso. exact (Ha eq_refl).
  - unfold ex_dripping. cbn [a_write]. apply Forall_replicate. exact (eq_refl : (0 ?= 1) = Lt).
  - unfold ex_dripping. cbn [a_write]. rewrite zlen_replicate. apply Z.le_max_r.
Defined.

(** C8: a chunk is written by one job at a time.  In every reachable state the
    allocation list and the list of chunks being written hold between them
    exactly the chunks of start-up, each once; the write jobs given to the pool
    and not yet completed write pairwise different chunks, and these are on the
    second list, out of reach of the allocator. *)
Theorem one_writer_per_chunk b x :
  booted b -> sys_reachable b x ->
  let s := srv x in
  chunks (sv_store s) ++ writing_chunks s ≡ₚ chunks (b_store b) /\
  NoDup (chunks (sv_store s) ++ writing_chunks s) /\
  NoDup (writers (works (running x) s) (jview s)) /\
  forall p, p ∈ writers (works (running x) s) (jview s) -> p ∈ writing_chunks s.
Proof.
  intros Hb Hx. destruct (reachable_parts _ _ Hb Hx) as [[J C E] _]. cbn. split_and!.
  - apply C.
  - apply C.
  - apply J.
  - intros p (j & Hj & Hp)%list_elem_of_omap. destruct (ji_work _ _ _ J j Hj) as (job & Hl & _ & q & Hq & _ & Hf).
    unfold written_by in Hp. rewrite Hl in Hp. cbn in Hp. destruct (j_fn job) as [[]|]; try done.
    replace p with q by congruence. apply Hf.
Qed.

Lemma one_writer_per_chunk_witness :
  exists s w, sys_reachable ex_boot (Sys s [w] ex_disks) /\
    writers (works [w] s) (jview s) = [0%nat] /\ 0%nat ∈ writing_chunks s.
Proof.
  destruct ex_writing as (s & w & H & Hw & _). exists s, w. split; [exact H|]. split; [exact Hw|].
  destruct (one_writer_per_chunk ex_boot (Sys s [w] ex_disks) ex_booted H) as (_ & _ & _ & H4).
  apply H4. cbn [srv running]. rewrite Hw. apply list_elem_of_singleton. reflexivity.
Defined.

(** C19: no io job is lost or used twice.  In every reachable state each of the
    preallocated jobs is in exactly one place: the free cache, the pending
    writes, or the thread pool; the counter of pending writes is the length of
    their list and never exceeds its limit. *)
Theorem jobs_accounted b x :
  booted b -> sys_reachable b x ->
  let s := srv x in
  let places := free_io_jobs s ++ pending_writes s ++ ios (works (running x) s) in
  NoDup places /\ (forall j, is_Some (io_jobs s !! j) <-> j ∈ places) /\
  pending_writes_size s = zlen (pending_writes s) /\ pending_writes_size s <= DEF_MAX_PENDING_WRITES.
Proof.
  intros Hb Hx. destruct (reachable_parts _ _ Hb Hx) as [[J C E] _]. cbn.
  destruct (ji_size _ _ _ J) as [H1 H2]. cbn in H1, H2. split_and!; [apply J|apply J|done|lia].
Qed.

Lemma jobs_accounted_witness :
  exists s w, sys_reachable ex_boot (Sys s [w] ex_disks) /\
    NoDup (free_io_jobs s ++ pending_writes s ++ ios (works [w] s)).
Proof.
  destruct ex_writing as (s & w & H & _). exists s, w. split; [exact H|].
  apply (jobs_accounted ex_boot (Sys s [w] ex_disks) ex_booted H).
Defined.

(** C20: a connection that a job will answer stays alive and untouched until then.
    In every reachable state the connections the unfinished jobs point to are
    pairwise different, and each is live, in [PROCESS_REQUEST] and without a
    registered event, so that no handler can free, reset or reuse it. *)
Theorem waiting_connections_safe b x :
  booted b -> sys_reachable b x ->
  let s := srv x in
  NoDup (busy (running x) s) /\
  forall c, c ∈ busy (running x) s -> exists cn, conns s !! c = Some cn /\
    mask_of (sv_el s) (cn_fd cn) = AE_NONE /\ state cn = PROCESS_REQUEST.
Proof.
  intros Hb Hx. destruct (reachable_parts _ _ Hb Hx) as [[J C [E _]] _]. cbn. split; apply E.
Qed.

Lemma waiting_connections_safe_witness :
  exists s w cn, sys_reachable ex_boot (Sys s [w] ex_disks) /\
    conns s !! 0%nat = Some cn /\ state cn = PROCESS_REQUEST.
Proof.
  destruct ex_writing as (s & w & H & _ & Hb & _).
  destruct (waiting_connections_safe ex_boot (Sys s [w] ex_disks) ex_booted H) as [_ H2].
  destruct (H2 0%nat) as (cn & H3 & _ & H4).
  - cbn [srv running]. rewrite Hb. apply list_elem_of_singleton. reflexivity.
  - exists s, w, cn. split; [exact H|]. split; [exact H3|exact H4].
Defined.

(** C21: the event table never points to a dead connection.  In every reachable
    state a descriptor with a registered event is one of the server's own or
    belongs to exactly one live connection, which is the client data of the
    slot, with the read and write handlers installed for the events of its mask;
    a connection waiting to write is in [SEND_RSP]. *)
Theorem registered_events_owned b x n fe :
  booted b -> sys_reachable b x ->
  let s := srv x in
  events (sv_el s) !! n = Some fe -> fe_mask fe <> AE_NONE -> Z.of_nat n ∉ svc_fds b ->
  exists c cn, conns s !! c = Some cn /\ cn_fd cn = Z.of_nat n /\ slot_of c fe /\
    (forall c' cn', conns s !! c' = Some cn' -> cn_fd cn' = cn_fd cn -> c' = c) /\
    (Z.land (fe_mask fe) AE_WRITABLE <> 0 -> state cn = SEND_RSP).
Proof.
  intros Hb Hx s Hn Hm Hs. destruct (reachable_parts _ _ Hb Hx) as [[J C [E _]] _].
  destruct (ci_slot _ _ _ _ E n fe Hn Hm Hs) as (c & cn & H1 & H2 & H3). exists c, cn.
  split_and!; try done.
  - intros c' cn' H4 H5. by eapply (ci_inj _ _ _ _ E).
  - intros Hw. eapply (ci_send _ _ _ _ E); [done|].
    rewrite H2, (mask_of_lookup _ _ fe); [done|lia|by rewrite Nat2Z.id].
Qed.

Lemma registered_events_owned_witness :
  exists s c cn, sys_reachable ex_boot (Sys s [] ex_disks) /\ conns s !! c = Some cn /\ cn_fd cn = 5.
Proof.
  destruct ex_reading as (s & fe & H & Hn & Hm).
  destruct (registered_events_owned ex_boot (Sys s [] ex_disks) 5 fe ex_booted H) as (c & cn & H1 & H2 & _).
  - exact Hn.
  - rewrite Hm. discriminate.
  - cbn. unfold svc_fds. cbn. rewrite !elem_of_cons, elem_of_nil. lia.
  - exists s, c, cn. split; [exact H|]. split; [exact H1|exact H2].
Defined.

(** C22: the memory blocks of the whole server are conserved.  In every reachable
    state each block of the pool is free or held by exactly one buffer of one
    live connection, the counters count them, and the pool stays within its
    limit (or its preallocation, when that is larger). *)
Theorem server_blocks_conserved b x :
  booted b -> sys_reachable b x ->
  let p := sv_pool (srv x) in
  let bufs := bufs_of (conns (srv x)) in
  NoDup (free_mem_blocks p ++ held bufs) /\
  mem_blocks_used p = zlen (held bufs) /\
  mem_blocks_alloc p = zlen (free_mem_blocks p) + zlen (held bufs) /\
  mem_blocks_alloc p <= Z.max PREALLOC_COUNT (u32 (b_mb_limit b)).
Proof.
  intros Hb Hx. destruct (reachable_parts _ _ Hb Hx) as [[J C [_ (I & W & Hl & Ha)]] _]. cbn in *.
  pose proof I as [P1 P2 P3 P4 P5 P6]. rewrite zlen_app in P5. done.
Qed.

Lemma server_blocks_conserved_witness :
  exists s w, sys_reachable ex_boot (Sys s [w] ex_disks) /\
    NoDup (free_mem_blocks (sv_pool s) ++ held (bufs_of (conns s))).
Proof.
  destruct ex_writing as (s & w & H & _). exists s, w. split; [exact H|].
  apply (server_blocks_conserved ex_boot (Sys s [w] ex_disks) ex_booted H).
Defined.

End SystemProps.
