(* ===== verification/Isolation.v ===== *)
(** * Isolation: a client is not touched by what the server does for others

    The specifications of [ServerConn.v], [ServerSafe.v] and [System.v] hold for any
    guard.  With a guard on one connection they say what a step of the server of
    [chunkserver/spy_server.c] leaves alone: the connection, and the bytes in its two
    buffers, which share the pool of memory blocks with all others. *)

From S2P Require Import Prelude Utils RwBuffer Store Event WorkQueue Server ServerConn ServerJobs ServerSafe System.

(** The guard on one connection. *)
Definition only (c : connptr) (x : guarded) : Guard := fun d => if decide (d = c) then Some x else None.

Lemma only_eq c x : guard (Guard := only c x) c = Some x.
Proof. unfold guard, only. by rewrite decide_True. Qed.
Lemma only_ne c x d : d <> c -> guard (Guard := only c x) d = None.
Proof. intros H. unfold guard, only. by rewrite decide_False. Qed.
Lemma only_inv c x d y : guard (Guard := only c x) d = Some y -> d = c /\ y = x.
Proof. unfold guard, only. case_decide; [|done]. by intros [= <-]. Qed.

(** A connection, and a job of the pool, as they are in a state. *)
Definition snapshot (idle : bool) (cn : spy_connection_t) (jo : option (jobptr * spy_io_job_t)) (s : server_t)
    : guarded := Guarded idle cn (mp_heap (sv_pool s)) jo.

(** The connection and the bytes its buffers hold. *)
Record same_client (c : connptr) (cn : spy_connection_t) (s s' : server_t) : Prop := {
  sc_conn : conns s' !! c = Some cn;
  sc_request : content (mp_heap (sv_pool s')) (request cn) = content (mp_heap (sv_pool s)) (request cn);
  sc_rsp_body : content (mp_heap (sv_pool s')) (rsp_body cn) = content (mp_heap (sv_pool s)) (rsp_body cn)
}.

Lemma same_client_refl c cn s : conns s !! c = Some cn -> same_client c cn s s.
Proof. by split. Qed.
Lemma same_client_trans c cn s1 s2 s3 : same_client c cn s1 s2 -> same_client c cn s2 s3 -> same_client c cn s1 s3.
Proof. intros [] []. split; congruence. Qed.

Lemma holds_same idle c cn jo s s' :
  buf_wf (mp_heap (sv_pool s)) (request cn) -> buf_wf (mp_heap (sv_pool s)) (rsp_body cn) ->
  holds (snapshot idle cn jo s) c s' -> same_client c cn s s'.
Proof.
  intros W1 W2 [H1 H2]. cbn in H1, H2. split; [done|..]; apply wf_agree; try done; intros y Hy; apply H2;
    apply elem_of_app; [by left|by right].
Qed.

Section Guarding.
Context {svc : list Z} {pre lim : Z} {CH : list cptr}.
Implicit Types (ws : list work) (hand : list jobptr) (s : server_t) (c : connptr).

(** A guard may be put on any connection, as it is. *)
Lemma guard_start ws hand s c cn jo (idle : bool) :
  sv_inv svc pre lim CH ws hand s -> conns s !! c = Some cn -> (idle = true -> c ∉ busy ws s) ->
  (forall j job, jo = Some (j, job) -> j ∈ ios (works ws s) /\ io_jobs s !! j = Some job) ->
  sv_inv (G := only c (snapshot idle cn jo s)) svc pre lim CH ws hand s.
Proof.
  intros [[A1 A2 A3 A4 A5 A6 A7 A8 A9 _] I2 [I3 I4 _]] Hc Hi Hjo. split; [split; try done|done|].
  { intros d x j job [-> ->]%only_inv Hx. destruct (Hjo j job Hx) as [Hj1 Hj2]. split; [|done].
    intros Hp. apply NoDup_app in A1 as (_ & _ & A1). apply NoDup_app in A1 as (_ & _ & A1).
    apply NoDup_app in A1 as (_ & A1 & _). by apply (A1 j). }
  split; [done|done|]. split.
  - intros d x [-> ->]%only_inv _. by split.
  - intros d x [-> ->]%only_inv. exact Hi.
Qed.

(** ... and taken off again. *)
Lemma guard_end (G : Guard) ws hand s :
  sv_inv (G := G) svc pre lim CH ws hand s -> sv_inv (G := no_guard) svc pre lim CH ws hand s.
Proof. intros [[] I2 [I3 I4 _]]. by split; [split| |split; [| |split]]. Qed.

Lemma guard_kept idle ws hand s s' c cn jo :
  sv_inv svc pre lim CH ws hand s -> conns s !! c = Some cn ->
  forall ws' hand', sv_inv (G := only c (snapshot idle cn jo s)) svc pre lim CH ws' hand' s' ->
  idle = true \/ c ∈ busy ws' s' -> same_client c cn s s'.
Proof.
  intros I Hc ws' hand' I' Hb. destruct (env_focus _ _ _ _ _ _ _ (si_env _ _ _ _ _ _ _ I) Hc) as (_ & W1 & W2).
  eapply holds_same; [done..|].
  exact (gi_holds _ _ (en_guard _ _ _ _ _ (si_env _ _ _ _ _ _ _ I')) c _ (only_eq _ _) Hb).
Qed.
End Guarding.

(** The connection of a running work waits. *)
Lemma running_busy ws s w c : w ∈ ws -> conn_for (jview s) w = Some c -> c ∈ busy ws s.
Proof.
  intros Hw Hc. unfold busy, busyl, works, all_works. destruct w as [j|d]; cbn in Hc.
  - apply elem_of_app. left. apply list_elem_of_omap. exists j. split; [|done]. apply elem_of_app. right.
    unfold ios. apply list_elem_of_omap. exists (WIo j). split; [|done]. apply elem_of_app. by left.
  - apply elem_of_app. right. apply list_elem_of_omap. exists d. split; [|done].
    unfold dumps. apply list_elem_of_omap. exists (WDump d). split; [|done]. apply elem_of_app. by left.
Qed.

(** A job of the pool has its connection wait, and no other work has the same one. *)
Lemma pool_busy ws s j job c :
  j ∈ ios (works ws s) -> io_jobs s !! j = Some job -> j_conn job = Some c -> c ∈ busy ws s.
Proof.
  intros Hj Hl Hc. unfold busy, busyl. apply elem_of_app. left. apply list_elem_of_omap. exists j.
  split; [apply elem_of_app; by right|]. unfold conn_of. cbn. by rewrite Hl.
Qed.

Lemma pool_conn_inj {svc pre lim CH} ws hand s j w c :
  sv_inv svc pre lim CH ws hand s -> j ∈ ios (works ws s) -> w ∈ ws ->
  conn_of (jview s) j = Some c -> conn_for (jview s) w = Some c -> w = WIo j.
Proof.
  intros I Hj Hw Hc Hcw. pose proof (ci_nodup _ _ _ _ (en_conn _ _ _ _ _ (si_env _ _ _ _ _ _ _ I))) as Hn.
  unfold busy, busyl in Hn. apply NoDup_app in Hn as (Hn & Hd & _).
  assert (Hin : forall k, k ∈ ios (works ws s) -> k ∈ v_pending (jview s) ++ ios (works ws s)) by (intros; apply elem_of_app; by right).
  destruct w as [k|d]; cbn in Hcw.
  - f_equal. eapply (omap_inj (conn_of (jview s))); [exact Hn|apply Hin|by apply Hin|done|done].
    unfold ios. apply list_elem_of_omap. exists (WIo k). split; [|done]. apply elem_of_app. by left.
  - destruct (Hd c); apply list_elem_of_omap; [exists j; by split; [apply Hin|]|exists d; split; [|done]].
    unfold dumps. apply list_elem_of_omap. exists (WDump d). split; [|done]. apply elem_of_app. by left.
Qed.

Section Step.
Context (b : boot).
Implicit Types (x y : sys) (c : connptr).

(** It is the turn of connection [c]: an event of its descriptor is handled, a
    worker has run its work, or the main thread has taken its job out. *)
Inductive turn (c : connptr) (cn : spy_connection_t) (x y : sys) : Prop :=
| turn_event a mask :
    c ∉ busy (running x) (srv x) ->
    process_fired sv_el (call a) (cn_fd cn) mask (srv x) = Ret (tt, srv y) -> turn c cn x y
| turn_work w :
    running x ≡ₚ w :: running y -> conn_for (jview (srv x)) w = Some c -> turn c cn x y
| turn_done :
    c ∈ busy (running x) (srv x) -> c ∉ busy (running y) (srv y) -> turn c cn x y.

Lemma isolated_idle x y c cn :
  sys_inv b x -> sys_step b x y -> conns (srv x) !! c = Some cn -> c ∉ busy (running x) (srv x) ->
  (same_client c cn (srv x) (srv y) /\ c ∉ busy (running y) (srv y)) \/ turn c cn x y.
Proof.
  intros [I Hds] Hst Hc Hn. assert (IG : sv_inv (G := only c (snapshot true cn None (srv x))) (svc_fds b) PREALLOC_COUNT
    (b_mb_limit b) (chunks (b_store b)) (running x) [] (srv x)) by (by apply guard_start).
  destruct (sys_step_guarded (G := only c (snapshot true cn None (srv x))) b (turn c cn x y) x y) as [[IG' _]|]; try done.
  - by intros d g [-> ->]%only_inv.
  - by intros d g j job [-> ->]%only_inv.
  - intros a fd mask H. destruct (decide (fd = cn_fd cn)) as [->|Hne]; [right; by eapply turn_event|left].
    intros d g [-> ->]%only_inv _. cbn. congruence.
  - intros w Hw. left. split; [|by intros j _ d g job [-> ->]%only_inv]. intros d Hd. apply only_ne. intros ->.
    apply Hn. eapply running_busy; [|exact Hd]. rewrite Hw. by left.
  - left. split; [by eapply guard_kept; [..|exact IG'|left]|].
    exact (gi_idle _ _ (en_guard _ _ _ _ _ (si_env _ _ _ _ _ _ _ IG')) c _ (only_eq _ _) eq_refl).
  - by right.
Qed.

(** ... with the job [jo] it waits for, if that is asked for. *)
Lemma isolated_busy x y c cn jo :
  sys_inv b x -> sys_step b x y -> conns (srv x) !! c = Some cn -> c ∈ busy (running x) (srv x) ->
  (forall j job, jo = Some (j, job) -> io_jobs (srv x) !! j = Some job /\ j_conn job = Some c /\
     j ∈ ios (works (running x) (srv x))) ->
  (same_client c cn (srv x) (srv y) /\
   forall j job, jo = Some (j, job) -> j ∈ ios (works (running y) (srv y)) -> io_jobs (srv y) !! j = Some job)
  \/ turn c cn x y.
Proof.
  intros [I Hds] Hst Hc Hb Hjo.
  assert (IG : sv_inv (G := only c (snapshot false cn jo (srv x))) (svc_fds b) PREALLOC_COUNT
    (b_mb_limit b) (chunks (b_store b)) (running x) [] (srv x)).
  { apply guard_start; try done. intros j job Hj. by destruct (Hjo j job Hj) as (? & _ & ?). }
  destruct (sys_step_guarded (G := only c (snapshot false cn jo (srv x))) b (turn c cn x y) x y) as [[IG' _]|]; try done.
  - by intros d g [-> ->]%only_inv _.
  - intros d g j job [-> ->]%only_inv Hj. by destruct (Hjo j job Hj) as (_ & _ & ?).
  - intros a fd mask _. left. by intros d g [-> ->]%only_inv.
  - intros w Hw. destruct (decide (conn_for (jview (srv x)) w = Some c)) as [Hd|Hd]; [right; by eapply turn_work|left].
    split; [intros d Hd'; apply only_ne; congruence|]. intros j -> d g job [-> ->]%only_inv Hj. apply Hd.
    destruct (Hjo j job Hj) as (Hj1 & Hj2 & _). cbn. unfold conn_of. cbn. by rewrite Hj1.
  - destruct (decide (c ∈ busy (running y) (srv y))) as [Hy|Hy]; [left|right; by apply turn_done].
    split; [by eapply guard_kept; [..|exact IG'|right]|]. intros j job Hj Hin.
    exact (proj2 (ji_guard _ _ _ (si_jobs _ _ _ _ _ _ _ IG') c _ j job (only_eq _ _) Hj) Hin).
  - by right.
Qed.

(** A step after which the pool still has job [j], and has not just run it. *)
Definition waits (j : jobptr) (x y : sys) : Prop :=
  sys_step b x y /\ j ∈ ios (works (running y) (srv y)) /\ ~ running x ≡ₚ WIo j :: running y.

(** The job and its connection as the handler that queued the job has left them. *)
Record queued (j : jobptr) (job : spy_io_job_t) (c : connptr) (cn : spy_connection_t) (x : sys) : Prop := {
  qd_pool : j ∈ ios (works (running x) (srv x));
  qd_job : io_jobs (srv x) !! j = Some job;
  qd_conn : j_conn job = Some c;
  qd_live : conns (srv x) !! c = Some cn
}.

Lemma waits_step x y j job c cn :
  sys_inv b x -> queued j job c cn x -> waits j x y ->
  queued j job c cn y /\ same_client c cn (srv x) (srv y).
Proof.
  intros [I Hds] [Q1 Q2 Q3 Q4] (Hst & Hj & Hnr).
  assert (IG : sv_inv (G := only c (snapshot false cn (Some (j, job)) (srv x))) (svc_fds b) PREALLOC_COUNT
    (b_mb_limit b) (chunks (b_store b)) (running x) [] (srv x)) by (apply guard_start; try done; by intros ? ? [= <- <-]).
  destruct (sys_step_guarded (G := only c (snapshot false cn (Some (j, job)) (srv x))) b False x y) as [[IG' _]|[]]; try done.
  - intros d g [-> ->]%only_inv _. by eapply pool_busy.
  - intros d g k jb [-> ->]%only_inv [= <- <-]. done.
  - intros a fd mask _. left. by intros d g [-> ->]%only_inv.
  - intros w Hw. left. assert (Hwj : w <> WIo j) by (intros ->; done).
    assert (Hwin : w ∈ running x) by (rewrite Hw; by left). split.
    + intros d Hd. apply only_ne. intros ->. apply Hwj. eapply (pool_conn_inj _ _ _ _ _ c I Q1 Hwin); [|done].
      unfold conn_of. cbn. by rewrite Q2.
    + intros k -> d g jb [-> ->]%only_inv [= <- <-]. done.
  - assert (Hjob : io_jobs (srv y) !! j = Some job)
      by exact (proj2 (ji_guard _ _ _ (si_jobs _ _ _ _ _ _ _ IG') c _ j job (only_eq _ _) eq_refl) Hj).
    assert (Hs : same_client c cn (srv x) (srv y)).
    { eapply guard_kept; [exact I|exact Q4|exact IG'|right]. by eapply pool_busy. }
    split; [|done]. by split; [| | |apply Hs].
Qed.

Lemma waits_steps x y j job c cn :
  sys_inv b x -> queued j job c cn x -> rtc (waits j) x y ->
  sys_inv b y /\ queued j job c cn y /\ same_client c cn (srv x) (srv y).
Proof.
  intros I Q R. induction R as [x|x y z H _ IH].
  - split; [done|]. split; [done|]. apply same_client_refl, Q.
  - destruct (waits_step _ _ _ _ _ _ I Q H) as [Q1 S1]. destruct IH as (I2 & Q2 & S2); [|done|].
    + eapply sys_step_inv; [exact I|apply H].
    + split; [done|]. split; [done|]. by eapply same_client_trans.
Qed.
End Step.

Module IsolationProps.
Import SystemProps.

(** C5: clients are isolated from each other.  In every reachable state, a step of
    the server (any event, the timer, any worker) leaves a connection and the bytes
    in its request and response buffers as they are, although all buffers take
    their blocks from one pool; unless it is the connection's turn: an event of
    its own descriptor while no job is under way for it, the end of its own work, or
    its job taken out by the main thread. *)
Theorem clients_isolated b x y c cn :
  booted b -> sys_reachable b x -> sys_step b x y -> conns (srv x) !! c = Some cn ->
  same_client c cn (srv x) (srv y) \/ turn c cn x y.
Proof.
  intros Hb Hx Hst Hc. pose proof (reachable_parts _ _ Hb Hx) as I.
  destruct (decide (c ∈ busy (running x) (srv x))) as [Hbs|Hbs].
  - destruct (isolated_busy b x y c cn None I Hst Hc Hbs) as [[? _]|]; [done|by left|by right].
  - destruct (isolated_idle b x y c cn I Hst Hc Hbs) as [[? _]|]; [by left|by right].
Qed.

(** A second client connects on descriptor 6 while the write of the first is with a
    worker. *)
Definition ex_accept2 : answers := Answers ex_env (GotErr EAGAIN) [] 6.
Definition ex_two : outcome (server_t * list work * server_t) :=
  '(s, ws) ← ex_run;
  '(_, s') ← process_fired sv_el (call ex_accept2) 3 AE_READABLE s;
  Ret (s, ws, s').

Definition ex_two_shape (x : server_t * list work * server_t) : Prop :=
  let '(s, ws, s') := x in
  bool_decide (map_Forall (fun _ cn => cn_fd cn <> 6) (conns s)) = true /\ is_Some (conns s !! 0%nat) /\
  busy ws s = [0%nat] /\ busy ws s' = [0%nat] /\ size (conns s') = 2%nat.

Lemma ex_two_runs : exists x, ex_two = Ret x /\ ex_two_shape x.
Proof. apply (outcome_ret ex_two ex_two_shape). vm_compute. split_and!; try reflexivity. by eexists. Qed.

Lemma ex_two_step :
  exists s s' ws cn, sys_reachable ex_boot (Sys s ws ex_disks) /\
    sys_step ex_boot (Sys s ws ex_disks) (Sys s' ws ex_disks) /\ conns s !! 0%nat = Some cn /\
    busy ws s = [0%nat] /\ busy ws s' = [0%nat] /\ size (conns s') = 2%nat.
Proof.
  destruct ex_two_runs as ([[s ws] s'] & E & H). unfold ex_two in E.
  apply bind_Ret_inv in E as ([s1 ws1] & E1 & E). apply bind_Ret_inv in E as ([[] s2] & E2 & E).
  injection E as -> -> ->. destruct H as (H1 & [cn H2] & H3 & H4 & H5). apply bool_decide_eq_true in H1.
  exists s, s', ws, cn. split; [exact (ex_run_reachable s ws E1)|].
  split; [|exact (conj H2 (conj H3 (conj H4 H5)))].
  eapply step_event; [| |exact E2]; [clear; unfold DEF_MAX_CLIENTS; lia|]. clear E1 E2. split; [cbn; lia|]. intros _.
  split; [done|]. split; [unfold svc_fds; cbn; rewrite !elem_of_cons, elem_of_nil; lia|]. exact H1.
Qed.

Lemma clients_isolated_witness :
  exists x y cn, sys_step ex_boot x y /\ size (conns (srv y)) = 2%nat /\ conns (srv y) !! 0%nat = Some cn /\
    conns (srv x) !! 0%nat = Some cn.
Proof.
  destruct ex_two_step as (s & s' & ws & cn & R & St & Hc & Hx & Hy & Hs).
  exists (Sys s ws ex_disks), (Sys s' ws ex_disks), cn. split; [exact St|]. split; [exact Hs|]. split; [|exact Hc].
  destruct (clients_isolated ex_boot (Sys s ws ex_disks) (Sys s' ws ex_disks) 0%nat cn ex_booted R St Hc)
    as [H|[a mask Hn _|w Hw _|_ Hn]].
  - exact (sc_conn _ _ _ _ H).
  - change (0%nat ∉ busy ws s) in Hn. rewrite Hx in Hn. destruct Hn. apply list_elem_of_singleton. reflexivity.
  - cbn in Hw. apply Permutation_length in Hw. cbn in Hw. lia.
  - change (0%nat ∉ busy ws s') in Hn. rewrite Hy in Hn. destruct Hn. apply list_elem_of_singleton. reflexivity.
Defined.

End IsolationProps.
