(* ===== verification/ServerProps.v ===== *)
(** * ServerProps: what the handlers of [chunkserver/spy_server.c] compute

    The bytes a client receives, the pending writes that time out, the index
    after a completed write, and the chunk that is lost when no job is free. *)

From S2P Require Import Prelude Utils RwBuffer Store Event WorkQueue.
From S2P Require Import Server ServerConn ServerJobs ServerSafe System.

(** ** Runs of programs *)

Section Runs.
Context {S : Type}.

Lemma prun_bind {A B} (m : prog S A) (f : A -> prog S B) s a s1 :
  m s = Ret (a, s1) -> (m ≫= f) s = f a s1.
Proof. intros H. unfold mbind, prog_bind. by rewrite H. Qed.

Lemma prun_inv {A B} (m : prog S A) (f : A -> prog S B) s r :
  (m ≫= f) s = Ret r -> exists a s1, m s = Ret (a, s1) /\ f a s1 = Ret r.
Proof. unfold mbind, prog_bind. destruct (m s) as [[a s1]| | | |]; [eauto|done..]. Qed.

Lemma prun_lift_inv {A} (m : outcome A) (s : S) a s1 :
  plift m s = Ret (a, s1) -> m = Ret a /\ s1 = s.
Proof. unfold plift. destruct m; cbn; [|done..]. by intros [= -> ->]. Qed.

Lemma prun_lift {A} (m : outcome A) a (s : S) : m = Ret a -> plift m s = Ret (a, s).
Proof. by intros ->. Qed.

(** A part of the state that a program leaves alone. *)
Definition preserves {A T} (f : S -> T) (m : prog S A) : Prop :=
  forall s a s', m s = Ret (a, s') -> f s' = f s.

Context {T : Type} (f : S -> T).

Lemma pres_bind {A B} (m : prog S A) (k : A -> prog S B) :
  preserves f m -> (forall a, preserves f (k a)) -> preserves f (m ≫= k).
Proof. intros Hm Hk s b s' (a & s1 & E1 & E2)%prun_inv. rewrite (Hk _ _ _ _ E2). by eapply Hm. Qed.
Lemma pres_ret {A} (a : A) : preserves f (mret a).
Proof. by intros s b s' [= _ <-]. Qed.
Lemma pres_get : preserves f pget.
Proof. by intros s b s' [= _ <-]. Qed.
Lemma pres_mod g : (forall s, f (g s) = f s) -> preserves f (pmod g).
Proof. by intros H s b s' [= _ <-]. Qed.
Lemma pres_lift {A} (m : outcome A) : preserves f (plift m).
Proof. by intros s b s' [_ ->]%prun_lift_inv. Qed.

End Runs.

Create HintDb pres.
#[export] Hint Resolve pres_ret pres_get pres_lift : pres.

(** Go through a program whose every assignment leaves the part alone. *)
Ltac pres_step :=
  match goal with
  | |- forall _, _ => intros ?
  | |- preserves _ (_ ≫= _) => apply pres_bind
  | |- preserves _ (pmod _) => apply pres_mod; intros; reflexivity
  | |- preserves _ (match ?x with _ => _ end) => destruct x
  | |- preserves _ (if ?x then _ else _) => destruct x
  | |- _ => solve [auto with pres]
  end.
Ltac pres := repeat pres_step.
(** The goal says that the run [H] of a program has kept a part of the state. *)
Ltac kept_by H :=
  lazymatch goal with
  | |- ?f _ = ?f _ =>
      revert H; lazymatch goal with |- ?m _ = _ -> _ => apply (fun P : preserves f m => P) end
  end; pres.

(** ** Sending a response *)

Section Send.
Implicit Types (cn : spy_connection_t) (c : connptr) (s : server_t).

(** A response on its way: the header is there, the buffer holds what is left of
    the body, and the counters fit an [int]. *)
Record sendable (h : gmap loc spy_mem_block_t) cn : Prop := {
  sd_header : zlen (rsp_header cn) = RSP_HDR_SIZE;
  sd_len : 0 <= body_len cn < 2 ^ 31 - RSP_HDR_SIZE;
  sd_sent : 0 <= sentlen cn <= RSP_HDR_SIZE + body_len cn;
  sd_buf : buf_wf h (rsp_body cn);
  sd_data : body_len cn - Z.max 0 (sentlen cn - RSP_HDR_SIZE) <= zlen (content h (rsp_body cn))
}.

(** What the client has still to receive. *)
Definition unsent (h : gmap loc spy_mem_block_t) cn : list byte :=
  zdrop (sentlen cn) (rsp_header cn)
    ++ ztake (body_len cn - Z.max 0 (sentlen cn - RSP_HDR_SIZE)) (content h (rsp_body cn)).

(** Only the counter and the read position of the body move. *)
Definition sent_to cn cn' : Prop :=
  exists k b, cn' = with_sentlen k (with_rsp_body b cn).

Lemma sent_to_refl cn : sent_to cn cn.
Proof. exists (sentlen cn), (rsp_body cn). by destruct cn. Qed.
Lemma sent_to_trans cn cn1 cn2 : sent_to cn cn1 -> sent_to cn1 cn2 -> sent_to cn cn2.
Proof. intros (k & b & ->) (k' & b' & ->). by exists k', b'. Qed.

Lemma unsent_len h cn :
  sendable h cn -> zlen (unsent h cn) = RSP_HDR_SIZE + body_len cn - sentlen cn /\
    rsp_remaining cn = zlen (unsent h cn).
Proof.
  intros [H1 H2 H3 _ H5]. change RSP_HDR_SIZE with 6 in *.
  assert (E : zlen (unsent h cn) = 6 + body_len cn - sentlen cn).
  { unfold unsent. change RSP_HDR_SIZE with 6. rewrite zlen_app, zlen_drop, zlen_take, H1. lia. }
  split; [done|]. rewrite E. unfold rsp_remaining. change RSP_HDR_SIZE with 6.
  rewrite u32_small by lia. apply i32_small. lia.
Qed.

Lemma get_conn_run c cn s : conns s !! c = Some cn -> get_conn c s = Ret (cn, s).
Proof. intros H. unfold get_conn, mbind, prog_bind, pget, plift. by rewrite H. Qed.

(** One [write] of the header. *)
Lemma send_header script c cn s out n h :
  h = mp_heap (sv_pool s) -> conns s !! c = Some cn -> sendable h cn -> sentlen cn < RSP_HDR_SIZE ->
  exists cn' d, write_handler_loop (Xfer n :: script) c out s
      = write_handler_loop script c (out ++ d) (set_conns (<[c := cn']> (conns s)) s) /\
    d = ztake n (zdrop (sentlen cn) (rsp_header cn)) /\
    unsent h cn = d ++ unsent h cn' /\ sendable h cn' /\ sent_to cn cn'.
Proof.
  intros -> Hc Sd Hlt. pose proof (unsent_len _ _ Sd) as [El Er]. destruct Sd as [H1 H2 H3 H4 H5].
  set (d := ztake n (zdrop (sentlen cn) (rsp_header cn))). exists (with_sentlen (sentlen cn + zlen d) cn), d.
  change RSP_HDR_SIZE with 6 in *.
  assert (Hd : 0 <= zlen d <= 6 - sentlen cn).
  { unfold d. rewrite zlen_take, zlen_drop, H1. pose proof (zlen_nonneg (rsp_header cn)). lia. }
  assert (Hs : zdrop (sentlen cn) (rsp_header cn) = d ++ zdrop (sentlen cn + zlen d) (rsp_header cn)).
  { rewrite <- zdrop_drop by lia. symmetry. apply ztake_zdrop_len. }
  split_and!.
  - cbn [write_handler_loop]. rewrite (prun_bind _ _ _ _ _ (get_conn_run _ _ _ Hc)). cbv zeta. rewrite Er, El.
    change RSP_HDR_SIZE with 6. destruct (Z.ltb_spec 0 (6 + body_len cn - sentlen cn)); [|lia].
    destruct (Z.ltb_spec (sentlen cn) 6) as [_|]; [|lia].
    fold d. rewrite i32_small by lia. done.
  - done.
  - unfold unsent. change RSP_HDR_SIZE with 6. cbn [sentlen with_sentlen rsp_header body_len rsp_body].
    rewrite Hs at 1. rewrite <- app_assoc. do 3 f_equal. lia.
  - split; cbn [sentlen with_sentlen rsp_header body_len rsp_body]; change RSP_HDR_SIZE with 6; try done; lia.
  - exists (sentlen cn + zlen d), (rsp_body cn). by destruct cn.
Qed.

(** One [write] of a part of the body. *)
Lemma send_body script c cn s out n h :
  h = mp_heap (sv_pool s) -> conns s !! c = Some cn -> sendable h cn ->
  RSP_HDR_SIZE <= sentlen cn < RSP_HDR_SIZE + body_len cn ->
  exists cn' d, write_handler_loop (Xfer n :: script) c out s
      = write_handler_loop script c (out ++ d) (set_conns (<[c := cn']> (conns s)) s) /\
    (0 < n -> d <> []) /\
    unsent h cn = d ++ unsent h cn' /\ sendable h cn' /\ sent_to cn cn'.
Proof.
  intros -> Hc Sd Hge. pose proof (unsent_len _ _ Sd) as [El Er]. destruct Sd as [H1 H2 H3 H4 H5].
  change RSP_HDR_SIZE with 6 in *. set (h := mp_heap (sv_pool s)) in *.
  rewrite Z.max_r in H5 by lia. rewrite (content_len _ _ H4) in H5.
  destruct (next_readable_some h (rsp_body cn) H4 ltac:(lia)) as (rg & body & Hrg & Hq & Hlen & Hread).
  set (rem := 6 + body_len cn - sentlen cn) in *.
  set (len := if rem <? rg_len rg then rem else rg_len rg).
  assert (Hl : 0 < len <= rg_len rg /\ len <= rem) by (unfold len; case_b; lia).
  destruct (Hread len ltac:(lia)) as (Hbr & _).
  set (d := ztake n (ztake len (content h (rsp_body cn)))).
  assert (Hd : 0 <= zlen d <= len /\ (0 < n -> 0 < zlen d)).
  { unfold d. rewrite !zlen_take, (content_len _ _ H4). lia. }
  destruct (Hread (zlen d) ltac:(lia)) as (_ & Hwf & Hcont).
  exists (with_sentlen (sentlen cn + zlen d) (with_rsp_body (advance_read (zlen d) body) cn)), d.
  assert (Hpre : d = ztake (zlen d) (content h (rsp_body cn))).
  { unfold d. rewrite ztake_take. symmetry. apply ztake_len. }
  split_and!.
  - cbn [write_handler_loop]. rewrite (prun_bind _ _ _ _ _ (get_conn_run _ _ _ Hc)). cbv zeta. rewrite Er, El.
    destruct (Z.ltb_spec 0 rem); [|lia]. change RSP_HDR_SIZE with 6.
    destruct (Z.ltb_spec (sentlen cn) 6) as [|_]; [lia|].
    rewrite (prun_bind pget _ s s s eq_refl). fold h.
    rewrite (prun_bind _ _ _ _ _ (prun_lift _ _ s Hrg)). fold len.
    rewrite (prun_bind _ _ _ _ _ (prun_lift _ _ s Hbr)). fold d.
    cbn [sentlen with_rsp_body]. rewrite i32_small by lia.
    unfold put_conn, pmod, mbind, prog_bind. cbn. by rewrite insert_insert_eq.
  - intros Hn ->. rewrite (@zlen_nil byte) in Hd. lia.
  - unfold unsent. change RSP_HDR_SIZE with 6. cbn [sentlen with_sentlen with_rsp_body rsp_header body_len rsp_body].
    rewrite !zdrop_all by lia. cbn. rewrite Hcont, !Z.max_r by lia. rewrite Hpre at 1.
    rewrite <- ztake_add by lia. f_equal. lia.
  - split; cbn [sentlen with_sentlen with_rsp_body rsp_header body_len rsp_body]; change RSP_HDR_SIZE with 6; try done; try lia.
    rewrite Hcont, zlen_drop, (content_len _ _ H4). lia.
  - by exists (sentlen cn + zlen d), (advance_read (zlen d) body).
Qed.

(** Freeing a connection removes it. *)
Lemma free_gone c s u s' : spy_free_client_connection c s = Ret (u, s') -> conns s' !! c = None.
Proof.
  intros H. unfold spy_free_client_connection in H.
  apply prun_inv in H as (? & s1 & _ & H). apply prun_inv in H as (? & s2 & _ & H).
  apply prun_inv in H as (? & s3 & _ & H). apply prun_inv in H as (? & s4 & _ & H).
  injection H as _ <-. cbn. apply lookup_delete_eq.
Qed.

Lemma set_conns_id c cn s : conns s !! c = Some cn -> set_conns (<[c := cn]> (conns s)) s = s.
Proof. intros H. rewrite insert_id by done. by destruct s. Qed.

(** The socket takes nothing more. *)
Lemma send_error script c cn s out err r s' h :
  h = mp_heap (sv_pool s) -> conns s !! c = Some cn -> sendable h cn -> unsent h cn <> [] ->
  write_handler_loop (SysErr err :: script) c out s = Ret (r, s') ->
  r = (out, false) /\
  (conns s' !! c = None \/
   exists cn', s' = set_conns (<[c := cn']> (conns s)) s /\ sent_to cn cn' /\ sendable h cn' /\
     unsent h cn' = unsent h cn).
Proof.
  intros -> Hc Sd Hne H. pose proof (unsent_len _ _ Sd) as [El Er].
  assert (Hp : 0 < zlen (unsent (mp_heap (sv_pool s)) cn)).
  { destruct (unsent _ _); [done|]. rewrite zlen_cons. zlen_pos. lia. }
  assert (Hfree : forall s1, (spy_free_client_connection c ≫= λ _, mret (out, false)) s1 = Ret (r, s') ->
    r = (out, false) /\ conns s' !! c = None).
  { intros s1 (u & s2 & E & E2)%prun_inv. apply free_gone in E. by injection E2 as <- <-. }
  cbn [write_handler_loop] in H. rewrite (prun_bind _ _ _ _ _ (get_conn_run _ _ _ Hc)) in H. cbv zeta in H.
  rewrite Er in H. destruct (Z.ltb_spec 0 (zlen (unsent (mp_heap (sv_pool s)) cn))); [|lia].
  change RSP_HDR_SIZE with 6 in *. destruct (Z.ltb_spec (sentlen cn) 6) as [Hlt|Hge].
  - destruct err; [|apply Hfree in H as [-> ?]; auto..].
    injection H as <- <-. split; [done|]. right. exists cn. rewrite set_conns_id by done.
    split_and!; try done. apply sent_to_refl.
  - destruct Sd as [H1 H2 H3 H4 H5]. change RSP_HDR_SIZE with 6 in *. rewrite Z.max_r in H5 by lia.
    rewrite (content_len _ _ H4) in H5. pose proof H5 as H5'.
    destruct (next_readable_some _ (rsp_body cn) H4 ltac:(lia)) as (rg & body & Hrg & Hq & Hlen & Hread).
    rewrite (prun_bind pget _ s s s eq_refl), (prun_bind _ _ _ _ _ (prun_lift _ _ s Hrg)) in H.
    apply prun_inv in H as (snd & s1 & [_ ->]%prun_lift_inv & H).
    destruct (Hread 0 ltac:(lia)) as (_ & Hwf & Hcont). rewrite advance_read_0 in Hwf, Hcont.
    rewrite zdrop_neg in Hcont by lia.
    destruct err; [|apply Hfree in H as [-> ?]; auto..].
    injection H as <- <-. split; [done|]. right. exists (with_rsp_body body cn). split; [done|]. split_and!.
    + exists (sentlen cn), body. by destruct cn.
    + split; cbn; change RSP_HDR_SIZE with 6; try done; try lia. rewrite Hcont, (content_len _ _ H4). lia.
    + unfold unsent. cbn. by rewrite Hcont.
Qed.

Lemma send_done script c cn s out h :
  h = mp_heap (sv_pool s) -> conns s !! c = Some cn -> sendable h cn -> unsent h cn = [] ->
  write_handler_loop script c out s = Ret ((out, true), s).
Proof.
  intros -> Hc Sd Hne. pose proof (unsent_len _ _ Sd) as [El Er]. rewrite Hne in Er.
  destruct script; cbn [write_handler_loop]; rewrite (prun_bind _ _ _ _ _ (get_conn_run _ _ _ Hc));
    cbv zeta; by rewrite Er.
Qed.

(** One [write] that takes something, whichever part it is of. *)
Lemma send_some script c cn s out n h :
  h = mp_heap (sv_pool s) -> conns s !! c = Some cn -> sendable h cn -> unsent h cn <> [] ->
  exists cn' d, write_handler_loop (Xfer n :: script) c out s
      = write_handler_loop script c (out ++ d) (set_conns (<[c := cn']> (conns s)) s) /\
    (0 < n -> d <> []) /\ unsent h cn = d ++ unsent h cn' /\ sendable h cn' /\ sent_to cn cn'.
Proof.
  intros E Hc Sd Hne. pose proof (unsent_len _ _ Sd) as [El _]. pose proof (sd_header _ _ Sd) as Hh.
  assert (Hp : 0 < zlen (unsent h cn)).
  { destruct (unsent _ _); [done|]. rewrite zlen_cons. zlen_pos. lia. }
  destruct (decide (sentlen cn < RSP_HDR_SIZE)) as [Hlt|Hge].
  - destruct (send_header script c cn s out n h E Hc Sd Hlt) as (cn' & d & H1 & Hd & H).
    exists cn', d. split; [done|]. split; [|done]. intros Hn ->. pose proof (sd_sent _ _ Sd).
    apply (f_equal zlen) in Hd. rewrite (@zlen_nil byte), zlen_take, zlen_drop, Hh in Hd. lia.
  - apply (send_body script c cn s out n h E Hc Sd). lia.
Qed.

(** [r] is what the loop returns: it has sent [d] after [out], and the rest is
    still to be sent, or the connection is gone. *)
Definition sent_exactly (h : gmap loc spy_mem_block_t) c cn s (out : list byte) (r : list byte * bool) s'
    : Prop :=
  exists d rest, r.1 = out ++ d /\ unsent h cn = d ++ rest /\
    if r.2 then rest = [] /\ exists cn', s' = set_conns (<[c := cn']> (conns s)) s /\ sent_to cn cn' /\
        sendable h cn' /\ unsent h cn' = []
    else rest <> [] /\ (conns s' !! c = None \/
      exists cn', s' = set_conns (<[c := cn']> (conns s)) s /\ sent_to cn cn' /\ sendable h cn' /\
        unsent h cn' = rest).

(** The loop's end. *)
Lemma write_loop_over script c s cn out r s' h :
  h = mp_heap (sv_pool s) -> conns s !! c = Some cn -> sendable h cn -> unsent h cn = [] ->
  write_handler_loop script c out s = Ret (r, s') -> sent_exactly h c cn s out r s'.
Proof.
  intros E Hc Sd Hz H. rewrite (send_done _ _ _ _ _ h E Hc Sd Hz) in H. injection H as <- <-.
  exists [], []. split; [by rewrite app_nil_r|]. split; [done|]. split; [done|].
  exists cn. rewrite set_conns_id by done. split_and!; try done. apply sent_to_refl.
Qed.

Lemma write_loop_exact script c s cn out r s' h :
  h = mp_heap (sv_pool s) -> conns s !! c = Some cn -> sendable h cn ->
  write_handler_loop script c out s = Ret (r, s') -> sent_exactly h c cn s out r s'.
Proof.
  revert s cn out. induction script as [|a script IH]; intros s cn out E Hc Sd H;
    (destruct (decide (unsent h cn = [])) as [Hz|Hnz]; [by eapply write_loop_over|]).
  - pose proof (unsent_len _ _ Sd) as [El Er]. cbn [write_handler_loop] in H.
    rewrite (prun_bind _ _ _ _ _ (get_conn_run _ _ _ Hc)) in H. cbv zeta in H. rewrite Er in H.
    destruct (Z.ltb_spec 0 (zlen (unsent h cn))) as [|Hle]; [done|].
    exfalso. apply Hnz, zlen_0_nil. pose proof (zlen_nonneg (unsent h cn)). lia.
  - destruct a as [n|err].
    + destruct (send_some script c cn s out n h E Hc Sd Hnz) as (cn1 & d1 & E1 & _ & U1 & S1 & T1).
      rewrite E1 in H. apply (IH (set_conns (<[c := cn1]> (conns s)) s) cn1) in H; [|done|apply lookup_insert_eq|done].
      destruct H as (d & rest & Hr & Hu & Hres). exists (d1 ++ d), rest. rewrite app_assoc.
      split; [done|]. split; [by rewrite U1, Hu, app_assoc|].
      assert (Hset : forall cn', set_conns (<[c := cn']> (conns (set_conns (<[c := cn1]> (conns s)) s)))
        (set_conns (<[c := cn1]> (conns s)) s) = set_conns (<[c := cn']> (conns s)) s).
      { intros cn'. cbn. by rewrite insert_insert_eq. }
      destruct r as [o []]; cbn in Hres |- *; destruct Hres as [Hz Hres]; (split; [done|]).
      * destruct Hres as (cn' & -> & T & Hs'). exists cn'. rewrite Hset. split; [done|].
        split; [by eapply sent_to_trans|done].
      * destruct Hres as [|(cn' & -> & T & Hs')]; [by left|right]. exists cn'. rewrite Hset. split; [done|].
        split; [by eapply sent_to_trans|done].
    + destruct (send_error _ _ _ _ _ _ _ _ _ E Hc Sd Hnz H) as [-> Hres].
      exists [], (unsent h cn). rewrite app_nil_r. by split_and!.
Qed.

(** A socket that keeps taking bytes gets the whole response. *)
Lemma write_loop_completes script c s cn out h :
  h = mp_heap (sv_pool s) -> conns s !! c = Some cn -> sendable h cn ->
  Forall (fun r => is_xfer r && benign r) script -> zlen (unsent h cn) <= zlen script ->
  exists s', write_handler_loop script c out s = Ret ((out ++ unsent h cn, true), s').
Proof.
  revert s cn out. induction script as [|a script IH]; intros s cn out E Hc Sd HF Hl;
    (destruct (decide (unsent h cn = [])) as [Hz|Hnz];
     [rewrite (send_done _ _ _ _ _ h E Hc Sd Hz), Hz, app_nil_r; by eauto|]).
  - exfalso. apply Hnz, zlen_0_nil. rewrite (@zlen_nil sysret) in Hl. pose proof (zlen_nonneg (unsent h cn)). lia.
  - apply Forall_cons in HF as [Ha HF]. destruct a as [n|]; [|done]. cbn in Ha. apply Is_true_true, Z.ltb_lt in Ha.
    destruct (send_some script c cn s out n h E Hc Sd Hnz) as (cn1 & d & -> & Hd & U & S1 & _).
    rewrite U, app_assoc. apply IH; try done; [apply lookup_insert_eq|].
    rewrite U, zlen_app, zlen_cons in Hl. specialize (Hd Ha). destruct d; [done|]. rewrite zlen_cons in Hl.
    zlen_pos. lia.
Qed.

Lemma pres_remove fd mask : preserves conns (remove_file_event fd mask).
Proof. unfold remove_file_event. pres. Qed.
Lemma pres_create e fd mask p d : preserves conns (create_file_event e fd mask p d).
Proof. unfold create_file_event. pres. Qed.

Lemma reset_buffers_conn c s u s' :
  reset_buffers c s = Ret (u, s') -> exists cn, conns s' !! c = Some (emptied cn).
Proof.
  intros H. unfold reset_buffers in H. apply prun_inv in H as (cn & s1 & _ & H).
  apply prun_inv in H as (s2 & ? & _ & H). unfold spy_rw_buffer_reset in H.
  destruct (reset_loop _ _ _) as [f1 n1]. cbn in H. destruct (reset_loop _ _ _) as [f2 n2].
  apply prun_inv in H as (? & s3 & _ & H). injection H as _ <-. exists cn. cbn. apply lookup_insert_eq.
Qed.

(** A connection that is reset waits for the next request. *)
Lemma reset_listens e c s u s' :
  spy_reset_client_connection e c s = Ret (u, s') ->
  exists cn', conns s' !! c = Some cn' /\ state cn' = RECEIVE_HDR /\ sentlen cn' = 0 /\ body_len cn' = 0 /\
    request cn' = spy_rw_buffer_init /\ rsp_body cn' = spy_rw_buffer_init.
Proof.
  intros H. unfold spy_reset_client_connection in H.
  apply prun_inv in H as (cn0 & s0 & _ & H). apply prun_inv in H as (? & s1 & _ & H).
  apply prun_inv in H as (? & s2 & Hb & H). apply prun_inv in H as (cn & s3 & Hg & H).
  apply prun_inv in H as (? & s4 & Hp & H). apply prun_inv in H as (n & s5 & Hn & H).
  apply prun_lift_inv in H as [_ ->]. apply (pres_create _ _ _ _ _ _ _ _) in Hn. rewrite Hn.
  injection Hp as _ <-. destruct (reset_buffers_conn _ _ _ _ Hb) as [cn1 Hc1].
  rewrite (get_conn_run _ _ _ Hc1) in Hg. injection Hg as <- <-.
  eexists. cbn. rewrite lookup_insert_eq. by split_and!.
Qed.

End Send.

(** ** What replying leaves alone *)

Lemma pres_get_conn {T} (f : server_t -> T) c : preserves f (get_conn c).
Proof. unfold get_conn. pres. Qed.
Lemma pres_get_job {T} (f : server_t -> T) j : preserves f (get_job j).
Proof. unfold get_job. pres. Qed.
Lemma pres_get_chunk {T} (f : server_t -> T) p : preserves f (get_chunk p).
Proof. unfold get_chunk. pres. Qed.
#[local] Hint Resolve pres_get_conn pres_get_job pres_get_chunk : pres.

(** Jobs, chunks and queues. *)
Lemma pres_reset_buffers c : preserves jview (reset_buffers c).
Proof. unfold reset_buffers, put_conn. pres. Qed.
#[local] Hint Resolve pres_reset_buffers : pres.
Lemma pres_free_client c : preserves jview (spy_free_client_connection c).
Proof. unfold spy_free_client_connection, remove_file_event, count. pres. Qed.
#[local] Hint Resolve pres_free_client : pres.
Lemma pres_send_response e c : preserves jview (spy_send_response_if_needed e c).
Proof. unfold spy_send_response_if_needed, create_file_event. pres. Qed.
#[local] Hint Resolve pres_send_response : pres.
Lemma pres_reply_header e c : preserves jview (spy_reply_header e c).
Proof. unfold spy_reply_header, put_conn. pres. Qed.
#[local] Hint Resolve pres_reply_header : pres.
Lemma pres_reply_error e c err : preserves jview (reply_error e c err).
Proof. unfold reply_error, set_reply, put_conn. pres. Qed.
Lemma pres_count f : preserves jview (count f).
Proof. unfold count. pres. Qed.
Lemma pres_put_conn c cn : preserves jview (put_conn c cn).
Proof. unfold put_conn. pres. Qed.
Lemma pres_read_request c n : preserves jview (read_request c n).
Proof. unfold read_request, put_conn. pres. Qed.
#[local] Hint Resolve pres_reply_error pres_count pres_put_conn pres_read_request : pres.

(** ** Pending writes that time out *)

Definition expired (e : env) (jobs : gmap jobptr spy_io_job_t) (j : jobptr) : Prop :=
  exists job, jobs !! j = Some job /\ j_req_time job + DEF_PENDING_WRITE_TIMEOUT <= e_now e.

Lemma timeout_loop_exact e l s u s' :
  pending_writes s = l -> NoDup l -> timeout_loop e l s = Ret (u, s') ->
  exists old, l = old ++ pending_writes s' /\ Forall (expired e (io_jobs s)) old /\
    free_io_jobs s' = rev old ++ free_io_jobs s /\
    (forall j, j ∉ old -> io_jobs s' !! j = io_jobs s !! j) /\
    match pending_writes s' with [] => True | j :: _ => ~ expired e (io_jobs s) j end.
Proof.
  revert s. induction l as [|j l IH]; intros s Hl Hn H; cbn [timeout_loop] in H.
  { injection H as _ <-. exists []. rewrite Hl. by split_and!. }
  apply prun_inv in H as (job & s0 & Hj & H).
  assert (Ej : io_jobs s !! j = Some job /\ s0 = s).
  { unfold get_job, mbind, prog_bind, pget, plift in Hj. destruct (io_jobs s !! j); [|done].
    by injection Hj as -> ->. }
  destruct Ej as [Ej ->]. destruct (Z.ltb_spec (e_now e) (j_req_time job + DEF_PENDING_WRITE_TIMEOUT)) as [Hlt|Hge].
  { injection H as _ <-. exists []. rewrite Hl. split_and!; try done. intros (x & Hx & Hle).
    rewrite Ej in Hx. injection Hx as <-. lia. }
  apply prun_inv in H as (? & s1 & E1 & H). injection E1 as _ <-.
  apply prun_inv in H as (c & s1 & [_ ->]%prun_lift_inv & H).
  apply prun_inv in H as (? & s2 & Hr & H). apply pres_reply_error in Hr.
  apply prun_inv in H as (? & s3 & Hf & H). apply prun_inv in Hf as (jb & s2' & Hg & Hf).
  apply (pres_get_job (fun s => s)) in Hg. subst s2'. injection Hf as _ <-.
  apply NoDup_cons in Hn as [Hnj Hn].
  apply IH in H as (old & -> & HF & Hfree & Hkeep & Hhd); cbn; [|by injection Hr as _ _ _ _ _ -> _ _|done].
  injection Hr as _ _ Rj Rf _ Rp _ _. cbn in *. rewrite Rj, Rf in *.
  assert (Hne : forall k, k ∈ old ++ pending_writes s' -> k <> j) by (intros k Hk ->; contradiction).
  exists (j :: old). split; [done|]. split_and!.
  - constructor; [by exists job|]. rewrite Forall_forall in *. intros k Hk. destruct (HF k Hk) as (y & Hy & Ht).
    rewrite lookup_insert_ne in Hy by (symmetry; apply Hne, elem_of_app; by left). by exists y.
  - rewrite Hfree. cbn. by rewrite <- app_assoc.
  - intros k Hk. apply not_elem_of_cons in Hk as [Hk1 Hk2]. rewrite Hkeep by done. by rewrite lookup_insert_ne.
  - destruct (pending_writes s') as [|k tl] eqn:Ep; [done|]. intros (y & Hy & Ht). apply Hhd. exists y.
    split; [|done]. rewrite lookup_insert_ne; [done|]. symmetry. apply Hne, elem_of_app. right. by left.
Qed.

(** The periodic work on the pending list. *)
Lemma cron_exact e s r s' :
  NoDup (pending_writes s) -> pending_writes_size s = zlen (pending_writes s) ->
  spy_server_cron e s = Ret (r, s') ->
  r = 1000 /\
  exists old, pending_writes s = old ++ pending_writes s' /\ Forall (expired e (io_jobs s)) old /\
    free_io_jobs s' = rev old ++ free_io_jobs s /\
    (forall j, j ∉ old -> io_jobs s' !! j = io_jobs s !! j) /\
    match pending_writes s' with [] => True | j :: _ => ~ expired e (io_jobs s) j end.
Proof.
  intros Hn Hz H. unfold spy_server_cron in H. apply prun_inv in H as (? & s1 & H1 & H).
  assert (J : jview s1 = jview s) by (unfold spy_report_server_infos in H1; by kept_by H1).
  apply prun_inv in H as (? & s2 & H2 & H). injection H as <- <-. split; [done|].
  unfold spy_remove_timeout_pending_writes in H2. apply prun_inv in H2 as (s3 & s4 & E & H2).
  injection E as <- <-. injection J as _ _ Rj Rf _ Rp Rz _. rewrite Rp, Rz in H2.
  destruct (Z.eqb_spec (pending_writes_size s) 0) as [E|E].
  - injection H2 as _ <-. assert (Hp : pending_writes s = []) by (apply zlen_0_nil; lia).
    exists []. rewrite Rp, Rf, Hp. split_and!; try done. intros j _. by rewrite Rj.
  - apply prun_inv in H2 as (? & s3 & [_ ->]%prun_lift_inv & H2).
    destruct (timeout_loop_exact e _ _ _ _ Rp Hn H2) as (old & H3 & H4 & H5 & H6 & H7).
    rewrite Rj, Rf in *. by exists old.
Qed.

(** ** The index after a write *)

Definition index_of (s : server_t) : gmap Z (list spy_file_index_entry_t) := file_index (sv_store s).

Lemma jview_index s s' : jview s' = jview s -> index_of s' = index_of s /\ sv_store s' = sv_store s.
Proof. intros H. unfold index_of. by injection H as -> _ _ _ _ _ _ _. Qed.

Lemma pres_index_jview {A} (m : M A) : preserves jview m -> preserves index_of m.
Proof. intros H s a s' E. apply jview_index. by eapply H. Qed.

Lemma pres_queue_work e w : preserves index_of (queue_work e w).
Proof. unfold queue_work. pres. Qed.
Lemma pres_put_job j job : preserves index_of (put_job j job).
Proof. unfold put_job. pres. Qed.
Lemma pres_free_io_job j : preserves index_of (spy_free_io_job j).
Proof. unfold spy_free_io_job. pres. Qed.
#[local] Hint Resolve pres_queue_work pres_put_job pres_free_io_job : pres.
#[local] Hint Extern 1 (preserves index_of _) => apply pres_index_jview : pres.
Lemma pres_reuse_chunk e p chunk : preserves index_of (reuse_chunk e p chunk).
Proof. unfold reuse_chunk. pres. Qed.
#[local] Hint Resolve pres_reuse_chunk : pres.

(** The entry a completed write adds. *)
Definition written_entry (chunk : spy_chunk_t) (job : spy_io_job_t) (offset : Z) : spy_file_index_entry_t :=
  SpyFileIndexEntry (chunk_id chunk) (f_fid (j_file job)) offset
    (u32 (f_size (j_file job) + FILE_META_SIZE)).

Lemma lookup_after_add fid x st :
  spy_lookup_file_index fid (with_file_index
    (<[ie_fid x mod FILE_HASH_SIZE := x :: cell (file_index st) (ie_fid x mod FILE_HASH_SIZE)]>
       (file_index st)) st)
  = if ie_fid x =? fid then Some x else spy_lookup_file_index fid st.
Proof.
  unfold spy_lookup_file_index. cbn [file_index with_file_index].
  destruct (Z.eqb_spec (ie_fid x) fid) as [<-|Hne].
  - rewrite cell_insert_eq. cbn. by rewrite Z.eqb_refl.
  - destruct (decide (ie_fid x mod FILE_HASH_SIZE = fid mod FILE_HASH_SIZE)) as [E|E].
    + rewrite E, cell_insert_eq. cbn. by destruct (Z.eqb_spec (ie_fid x) fid).
    + by rewrite cell_insert_ne.
Qed.

Lemma lookup_index fid s s' :
  index_of s' = index_of s -> spy_lookup_file_index fid (sv_store s') = spy_lookup_file_index fid (sv_store s).
Proof. unfold index_of, spy_lookup_file_index. by intros ->. Qed.

Lemma get_job_inv j s job s1 : get_job j s = Ret (job, s1) -> io_jobs s !! j = Some job /\ s1 = s.
Proof.
  unfold get_job, mbind, prog_bind, pget, plift. destruct (io_jobs s !! j); [|done]. by intros [= -> ->].
Qed.
Lemma get_chunk_inv p s ch s1 :
  get_chunk p s = Ret (ch, s1) -> chunk_heap (sv_store s) !! p = Some ch /\ s1 = s.
Proof.
  unfold get_chunk, mbind, prog_bind, pget, plift. destruct (chunk_heap (sv_store s) !! p); [|done].
  by intros [= -> ->].
Qed.

(** What [spy_write_file_done] has done to the index, with the branch it took. *)
Lemma write_done_index e j s u s' job p chunk o :
  io_jobs s !! j = Some job -> j_chunk job = Some p -> chunk_heap (sv_store s) !! p = Some chunk ->
  j_union job = UOffset o -> spy_write_file_done e j s = Ret (u, s') ->
  let fresh_fid := is_none (spy_lookup_file_index (f_fid (j_file job)) (sv_store s)) in
  if fresh_fid && (j_retcode job =? 0)
  then exists st, file_index st = index_of s /\ index_of s' = file_index (with_file_index
    (<[f_fid (j_file job) mod FILE_HASH_SIZE := written_entry chunk job o
         :: cell (file_index st) (f_fid (j_file job) mod FILE_HASH_SIZE)]> (file_index st)) st)
  else index_of s' = index_of s.
Proof.
  intros Hj Hp Hch Ho H fresh_fid. unfold spy_write_file_done in H.
  apply prun_inv in H as (x & s1 & [Hx ->]%get_job_inv & H). replace x with job in * by congruence. clear x Hx.
  apply prun_inv in H as (c & s1 & [Hc ->]%prun_lift_inv & H).
  apply prun_inv in H as (q & s1 & [Hq ->]%prun_lift_inv & H). rewrite Hp in Hq. injection Hq as <-.
  apply prun_inv in H as (cn & s1 & Hg & H). apply (pres_get_conn (fun s => s)) in Hg. subst s1.
  apply prun_inv in H as (? & s1 & H1 & H). apply pres_put_conn in H1.
  apply prun_inv in H as (? & s2 & H2 & H). apply pres_count in H2. rewrite H1 in H2. clear s1 H1.
  apply prun_inv in H as (s3 & s4 & E & H). injection E as <- <-. apply jview_index in H2 as [Ei Est].
  rewrite Est in H. unfold fresh_fid. clear fresh_fid.
  destruct (spy_lookup_file_index (f_fid (j_file job)) (sv_store s)) as [y|] eqn:El; cbn [is_none andb].
  { rewrite <- Ei. by kept_by H. }
  apply prun_inv in H as (ch & s3 & [Hch' ->]%get_chunk_inv & H). rewrite Est, Hch in Hch'. injection Hch' as <-.
  apply prun_inv in H as (? & s3 & H3 & H). apply pres_reuse_chunk in H3. rewrite Ei in H3.
  destruct (Z.eqb_spec (j_retcode job) 0) as [Hr|Hr]; cbn [negb] in H.
  2: { rewrite <- H3. by kept_by H. }
  apply prun_inv in H as (? & s5 & H5 & H). apply (pres_index_jview _ (pres_count _)) in H5. rewrite H3 in H5.
  rewrite Ho in H. apply prun_inv in H as (o' & s6 & [Ho' ->]%prun_lift_inv & H). injection Ho' as <-.
  apply prun_inv in H as (? & s6 & H6 & H). injection H6 as _ <-.
  exists (sv_store s5). split; [exact H5|].
  match type of H with _ ?st = _ => transitivity (index_of st); [|done] end.
  by kept_by H.
Qed.

(** ** A write request that finds no free job *)

(** The error branches of [spy_handle_write] reply and leave jobs and chunks
    alone. *)
Lemma write_error_keeps e c err : preserves jview (_ ← count stat_write_error; reply_error e c err).
Proof. pres. Qed.

Lemma find_chunk_in h need l p : find_chunk h need l = Ret (Some p) -> p ∈ l.
Proof.
  induction l as [|q l IH]; cbn; [done|]. destruct (h !! q); cbn; [|done].
  case_b; [intros [= <-]; by left|]. intros Hx. right. by apply IH.
Qed.

Lemma handle_write_no_job e c s u s' :
  free_io_jobs s = [] -> spy_handle_write e c s = Ret (u, s') ->
  jview s' = jview s \/
  exists p, p ∈ chunks (sv_store s) /\ jview s' = jview (set_chunk_lists
    (List.filter (fun q => negb (Nat.eqb q p)) (chunks (sv_store s))) (p :: writing_chunks s) s).
Proof.
  intros Hf H. unfold spy_handle_write in H.
  apply prun_inv in H as (cn & s1 & Hg & H). apply (pres_get_conn (fun s => s)) in Hg. subst s1.
  apply prun_inv in H as (? & s1 & [_ ->]%prun_lift_inv & H).
  apply prun_inv in H as (hdr & s1 & H1 & H). apply pres_read_request in H1.
  apply prun_inv in H as (? & s2 & [_ ->]%prun_lift_inv & H).
  apply prun_inv in H as (sid & s2 & [_ ->]%prun_lift_inv & H).
  apply prun_inv in H as (fid & s2 & [_ ->]%prun_lift_inv & H).
  destruct (negb _); [left; rewrite <- H1; by kept_by H|].
  apply prun_inv in H as (s2 & s3 & E & H). injection E as <- <-.
  destruct (spy_lookup_file_index _ _); [left; rewrite <- H1; by kept_by H|].
  apply prun_inv in H as (o & s2 & [Ho ->]%prun_lift_inv & H).
  destruct (is_none o && _); [left; rewrite <- H1; by kept_by H|].
  assert (Hnone : forall s0 k, free_io_jobs s0 = [] ->
    (spy_gen_io_job ≫= fun io_job => match io_job with None =>
       (_ ← count stat_write_error; reply_error e c IO_JOB_UNAVAILABLE) | Some j => k j end) s0 = Ret (u, s') ->
    jview s' = jview s0).
  { intros s0 k H0 (a & s3 & Ha & Hk)%prun_inv.
    assert (E : a = None /\ s3 = s0) by (unfold spy_gen_io_job, mbind, prog_bind, pget in Ha; cbn in Ha;
      rewrite H0 in Ha; by injection Ha as <- <-). destruct E as [-> ->]. by kept_by Hk. }
  destruct o as [p|]; apply prun_inv in H as (? & s2 & E & H); injection E as _ <-.
  - right. injection H1 as V1 V2 V3 V4 V5 V6 V7 V8. apply Hnone in H; [|cbn; congruence].
    rewrite V1 in Ho. exists p. split; [by eapply find_chunk_in|]. rewrite H. unfold jview. cbn. congruence.
  - left. apply Hnone in H; [|injection H1 as V1 V2 V3 V4 V5 V6 V7 V8; congruence]. by rewrite H.
Qed.

(** ** A session

    A client writes the file 42 and reads it back, over one connection and
    through every part of the server. *)

Section Session.
Import SystemProps.

(** A worker takes the queued work, runs it with whole transfers and posts it;
    the main thread completes it. *)
Definition work_round (ds : disks_t) (s : server_t) : outcome (disks_t * server_t) :=
  match worker_take (sv_wq s) with
  | None => Wait
  | Some (w, q) =>
      '(ds, s) ← run_work (replicate 9 (Xfer 1000000)) 5 0 ds w (set_wq q s);
      let s := set_wq (worker_notify (worker_post w (sv_wq s))) s in
      '(_, s) ← process_fired sv_el (call ex_accept) 4 AE_READABLE s;
      Ret (ds, s)
  end.

(** The request [req] of the client on descriptor 5, and what it receives. *)
Definition exchange (req : list byte) (ds : disks_t) (s : server_t) : outcome (list byte * disks_t * server_t) :=
  '(_, s) ← process_fired sv_el (call (Answers ex_env (Got req) [] (-1))) 5 AE_READABLE s;
  '(ds, s) ← work_round ds s;
  '(out, s) ← spy_write_handler ex_env (replicate 9 (Xfer 4)) 0 s;
  Ret (out, ds, s).

Definition ex_content : list byte := map byte_of_Z [7; 8; 9].
Definition ex_write_request : list byte :=
  spy_mach_write_to_1 OPCODE_WRITE ++ spy_mach_write_to_4 13 ++ spy_mach_write_to_2 1
    ++ spy_mach_write_to_8 42 ++ ex_content.
Definition ex_read_request : list byte :=
  spy_mach_write_to_1 OPCODE_READ ++ spy_mach_write_to_4 10 ++ spy_mach_write_to_2 1
    ++ spy_mach_write_to_8 42.

Definition ex_session : outcome (list byte * list byte) :=
  s ← ex_open;
  '(out1, ds, s) ← exchange ex_write_request ex_disks s;
  '(out2, ds, s) ← exchange ex_read_request ds s;
  Ret (out1, out2).

Example write_read_session :
  ex_session
  = Ret (map byte_of_Z [OPCODE_WRITE; SUCCESS; 0; 0; 0; 0],
         map byte_of_Z [OPCODE_READ; SUCCESS; 0; 0; 0; 3] ++ ex_content).
Proof. vm_compute. reflexivity. Qed.

End Session.

(** ** Properties *)

Module ServerProps.

(** C13: a client receives exactly its response.  Each activation of the write
    handler hands the socket the next bytes of what is still to be sent, header
    first and then the body, however the kernel cuts it; afterwards the
    connection has been reset for the next request (and everything was sent), or
    has been closed, or holds exactly the bytes that are left.  A socket that
    keeps taking bytes gets the whole response. *)
Theorem response_sent_exactly e script c s cn :
  let h := mp_heap (sv_pool s) in
  conns s !! c = Some cn -> sendable h cn ->
  (forall out s', spy_write_handler e script c s = Ret (out, s') ->
     exists rest, unsent h cn = out ++ rest /\
       ((rest = [] /\ exists cn', conns s' !! c = Some cn' /\ state cn' = RECEIVE_HDR /\
           sentlen cn' = 0 /\ body_len cn' = 0) \/
        (rest <> [] /\ conns s' !! c = None) \/
        (rest <> [] /\ exists cn', conns s' !! c = Some cn' /\ mp_heap (sv_pool s') = h /\
           sendable h cn' /\ unsent h cn' = rest))) /\
  (Forall (fun r => is_xfer r && benign r) script -> zlen (unsent h cn) <= zlen script ->
     exists s', write_handler_loop script c [] s = Ret ((unsent h cn, true), s')).
Proof.
  intros h Hc Sd. split; [|by apply write_loop_completes]. intros out s' H. unfold spy_write_handler in H.
  apply prun_inv in H as ([out1 ended] & s1 & Hl & H).
  destruct (write_loop_exact _ _ _ _ _ _ _ h eq_refl Hc Sd Hl) as (d & rest & Ho & Hu & Hres).
  cbn in Ho, Hres. destruct ended.
  - destruct Hres as [Hz (cn1 & -> & T & Sd1 & U1)]. exists rest. subst rest.
    rewrite (prun_bind _ _ _ _ _ (get_conn_run _ cn1 _ (lookup_insert_eq _ _ _))) in H.
    pose proof (unsent_len _ _ Sd1) as [El _]. rewrite U1, (@zlen_nil byte) in El.
    replace (RSP_HDR_SIZE + body_len cn1) with (sentlen cn1) in H by lia. rewrite Z.eqb_refl in H.
    apply prun_inv in H as (? & s2 & Hr & H). injection H as <- <-. subst out1. split; [done|]. left.
    split; [done|]. destruct (reset_listens _ _ _ _ _ Hr) as (cn' & ? & ? & ? & ? & _). by exists cn'.
  - injection H as <- <-. subst out1. exists rest. split; [done|]. right.
    destruct Hres as [Hne [?|(cn1 & -> & T & Sd1 & U1)]]; [by left|right]. split; [done|].
    exists cn1. split; [apply lookup_insert_eq|done].
Qed.

(** A small server with one chunk, one memory block and one connection. *)
Definition ex_block : list byte := spy_mach_write_to_2 1 ++ spy_mach_write_to_8 42 ++ replicate 6 b00.
Definition ex_mem : mem_pool := MemPool {[0%nat := SpyMemBlock 16 ex_block]} [] 1 1 1 false.
(** The buffer holds the first [n] bytes of the block. *)
Definition ex_buf (n : Z) : spy_rw_buffer_t := SpyRwBuffer [0%nat] 0 n 16 (Some 0%nat) (Some 0%nat) 0 0.
Definition ex_el : aeEventLoop proc connptr :=
  AeEventLoop (-1) 8 0 0 (replicate 8 (AeFileEvent AE_NONE None None None)) [] false ∅.
Definition ex_wq : spy_work_queue_t work := SpyWorkQueue [] [] 10 0 0 0.
Definition ex_server (cn : spy_connection_t) (jobs : gmap jobptr spy_io_job_t) (pend : list jobptr) (n : Z)
    : server_t :=
  ServerT SystemProps.ex_store [] ex_mem ex_el {[0%nat := cn]} jobs [] ∅ pend n ex_wq zero_stat zero_report.
Definition ex_now : env := Env 1 0 100 (fun _ => true) [] 0 true true.

Lemma ex_buf_wf n : 0 <= n <= 16 -> buf_wf (mp_heap ex_mem) (ex_buf n).
Proof.
  intros Hn. split; cbn; try done.
  - by apply NoDup_singleton.
  - repeat constructor; by eexists.
  - lia.
  - exists [], []. by vm_compute.
  - exists [], []. split; [done|]. split; [done|].
    change (zlen (blk_bytes _ _)) with 16. lia.
Qed.

Lemma response_sent_exactly_witness :
  let cn := SpyConnection 5 spy_rw_buffer_init (ex_buf 3) (replicate 6 b00) 0 1 0 3 SEND_RSP in
  let s := ex_server cn ∅ [] 0 in
  unsent (mp_heap ex_mem) cn = replicate 6 b00 ++ ztake 3 ex_block /\
  exists s', write_handler_loop (replicate 9 (Xfer 2)) 0 [] s = Ret ((unsent (mp_heap ex_mem) cn, true), s').
Proof.
  intros cn s. split; [reflexivity|].
  apply (response_sent_exactly ex_now (replicate 9 (Xfer 2)) 0 s cn).
  - reflexivity.
  - split; [reflexivity|cbn; change RSP_HDR_SIZE with 6; lia..|apply ex_buf_wf; lia|].
    vm_compute. discriminate.
  - repeat constructor.
  - vm_compute. discriminate.
Defined.

(** C18: the completion of a write makes exactly its file visible.  After
    [spy_write_file_done] the index finds the file of the job, with the chunk, the
    offset and the size that were written, when the job succeeded and the file id
    was new; every other lookup, and every lookup after a failed or duplicate
    write, gives what it gave before. *)
Theorem written_file_indexed e j s u s' job p chunk o :
  io_jobs s !! j = Some job -> j_chunk job = Some p -> chunk_heap (sv_store s) !! p = Some chunk ->
  j_union job = UOffset o -> spy_write_file_done e j s = Ret (u, s') ->
  forall fid, spy_lookup_file_index fid (sv_store s')
    = if (f_fid (j_file job) =? fid) && is_none (spy_lookup_file_index fid (sv_store s))
         && (j_retcode job =? 0)
      then Some (written_entry chunk job o)
      else spy_lookup_file_index fid (sv_store s).
Proof.
  intros Hj Hp Hch Ho H fid. pose proof (write_done_index e j s u s' job p chunk o Hj Hp Hch Ho H) as R.
  cbv zeta in R. destruct (is_none _ && _) eqn:Ec.
  - destruct R as (st & Hst & R). apply andb_true_iff in Ec as [En Er]. rewrite Er, andb_true_r.
    transitivity (spy_lookup_file_index fid (with_file_index (index_of s') st));
      [by unfold spy_lookup_file_index|].
    rewrite R. etransitivity; [exact (lookup_after_add fid (written_entry chunk job o) st)|].
    change (ie_fid (written_entry chunk job o)) with (f_fid (j_file job)).
    assert (E : spy_lookup_file_index fid st = spy_lookup_file_index fid (sv_store s))
      by (unfold spy_lookup_file_index; rewrite Hst; done).
    rewrite E. destruct (Z.eqb_spec (f_fid (j_file job)) fid) as [<-|]; [|done]. by rewrite En.
  - rewrite (lookup_index fid s s' R). destruct (Z.eqb_spec (f_fid (j_file job)) fid) as [<-|]; [|done].
    cbn [andb]. by rewrite Ec.
Qed.

(** A finished write of file 42 on chunk 0. *)
Definition ex_written : spy_io_job_t :=
  SpyIoJob 0 (UOffset 55) (Some 0%nat) (SpyFile 42 1 3 0 0) (Some 0%nat) (Some FnWrite) 0.
Definition ex_client : spy_connection_t :=
  SpyConnection 5 (ex_buf 13) spy_rw_buffer_init (replicate 6 b00) 0 OPCODE_WRITE 0 13 PROCESS_REQUEST.

Lemma written_file_indexed_witness :
  exists s', spy_write_file_done ex_now 0 (ex_server ex_client {[0%nat := ex_written]} [] 0) = Ret (tt, s') /\
    spy_lookup_file_index 42 (sv_store s') = Some (SpyFileIndexEntry 1 42 55 33).
Proof.
  destruct (spy_write_file_done ex_now 0 (ex_server ex_client {[0%nat := ex_written]} [] 0))
    as [[[] s']| | | |] eqn:E; [|vm_compute in E; discriminate E..].
  exists s'. split; [reflexivity|].
  rewrite (written_file_indexed ex_now 0 (ex_server ex_client {[0%nat := ex_written]} [] 0) tt s' ex_written
    0 SystemProps.ex_chunk 55); [vm_compute; reflexivity|..|exact E]; vm_compute; reflexivity.
Defined.

(** C31: the periodic timer gives up exactly the pending writes that have waited
    their five seconds.  When [spy_server_cron] returns, a prefix of the pending
    list is gone, every job of it had expired and is back in the free cache, the
    first job that stays has not expired (none of the later ones is looked at:
    the list is in the order of arrival), and the jobs that stay are untouched. *)
Theorem timer_drops_expired e s r s' :
  NoDup (pending_writes s) -> pending_writes_size s = zlen (pending_writes s) ->
  spy_server_cron e s = Ret (r, s') ->
  r = 1000 /\
  exists old, pending_writes s = old ++ pending_writes s' /\ Forall (expired e (io_jobs s)) old /\
    free_io_jobs s' = rev old ++ free_io_jobs s /\
    (forall j, j ∉ old -> io_jobs s' !! j = io_jobs s !! j) /\
    match pending_writes s' with [] => True | j :: _ => ~ expired e (io_jobs s) j end.
Proof. apply cron_exact. Qed.

(** Two pending writes, one of them 10 seconds old. *)
Definition ex_waiting (t : Z) : spy_io_job_t :=
  SpyIoJob 0 (UOffset 0) (Some 0%nat) (SpyFile 42 1 3 0 0) None (Some FnWrite) t.

Lemma timer_drops_expired_witness :
  let s := ex_server ex_client {[0%nat := ex_waiting 90; 1%nat := ex_waiting 98]} [0%nat; 1%nat] 2 in
  exists r s', spy_server_cron ex_now s = Ret (r, s') /\ r = 1000 /\
    exists old, pending_writes s = old ++ pending_writes s' /\ Forall (expired ex_now (io_jobs s)) old.
Proof.
  intros s. destruct (spy_server_cron ex_now s) as [[r s']| | | |] eqn:E; [|vm_compute in E; discriminate E..].
  exists r, s'. split; [reflexivity|].
  destruct (timer_drops_expired ex_now s r s') as (H1 & old & H2 & H3 & _).
  - apply (bool_decide_unpack _). exact I.
  - reflexivity.
  - exact E.
  - split; [exact H1|]. exists old. split; [exact H2|exact H3].
Defined.

(** C37: a write request that finds a chunk but no free io job loses the chunk.
    [spy_handle_write] has moved the chunk to the list of chunks being written
    before it asks for a job; without one it only replies, so the chunk stays on
    that list while no job, pending write or queued work refers to it, and no
    completion will bring it back. *)
Theorem no_job_strands_chunk e c s u s' p :
  free_io_jobs s = [] -> spy_handle_write e c s = Ret (u, s') ->
  p ∈ chunks (sv_store s) -> p ∉ chunks (sv_store s') ->
  p ∈ writing_chunks s' /\ io_jobs s' = io_jobs s /\ pending_writes s' = pending_writes s /\
  sv_wq s' = sv_wq s /\ dump_jobs s' = dump_jobs s.
Proof.
  intros Hf H Hp Hn. destruct (handle_write_no_job e c s u s' Hf H) as [J|(q & Hq & J)].
  - injection J as V1 _ _ _ _ _ _ _. by rewrite V1 in Hn.
  - injection J as V1 V2 V3 V4 V5 V6 V7 V8. split_and!; try done. rewrite V2.
    destruct (decide (p = q)) as [->|Hne]; [by left|]. exfalso. apply Hn. rewrite V1. cbn.
    apply list_elem_of_In, filter_In. split; [by apply list_elem_of_In|].
    apply negb_true_iff. by apply Nat.eqb_neq.
Qed.

Lemma no_job_strands_chunk_witness :
  exists s', spy_handle_write ex_now 0 (ex_server ex_client ∅ [] 0) = Ret (tt, s') /\
    chunks (sv_store s') = [] /\ 0%nat ∈ writing_chunks s' /\ io_jobs s' = ∅.
Proof.
  destruct (spy_handle_write ex_now 0 (ex_server ex_client ∅ [] 0)) as [[[] s']| | | |] eqn:E;
    [|vm_compute in E; discriminate E..].
  exists s'. split; [reflexivity|].
  assert (Hc : chunks (sv_store s') = []) by (vm_compute in E; injection E as <-; reflexivity).
  split; [exact Hc|].
  destruct (no_job_strands_chunk ex_now 0 (ex_server ex_client ∅ [] 0) tt s' 0 eq_refl E) as (H1 & H2 & _).
  - left.
  - rewrite Hc. apply not_elem_of_nil.
  - split; [exact H1|exact H2].
Defined.

End ServerProps.
