(* ===== verification/Startup.v ===== *)
(** * Startup: from the data directory to a running server

    The store that [spy_create_or_recover_files] of [chunkserver/spy_store.c]
    leaves, for any directory and any answers of the kernel, is one the server
    can run on: what [System] asks of its start is established, not assumed. *)

From S2P Require Import Prelude Utils Adler32 Store StoreRecover Event WorkQueue Server.
From S2P Require Import ServerConn ServerJobs ServerSafe System.

Import SystemProps.

Section Startup.
Implicit Types (s st : store_t) (P : Z -> Prop) (pr : spy_file_parser_t).

(** The invariant of start-up.  While a chunk file is parsed its files are
    indexed before the chunk is: [P] are the ids this concerns. *)
Record store_inv P s : Prop := {
  st_nodup : NoDup (chunks s);
  st_dom : forall p, is_Some (chunk_heap s !! p) <-> p ∈ chunks s;
  st_count : n_chunks s = zlen (chunks s);
  st_index : forall i p, p ∈ cell (chunk_index s) i -> is_Some (chunk_heap s !! p);
  st_self : forall p ch, chunk_heap s !! p = Some ch -> hashed s (chunk_id ch);
  st_files : forall i x, x ∈ cell (file_index s) i ->
    (hashed s (ie_chunk_id x) \/ P (ie_chunk_id x)) /\ 0 <= ie_size x < 2 ^ 32
}.

Definition none (id : Z) : Prop := False.

Lemma cell_empty {A} i : cell (∅ : gmap Z (list A)) i = [].
Proof. unfold cell. by rewrite lookup_empty. Qed.

Lemma empty_store_inv : store_inv none empty_store.
Proof.
  split; cbn.
  - constructor.
  - intros p. rewrite lookup_empty. split; [by intros [? ?]|by intros ?%not_elem_of_nil].
  - done.
  - intros i p. rewrite cell_empty. by intros ?%not_elem_of_nil.
  - intros p ch. by rewrite lookup_empty.
  - intros i x. rewrite cell_empty. by intros ?%not_elem_of_nil.
Qed.

Lemma store_inv_max P m s : store_inv P s -> store_inv P (with_max_chunk_id m s).
Proof. by intros []. Qed.

Lemma store_inv_weaken P (Q : Z -> Prop) s : (forall id, P id -> Q id) -> store_inv P s -> store_inv Q s.
Proof.
  intros H [I1 I2 I3 I4 I5 I6]. split; try done. intros i x Hx. destruct (I6 i x Hx) as [[Hh|Hp] Hs]; auto.
Qed.

(** ** Adding a chunk *)

Lemma add_chunk_inv P s c chunk s' :
  store_inv P s -> (forall id, P id -> id = chunk_id chunk) -> c ∉ dom (chunk_heap s) ->
  zlen (chunks s) < 2 ^ 31 - 1 ->
  spy_add_chunk c (StoreT (<[c := chunk]> (chunk_heap s)) (chunks s) (chunk_index s) (n_chunks s)
    (max_chunk_id s) (file_index s)) = Ret s' ->
  store_inv none s' /\ chunks s' = c :: chunks s /\ chunk_heap s' = <[c := chunk]> (chunk_heap s) /\
  n_chunks s' = n_chunks s + 1 /\ max_chunk_id s' = max_chunk_id s /\
  (forall id, hashed s id \/ id = chunk_id chunk -> hashed s' id).
Proof.
  intros [I1 I2 I3 I4 I5 I6] HP Hc Hn H. unfold spy_add_chunk in H. cbn in H.
  rewrite lookup_insert_eq in H. cbn in H. inv_ret. cbn. pose proof (zlen_nonneg (chunks s)).
  assert (Hf : chunk_heap s !! c = None) by (by apply not_elem_of_dom).
  assert (Hcs : c ∉ chunks s) by (intros Hin; apply I2 in Hin as [? ?]; congruence).
  set (hd := chunk_id chunk mod CHUNK_HASH_SIZE) in *.
  set (s' := StoreT _ _ _ _ _ _).
  assert (Hcell : forall i p, p ∈ cell (chunk_index s') i <-> p ∈ cell (chunk_index s) i \/ (i = hd /\ p = c)).
  { intros i p. cbn. destruct (decide (hd = i)) as [<-|Hne].
    - rewrite cell_insert_eq, elem_of_cons. split; [intros [->|?]; auto|intros [?|[_ ->]]; auto].
    - rewrite cell_insert_ne by done. split; [auto|]. by intros [?|[? _]]. }
  assert (Hold : forall p, is_Some (chunk_heap s !! p) -> chunk_heap s' !! p = chunk_heap s !! p).
  { intros p Hp. cbn. rewrite lookup_insert_ne; [done|]. intros <-. rewrite Hf in Hp. by destruct Hp. }
  assert (Hh : forall id, hashed s id \/ id = chunk_id chunk -> hashed s' id).
  { intros id [(p & x & Hp & Hx & Hid)| ->].
    - exists p, x. split; [apply Hcell; by left|]. rewrite Hold; [done|by exists x].
    - exists c, chunk. split; [apply Hcell; by right|]. cbn. by rewrite lookup_insert_eq. }
  split; [|split_and!; try done; cbn; rewrite i32_small; lia].
  split.
  - cbn. by constructor.
  - intros p. cbn. rewrite elem_of_cons, <- I2. destruct (decide (c = p)) as [<-|Hne].
    + rewrite lookup_insert_eq. split; [auto|by eauto].
    + rewrite lookup_insert_ne by done. split; [auto|]. by intros [->|].
  - cbn. rewrite zlen_cons, i32_small; lia.
  - intros i p [Hp|[_ ->]]%Hcell; [|cbn; rewrite lookup_insert_eq; by eauto].
    pose proof (I4 i p Hp) as Hs. by rewrite Hold.
  - intros p ch Hp. apply Hh. cbn in Hp. destruct (decide (c = p)) as [<-|Hne].
    + rewrite lookup_insert_eq in Hp. injection Hp as <-. by right.
    + rewrite lookup_insert_ne in Hp by done. left. by eapply I5.
  - intros i x Hx. cbn in Hx. destruct (I6 i x Hx) as [[Hi|Hi] Hs]; (split; [left|done]); apply Hh; auto.
Qed.

(** ** Parsing a chunk file *)

(** Everything but the file index. *)
Definition same_chunks s s' : Prop :=
  chunk_heap s' = chunk_heap s /\ chunks s' = chunks s /\ chunk_index s' = chunk_index s /\
  n_chunks s' = n_chunks s /\ max_chunk_id s' = max_chunk_id s.

Lemma same_chunks_trans s s1 s2 : same_chunks s s1 -> same_chunks s1 s2 -> same_chunks s s2.
Proof. intros (H1 & H2 & H3 & H4 & H5) (K1 & K2 & K3 & K4 & K5). split_and!; congruence. Qed.

Lemma hashed_same s s' id : same_chunks s s' -> hashed s id -> hashed s' id.
Proof. intros (H1 & _ & H3 & _) (p & ch & Hp & Hc & Hid). exists p, ch. by rewrite H1, H3. Qed.

Lemma add_index_inv P s cid fid off sz s' :
  store_inv P s -> P cid -> 0 <= sz < 2 ^ 32 -> spy_add_file_index cid fid off sz s = Ret s' ->
  store_inv P s' /\ same_chunks s s'.
Proof.
  intros [I1 I2 I3 I4 I5 I6] HP Hsz H. unfold spy_add_file_index in H. inv_ret.
  split; [|done]. split; try done. intros i x Hx. cbn in Hx.
  destruct (decide (fid mod FILE_HASH_SIZE = i)) as [<-|Hne].
  - rewrite cell_insert_eq in Hx. apply elem_of_cons in Hx as [->|Hx]; [split; [by right|done]|].
    by apply (I6 _ _ Hx).
  - rewrite cell_insert_ne in Hx by done. by apply (I6 _ _ Hx).
Qed.

Lemma parser_read_id r disk at_ rsize pr n pr' :
  parser_read r disk at_ rsize pr = Ret (n, pr') -> pr_chunk_id pr' = pr_chunk_id pr.
Proof. unfold parser_read. intros H. destruct (_ || _ || _); [done|]. destruct r; by inv_ret. Qed.

Lemma parser_refill_id script disk pr o pr' script' :
  parser_refill script disk pr = Ret (o, pr', script') -> pr_chunk_id pr' = pr_chunk_id pr.
Proof.
  unfold parser_refill. intros H. destruct (_ <? _); [|by inv_ret].
  apply bind_Ret_inv in H as (pr1 & E & H).
  assert (E1 : pr_chunk_id pr1 = pr_chunk_id pr).
  { destruct (0 <? _); [|by inv_ret]. destruct (_ <? _); by inv_ret. }
  destruct (_ <=? 0); [by inv_ret|]. destruct script as [|r script]; [done|].
  apply bind_Ret_inv in H as ([n pr2] & Er & H). apply parser_read_id in Er. cbn in Er.
  destruct (n =? 0); inv_ret; cbn; congruence.
Qed.

Lemma skip_body_id script disk pr left o pr' script' :
  skip_body_loop script disk pr left = Ret (o, pr', script') -> pr_chunk_id pr' = pr_chunk_id pr.
Proof.
  revert pr left. induction script as [|r script IH]; intros pr left H; cbn in H;
    (destruct (0 <? left); [|by inv_ret]); (destruct (_ <=? 0); [by inv_ret|]); [done|].
  apply bind_Ret_inv in H as ([n pr1] & Er & H). apply parser_read_id in Er.
  destruct (n =? 0); [by inv_ret|]. destruct (n <? _); apply IH in H; cbn in H; congruence.
Qed.

Lemma parse_next_inv P script disk pr s r pr' script' s' :
  store_inv P s -> P (pr_chunk_id pr) -> spy_parse_next_file script disk pr s = Ret (r, pr', script', s') ->
  store_inv P s' /\ same_chunks s s' /\ pr_chunk_id pr' = pr_chunk_id pr.
Proof.
  intros I HP H. unfold spy_parse_next_file in H. destruct (_ && _); [by inv_ret|].
  apply bind_Ret_inv in H as ([[o pr1] sc1] & E1 & H). apply parser_refill_id in E1.
  destruct o; [|by inv_ret]. apply bind_Ret_inv in H as (? & _ & H).
  apply bind_Ret_inv in H as (fid & _ & H). apply bind_Ret_inv in H as (sz & _ & H).
  apply bind_Ret_inv in H as (ck & _ & H). apply bind_Ret_inv in H as ([[o2 pr2] sc2] & E2 & H).
  assert (Hid : pr_chunk_id pr2 = pr_chunk_id pr).
  { destruct (_ <? _); [apply skip_body_id in E2; cbn in E2; congruence|]. inv_ret. done. }
  destruct o2; [|by inv_ret]. apply bind_Ret_inv in H as (s1 & E3 & H). inv_ret.
  apply add_index_inv with (P := P) in E3 as [I1 S1]; [done|done|by rewrite Hid|apply u32_range].
Qed.

Lemma parse_files_inv P fuel script disk pr s pr' s' :
  store_inv P s -> P (pr_chunk_id pr) -> parse_files_loop fuel script disk pr s = Ret (pr', s') ->
  store_inv P s' /\ same_chunks s s'.
Proof.
  revert script pr s. induction fuel as [|fuel IH]; intros script pr s I HP H; cbn in H;
    apply bind_Ret_inv in H as ([[[r pr1] sc1] s1] & E & H);
    destruct (parse_next_inv _ _ _ _ _ _ _ _ _ I HP E) as (I1 & S1 & Hid);
    (destruct (r =? 0); [by inv_ret|]); (destruct (r <? 0); [by inv_ret|]); [done|].
  rewrite <- Hid in HP. destruct (IH _ _ _ I1 HP H) as [I2 S2]. split; [done|].
  by eapply same_chunks_trans.
Qed.

Lemma setup_chunk_inv cs script fd path disk s s' :
  store_inv none s -> zlen (chunks s) < 2 ^ 31 - 1 ->
  spy_setup_chunk cs script fd path disk s = Ret s' ->
  store_inv none s' /\ zlen (chunks s') = zlen (chunks s) + 1.
Proof.
  intros I Hn H. unfold spy_setup_chunk in H. apply bind_Ret_inv in H as (? & _ & H).
  apply bind_Ret_inv in H as (? & _ & H). apply bind_Ret_inv in H as ([sb sc] & _ & H).
  destruct sb as [sb|]; [|done]. apply bind_Ret_inv in H as ([chunk m] & _ & H).
  apply bind_Ret_inv in H as ([pr s1] & E & H). destruct (_ <? _); [done|].
  set (P := fun id => id = chunk_id chunk).
  assert (IP : store_inv P (with_max_chunk_id m s)).
  { apply store_inv_max, (store_inv_weaken none); [|done]. by intros id []. }
  apply (parse_files_inv P) in E as [I1 (S1 & S2 & S3 & S4 & S5)]; [|exact IP|done].
  apply (add_chunk_inv P s1 _ chunk) in H as (I2 & C2 & _); try done.
  - split; [done|]. rewrite C2, zlen_cons. cbn in S2. rewrite S2. lia.
  - apply is_fresh.
  - cbn in S2. by rewrite S2.
Qed.

Lemma scan_dir_inv cfg dir es s s' :
  store_inv none s -> zlen (chunks s) + zlen es < 2 ^ 31 - 1 -> scan_dir cfg dir es s = Ret s' ->
  store_inv none s' /\ zlen (chunks s) <= zlen (chunks s') <= zlen (chunks s) + zlen es /\
  (zlen (chunks s') = zlen (chunks s) \/ Forall (fun e => d_reg e = false) es -> s' = s).
Proof.
  revert s. induction es as [|e es IH]; intros s I Hn H; cbn in H; [inv_ret; by rewrite Z.add_0_r|].
  rewrite zlen_cons in Hn |- *. pose proof (zlen_nonneg es).
  apply bind_Ret_inv in H as (s1 & E & H). destruct (d_reg e) eqn:Er.
  - destruct (negb _); [done|]. apply bind_Ret_inv in E as (? & _ & E).
    destruct (setup_chunk_inv _ _ _ _ _ _ _ I ltac:(lia) E) as [I1 L1].
    destruct (IH _ I1 ltac:(lia) H) as (I2 & L2 & _). split_and!; [done|lia..|].
    intros [Hl|[HF _]%Forall_cons]; [lia|congruence].
  - inv_ret. destruct (IH _ I ltac:(lia) H) as (I2 & L2 & H2). split_and!; [done|lia..|].
    intros [Hl|[_ HF]%Forall_cons]; auto.
Qed.

(** ** Creating the chunks of a new server *)

Definition numbered s : Prop :=
  max_chunk_id s = n_chunks s /\ forall id, 1 <= id <= n_chunks s -> hashed s id.

Lemma create_chunk_inv cfg env s r d s' :
  store_inv none s -> numbered s -> zlen (chunks s) < 2 ^ 31 - 1 ->
  spy_create_chunk cfg env s = Ret (r, d, s') -> r = 0 ->
  store_inv none s' /\ numbered s' /\ zlen (chunks s') = zlen (chunks s) + 1.
Proof.
  intros I [N1 N2] Hn H Hr. pose proof (st_count _ _ I) as Hc. pose proof (zlen_nonneg (chunks s)).
  unfold spy_create_chunk in H. cbn in H. rewrite u64_small in H by lia.
  apply bind_Ret_inv in H as (? & _ & H). destruct (_ <? 0); [inv_ret; done|].
  destruct (negb _); [inv_ret; done|]. apply bind_Ret_inv in H as (s1 & E & H).
  apply bind_Ret_inv in H as ([[r1 d1] sc1] & _ & H). inv_ret.
  set (c := fresh _) in E. set (chunk := spy_alloc_chunk _ _ _ _ _) in E.
  destruct (add_chunk_inv none (with_max_chunk_id (max_chunk_id s + 1) s) c chunk s')
    as (I2 & C2 & _ & L2 & M2 & H2); try done; [by apply store_inv_max|apply is_fresh|].
  cbn in L2, M2, C2. split; [done|]. split; [|by rewrite C2, zlen_cons; lia]. split; [lia|].
  intros id Hid. apply H2. destruct (decide (id = n_chunks s + 1)) as [->|Hne].
  - right. cbn. lia.
  - left. destruct (N2 id ltac:(lia)) as (p & ch & Hp). by exists p, ch.
Qed.

Lemma create_loop_numbered n cfg envs s s' :
  store_inv none s -> numbered s -> zlen (chunks s) + Z.of_nat n < 2 ^ 31 ->
  create_loop n cfg envs s = Ret s' ->
  store_inv none s' /\ numbered s' /\ zlen (chunks s') = zlen (chunks s) + Z.of_nat n.
Proof.
  revert envs s. induction n as [|n IH]; intros envs s I N Hn H; cbn in H.
  { inv_ret. split_and!; try done. lia. }
  destruct envs as [|env envs]; [done|]. apply bind_Ret_inv in H as ([[r d] s1] & E & H).
  destruct (Z.eqb_spec r 0) as [Hr|]; [|done]. cbn in H.
  destruct (create_chunk_inv _ _ _ _ _ _ I N ltac:(lia) E Hr) as (I1 & N1 & L1).
  destruct (IH _ _ I1 N1 ltac:(lia) H) as (I2 & N2 & L2). split_and!; try done. lia.
Qed.

(** ** The result *)

Lemma store_inv_chunk_inv s :
  store_inv none s -> 0 < n_chunks s < 2 ^ 31 -> (forall id, 1 <= id <= n_chunks s -> hashed s id) ->
  chunk_inv (chunks s) s [].
Proof.
  intros [I1 I2 I3 I4 I5 I6] Hn Hid. split; rewrite ?app_nil_r; try done.
  intros i x Hx. destruct (I6 i x Hx) as [[Hh|[]] Hs]. done.
Qed.

Lemma startup_store_inv cfg dir es envs st :
  spy_create_or_recover_files cfg dir (Some es) envs empty_store = Ret st ->
  zlen es < 2 ^ 31 - 1 -> 0 < cfg_n_chunks cfg < 2 ^ 31 ->
  store_inv none st /\ 0 < n_chunks st < 2 ^ 31 /\
  (Forall (fun e => d_reg e = false) es -> numbered st).
Proof.
  intros H He Hc. pose proof (zlen_nonneg es). cbn in H. apply bind_Ret_inv in H as (s & E & H).
  assert (L0 : zlen (chunks empty_store) = 0) by done.
  apply (scan_dir_inv _ _ _ _ _ empty_store_inv) in E as (I & L & N); [|lia].
  pose proof (st_count _ _ I) as Hn. rewrite L0 in *.
  destruct (chunks s) as [|c cs] eqn:Ec.
  - rewrite N in * by (by left).
    apply create_loop_numbered in H as (I1 & N1 & L1); [|done| |lia].
    + rewrite (st_count _ _ I1), L1. split_and!; [done|lia..|done].
    + split; [done|]. intros id Hid. change (n_chunks empty_store) with 0 in Hid. lia.
  - injection H as <-. rewrite zlen_cons in *. pose proof (zlen_nonneg cs). split_and!; [done|lia..|].
    intros HF. rewrite (N (or_intror HF)) in Ec. done.
Qed.

(** The composition of start-up with the running server.  For every data
    directory [spy_create_or_recover_files] accepts, and every answer of the
    kernel on the way, the store it leaves is one the server's safety theorems
    hold from ([booted]): one descriptor of each chunk, every chunk findable by
    its id, every index entry naming a chunk that is there, with a 32-bit size.
    When chunk files are found their ids must be the first ones, the numbering
    [spy_create_chunk] gives them; a directory with no chunk files needs
    nothing. *)
Theorem startup_boots cfg dir es envs st b :
  spy_create_or_recover_files cfg dir (Some es) envs empty_store = Ret st ->
  zlen es < 2 ^ 31 - 1 -> 0 < cfg_n_chunks cfg < 2 ^ 31 ->
  Forall (fun e => d_reg e = false) es \/ (forall id, 1 <= id <= n_chunks st -> hashed st id) ->
  b_store b = st -> b_listen_fd b <> b_event_fd b ->
  0 <= b_listen_fd b < DEF_MAX_CLIENTS -> 0 <= b_event_fd b < DEF_MAX_CLIENTS ->
  booted b.
Proof.
  intros H He Hc Hid Hb F1 F2 F3. destruct (startup_store_inv _ _ _ _ _ H He Hc) as (I & Hn & N).
  split; [done|]. rewrite Hb. apply store_inv_chunk_inv; [done..|].
  destruct Hid as [HF|Hid]; [apply (N HF)|done].
Qed.

End Startup.

(** A new server with two chunks of 200 bytes in a directory that holds only
    sub-directories. *)
Definition new_cfg : store_config := StoreConfig 200 2 1 [].
Definition new_dir : list dir_entry := [DirEntry false [b00] 0 [] []].
Definition new_envs : list create_env := replicate 2 (CreateEnv 7 0 [Xfer 4194304; Xfer 4194304]).
Definition new_boot (st : store_t) : boot :=
  Boot 3 4 true true true true (100, 0) (replicate 10 true) 64 false true st.

Lemma startup_boots_witness :
  exists st, spy_create_or_recover_files new_cfg [] (Some new_dir) new_envs empty_store = Ret st /\
    booted (new_boot st).
Proof.
  destruct (outcome_ret (spy_create_or_recover_files new_cfg [] (Some new_dir) new_envs empty_store)
    (fun _ => True)) as (st & H & _); [by vm_compute|].
  exists st. split; [exact H|].
  apply (startup_boots _ _ _ _ st (new_boot st) H); [vm_compute; reflexivity|cbn; lia| |reflexivity|discriminate|..].
  - left. repeat constructor.
  - unfold DEF_MAX_CLIENTS. cbn. lia.
  - unfold DEF_MAX_CLIENTS. cbn. lia.
Defined.
