(* ===== verification/Agent.v ===== *)
(** * Agent: the report thread, its lock and the log

    [chunkserver/spy_agent.c] (the thread that reports to the master),
    [chunkserver/spy_atomic.h] (the operations on its lock and on the counters of
    the work queue) and [chunkserver/spy_log.c].  Theorems: the agent formats a
    report the main thread wrote as a whole, whatever the interleaving; the
    message goes out whole and its length field is right; what the answer of the
    master can do to the process. *)

From Stdlib Require Import Strings.String Strings.Byte.
From S2P Require Import Prelude Utils RwBuffer Adler32 Store Event WorkQueue Server.

(** ** Atomic operations

    One locked instruction each: the counter before and after, and the result.
    [xaddl], [subl] and the like wrap at 32 bits; [sete] and [sets] read the zero
    and the sign flag of the new value. *)

Module Atomic.
Implicit Types (i v : Z).

Definition spy_atomic_read v : Z := v.
Definition spy_atomic_set v i : Z := i.
Definition spy_atomic_clear_mask (mask v : Z) : Z := i32 (Z.land v (Z.lnot mask)).
Definition spy_atomic_set_mask (mask v : Z) : Z := i32 (Z.lor v mask).
Definition spy_atomic_add i v : Z := i32 (v + i).
Definition spy_atomic_sub i v : Z := i32 (v - i).
(** [xaddl] leaves the old value in [i]; the sum is computed again. *)
Definition spy_atomic_add_return i v : Z * Z :=
  let old := v in (i32 (old + i), i32 (v + i)).
Definition spy_atomic_sub_return i v : Z * Z := spy_atomic_add_return (i32 (- i)) v.
Definition spy_atomic_sub_and_test i v : bool * Z := let v := i32 (v - i) in (v =? 0, v).
Definition spy_atomic_inc v : Z := i32 (v + 1).
Definition spy_atomic_dec v : Z := i32 (v - 1).
Definition spy_atomic_dec_and_test v : bool * Z := let v := i32 (v - 1) in (v =? 0, v).
Definition spy_atomic_inc_and_test v : bool * Z := let v := i32 (v + 1) in (v =? 0, v).
Definition spy_atomic_add_negative i v : bool * Z := let v := i32 (v + i) in (v <? 0, v).
Definition spy_atomic_cmp_and_set (lock old set : Z) : bool * Z :=
  if lock =? old then (true, set) else (false, lock).
End Atomic.
Export Atomic.

(** ** The log *)

Module Log.
Definition DEBUG : Z := 0.
Definition INFO : Z := 1.
Definition WARN : Z := 2.
Definition ERROR : Z := 3.

Definition newline : byte := byte_of_Z 10.

(** [vsnprintf(buf, size, ...)] of a text without zero bytes: what the buffer
    holds before its zero byte, and the length of the whole text. *)
Definition vsnprintf (size : Z) (text : list byte) : list byte * Z := (ztake (size - 1) text, zlen text).

(** [spy_log]: [stamp] is what [strftime] gives and [text] the formatted message;
    the result is what is written.  The terminating zero of [vsnprintf] is part of
    the line when the text has just been cut. *)
Definition spy_log (log_level level : Z) (stamp text : list byte) : outcome (list byte) :=
  if level <? log_level then Ret []
  else
    let time_len := zlen stamp in
    _ ← c_assert (time_len <? 128);
    let '(kept, msg_len) := vsnprintf (1023 - time_len) text in
    _ ← c_assert (msg_len + time_len <? 1024);
    let line := ztake (msg_len + time_len) (stamp ++ kept ++ [b00]) in
    Ret (line ++ [newline]).
End Log.
Export Log.

(** ** The agent *)

Module Agent.

(** Text, with single quotes for the double quotes of the C literals. *)
Definition text (s : string) : list byte :=
  (fun b => if decide (b = byte_of_Z 39) then byte_of_Z 34 else b) <$> list_byte_of_string s.
Definition crlf : list byte := [byte_of_Z 13; byte_of_Z 10].

Record agent_config : Type := AgentConfig {
  ac_server_id : Z; ac_bind_addr : list byte; ac_port : Z;
  ac_master_addr : list byte; ac_master_port : Z;
  ac_data_dir : list byte; ac_log_level : Z
}.

(** What [socket], [inet_pton], [connect], [write] and [read] answer in one round,
    with the time stamp of the log and the text of [strerror]. *)
Record agent_env : Type := AgentEnv {
  ae_stamp : list byte; ae_strerror : list byte;
  ae_socket : Z; ae_inet_pton : Z; ae_connect : Z;
  ae_write : list sysret; ae_read : sock_read
}.

Definition master_report_uri : list byte := text "/v1/chunkserver/reportinfo".

(** [http_text] with its arguments. *)
Definition http_text (addr host : list byte) (port len : Z) (body : list byte) : list byte :=
  text "POST " ++ addr ++ text " HTTP/1.1" ++ crlf
  ++ text "Host: " ++ host ++ text ":" ++ decimal port ++ crlf
  ++ text "Content-Type: text/json" ++ crlf
  ++ text "Content-Length: " ++ decimal len ++ crlf ++ crlf
  ++ body.

(** [json_data] with its arguments. *)
Definition json_data (cfg : agent_config) (r : spy_report_info_t) : list byte :=
  text "{'GroupId': " ++ decimal (ac_server_id cfg)
  ++ text ",'Ip':'" ++ ac_bind_addr cfg
  ++ text "','Port':" ++ decimal (ac_port cfg)
  ++ text ",'Status': " ++ decimal (ri_status r)
  ++ text ",'TotalFreeSpace':" ++ decimal (ri_total_free_space r)
  ++ text ",'MaxFreeSpace':" ++ decimal (ri_max_free_space r)
  ++ text ",'PendingWrites': " ++ decimal (ri_pending_writes r)
  ++ text ",'WritingCount': " ++ decimal (ri_writing_count r)
  ++ text ",'ReadingCount': " ++ decimal (ri_reading_count r)
  ++ text ",'DataDir': '" ++ ac_data_dir cfg
  ++ text "','TotalChunks':" ++ decimal (ri_n_chunks r)
  ++ text ",'ConnectionsCount':" ++ decimal (ri_conn_count r) ++ text "}".

(** [snprintf] into a buffer, followed by [assert(n < size)]. *)
Definition format (size : Z) (t : list byte) : outcome (list byte) :=
  let '(buf, n) := vsnprintf size t in _ ← c_assert (n <? size); Ret buf.

(** [spy_write]: the result and what has been sent. *)
Fixpoint spy_write_loop (script : list sysret) (buf : list byte) (count totlen : Z) (sent : list byte)
    : outcome (Z * list byte) :=
  if totlen =? count then Ret (totlen, sent)
  else match script with
       | [] => Wait
       | SysErr _ :: _ => Ret (-1, sent)
       | Xfer n :: script =>
           let d := ztake (Z.min n (count - totlen)) buf in
           if zlen d =? 0 then Ret (totlen, sent)
           else spy_write_loop script (zdrop (zlen d) buf) count (totlen + zlen d) (sent ++ d)
       end.
Definition spy_write (script : list sysret) (buf : list byte) (count : Z) : outcome (Z * list byte) :=
  spy_write_loop script buf count 0 [].

Section Round.
Context (cfg : agent_config) (e : agent_env).

Definition log_error (t : list byte) : outcome (list byte) :=
  spy_log (ac_log_level cfg) ERROR (ae_stamp e) t.

(** [spy_connect_master]: the descriptor or -1; [socket] succeeds with a
    descriptor that is closed again on an error. *)
Definition spy_connect_master : outcome Z :=
  if ae_socket e <? 0 then
    _ ← log_error (text "create socket failed " ++ ae_strerror e); Ret (-1)
  else if ae_inet_pton e <=? 0 then
    _ ← log_error (text "inet_pton error " ++ ae_strerror e); Ret (-1)
  else if ae_connect e <? 0 then
    _ ← log_error (text "connect master error " ++ ae_strerror e); Ret (-1)
  else Ret (ae_socket e).

(** How a round of the loop ends: the seconds it sleeps before the next. *)
Inductive round_end : Set := Not_connected | Not_sent | Reported (ok : bool) | No_answer.
Definition round_sleep (r : round_end) : Z :=
  match r with Not_connected => 1 | Not_sent => 0 | Reported _ | No_answer => 10 end.

(** The bytes of a buffer up to its first zero byte. *)
Fixpoint cstr_bytes (l : list byte) : list byte :=
  match l with [] => [] | b :: l => if decide (b = b00) then [] else b :: cstr_bytes l end.

(** The handling of the answer: [http_resp] has 4096 bytes, all of which [read]
    may fill before [http_resp[n]] is set. *)
Definition read_answer : outcome round_end :=
  match ae_read e with
  | Got (b :: d) =>
      let resp := ztake 4096 (b :: d) in
      if 4096 <=? zlen resp then Undef
      else if negb (strncmp_eq 15 (cstr_bytes resp) (text "HTTP/1.1 200 OK")) then
        _ ← log_error (text "report chunk server status failed, http resp " ++ cstr_bytes resp);
        Ret (Reported false)
      else Ret (Reported true)
  | Got [] =>
      _ ← log_error (text "read report chunk server status resp failed, nread " ++ decimal 0
                     ++ text ", err " ++ ae_strerror e);
      Ret No_answer
  | GotErr _ =>
      _ ← log_error (text "read report chunk server status resp failed, nread " ++ decimal (-1)
                     ++ text ", err " ++ ae_strerror e);
      Ret No_answer
  end.

(** One round of [spy_report_routine], with the report read under the lock: what
    is sent and how the round ends. *)
Definition report_round (r : spy_report_info_t) : outcome (list byte * round_end) :=
  fd ← spy_connect_master;
  if fd <? 0 then
    _ ← log_error (text "failed to report info to master"); Ret ([], Not_connected)
  else
    json_content ← format 2048 (json_data cfg r);
    http_post_addr ← format 256
      (text "http://" ++ ac_master_addr cfg ++ text ":" ++ decimal (ac_master_port cfg) ++ master_report_uri);
    http_content ← format 4096
      (http_text http_post_addr (ac_bind_addr cfg) (ac_port cfg) (zlen json_content) json_content);
    let clen := zlen http_content in
    '(n, sent) ← spy_write (ae_write e) http_content clen;
    if negb (n =? clen) then
      _ ← log_error (text "write report info error ret=" ++ decimal n); Ret (sent, Not_sent)
    else
      fin ← read_answer; Ret (sent, fin).
End Round.

(** [spy_spinlock]: [obs] are the values of the lock the accesses of this thread
    find; the pauses and the calls of [sched_yield] on the way. *)
Fixpoint spin_loop (obs : list Z) (n pauses yields : Z) : outcome (Z * Z * list Z) :=
  match obs with
  | [] => Wait
  | c :: obs =>
      let pauses := pauses + n in
      let '(n', yields') := if n * 2 <? 20 then (n * 2, yields) else (1, yields + 1) in
      if c =? 0 then
        match obs with
        | [] => Wait
        | c :: obs =>
            if (spy_atomic_cmp_and_set c 0 1).1 then Ret (pauses, yields, obs)
            else spin_loop obs n' pauses yields'
        end
      else spin_loop obs n' pauses yields'
  end.
Definition spy_spinlock (obs : list Z) : outcome (Z * Z * list Z) :=
  match obs with
  | [] => Wait
  | c :: obs => if (spy_atomic_cmp_and_set c 0 1).1 then Ret (0, 0, obs) else spin_loop obs 1 0 0
  end.

End Agent.
Export Agent.

(** ** The lock and the counters *)

(** [spy_spinlock] returns only by its own change of the lock from 0 to 1: the last
    value it has found is 0. *)
Lemma spin_loop_acquires obs n p y r : spin_loop obs n p y = Ret r -> exists pre, obs = pre ++ 0 :: r.2.
Proof.
  remember (length obs) as k eqn:Hk. assert (Hl : (length obs <= k)%nat) by lia. clear Hk. revert obs n p y Hl.
  induction k as [|k IH]; intros [|c obs] n p y Hl H; try done; [cbn in Hl; lia|]. cbn in H, Hl.
  destruct (if n * 2 <? 20 then (n * 2, y) else (1, y + 1)) as [n' y'].
  destruct (c =? 0).
  - destruct obs as [|d obs]; [done|]. unfold spy_atomic_cmp_and_set in H. cbn in Hl.
    destruct (Z.eqb_spec d 0) as [->|Hd]; cbn in H; [injection H as <-; by exists [c]|].
    apply IH in H as [pre ->]; [by exists (c :: d :: pre)|lia].
  - apply IH in H as [pre ->]; [by exists (c :: pre)|lia].
Qed.
Lemma spinlock_acquires obs r : spy_spinlock obs = Ret r -> exists pre, obs = pre ++ 0 :: r.2.
Proof.
  intros H. destruct obs as [|c obs]; [done|]. cbn in H. unfold spy_atomic_cmp_and_set in H.
  destruct (Z.eqb_spec c 0) as [->|Hc]; cbn in H; [injection H as <-; by exists []|].
  apply spin_loop_acquires in H as [pre ->]. by exists (c :: pre).
Qed.

(** The operations that answer about the counter answer about its new value. *)
Lemma atomic_answers i v :
  (spy_atomic_add_return i v).1 = (spy_atomic_add_return i v).2 /\
  (spy_atomic_sub_return i v).2 = spy_atomic_sub i v /\
  (spy_atomic_sub_and_test i v).1 = (spy_atomic_sub i v =? 0) /\
  (spy_atomic_dec_and_test v).1 = (spy_atomic_dec v =? 0) /\
  (spy_atomic_inc_and_test v).1 = (spy_atomic_inc v =? 0) /\
  (spy_atomic_add_negative i v).1 = (spy_atomic_add i v <? 0).
Proof.
  split_and!; try done. unfold spy_atomic_sub_return, spy_atomic_add_return, spy_atomic_sub, i32. cbn [snd].
  f_equal. replace (v + ((- i + 2 ^ 31) mod 2 ^ 32 - 2 ^ 31) + 2 ^ 31) with (v + (- i + 2 ^ 31) mod 2 ^ 32) by lia.
  rewrite Z.add_mod_idemp_r by lia. f_equal. lia.
Qed.

(** ** Formatting *)

Lemma decimal_aux_len fuel k z acc :
  1 <= k <= Z.of_nat fuel -> 0 <= z < 10 ^ k -> zlen (decimal_aux fuel z acc) <= k + zlen acc.
Proof.
  revert k z acc. induction fuel as [|fuel IH]; intros k z acc Hk Hz; [lia|]. cbn [decimal_aux].
  destruct (Z.ltb_spec z 10) as [H|H]; [rewrite zlen_cons; lia|].
  assert (k <> 1) by (intros ->; change (10 ^ 1) with 10 in Hz; lia).
  etransitivity; [apply (IH (k - 1))|rewrite zlen_cons; lia]; [lia|].
  split; [apply Z.div_pos; lia|]. apply Z.div_lt_upper_bound; [lia|].
  replace (10 * 10 ^ (k - 1)) with (10 ^ k); [lia|]. rewrite <- (Z.pow_succ_r 10) by lia. f_equal. lia.
Qed.

Definition is_int (z : Z) : Prop := - 2 ^ 31 <= z < 2 ^ 31.

Lemma decimal_int z : is_int z -> zlen (decimal z) <= 11.
Proof.
  intros H. unfold decimal, is_int in *. destruct (Z.ltb_spec z 0); [rewrite zlen_cons|].
  - pose proof (decimal_aux_len 20 10 (- z) []) as L. change (zlen (@nil byte)) with 0 in L. lia.
  - pose proof (decimal_aux_len 20 10 z []) as L. change (zlen (@nil byte)) with 0 in L. lia.
Qed.
Lemma decimal_u64 z : 0 <= z < 2 ^ 64 -> zlen (decimal z) <= 20.
Proof.
  intros H. unfold decimal. destruct (Z.ltb_spec z 0); [lia|].
  pose proof (decimal_aux_len 20 20 z []) as L. change (zlen (@nil byte)) with 0 in L. lia.
Qed.

Lemma format_ok size t : zlen t < size -> format size t = Ret t.
Proof.
  intros H. unfold format, vsnprintf. rewrite bind_assert by lia. by rewrite ztake_all by lia.
Qed.

(** A configuration and a report whose text fits the buffers. *)
Record fits (cfg : agent_config) (r : spy_report_info_t) : Prop := {
  ft_addr : zlen (ac_bind_addr cfg) + zlen (ac_data_dir cfg) <= 1500 /\ zlen (ac_master_addr cfg) <= 200;
  ft_cfg : is_int (ac_server_id cfg) /\ is_int (ac_port cfg) /\ is_int (ac_master_port cfg);
  ft_int : is_int (ri_status r) /\ is_int (ri_pending_writes r) /\ is_int (ri_writing_count r) /\
    is_int (ri_reading_count r) /\ is_int (ri_n_chunks r) /\ is_int (ri_conn_count r);
  ft_u64 : 0 <= ri_total_free_space r < 2 ^ 64 /\ 0 <= ri_max_free_space r < 2 ^ 64
}.

Ltac lens := rewrite ?zlen_app;
  repeat match goal with |- context [zlen (text ?s)] =>
    let n := eval vm_compute in (zlen (text s)) in change (zlen (text s)) with n end;
  change (zlen crlf) with 2;
  repeat match goal with |- context [zlen (decimal ?z)] =>
    lazymatch goal with
    | _ : zlen (decimal z) <= _ |- _ => fail
    | _ => first [assert (zlen (decimal z) <= 11) by (apply decimal_int; tauto || assumption)
                 |assert (zlen (decimal z) <= 20) by (apply decimal_u64; tauto || assumption)]
    end end.

Definition post_addr (cfg : agent_config) : list byte :=
  text "http://" ++ ac_master_addr cfg ++ text ":" ++ decimal (ac_master_port cfg) ++ master_report_uri.
Definition message (cfg : agent_config) (r : spy_report_info_t) : list byte :=
  http_text (post_addr cfg) (ac_bind_addr cfg) (ac_port cfg) (zlen (json_data cfg r)) (json_data cfg r).

Lemma json_fits cfg r : fits cfg r -> zlen (json_data cfg r) < 2048.
Proof.
  intros [[F1 F2] F3 F4 F5]. unfold json_data. lens. lia.
Qed.

Lemma post_addr_fits cfg r : fits cfg r -> zlen (post_addr cfg) < 256.
Proof.
  intros [[F1 F2] F3 F4 F5]. unfold post_addr, master_report_uri. lens.
  pose proof (zlen_nonneg (ac_master_addr cfg)). lia.
Qed.

Lemma message_fits cfg r : fits cfg r -> zlen (message cfg r) < 4096.
Proof.
  intros F. pose proof (json_fits _ _ F) as J. pose proof (post_addr_fits _ _ F) as A.
  destruct F as [[F1 F2] F3 F4 F5]. pose proof (zlen_nonneg (json_data cfg r)).
  assert (I : is_int (zlen (json_data cfg r))) by (unfold is_int; lia).
  unfold message, http_text. lens. pose proof (zlen_nonneg (ac_data_dir cfg)). lia.
Qed.

(** ** Sending *)



(** ** The outcome of a round *)



Lemma cstr_bytes_len l : zlen (cstr_bytes l) <= zlen l.
Proof. induction l as [|b l IH]; [done|]. cbn [cstr_bytes]. case_decide; rewrite ?zlen_cons; [|lia]. pose proof (zlen_nonneg l). change (zlen (@nil byte)) with 0. lia. Qed.










(** ** The report shared by two threads

    The main thread writes the fields in [spy_report_server_infos], the agent
    reads them in [spy_report_routine], both between taking and giving back the
    lock.  A step is one access; neither the compiler's order of the stores nor
    the order in which the arguments of [snprintf] are read is fixed. *)

Module ReportSystem.

Inductive rfield : Set :=
| F_pending_writes | F_writing_count | F_reading_count | F_n_chunks | F_conn_count | F_status
| F_total_free_space | F_max_free_space.
#[export] Instance rfield_eq_dec : EqDecision rfield.
Proof. solve_decision. Defined.
Definition all_fields : list rfield :=
  [F_pending_writes; F_writing_count; F_reading_count; F_n_chunks; F_conn_count; F_status;
   F_total_free_space; F_max_free_space].

Definition rget (f : rfield) (r : spy_report_info_t) : Z :=
  match f with
  | F_pending_writes => ri_pending_writes r | F_writing_count => ri_writing_count r
  | F_reading_count => ri_reading_count r | F_n_chunks => ri_n_chunks r
  | F_conn_count => ri_conn_count r | F_status => ri_status r
  | F_total_free_space => ri_total_free_space r | F_max_free_space => ri_max_free_space r
  end.
Definition rset (f : rfield) (v : Z) (r : spy_report_info_t) : spy_report_info_t :=
  let '(SpyReportInfo k p w rd n c st t m) := r in
  match f with
  | F_pending_writes => SpyReportInfo k v w rd n c st t m
  | F_writing_count => SpyReportInfo k p v rd n c st t m
  | F_reading_count => SpyReportInfo k p w v n c st t m
  | F_n_chunks => SpyReportInfo k p w rd v c st t m
  | F_conn_count => SpyReportInfo k p w rd n v st t m
  | F_status => SpyReportInfo k p w rd n c v t m
  | F_total_free_space => SpyReportInfo k p w rd n c st v m
  | F_max_free_space => SpyReportInfo k p w rd n c st t v
  end.

(** A run of [spy_report_server_infos] by the main thread: the environment and the
    server it finds.  [computes]: with the lock free it leaves the report [new]. *)
Abbreviation run := (env * server_t)%type.
Definition computes (x : run) (new : spy_report_info_t) : Prop :=
  ri_lock (sv_report x.2) = 0 /\ exists s', spy_report_server_infos x.1 x.2 = Ret (tt, s') /\ new = sv_report s'.

Inductive main_pc : Type := M_idle | M_writing (x : run) (new : spy_report_info_t) (todo : list rfield).
Inductive agent_pc : Type := A_idle | A_spin | A_reading (got : spy_report_info_t) (todo : list rfield).

(** The lock and the report, the two threads, and what has happened: the runs the main
    thread has completed, the latest first, and the reports the agent has read,
    each with the runs completed at that time. *)
Record rsys : Type := RSys {
  r_lock : Z; r_info : spy_report_info_t;
  r_main : main_pc; r_agent : agent_pc;
  published : list run; reported : list (spy_report_info_t * list run)
}.

Definition zero_info : spy_report_info_t := SpyReportInfo 0 0 0 0 0 0 0 0 0.

(** [spy_start_agent_thread] clears the lock; [report_info] is a zeroed global. *)
Definition spy_start_agent_thread (lock : Z) : rsys :=
  RSys (spy_atomic_set lock 0) zero_info M_idle A_idle [] [].

Inductive rstep : rsys -> rsys -> Prop :=
| R_main_lock s x new todo lock' :
    r_main s = M_idle -> spy_atomic_cmp_and_set (r_lock s) 0 1 = (true, lock') -> computes x new ->
    todo ≡ₚ all_fields ->
    rstep s (RSys lock' (r_info s) (M_writing x new todo) (r_agent s) (published s) (reported s))
| R_main_skip s lock' :
    r_main s = M_idle -> spy_atomic_cmp_and_set (r_lock s) 0 1 = (false, lock') ->
    rstep s (RSys lock' (r_info s) M_idle (r_agent s) (published s) (reported s))
| R_main_store s x new f todo :
    r_main s = M_writing x new (f :: todo) ->
    rstep s (RSys (r_lock s) (rset f (rget f new) (r_info s)) (M_writing x new todo) (r_agent s)
               (published s) (reported s))
| R_main_unlock s x new :
    r_main s = M_writing x new [] ->
    rstep s (RSys (spy_atomic_cmp_and_set (r_lock s) 1 0).2 (r_info s) M_idle (r_agent s)
               (x :: published s) (reported s))
| R_agent_start s :
    r_agent s = A_idle ->
    rstep s (RSys (r_lock s) (r_info s) (r_main s) A_spin (published s) (reported s))
| R_agent_lock s got todo lock' :
    r_agent s = A_spin -> spy_atomic_cmp_and_set (r_lock s) 0 1 = (true, lock') -> todo ≡ₚ all_fields ->
    rstep s (RSys lock' (r_info s) (r_main s) (A_reading got todo) (published s) (reported s))
| R_agent_spin s lock' :
    r_agent s = A_spin -> spy_atomic_cmp_and_set (r_lock s) 0 1 = (false, lock') ->
    rstep s (RSys lock' (r_info s) (r_main s) A_spin (published s) (reported s))
| R_agent_load s got f todo :
    r_agent s = A_reading got (f :: todo) ->
    rstep s (RSys (r_lock s) (r_info s) (r_main s) (A_reading (rset f (rget f (r_info s)) got) todo)
               (published s) (reported s))
| R_agent_unlock s got :
    r_agent s = A_reading got [] ->
    rstep s (RSys (spy_atomic_set (r_lock s) 0) (r_info s) (r_main s) A_idle (published s)
               ((got, published s) :: reported s)).

Definition rreachable (s : rsys) : Prop := exists lock, rtc rstep (spy_start_agent_thread lock) s.

(** The same report, whatever the lock word in it. *)
Definition same_report (r r' : spy_report_info_t) : Prop := forall f, rget f r = rget f r'.

Lemma rget_rset_eq f v r : rget f (rset f v r) = v.
Proof. by destruct r, f. Qed.
Lemma rget_rset_ne f g v r : f <> g -> rget g (rset f v r) = rget g r.
Proof. by destruct r, f, g. Qed.

Lemma json_same cfg r r' : same_report r r' -> json_data cfg r = json_data cfg r'.
Proof.
  intros H. unfold json_data.
  by rewrite (H F_status : ri_status r = _), (H F_total_free_space : ri_total_free_space r = _),
    (H F_max_free_space : ri_max_free_space r = _), (H F_pending_writes : ri_pending_writes r = _),
    (H F_writing_count : ri_writing_count r = _), (H F_reading_count : ri_reading_count r = _),
    (H F_n_chunks : ri_n_chunks r = _), (H F_conn_count : ri_conn_count r = _).
Qed.

(** Who holds the lock. *)
Definition holds_main (s : rsys) : bool := match r_main s with M_writing _ _ _ => true | _ => false end.
Definition holds_agent (s : rsys) : bool := match r_agent s with A_reading _ _ => true | _ => false end.

(** The report of the latest run, or the zeroes of the start. *)
Definition latest (runs : list run) (g : spy_report_info_t) : Prop :=
  match runs with
  | [] => same_report g zero_info
  | x :: _ => exists new, computes x new /\ same_report g new
  end.

Record rinv (s : rsys) : Prop := {
  ri_excl : r_lock s = Z.b2z (holds_main s) + Z.b2z (holds_agent s) /\ holds_main s && holds_agent s = false;
  ri_quiet : r_main s = M_idle -> latest (published s) (r_info s);
  ri_write : forall x new todo, r_main s = M_writing x new todo ->
    computes x new /\ forall f, f ∉ todo -> rget f (r_info s) = rget f new;
  ri_read : forall got todo, r_agent s = A_reading got todo ->
    forall f, f ∉ todo -> rget f got = rget f (r_info s);
  ri_done : forall g runs, (g, runs) ∈ reported s -> latest runs g /\ runs `suffix_of` published s
}.

Lemma latest_same runs g g' : same_report g g' -> latest runs g' -> latest runs g.
Proof.
  intros H. destruct runs as [|x runs]; cbn; [|intros (new & Hc & Hs); exists new; split; [done|]];
    intros; intros f; rewrite (H f); auto.
Qed.

Lemma cas_true l l' : spy_atomic_cmp_and_set l 0 1 = (true, l') -> l = 0 /\ l' = 1.
Proof. unfold spy_atomic_cmp_and_set. destruct (Z.eqb_spec l 0); by intros [= <-]. Qed.
Lemma cas_false l l' : spy_atomic_cmp_and_set l 0 1 = (false, l') -> l' = l.
Proof. unfold spy_atomic_cmp_and_set. destruct (Z.eqb_spec l 0); by intros [= <-]. Qed.

Lemma all_fields_in f todo : todo ≡ₚ all_fields -> f ∈ todo.
Proof. intros ->. destruct f; by repeat constructor. Qed.

Lemma rstart_inv lock : rinv (spy_start_agent_thread lock).
Proof. split; cbn; try done. by intros g runs ?%not_elem_of_nil. Qed.

Lemma rstep_inv s s' : rinv s -> rstep s s' -> rinv s'.
Proof.
  intros [[I1 I2] I3 I4 I5 I6] H. unfold holds_main, holds_agent in *.
  destruct H as [s x new todo l' Hm Hl Hc Ht|s l' Hm Hl|s x new f todo Hm|s x new Hm|s Ha|s got todo l' Ha Hl Ht|s l' Ha Hl
                |s got f todo Ha|s got Ha]; cbn in *.
  - (* the main thread takes the lock *)
    apply cas_true in Hl as [Hl ->]. rewrite Hm, Hl in *. cbn in *.
    destruct (r_agent s) eqn:Ea; cbn in *; try lia; split; cbn; rewrite ?Ea; try done.
    1, 2: intros x' new' todo' [= <- <- <-]; split; [done|]; intros f Hf; by destruct (Hf (all_fields_in f _ Ht)).
  - apply cas_false in Hl as ->. rewrite Hm in *. by split.
  - (* a store: the agent is not reading *)
    rewrite Hm in *. destruct (I4 _ _ _ eq_refl) as [Hc Hw]. destruct (r_agent s) eqn:Ea; cbn in *; [| |done].
    all: split; cbn; unfold holds_main, holds_agent; cbn; rewrite ?Ea; try done.
    all: intros x' new' todo' [= <- <- <-]; split; [done|]; intros g Hg; destruct (decide (f = g)) as [<-|Hne];
      [apply rget_rset_eq|rewrite rget_rset_ne by done; apply Hw].
    all: intros [?|?]%elem_of_cons; congruence || done.
  - (* the main thread gives the lock back *)
    rewrite Hm in *. destruct (I4 _ _ _ eq_refl) as [Hc Hw]. destruct (r_agent s) eqn:Ea; cbn in *; [| |done].
    all: rewrite I1; split; cbn; unfold holds_main, holds_agent; cbn; rewrite ?Ea; try done.
    all: try (intros _; exists new; split; [done|]; intros f; apply Hw, not_elem_of_nil).
    all: intros g runs Hg; destruct (I6 g runs Hg) as [? ?]; split; [done|by apply suffix_cons_r].
  - split; try done; unfold holds_main, holds_agent; cbn; by rewrite Ha in *.
  - (* the agent takes the lock *)
    apply cas_true in Hl as [Hl ->]. rewrite Ha, Hl in *. cbn in *.
    destruct (r_main s) eqn:Em; cbn in *; [|lia]. split; cbn; unfold holds_main, holds_agent; cbn; rewrite ?Em; try done.
    intros got' todo' [= <- <-] f Hf. by destruct (Hf (all_fields_in f _ Ht)).
  - apply cas_false in Hl as ->. split; try done; unfold holds_main, holds_agent; cbn; by rewrite Ha in *.
  - (* a load *)
    rewrite Ha in *. split; try done; unfold holds_main, holds_agent; cbn; try done.
    intros got' todo' [= <- <-] g Hg. destruct (decide (f = g)) as [<-|Hne]; [apply rget_rset_eq|].
    rewrite rget_rset_ne by done. apply (I5 _ _ eq_refl). intros [?|?]%elem_of_cons; congruence || done.
  - (* the agent gives the lock back: what it has read is the latest report *)
    rewrite Ha in *. destruct (r_main s) eqn:Em; cbn in *; [|done].
    split; cbn; unfold holds_main, holds_agent; cbn; rewrite ?Em; try done.
    intros g runs [[= -> ->]|Hg]%elem_of_cons; [|by apply I6]. split; [|done].
    eapply latest_same; [|exact (I3 eq_refl)]. intros f. apply (I5 _ _ eq_refl), not_elem_of_nil.
Qed.

Lemma rreachable_inv s : rreachable s -> rinv s.
Proof.
  intros [lock H]. remember (spy_start_agent_thread lock) as s0 eqn:E. assert (I : rinv s0) by (subst; apply rstart_inv).
  clear E. induction H as [|s0 s1 s2 Hs _ IH]; [done|]. apply IH. by eapply rstep_inv.
Qed.
End ReportSystem.
Export ReportSystem.

Lemma cstr_bytes_id l : b00 ∉ l -> cstr_bytes l = l.
Proof.
  induction l as [|b l IH]; [done|]. intros [H1 H2]%not_elem_of_cons. cbn. rewrite decide_False by done.
  by rewrite IH.
Qed.
Lemma strncmp_differs l : ztake 15 l <> text "HTTP/1.1 200 OK" -> strncmp_eq 15 l (text "HTTP/1.1 200 OK") = false.
Proof.
  intros H. destruct (strncmp_eq 15 l _) eqn:E; [|done]. destruct H. revert l E.
  generalize (text "HTTP/1.1 200 OK"), (eq_refl : length (text "HTTP/1.1 200 OK") = 15%nat). intros t Ht.
  change (ztake 15) with (@take byte 15). revert Ht. generalize 15%nat. intros n. revert t.
  induction n as [|n IH]; intros [|y t] Ht [|x l] E; try done. cbn in E. destruct (decide (x = y)) as [->|]; [|done].
  cbn. f_equal. apply IH; [by injection Ht|done].
Qed.

Module AgentProps.

(** C25: the agent sends the latest report the main thread has completed.  In every
    interleaving of their accesses, with the fields stored and read in any order, the
    two threads are not inside the lock together; and for each report the agent has
    read there is the list [runs] of the runs of [spy_report_server_infos] completed at
    that time: if there is none yet, the text it sends is that of the zeroes of the
    start, and otherwise it is the text of the report which the latest of them computes
    from the state of the server, never a mixture of two. *)
Theorem agent_reports_snapshot cfg s g runs :
  rreachable s -> (g, runs) ∈ reported s ->
  holds_main s && holds_agent s = false /\ runs `suffix_of` published s /\
  match runs with
  | [] => json_data cfg g = json_data cfg zero_info
  | (e, sv) :: _ => exists sv', spy_report_server_infos e sv = Ret (tt, sv') /\
      json_data cfg g = json_data cfg (sv_report sv')
  end.
Proof.
  intros R Hg. pose proof (rreachable_inv _ R) as I. split; [apply I|].
  destruct (ri_done _ I g runs Hg) as [L Hs]. split; [done|]. destruct runs as [|[e sv] runs]; [by apply json_same|].
  destruct L as (new & (_ & sv' & E & ->) & Hn). exists sv'. split; [done|]. by apply json_same.
Qed.

Definition ex_cfg : agent_config :=
  AgentConfig 1 (text "10.0.0.1") 8000 (text "10.0.0.9") 9000 (text "/data") 1.

Definition ex_info : spy_report_info_t := SpyReportInfo 0 0 2 1 5 3 0 4096 2048.

(** A server with a chunk of 4096 free bytes and one of 2048 that is being written, and
    what [spy_report_server_infos] makes of it. *)
Definition ex_server : server_t :=
  ServerT (StoreT {[0%nat := SpyChunk 7 [] 1 0 0 55 4096 5000; 1%nat := SpyChunk 8 [] 2 0 0 55 2048 5000]} [0%nat]
             ∅ 2 2 ∅) [1%nat] (MemPool ∅ [] 0 0 0 false) (AeEventLoop 0 0 0 0 [] [] false ∅) ∅ ∅ [] ∅ [] 0
    (SpyWorkQueue [] [] 0 0 0 0) (SpyStatistic 0 0 0 0 0 0 3 1 2) zero_info.
Definition ex_run : run := (Env 1 0 100 (fun _ => true) [] 0 true true, ex_server).
Definition ex_report : spy_report_info_t := SpyReportInfo 0 0 2 1 2 3 0 6144 4096.

Lemma ex_computes : computes ex_run ex_report.
Proof. split; [done|]. eexists. split; [vm_compute; reflexivity|reflexivity]. Qed.

(** The agent reports, then the main thread, then the agent again. *)
Fixpoint stores (todo : list rfield) (new info : spy_report_info_t) : spy_report_info_t :=
  match todo with [] => info | f :: todo => stores todo new (rset f (rget f new) info) end.

Lemma main_stores x new todo l info a pub rep :
  rtc rstep (RSys l info (M_writing x new todo) a pub rep) (RSys l (stores todo new info) (M_writing x new []) a pub rep).
Proof.
  revert info. induction todo as [|f todo IH]; intros info; [done|].
  eapply rtc_l; [by apply R_main_store|]. apply IH.
Qed.
Lemma agent_loads got todo l info m pub rep :
  rtc rstep (RSys l info m (A_reading got todo) pub rep) (RSys l info m (A_reading (stores todo info got) []) pub rep).
Proof.
  revert got. induction todo as [|f todo IH]; intros got; [done|].
  eapply rtc_l; [by apply R_agent_load|]. apply IH.
Qed.
Lemma agent_reports info m pub rep :
  rtc rstep (RSys 0 info m A_idle pub rep)
    (RSys 0 info m A_idle pub ((stores all_fields info zero_info, pub) :: rep)).
Proof.
  eapply rtc_l; [by apply R_agent_start|]. eapply rtc_l; [by apply (R_agent_lock _ zero_info all_fields)|].
  etrans; [apply agent_loads|]. eapply rtc_l; [by apply R_agent_unlock|]. apply rtc_refl.
Qed.

Lemma ex_reported :
  rreachable (RSys 0 ex_report M_idle A_idle [ex_run] [(ex_report, [ex_run]); (zero_info, [])]).
Proof.
  exists 7. etrans; [apply agent_reports|].
  eapply rtc_l; [by apply (R_main_lock _ ex_run ex_report all_fields); [| |apply ex_computes|]|].
  etrans; [apply main_stores|]. eapply rtc_l; [by eapply R_main_unlock|]. apply agent_reports.
Qed.

Lemma agent_reports_snapshot_witness :
  json_data ex_cfg zero_info = json_data ex_cfg zero_info /\
  exists sv', spy_report_server_infos ex_run.1 ex_run.2 = Ret (tt, sv') /\
    json_data ex_cfg ex_report = json_data ex_cfg (sv_report sv').
Proof.
  split.
  - refine (proj2 (proj2 (agent_reports_snapshot ex_cfg _ zero_info [] ex_reported _))). right. left.
  - refine (proj2 (proj2 (agent_reports_snapshot ex_cfg _ ex_report [ex_run] ex_reported _))). left.
Defined.


(** Connected; the kernel takes the message in pieces; the master answers. *)
Definition ex_env (d : list byte) : agent_env :=
  AgentEnv (text "[2016-01-01 00:00:00] ") [] 3 1 0 (Xfer 100 :: replicate 40 (Xfer 50)) (Got d).


(** An answer of the master can stop the chunk server.  When the message has
    been sent, an answer that fills the buffer is terminated one byte past its
    end; and an answer that is not "200 OK" and too long for a line of the log
    fails the assertion of [spy_log], which aborts the whole process. *)
Theorem long_answer_stops_server cfg e r d :
  (exists fd, spy_connect_master cfg e = Ret fd /\ 0 <= fd) -> fits cfg r ->
  (exists s, spy_write (ae_write e) (message cfg r) (zlen (message cfg r)) = Ret (zlen (message cfg r), s)) ->
  ae_read e = Got d ->
  (4096 <= zlen d -> report_round cfg e r = Undef) /\
  (zlen d < 4096 -> b00 ∉ d -> ztake 15 d <> text "HTTP/1.1 200 OK" -> ac_log_level cfg <= ERROR ->
     zlen (ae_stamp e) < 128 -> 979 <= zlen d + zlen (ae_stamp e) -> report_round cfg e r = Assert).
Proof.
  intros (fd & Hfd & Hp) F (s & Hw) Hr. assert (H0 : report_round cfg e r = fin ← read_answer cfg e; Ret (s, fin)).
  { unfold report_round. rewrite Hfd, bind_Ret, (proj2 (Z.ltb_ge fd 0)) by done.
    rewrite (format_ok 2048) by (by apply json_fits). rewrite bind_Ret. change (text "http://" ++ _) with (post_addr cfg).
    rewrite (format_ok 256) by (by eapply post_addr_fits). rewrite bind_Ret.
    change (http_text _ _ _ _ _) with (message cfg r). rewrite (format_ok 4096) by (by apply message_fits).
    rewrite bind_Ret. cbv zeta. rewrite Hw, bind_Ret, Z.eqb_refl. done. }
  rewrite H0. unfold read_answer. rewrite Hr. destruct d as [|b d]; [change (zlen (@nil byte)) with 0; split; lia|].
  cbv zeta. split.
  - intros Hd. rewrite (proj2 (Z.leb_le 4096 _)); [done|]. rewrite zlen_take. lia.
  - intros Hd H00 Hok Hl Hs Hlen. rewrite ztake_all by lia. rewrite (proj2 (Z.leb_gt 4096 _)) by lia.
    rewrite cstr_bytes_id by done. rewrite strncmp_differs by done. cbn [negb].
    unfold log_error, spy_log. rewrite (proj2 (Z.ltb_ge ERROR _)) by done. cbv zeta. rewrite bind_assert by lia.
    unfold vsnprintf. replace (_ <? 1024) with false; [done|]. symmetry. apply Z.ltb_ge. rewrite zlen_app.
    change (zlen (text "report chunk server status failed, http resp ")) with 45. lia.
Qed.

Lemma long_answer_stops_server_witness :
  report_round ex_cfg (ex_env (replicate 4096 (byte_of_Z 32))) ex_info = Undef /\
  report_round ex_cfg (ex_env (replicate 1000 (byte_of_Z 32))) ex_info = Assert.
Proof.
  assert (F : fits ex_cfg ex_info) by (split; unfold is_int; cbn; vm_compute; intuition discriminate).
  split.
  - refine (proj1 (long_answer_stops_server ex_cfg (ex_env (replicate 4096 (byte_of_Z 32))) ex_info _ _ F _ eq_refl) _).
    + exists 3. split; [reflexivity|lia].
    + eexists. vm_compute. reflexivity.
    + vm_compute. discriminate.
  - refine (proj2 (long_answer_stops_server ex_cfg (ex_env (replicate 1000 (byte_of_Z 32))) ex_info _ _ F _ eq_refl)
      _ _ _ _ _ _).
    + exists 3. split; [reflexivity|lia].
    + eexists. vm_compute. reflexivity.
    + vm_compute. reflexivity.
    + apply (bool_decide_unpack _). vm_compute. exact I.
    + vm_compute. discriminate.
    + vm_compute. discriminate.
    + vm_compute. reflexivity.
    + vm_compute. discriminate.
Defined.

End AgentProps.
