(* ===== verification/Options.v ===== *)
(** * Options: the command line, and the start of the process

    The part of [main] of [chunkserver/spy_server.c] before the event loop:
    defaults, options and their checks, the listening socket, recovery, setup.
    Theorems: what every accepted command line guarantees; numbers the program
    prints are read back (options, and the names of chunk files); a process that
    gets through its start is one the theorems on the running server hold for. *)

From Stdlib Require Import Strings.String.
From S2P Require Import Prelude Utils RwBuffer Adler32 Store StoreRecover Event WorkQueue Server.
From S2P Require Import ServerConn ServerJobs ServerSafe System Startup Agent.

(** ** The code *)

Module Options.

Record spy_config_t : Type := SpyConfig {
  port : Z; master_port : Z; server_id : Z; daemonize : Z; cf_n_chunks : Z; log_level : Z;
  bind_addr : list byte; master_addr : option (list byte); data_dir : list byte; log_path : list byte;
  chunk_size : Z; mb_prealloc_count : Z; mb_limit : Z; sync : Z
}.

Definition DEF_SERVER_PORT : Z := 8000.
Definition DEF_N_CHUNKS : Z := 20.
Definition MAX_N_CHUNKS : Z := DEF_N_CHUNKS * 10.
Definition UINT16_MAX : Z := 65535.

(** The configuration of [spy_server_init]. *)
Definition spy_server_init : spy_config_t :=
  SpyConfig DEF_SERVER_PORT 0 (-1) 0 DEF_N_CHUNKS INFO (text "127.0.0.1") None (text "./")
    (text "./speedy.log") DEF_CHUNK_SIZE PREALLOC_COUNT DEF_MEM_BLOCKS_LIMIT 0.

(** [strtol(s, &p, 10)] and the text at [p]. *)
Definition strtol (s : list byte) : Z * list byte :=
  match scan_number s with
  | None => (0, s)
  | Some (v, rest) => (clamp_long v, rest)
  end.

(** What [getopt_long] returns: the letter, [optarg], and whether [strdup] of it
    finds memory. *)
Record opt : Type := Opt { o_char : Z; o_arg : list byte; o_dup : bool }.

(** The conversion to the type of the field: [int], or [size_t] for [mb_limit]. *)
Definition in_u16 (v : Z) (rest : list byte) : bool :=
  negb ((v <=? 0) || (UINT16_MAX <? v) || negb (bool_decide (rest = []))).

Definition set_port v c := SpyConfig v (master_port c) (server_id c) (daemonize c) (cf_n_chunks c) (log_level c)
  (bind_addr c) (master_addr c) (data_dir c) (log_path c) (chunk_size c) (mb_prealloc_count c) (mb_limit c) (sync c).
Definition set_master_port v c := SpyConfig (port c) v (server_id c) (daemonize c) (cf_n_chunks c) (log_level c)
  (bind_addr c) (master_addr c) (data_dir c) (log_path c) (chunk_size c) (mb_prealloc_count c) (mb_limit c) (sync c).
Definition set_server_id v c := SpyConfig (port c) (master_port c) v (daemonize c) (cf_n_chunks c) (log_level c)
  (bind_addr c) (master_addr c) (data_dir c) (log_path c) (chunk_size c) (mb_prealloc_count c) (mb_limit c) (sync c).
Definition set_daemonize v c := SpyConfig (port c) (master_port c) (server_id c) v (cf_n_chunks c) (log_level c)
  (bind_addr c) (master_addr c) (data_dir c) (log_path c) (chunk_size c) (mb_prealloc_count c) (mb_limit c) (sync c).
Definition set_n_chunks v c := SpyConfig (port c) (master_port c) (server_id c) (daemonize c) v (log_level c)
  (bind_addr c) (master_addr c) (data_dir c) (log_path c) (chunk_size c) (mb_prealloc_count c) (mb_limit c) (sync c).
Definition set_bind_addr v c := SpyConfig (port c) (master_port c) (server_id c) (daemonize c) (cf_n_chunks c) (log_level c)
  v (master_addr c) (data_dir c) (log_path c) (chunk_size c) (mb_prealloc_count c) (mb_limit c) (sync c).
Definition set_master_addr v c := SpyConfig (port c) (master_port c) (server_id c) (daemonize c) (cf_n_chunks c) (log_level c)
  (bind_addr c) (Some v) (data_dir c) (log_path c) (chunk_size c) (mb_prealloc_count c) (mb_limit c) (sync c).
Definition set_data_dir v c := SpyConfig (port c) (master_port c) (server_id c) (daemonize c) (cf_n_chunks c) (log_level c)
  (bind_addr c) (master_addr c) v (log_path c) (chunk_size c) (mb_prealloc_count c) (mb_limit c) (sync c).
Definition set_log_path v c := SpyConfig (port c) (master_port c) (server_id c) (daemonize c) (cf_n_chunks c) (log_level c)
  (bind_addr c) (master_addr c) (data_dir c) v (chunk_size c) (mb_prealloc_count c) (mb_limit c) (sync c).
Definition set_mb_limit v c := SpyConfig (port c) (master_port c) (server_id c) (daemonize c) (cf_n_chunks c) (log_level c)
  (bind_addr c) (master_addr c) (data_dir c) (log_path c) (chunk_size c) (mb_prealloc_count c) v (sync c).
Definition set_sync v c := SpyConfig (port c) (master_port c) (server_id c) (daemonize c) (cf_n_chunks c) (log_level c)
  (bind_addr c) (master_addr c) (data_dir c) (log_path c) (chunk_size c) (mb_prealloc_count c) (mb_limit c) v.

(** One round of the option loop; the letters are those of [server_options]. *)
Definition spy_option (o : opt) (c : spy_config_t) : outcome spy_config_t :=
  let '(v, rest) := strtol (o_arg o) in
  match o_char o with
  | 112 (* p *) => if in_u16 (i32 v) rest then Ret (set_port (i32 v) c) else Exit
  | 114 (* r *) => if in_u16 (i32 v) rest then Ret (set_master_port (i32 v) c) else Exit
  | 104 (* h *) => if o_dup o then Ret (set_bind_addr (o_arg o) c) else Exit
  | 109 (* m *) => if o_dup o then Ret (set_master_addr (o_arg o) c) else Exit
  | 119 (* w *) => if o_dup o then Ret (set_data_dir (o_arg o) c) else Exit
  | 100 (* d *) => Ret (set_daemonize 1 c)
  | 101 (* e *) => if o_dup o then Ret (set_log_path (o_arg o) c) else Exit
  | 103 (* g *) => if in_u16 (i32 v) rest then Ret (set_server_id (i32 v) c) else Exit
  | 98 (* b *) =>
      if (u64 v <=? 0) || (MAX_MEM_BLOCKS_LIMIT <? u64 v) then Exit else Ret (set_mb_limit (u64 v) c)
  | 99 (* c *) => if (i32 v <=? 0) || (MAX_N_CHUNKS <? i32 v) then Exit else Ret (set_n_chunks (i32 v) c)
  | 102 (* f *) => if negb (i32 v =? 1) && negb (i32 v =? 0) then Exit else Ret (set_sync (i32 v) c)
  | _ => Exit
  end.

Fixpoint spy_options (os : list opt) (c : spy_config_t) : outcome spy_config_t :=
  match os with [] => Ret c | o :: os => c ← spy_option o c; spy_options os c end.

Definition spy_check_server_options (c : spy_config_t) : outcome unit :=
  if bool_decide (master_addr c = None) || (master_port c =? 0) || (server_id c =? -1) then Exit else Ret tt.

(** What the operating system answers during the start. *)
Record init_env : Type := InitEnv {
  ie_log_fd : Z;
  ie_socket : Z; ie_setsockopt : Z; ie_inet_aton : Z; ie_bind : Z;
  ie_dir : option (list dir_entry); ie_create : list create_env;
  ie_event_fd : Z;
  ie_listen : bool; ie_loop : bool; ie_epoll : bool; ie_timer : bool; ie_clock : clock;
  ie_threads : list bool; ie_oom : bool; ie_calloc : bool
}.

Definition spy_open_log_file (e : init_env) : outcome Z :=
  if ie_log_fd e <=? 0 then Exit else Ret (ie_log_fd e).

Definition spy_create_listen_socket (e : init_env) : Z :=
  if ie_socket e =? -1 then -1
  else if ie_setsockopt e =? -1 then -1
  else if ie_inet_aton e =? 0 then -1
  else if negb (ie_bind e =? 0) then -1
  else ie_socket e.

(** [main] from the listening socket to [spy_start_process_events]; log lines are
    left out. *)
Definition spy_main_setup (c : spy_config_t) (e : init_env) : outcome (spy_config_t * boot * server_t) :=
  let listen_fd := spy_create_listen_socket e in
  if listen_fd <? 0 then Exit
  else
    st ← spy_create_or_recover_files (StoreConfig (chunk_size c) (cf_n_chunks c) (server_id c) (data_dir c))
           (data_dir c) (ie_dir e) (ie_create e) empty_store;
    let b := Boot listen_fd (ie_event_fd e) (ie_listen e) (ie_loop e) (ie_epoll e) (ie_timer e) (ie_clock e)
               (ie_threads e) (mb_limit c) (ie_oom e) (ie_calloc e) st in
    s ← spy_setup b;
    Ret (c, b, s).

(** [main] up to the event loop, as it acts on the configuration and the server;
    [Process.v] has its signals and descriptors. *)
Definition spy_main (os : list opt) (e : init_env) : outcome (spy_config_t * boot * server_t) :=
  c ← spy_options os spy_server_init;
  _ ← spy_check_server_options c;
  _ ← spy_open_log_file e;
  spy_main_setup c e.

End Options.
Export Options.

(** ** Numbers in text *)

Section Decimal.
Implicit Types (z v : Z) (acc rest l : list byte).

Lemma digit_byte d : 0 <= d < 10 -> digit_val (byte_of_Z (48 + d)) = Some d.
Proof.
  intros H. unfold digit_val. rewrite Z_of_byte_of_Z, u8_small by lia.
  rewrite (proj2 (Z.leb_le _ _)), (proj2 (Z.leb_le _ _)) by lia. cbn. f_equal. lia.
Qed.

Lemma scan_decimal fuel z acc rest :
  0 <= z < 10 ^ Z.of_nat fuel -> (0 < fuel)%nat ->
  scan_digits (decimal_aux fuel z acc ++ rest) 0 = scan_digits (acc ++ rest) z.
Proof.
  revert z acc. induction fuel as [|fuel IH]; intros z acc Hz Hf; [lia|]. cbn [decimal_aux].
  pose proof (Z.mod_pos_bound z 10 ltac:(lia)) as Hm. destruct (Z.ltb_spec z 10) as [H|H].
  - cbn [app scan_digits]. rewrite digit_byte by lia. by rewrite Z.mod_small by lia.
  - rewrite Nat2Z.inj_succ, Z.pow_succ_r in Hz by lia.
    assert (fuel <> 0%nat) by (intros ->; cbn in Hz; lia).
    rewrite IH; [|split; [apply Z.div_pos; lia|apply Z.div_lt_upper_bound; lia]|lia].
    cbn [app scan_digits]. rewrite digit_byte by lia. f_equal. pose proof (Z.div_mod z 10). lia.
Qed.

Lemma decimal_head fuel z acc :
  0 <= z -> (0 < fuel)%nat -> exists d l, decimal_aux fuel z acc = byte_of_Z (48 + d) :: l /\ 0 <= d < 10.
Proof.
  revert z acc. induction fuel as [|fuel IH]; intros z acc Hz Hf; [lia|]. cbn [decimal_aux].
  pose proof (Z.mod_pos_bound z 10 ltac:(lia)) as Hm.
  destruct (z <? 10); [by eexists _, _|]. destruct fuel as [|fuel]; [by eexists _, _|].
  apply IH; [apply Z.div_pos; lia|lia].
Qed.

(** A text in which a number ends. *)
Definition no_digit rest : Prop := match rest with [] => True | b :: _ => digit_val b = None end.

Lemma scan_digits_stop rest z : no_digit rest -> scan_digits rest z = (z, rest).
Proof. destruct rest as [|b rest]; [done|]. cbn. by intros ->. Qed.

(** The digits of a number that is not negative. *)
Lemma decimal_digits z rest :
  0 <= z < 10 ^ 20 -> no_digit rest ->
  exists b l d, decimal_aux 20 z [] = b :: l /\ scan_digits (b :: l ++ rest) 0 = (z, rest) /\
    digit_val b = Some d /\ is_space b = false /\ (Z_of_byte b =? 45) = false /\ (Z_of_byte b =? 43) = false.
Proof.
  intros Hz Hr. destruct (decimal_head 20 z []) as (d & l & E & Hd); [lia..|].
  exists (byte_of_Z (48 + d)), l, d. split; [done|].
  pose proof (scan_decimal 20 z [] rest) as S. rewrite E in S. cbn [app] in S. rewrite S by (done || lia).
  rewrite scan_digits_stop by done. split; [done|]. split; [by apply digit_byte|].
  unfold is_space. rewrite Z_of_byte_of_Z, u8_small by lia.
  split_and!; [apply orb_false_iff; split; [|apply andb_false_iff; right]|..]; lia.
Qed.

Lemma scan_number_decimal z rest :
  Z.abs z < 10 ^ 20 -> no_digit rest -> scan_number (decimal z ++ rest) = Some (z, rest).
Proof.
  intros Hz Hr. unfold scan_number, decimal. destruct (Z.ltb_spec z 0) as [Hn|Hn].
  - destruct (decimal_digits (- z) rest) as (b & l & d & -> & S & Hd & H1 & H2 & H3); [lia|done|].
    cbn -[scan_digits digit_val Z_of_byte is_space]. change (is_space (byte_of_Z 45)) with false. cbv iota.
    change (Z_of_byte (byte_of_Z 45) =? 45) with true. cbv iota. rewrite Hd, S. cbv iota. by rewrite Z.opp_involutive.
  - destruct (decimal_digits z rest) as (b & l & d & -> & S & Hd & H1 & H2 & H3); [lia|done|].
    cbn -[scan_digits digit_val Z_of_byte is_space]. rewrite H1. cbv iota. rewrite H2, H3. cbv iota. by rewrite Hd, S.
Qed.

Lemma strtol_decimal z : LONG_MIN <= z <= LONG_MAX -> strtol (decimal z) = (z, []).
Proof.
  intros Hz. unfold LONG_MIN, LONG_MAX in *. unfold strtol. rewrite <- (app_nil_r (decimal z)).
  rewrite scan_number_decimal by (done || lia). f_equal. unfold clamp_long, LONG_MIN, LONG_MAX. lia.
Qed.

Lemma scan_lit_app lit l : scan_lit lit (lit ++ l) = Some l.
Proof. induction lit as [|b lit IH]; [by destruct l|]. cbn. by rewrite bool_decide_eq_true_2. Qed.

Lemma sscanf_chunk_filename sid id :
  is_int sid -> 0 <= id < 2 ^ 64 -> sscanf_chunk (chunk_filename sid id) = (2, Some (i32 sid)).
Proof.
  intros Hs Hi. unfold is_int in Hs. unfold sscanf_chunk, chunk_filename. rewrite scan_lit_app.
  rewrite scan_number_decimal by (done || lia). rewrite scan_lit_app.
  rewrite scan_number_decimal by (done || lia). unfold clamp_long, LONG_MIN, LONG_MAX. do 3 f_equal. lia.
Qed.
End Decimal.

(** ** Accepted command lines *)

Record cfg_ok (c : spy_config_t) : Prop := {
  ck_port : 1 <= port c <= UINT16_MAX;
  ck_master_port : 0 <= master_port c <= UINT16_MAX;
  ck_server_id : server_id c = -1 \/ 1 <= server_id c <= UINT16_MAX;
  ck_n_chunks : 1 <= cf_n_chunks c <= MAX_N_CHUNKS;
  ck_mb_limit : 1 <= mb_limit c <= MAX_MEM_BLOCKS_LIMIT;
  ck_sync : sync c = 0 \/ sync c = 1;
  ck_chunk_size : chunk_size c = DEF_CHUNK_SIZE
}.

Lemma init_ok_cfg : cfg_ok spy_server_init.
Proof. split; vm_compute; intuition (done || discriminate). Qed.

Lemma in_u16_true v rest : in_u16 v rest = true -> 1 <= v <= UINT16_MAX /\ rest = [].
Proof.
  unfold in_u16, UINT16_MAX. intros H. apply negb_true_iff, orb_false_iff in H as [H1 H2].
  apply negb_false_iff, bool_decide_eq_true in H2. split; [lia|done].
Qed.

Lemma option_ok o c c' : cfg_ok c -> spy_option o c = Ret c' -> cfg_ok c'.
Proof.
  intros [K1 K2 K3 K4 K5 K6 K7] H. unfold spy_option in H. destruct (strtol (o_arg o)) as [v rest].
  repeat (case_match; try discriminate); injection H as <-;
    repeat match goal with E : in_u16 _ _ = true |- _ => apply in_u16_true in E as [? _] end;
    split; cbn; try done; try lia.
  all: unfold MAX_MEM_BLOCKS_LIMIT, MAX_N_CHUNKS, DEF_N_CHUNKS, DEF_MEM_BLOCKS_LIMIT in *; lia.
Qed.

Lemma options_ok os c c' : cfg_ok c -> spy_options os c = Ret c' -> cfg_ok c'.
Proof.
  revert c. induction os as [|o os IH]; intros c K H; cbn in H; [by injection H as <-|].
  apply bind_Ret_inv in H as (c1 & E & H). eapply IH; [|done]. by eapply option_ok.
Qed.

(** The parts of a start that succeeds. *)
Lemma main_inv os e c b s :
  spy_main os e = Ret (c, b, s) ->
  cfg_ok c /\ is_Some (master_addr c) /\ master_port c <> 0 /\ server_id c <> -1 /\
  spy_create_or_recover_files (StoreConfig (chunk_size c) (cf_n_chunks c) (server_id c) (data_dir c))
    (data_dir c) (ie_dir e) (ie_create e) empty_store = Ret (b_store b) /\
  spy_setup b = Ret s /\ b_listen_fd b = ie_socket e /\ 0 <= ie_socket e /\ b_event_fd b = ie_event_fd e /\
  b_mb_limit b = mb_limit c.
Proof.
  unfold spy_main, spy_main_setup. intros H. apply bind_Ret_inv in H as (c1 & E1 & H). apply bind_Ret_inv in H as (u & E2 & H).
  apply bind_Ret_inv in H as (fd & _ & H). cbv zeta in H. destruct (Z.ltb_spec (spy_create_listen_socket e) 0); [done|].
  apply bind_Ret_inv in H as (st & E3 & H). apply bind_Ret_inv in H as (s1 & E4 & H). injection H as <- <- <-.
  unfold spy_check_server_options in E2. destruct (_ || _) eqn:Ec; [done|].
  apply orb_false_iff in Ec as [[Ec1 Ec2]%orb_false_iff Ec3]. apply bool_decide_eq_false in Ec1.
  assert (Hl : spy_create_listen_socket e = ie_socket e).
  { unfold spy_create_listen_socket in *. repeat (case_match; try lia). }
  split_and!; cbn; try done; try lia.
  - eapply options_ok; [apply init_ok_cfg|done].
  - destruct (master_addr c1); [by eexists|done].
Qed.

Lemma main_clock os e c b s : spy_main os e = Ret (c, b, s) -> b_clock b = ie_clock e.
Proof.
  unfold spy_main, spy_main_setup. intros H. apply bind_Ret_inv in H as (c1 & _ & H). apply bind_Ret_inv in H as (u & _ & H).
  apply bind_Ret_inv in H as (fd & _ & H). cbv zeta in H. destruct (_ <? 0); [done|].
  apply bind_Ret_inv in H as (st & _ & H). apply bind_Ret_inv in H as (s1 & _ & H). by injection H as _ <- _.
Qed.

Module OptionsProps.
Import SystemProps.

(** A chunk server that gets through its start is safe.  When [main] reaches the
    event loop the configuration is within its limits (ports and group
    id 16 bits wide and given, 1 to [MAX_N_CHUNKS] chunks, 1 to
    [MAX_MEM_BLOCKS_LIMIT] memory blocks), and the process is in an initial state
    of the system whose theorems hold from there: its store is what start-up made
    of the directory, with every chunk findable.  (Chunk files found must carry
    the ids [spy_create_chunk] gives; the two descriptors are different and fit the
    event table.) *)
Lemma main_boots os e c b s es :
  spy_main os e = Ret (c, b, s) -> ie_dir e = Some es -> zlen es < 2 ^ 31 - 1 ->
  Forall (fun x => d_reg x = false) es \/ (forall id, 1 <= id <= n_chunks (b_store b) -> hashed (b_store b) id) ->
  ie_socket e <> ie_event_fd e -> ie_socket e < DEF_MAX_CLIENTS -> 0 <= ie_event_fd e < DEF_MAX_CLIENTS ->
  (1 <= port c <= UINT16_MAX /\ 1 <= master_port c <= UINT16_MAX /\ is_Some (master_addr c) /\
   1 <= server_id c <= UINT16_MAX /\ 1 <= cf_n_chunks c <= MAX_N_CHUNKS /\
   1 <= mb_limit c <= MAX_MEM_BLOCKS_LIMIT /\ (sync c = 0 \/ sync c = 1)) /\
  booted b /\ spy_setup b = Ret s.
Proof.
  intros H Hd He Hid Hne Hfd Hev.
  destruct (main_inv _ _ _ _ _ H) as ([K1 K2 K3 K4 K5 K6 K7] & Ha & Hm & Hs & Hr & Hb & Hl & Hl0 & Hv & Hmb).
  split; [split_and!; try done; lia|]. split; [|done]. rewrite Hd in Hr.
  apply (startup_boots _ _ _ _ (b_store b) b Hr); [done| |done|done|..].
  - cbn. unfold MAX_N_CHUNKS, DEF_N_CHUNKS in K4. lia.
  - by rewrite Hl, Hv.
  - by rewrite Hl.
  - by rewrite Hv.
Qed.

(** The options "-m 10.0.0.9 -r 9000 -g 1", and a directory with one chunk file
    that holds one file. *)
Definition ex_opts : list opt :=
  [Opt 109 (text "10.0.0.9") true; Opt 114 (decimal 9000) true; Opt 103 (decimal 1) true].
Definition ex_init : init_env :=
  InitEnv 5 3 0 1 0 (Some [StoreRecoverProps.ex_entry]) [] 4 true true true true (100, 0)
    (replicate 10 true) false true.

Definition ex_started (x : spy_config_t * boot * server_t) : Prop :=
  let '(c, b, s) := x in n_chunks (b_store b) = 1 /\ chunks (b_store b) = [0%nat] /\
    cell (chunk_index (b_store b)) 1 = [0%nat] /\
    (chunk_id <$> chunk_heap (b_store b) !! 0%nat) = Some 1.

Lemma ex_main : exists x, spy_main ex_opts ex_init = Ret x /\ ex_started x.
Proof. apply (outcome_ret (spy_main ex_opts ex_init) ex_started). vm_compute. split_and!; reflexivity. Qed.

(** The chunks of the example are found by their ids. *)
Lemma ex_started_hashed c b s :
  ex_started (c, b, s) -> forall id, 1 <= id <= n_chunks (b_store b) -> hashed (b_store b) id.
Proof.
  intros (Hn & Hc & Hx & Hid) id Hi. rewrite Hn in Hi. replace id with 1 by lia.
  destruct (chunk_heap (b_store b) !! 0%nat) as [ch|] eqn:E; [|done].
  injection Hid as Hid. exists 0%nat, ch. split; [change (1 mod CHUNK_HASH_SIZE) with 1; rewrite Hx; by left|done].
Qed.

(** The options that take a number: letter, least and greatest value, and the field
    it sets. *)
Definition numeric_options : list (Z * Z * Z * (Z -> spy_config_t -> spy_config_t)) :=
  [(112, 1, UINT16_MAX, set_port); (114, 1, UINT16_MAX, set_master_port); (103, 1, UINT16_MAX, set_server_id);
   (98, 1, MAX_MEM_BLOCKS_LIMIT, set_mb_limit); (99, 1, MAX_N_CHUNKS, set_n_chunks); (102, 0, 1, set_sync)].

Lemma in_u16_range v : in_u16 v [] = (1 <=? v) && (v <=? UINT16_MAX).
Proof. unfold in_u16. rewrite bool_decide_eq_true_2 by done. unfold UINT16_MAX. lia. Qed.

(** A guard that exits outside a range. *)
Lemma exit_outside (out : bool) lo hi v (A : outcome spy_config_t) :
  out = negb ((lo <=? v) && (v <=? hi)) -> (if out then Exit else A) = (if (lo <=? v) && (v <=? hi) then A else Exit).
Proof. intros ->. by destruct (_ && _). Qed.

(** C26: the numbers the program prints are the numbers it reads.  The name
    [spy_create_chunk] gives a chunk file is accepted by the check of file names at
    the next start, for every group id and every chunk id.  Each of the six options
    that take a number ([-p], [-r], [-g], [-b], [-c], [-f]), given as the decimal text
    of any 32-bit integer, sets its field to that number when it is in the option's
    range, and ends the program otherwise. *)
Theorem printed_numbers_read cfg id c ch lo hi set v dup :
  is_int (cfg_server_id cfg) -> 0 <= id < 2 ^ 64 -> (ch, lo, hi, set) ∈ numeric_options -> is_int v ->
  spy_check_filename_format cfg (chunk_filename (cfg_server_id cfg) id) = 0 /\
  spy_option (Opt ch (decimal v) dup) c = (if (lo <=? v) && (v <=? hi) then Ret (set v c) else Exit).
Proof.
  intros Hs Hi Hin Hv. unfold is_int in *. split.
  - unfold spy_check_filename_format. rewrite sscanf_chunk_filename by done.
    rewrite i32_small by lia. by rewrite !Z.eqb_refl.
  - unfold spy_option. cbn [o_arg o_char]. rewrite strtol_decimal by (unfold LONG_MIN, LONG_MAX; lia).
    rewrite i32_small by lia.
    repeat (apply elem_of_cons in Hin as [[= -> -> -> ->]|Hin]); [..|by apply not_elem_of_nil in Hin].
    1-3: by rewrite in_u16_range.
    + destruct (Z.ltb_spec v 0) as [Hn|Hn].
      * rewrite (proj2 (Z.leb_gt 1 v)) by lia. unfold MAX_MEM_BLOCKS_LIMIT, DEF_MEM_BLOCKS_LIMIT. cbn [andb].
        replace (u64 v) with (v + 2 ^ 64) by (unfold u64; apply (Z.mod_unique _ _ (-1)); lia).
        by rewrite (proj2 (Z.ltb_lt (1024 * 5) _)), orb_true_r by lia.
      * rewrite u64_small by lia. apply exit_outside. lia.
    + apply exit_outside. lia.
    + apply exit_outside. lia.
Qed.

Lemma printed_numbers_read_witness :
  spy_check_filename_format (StoreConfig 200 1 7 []) (chunk_filename 7 18446744073709551615) = 0 /\
  spy_option (Opt 99 (decimal 50) true) spy_server_init = Ret (set_n_chunks 50 spy_server_init) /\
  spy_option (Opt 102 (decimal 2) true) spy_server_init = Exit.
Proof.
  assert (Hi : is_int 7 /\ is_int 50 /\ is_int 2) by (unfold is_int; lia).
  assert (Hid : 0 <= 18446744073709551615 < 2 ^ 64) by lia.
  split; [|split].
  - apply (printed_numbers_read (StoreConfig 200 1 7 []) 18446744073709551615 spy_server_init 99 1 MAX_N_CHUNKS
      set_n_chunks 50 true); [apply Hi|exact Hid|do 4 right; left|apply Hi].
  - refine (proj2 (printed_numbers_read (StoreConfig 200 1 7 []) 18446744073709551615 spy_server_init 99 1 MAX_N_CHUNKS
      set_n_chunks 50 true _ _ _ _)); [apply Hi|exact Hid|do 4 right; left|apply Hi].
  - refine (proj2 (printed_numbers_read (StoreConfig 200 1 7 []) 18446744073709551615 spy_server_init 102 0 1
      set_sync 2 true _ _ _ _)); [apply Hi|exact Hid|do 5 right; left|apply Hi].
Defined.

(** The value of an option is cut to an [int] before it is checked: a port beyond
    32 bits is taken for a small one. *)
Lemma wide_port_accepted :
  spy_option (Opt 112 (decimal (2 ^ 32 + 80)) true) spy_server_init = Ret (set_port 80 spy_server_init).
Proof. vm_compute. reflexivity. Qed.

End OptionsProps.
