(* ===== verification/Process.v ===== *)
(** * Process: descriptors, signals and the clock of the server process

    What [main] of [chunkserver/spy_server.c] does to the process it runs in:
    [spy_signal_init] and the handler it installs, [spy_open_log_file] and
    [spy_make_daemonize] (of [spy_utils.c]) on a table of descriptors, the two clock
    readings of [spy_utils.c], and the worker's write to the event descriptor
    ([spy_finish_work_notify] of [spy_work.c]).  Theorems: which descriptors a daemon
    keeps, and when its log is among them; which signals the server survives; a
    start with descriptors and signals is a start of [Options.v]; the notification
    that is retried is the one step of [WorkQueue.v]. *)

From Stdlib Require Import Strings.String.
From stdpp Require Import gmap.
From S2P Require Import Prelude Utils Store StoreRecover Event WorkQueue Server System Startup Options.

(** ** The code *)

Module Process.

(** What a descriptor refers to. *)
Inductive file : Set := DevNull | LogFile | OtherFile (n : Z).

#[export] Instance file_eq_dec : EqDecision file.
Proof. solve_decision. Defined.

Abbreviation fd_table := (gmap Z file).

Definition STDIN_FILENO : Z := 0.
Definition STDOUT_FILENO : Z := 1.
Definition STDERR_FILENO : Z := 2.

(** The lowest descriptor not in use, which [open] gives; [n] bounds the search. *)
Fixpoint free_from (n : nat) (fd : Z) (t : fd_table) : Z :=
  match n with
  | O => fd
  | S n => match t !! fd with None => fd | Some _ => free_from n (fd + 1) t end
  end.
Definition lowest_free (t : fd_table) : Z := free_from (size t) 0 t.

(** [open], [dup2] and [close]; [ok] is whether the system can open the file. *)
Definition sys_open (ok : bool) (f : file) (t : fd_table) : Z * fd_table :=
  if ok then (lowest_free t, <[lowest_free t := f]> t) else (-1, t).
Definition sys_dup2 (oldfd newfd : Z) (t : fd_table) : fd_table :=
  match t !! oldfd with Some f => <[newfd := f]> t | None => t end.
Definition sys_close (fd : Z) (t : fd_table) : fd_table := delete fd t.

(** What is done with a signal, for the three signals [spy_signal_init] names. *)
Inductive signal : Set := SIGHUP | SIGPIPE | SIGTERM.
Inductive sa_flag : Set := SA_RESETHAND | SA_ONSTACK | SA_NODEFER.
Inductive action : Set := SIG_DFL | SIG_IGN | SigAct (flags : list sa_flag).

#[export] Instance signal_eq_dec : EqDecision signal.
Proof. solve_decision. Defined.
#[export] Instance sa_flag_eq_dec : EqDecision sa_flag.
Proof. solve_decision. Defined.

Record process : Type := Proc {
  fds : fd_table;
  leader : bool;              (* [setsid] was called: the process has its own session *)
  on_signal : signal -> action;
  log_fd : Z                  (* [server.log_fd] *)
}.

Definition set_fds t p := Proc t (leader p) (on_signal p) (log_fd p).
Definition set_log_fd fd p := Proc (fds p) (leader p) (on_signal p) fd.
Definition setsid p := Proc (fds p) true (on_signal p) (log_fd p).
Definition sigaction (sig : signal) (a : action) p :=
  Proc (fds p) (leader p) (fun g => if decide (g = sig) then a else on_signal p g) (log_fd p).

Definition spy_sigterm_handler (p : process) : process := p.

Definition spy_signal_init (p : process) : process :=
  let p := sigaction SIGHUP SIG_IGN p in
  let p := sigaction SIGPIPE SIG_IGN p in
  sigaction SIGTERM (SigAct [SA_RESETHAND; SA_ONSTACK; SA_NODEFER]) p.

(** A signal arrives: the default action of the three is to end the process, a
    handler with [SA_RESETHAND] is removed before it runs. *)
Definition deliver (sig : signal) (p : process) : outcome process :=
  match on_signal p sig with
  | SIG_DFL => Exit
  | SIG_IGN => Ret p
  | SigAct flags =>
      let p := if decide (SA_RESETHAND ∈ flags) then sigaction sig SIG_DFL p else p in
      Ret (spy_sigterm_handler p)
  end.

Fixpoint deliver_all (sigs : list signal) (p : process) : outcome process :=
  match sigs with [] => Ret p | g :: sigs => p ← deliver g p; deliver_all sigs p end.

(** [spy_open_log_file], with the descriptor the table gives. *)
Definition open_log (ok : bool) (p : process) : outcome process :=
  let '(fd, t) := sys_open ok LogFile (fds p) in
  if fd <=? 0 then Exit else Ret (set_log_fd fd (set_fds t p)).

(** [fork_ret] is what [fork] returns: the code goes on in the child only. *)
Definition spy_make_daemonize (fork_ret : Z) (ok : bool) (p : process) : outcome process :=
  if negb (fork_ret =? 0) then Exit
  else
    let p := setsid p in
    let '(fd, t) := sys_open ok DevNull (fds p) in
    if negb (fd =? -1) then
      let t := sys_dup2 fd STDIN_FILENO t in
      let t := sys_dup2 fd STDOUT_FILENO t in
      let t := sys_dup2 fd STDERR_FILENO t in
      Ret (set_fds (if STDERR_FILENO <? fd then sys_close fd t else t) p)
    else Ret p.

(** What the system answers to [open] of the log, [fork] and [open] of /dev/null. *)
Record proc_env : Type := ProcEnv { pe_log : bool; pe_fork : Z; pe_null : bool }.

(** [main] with the process it runs in, up to [spy_start_process_events]. *)
Definition main_process (os : list opt) (pe : proc_env) (e : init_env) (p : process)
    : outcome (process * (spy_config_t * boot * server_t)) :=
  let p := spy_signal_init p in
  c ← spy_options os spy_server_init;
  _ ← spy_check_server_options c;
  p ← open_log (pe_log pe) p;
  p ← (if negb (daemonize c =? 0) then spy_make_daemonize (pe_fork pe) (pe_null pe) p else Ret p);
  x ← spy_main_setup c e;
  Ret (p, x).

(** The clock: [tv_sec] and [tv_usec] of [gettimeofday]. *)
Definition spy_current_time_sec (tv : Z * Z) : Z := u64 tv.1.
Definition spy_current_time_usec (tv : Z * Z) : Z := u64 (u64 (u64 (u64 tv.1 * 1000) * 1000) + tv.2).

(** The write of 1 to the event descriptor, whose counter is [count]: 8 bytes when
    the kernel takes them, [EAGAIN] when the counter is full. *)
Fixpoint spy_finish_work_notify (script : list sysret) (count : Z) : outcome (Z * list sysret) :=
  match script with
  | [] => Wait
  | Xfer n :: script => if 0 <=? n then Ret (count + 1, script) else Assert
  | SysErr EAGAIN :: script => spy_finish_work_notify script count
  | SysErr EINTR :: script => spy_finish_work_notify script count
  | SysErr EOTHER :: script => Assert
  end.

(** [spy_get_bind_addr], with [inet_aton] as the resolver: the address in network
    order, or nothing, and then [in] was never written. *)
Definition spy_get_bind_addr (inet_aton : list byte -> option Z) (addr : option (list byte)) : outcome Z :=
  match addr with
  | Some a => match inet_aton a with Some s_addr => Ret s_addr | None => Undef end
  | None => Ret 0
  end.

End Process.
Export Process.

(** ** Descriptors *)

(** A lookup in a table with a few descriptors set. *)
Ltac solve_fd := repeat (rewrite lookup_insert; case_decide; try done; try lia); repeat (case_decide; try done; try lia).

Section Descriptors.
Implicit Types (t : fd_table) (fd k : Z) (p : process).

Lemma free_from_used n fd t k : fd <= k < free_from n fd t -> is_Some (t !! k).
Proof.
  revert fd. induction n as [|n IH]; intros fd H; cbn in H; [lia|].
  destruct (t !! fd) eqn:E; [|lia]. destruct (decide (k = fd)) as [->|]; [done|]. apply (IH (fd + 1)). lia.
Qed.

Lemma free_from_ge n fd t : fd <= free_from n fd t <= fd + Z.of_nat n.
Proof.
  revert fd. induction n as [|n IH]; intros fd; cbn; [lia|].
  destruct (t !! fd); [|lia]. specialize (IH (fd + 1)). lia.
Qed.

Lemma free_from_stops n fd t : free_from n fd t < fd + Z.of_nat n -> t !! free_from n fd t = None.
Proof.
  revert fd. induction n as [|n IH]; intros fd; cbn; [lia|].
  destruct (t !! fd) eqn:E; [|done]. intros H. apply IH. lia.
Qed.

(** As many descriptors below as the table has entries leave no entry for another. *)
Lemma lowest_free_spec t :
  0 <= lowest_free t /\ t !! lowest_free t = None /\ forall k, 0 <= k < lowest_free t -> is_Some (t !! k).
Proof.
  unfold lowest_free. pose proof (free_from_ge (size t) 0 t) as Hb.
  split_and!; [lia| |intros k Hk; by eapply free_from_used].
  destruct (decide (free_from (size t) 0 t < 0 + Z.of_nat (size t))) as [H|H]; [by apply free_from_stops|].
  destruct (t !! free_from (size t) 0 t) eqn:E; [|done]. exfalso.
  assert (S : list_to_set (seqZ 0 (Z.of_nat (S (size t)))) ⊆ dom t).
  { intros k Hk. apply elem_of_list_to_set, elem_of_seqZ in Hk. apply elem_of_dom.
    destruct (decide (k = free_from (size t) 0 t)) as [->|]; [done|]. apply (free_from_used (size t) 0). lia. }
  apply subseteq_size in S. rewrite size_list_to_set, length_seqZ, size_dom in S by apply NoDup_seqZ. lia.
Qed.

Lemma sys_dup2_at t fd k f : t !! fd = Some f -> sys_dup2 fd k t = <[k := f]> t.
Proof. unfold sys_dup2. by intros ->. Qed.

(** The standard descriptors moved to /dev/null, and no other changed. *)
Definition null_std t : fd_table := <[0 := DevNull]> (<[1 := DevNull]> (<[2 := DevNull]> t)).

Lemma daemon_table t fd :
  0 <= fd -> t !! fd = None ->
  (let t1 := sys_dup2 fd 2 (sys_dup2 fd 1 (sys_dup2 fd 0 (<[fd := DevNull]> t))) in
   if 2 <? fd then sys_close fd t1 else t1) = null_std t.
Proof.
  intros H0 Hn. cbv zeta.
  rewrite (sys_dup2_at _ fd 0 DevNull), (sys_dup2_at _ fd 1 DevNull), (sys_dup2_at _ fd 2 DevNull)
    by (repeat (rewrite lookup_insert; case_decide); done).
  unfold sys_close, null_std. apply map_eq. intros k. destruct (Z.ltb_spec 2 fd).
  - destruct (decide (k = fd)) as [->|]; [rewrite lookup_delete_eq; by rewrite !lookup_insert_ne by lia|].
    rewrite lookup_delete_ne by done. solve_fd.
  - assert (fd = 0 \/ fd = 1 \/ fd = 2) as [->|[->| ->]] by lia;
      solve_fd.
Qed.

Lemma daemonize_spec p :
  spy_make_daemonize 0 true p = Ret (set_fds (null_std (fds p)) (setsid p)).
Proof.
  unfold spy_make_daemonize. destruct (lowest_free_spec (fds p)) as (H0 & Hn & _). cbn.
  destruct (Z.eqb_spec (lowest_free (fds p)) (-1)); [lia|]. cbn. do 2 f_equal. by apply daemon_table.
Qed.

Lemma open_log_inv ok p p' :
  open_log ok p = Ret p' ->
  p' = set_log_fd (lowest_free (fds p)) (set_fds (<[lowest_free (fds p) := LogFile]> (fds p)) p) /\
  0 < lowest_free (fds p).
Proof.
  unfold open_log, sys_open. destruct ok; [|by intros]. destruct (Z.leb_spec (lowest_free (fds p)) 0); [done|].
  by intros [= <-].
Qed.
End Descriptors.

(** ** Signals *)

Section Signals.
Implicit Types (p : process) (sigs : list signal).

(** Signals as the server leaves them: [n] terminations are still survived. *)
Definition armed (n : nat) p : Prop :=
  on_signal p SIGHUP = SIG_IGN /\ on_signal p SIGPIPE = SIG_IGN /\
  match n with
  | O => on_signal p SIGTERM = SIG_DFL
  | _ => n = 1%nat /\ exists fl, on_signal p SIGTERM = SigAct fl /\ SA_RESETHAND ∈ fl
  end.

Lemma signal_init_armed p : armed 1 (spy_signal_init p).
Proof.
  split; [done|]. split; [done|]. split; [done|]. exists [SA_RESETHAND; SA_ONSTACK; SA_NODEFER].
  split; [done|]. apply list_elem_of_here.
Qed.

Lemma deliver_ignored n g p : armed n p -> g <> SIGTERM -> deliver g p = Ret p.
Proof. intros (H1 & H2 & _) Hg. unfold deliver. destruct g; [by rewrite H1|by rewrite H2|done]. Qed.

Lemma deliver_term p :
  armed 1 p -> exists p', deliver SIGTERM p = Ret p' /\ armed 0 p' /\ fds p' = fds p /\ log_fd p' = log_fd p.
Proof.
  intros (H1 & H2 & _ & fl & H3 & Hf). unfold deliver. rewrite H3, decide_True by done.
  eexists. split; [done|]. split; [|done]. split_and!; [done..|]. cbn. by rewrite decide_True.
Qed.

Lemma deliver_all_from n sigs p :
  armed n p -> (count_occ signal_eq_dec sigs SIGTERM <= n)%nat <->
  armed n p /\ exists p', deliver_all sigs p = Ret p' /\ fds p' = fds p /\ log_fd p' = log_fd p.
Proof.
  revert n p. induction sigs as [|g sigs IH]; intros n p A.
  - split; [intros _; split; [done|by exists p]|cbn; lia].
  - destruct (decide (g = SIGTERM)) as [->|Hg].
    + rewrite (count_occ_cons_eq signal_eq_dec) by done. destruct n as [|n].
      * split; [lia|]. intros (_ & p' & H & _). cbn in H. unfold deliver in H. destruct A as (_ & _ & A).
        by rewrite A in H.
      * assert (n = 0)%nat as -> by (destruct A as (_ & _ & A & _); lia).
        destruct (deliver_term p A) as (p1 & E & A1 & F & L). cbn [deliver_all]. rewrite E. cbn [mbind].
        rewrite bind_Ret. specialize (IH _ _ A1). rewrite F, L in IH. destruct IH as [I1 I2].
        split; [intros H; split; [done|apply I1; lia]|].
        intros (_ & H). apply le_n_S, I2. done.
    + rewrite (count_occ_cons_neq signal_eq_dec) by congruence. cbn [deliver_all].
      rewrite (deliver_ignored n) by done. rewrite bind_Ret. by apply IH.
Qed.
End Signals.

(** ** What they show *)

Module ProcessProps.

(** A daemon keeps its files.  The child that goes on leads a session of its own,
    its standard input, output and error are /dev/null, and every other descriptor
    is what it was: none is lost, and the one opened on the way is not left behind.
    The log opened before is among those kept exactly when its descriptor is not a
    standard one; a process started with one of those closed logs to /dev/null. *)
Theorem daemon_descriptors ok p p1 :
  open_log ok p = Ret p1 ->
  exists p2, spy_make_daemonize 0 true p1 = Ret p2 /\ leader p2 = true /\ on_signal p2 = on_signal p /\
    (forall fd, fds p2 !! fd = if decide (0 <= fd <= 2) then Some DevNull
                               else if decide (fd = log_fd p2) then Some LogFile else fds p !! fd) /\
    (fds p2 !! log_fd p2 = Some LogFile <-> forall fd, 0 <= fd <= 2 -> is_Some (fds p !! fd)).
Proof.
  intros [-> Hl]%open_log_inv. rewrite daemonize_spec. eexists. split; [done|]. cbn.
  destruct (lowest_free_spec (fds p)) as (_ & Hf & Hu). unfold null_std.
  split; [done|]. split; [done|]. split.
  - intros fd. solve_fd.
  - split.
    + intros H fd Hfd. apply Hu. destruct (decide (lowest_free (fds p) <= 2)); [|lia]. exfalso. revert H.
      solve_fd.
    + intros H. assert (2 < lowest_free (fds p)).
      { destruct (decide (lowest_free (fds p) <= 2)) as [Hc|]; [|lia]. destruct (H (lowest_free (fds p))) as [? E]; [lia|].
        by rewrite Hf in E. }
      solve_fd.
Qed.

(** Signals: hangups and broken pipes, in any number and order, do not touch the
    server; the first termination request does not either (the handler is empty),
    and the second one ends it. *)
Theorem signals_survived sigs p :
  (exists p', deliver_all sigs (spy_signal_init p) = Ret p') <-> (count_occ signal_eq_dec sigs SIGTERM <= 1)%nat.
Proof.
  rewrite (deliver_all_from 1) by apply signal_init_armed. split.
  - intros (p' & H). split; [apply signal_init_armed|]. exists p'. split; [done|].
    clear -H. revert H. generalize (spy_signal_init p) as q. induction sigs as [|g sigs IH]; intros q H; cbn in H.
    + by injection H as ->.
    + apply bind_Ret_inv in H as (q1 & E & H). destruct (IH _ H) as [-> ->]. unfold deliver in E.
      destruct (on_signal q g); [done|by injection E as ->|]. injection E as <-. by case_decide.
  - intros (_ & p' & H & _). by exists p'.
Qed.

(** A start in a process is a start of [Options.v]: the configuration and the server
    it ends with are those [spy_main] computes, and the process is armed, with the
    log open (when the standard descriptors were). *)
Theorem process_start_refines os pe e p p' x :
  main_process os pe e p = Ret (p', x) -> 0 < ie_log_fd e ->
  spy_main os e = Ret x /\ on_signal p' = on_signal (spy_signal_init p) /\
  ((forall fd, 0 <= fd <= 2 -> is_Some (fds p !! fd)) -> pe_null pe = true -> fds p' !! log_fd p' = Some LogFile).
Proof.
  unfold main_process, spy_main. intros H He. apply bind_Ret_inv in H as (c & -> & H).
  apply bind_Ret_inv in H as ([] & Hc & H). rewrite bind_Ret, Hc, bind_Ret. unfold spy_open_log_file.
  destruct (Z.leb_spec (ie_log_fd e) 0); [lia|]. rewrite bind_Ret.
  apply bind_Ret_inv in H as (p1 & Hl & H). apply bind_Ret_inv in H as (p2 & Hd & H).
  apply bind_Ret_inv in H as (y & -> & H). injection H as -> ->. split; [done|].
  pose proof (open_log_inv _ _ _ Hl) as [Ep _]. destruct (negb _).
  - destruct (pe_null pe).
    + destruct (daemon_descriptors _ _ _ Hl) as (p3 & E3 & _ & S3 & _ & L3).
      unfold spy_make_daemonize in Hd. destruct (Z.eqb_spec (pe_fork pe) 0) as [Hf|]; [|done].
      fold (spy_make_daemonize 0 true p1) in Hd.
      assert (spy_make_daemonize 0 true p1 = Ret p') as E4 by exact Hd. rewrite E3 in E4. injection E4 as ->.
      split; [done|]. intros Hs _. by apply L3.
    + unfold spy_make_daemonize in Hd. destruct (negb _); [done|]. cbn in Hd. injection Hd as <-.
      subst p1. by split.
  - injection Hd as <-. subst p1. split; [done|]. intros _ _. cbn. apply lookup_insert_eq.
Qed.

(** The notification a worker sends is one increment of the event counter, however
    often the write is interrupted or refused before. *)
Theorem notify_once script n rest wq :
  Forall (fun r => r = SysErr EAGAIN \/ r = SysErr EINTR) script -> 0 <= n ->
  spy_finish_work_notify (script ++ Xfer n :: rest) (event_count (W := work) wq)
  = Ret (event_count (worker_notify wq), rest).
Proof.
  intros H Hn. induction H as [|r script [-> | ->] _ IH]; [|exact IH..]. cbn.
  by destruct (Z.leb_spec 0 n); [|lia].
Qed.

(** The two clocks agree: microseconds are the seconds and a part of one, for every
    time the 64-bit count can hold (until the year 586912). *)
Theorem clocks_agree tv :
  0 <= tv.1 < 2 ^ 64 / 1000000 -> 0 <= tv.2 < 1000000 ->
  spy_current_time_usec tv / 1000000 = spy_current_time_sec tv /\ spy_current_time_usec tv mod 1000000 = tv.2.
Proof.
  intros H1 H2. assert (tv.1 * 1000000 + tv.2 < 2 ^ 64) by (change (2 ^ 64 / 1000000) with 18446744073709 in H1; lia).
  assert (E : spy_current_time_usec tv = tv.1 * 1000000 + tv.2).
  { unfold spy_current_time_usec. rewrite (u64_small tv.1), (u64_small (tv.1 * 1000)), (u64_small (tv.1 * 1000 * 1000)) by lia.
    rewrite u64_small; lia. }
  rewrite E. unfold spy_current_time_sec. rewrite u64_small by lia.
  rewrite Z.add_comm, Z.div_add, Z.mod_add, Z.div_small, Z.mod_small by lia. lia.
Qed.

(** A process with its three standard descriptors, and one whose output is closed:
    the first daemon has its log on descriptor 3, the second writes it to /dev/null. *)
Definition ex_proc (t : fd_table) : process := Proc t false (fun _ => SIG_DFL) 0.
Definition ex_std : fd_table := {[0 := OtherFile 7; 1 := OtherFile 7; 2 := OtherFile 7]}.

Example daemon_log :
  (let log t := p ← open_log true (ex_proc t); p ← spy_make_daemonize 0 true p; Ret (log_fd p, fds p !! log_fd p) in
   log ex_std = Ret (3, Some LogFile) /\ log (delete 1 ex_std) = Ret (1, Some DevNull)).
Proof. split; vm_compute; reflexivity. Qed.

End ProcessProps.
