(* ===== verification/LoopFrame.v ===== *)
(** * LoopFrame: what handlers leave alone

    [Keeps f m]: program [m] leaves the part [f] of the server's state as it is.
    The functions that work on one connection keep every part that does not
    include connections, buffers, counters and registered descriptors ([Outer]);
    no handler of [chunkserver/spy_server.c] and no job of a worker touches the
    timers of the event loop or its [stop] flag.  The instances follow the
    programs' structure. *)

From S2P Require Import Prelude Utils RwBuffer Store Event WorkQueue Server ServerConn System.

(** The part of the loop that registering and unregistering descriptors leaves
    alone. *)
Definition rest (el : loop_t) : Z * Z * list (aeTimeEvent proc) * bool :=
  (timeEventNextId el, lastTime el, timeEventHead el, el_stop el).
Definition timers (s : server_t) : Z * Z * list (aeTimeEvent proc) * bool := rest (sv_el s).

Class Keeps {V} (f : server_t -> V) {A} (m : M A) : Prop :=
  keeps : forall s a s', m s = Ret (a, s') -> f s' = f s.

(** A part that the work on a connection does not reach. *)
Class Outer {V} (f : server_t -> V) : Prop := {
  outer_conns : forall x s, f (set_conns x s) = f s;
  outer_pool : forall x s, f (set_pool x s) = f s;
  outer_stat : forall x s, f (set_stat x s) = f s;
  outer_events : forall x s, rest x = rest (sv_el s) -> f (set_el x s) = f s
}.

#[export] Instance timers_outer : Outer timers.
Proof. split; done. Qed.
#[export] Instance jview_outer : Outer jview.
Proof. split; done. Qed.

(** ** The structure of programs *)

Section Structure.
Context {V : Type} (f : server_t -> V).

#[export] Instance keeps_bind {A B} (m : M A) (g : A -> M B) :
  Keeps f m -> (forall a, Keeps f (g a)) -> Keeps f (m ≫= g).
Proof.
  intros Hm Hg s b s' H. unfold mbind, prog_bind in H. destruct (m s) as [[a s1]| | | |] eqn:E; try done.
  by rewrite (Hg a _ _ _ H), (Hm _ _ _ E).
Qed.

#[export] Instance keeps_ret {A} (a : A) : Keeps f (mret a).
Proof. by intros s b s' [= _ <-]. Qed.
#[export] Instance keeps_get : Keeps f pget.
Proof. by intros s b s' [= _ <-]. Qed.
#[export] Instance keeps_lift {A} (m : outcome A) : Keeps f (plift m).
Proof. intros s b s' H. unfold plift in H. destruct m; cbn in H; try done. by injection H as _ <-. Qed.
Lemma keeps_mod g : (forall s, f (g s) = f s) -> Keeps f (pmod g).
Proof. intros H s b s' [= _ <-]. apply H. Qed.

End Structure.

(** Instances are found by the name of the program, without unfolding it. *)
#[local] Hint Constants Opaque : typeclass_instances.

(** Follow the structure of a program down to calls with an instance. *)
Ltac frame_mod :=
  apply keeps_mod; intros;
  first [apply outer_conns | apply outer_pool | apply outer_stat | by apply outer_events | reflexivity].
Ltac frame_step :=
  lazymatch goal with
  | |- Keeps _ (_ ≫= _) => apply keeps_bind; [|intros]
  | |- Keeps _ (plift _) => apply keeps_lift
  | |- Keeps _ (pmod _) => frame_mod
  | |- Keeps _ (let _ := _ in _) => cbv zeta
  | |- Keeps _ (match ?x with _ => _ end) => destruct x
  | |- Keeps _ _ => solve [apply _ | auto]
  end.
Tactic Notation "frame" reference(f) := intros; unfold f; repeat frame_step.

(** ** The event table *)

Lemma loop_rest ok now sz (el : loop_t) : aeCreateEventLoop ok now sz = Some el -> rest el = (0, now, [], false).
Proof. unfold aeCreateEventLoop. destruct ok; [|done]. by intros [= <-]. Qed.

Lemma delete_rest (el el' : loop_t) fd mask : aeDeleteFileEvent el fd mask = Ret el' -> rest el' = rest el.
Proof.
  unfold aeDeleteFileEvent. intros E. destruct (setsize _ <=? fd); [by injection E as <-|].
  apply bind_Ret_inv in E as (fe & _ & E). destruct (fe_mask fe =? AE_NONE); [by injection E as <-|].
  apply bind_Ret_inv in E as (ep & _ & E). by injection E as <-.
Qed.

Lemma create_rest ok (el el' : loop_t) fd mask p c r :
  aeCreateFileEvent ok el fd mask p c = Ret (r, el') -> rest el' = rest el.
Proof.
  unfold aeCreateFileEvent. intros E. destruct (setsize _ <=? fd); [by injection E as _ <-|].
  apply bind_Ret_inv in E as (fe & _ & E). apply bind_Ret_inv in E as ([ep|] & _ & E); by injection E as _ <-.
Qed.

Tactic Notation "run_all" hyp(H) reference(f) :=
  unfold f, mbind, prog_bind, pget, plift, pmod, mret, prog_ret, mbind, outcome_bind in H; cbn in H.

(** ** Connections *)

Section Outer.
Context {V : Type} (f : server_t -> V) {O : Outer f}.

#[export] Instance remove_file_event_keeps fd mask : Keeps f (remove_file_event fd mask).
Proof.
  intros s a s' H. run_all H remove_file_event.
  destruct (aeDeleteFileEvent (sv_el s) fd mask) as [el| | | |] eqn:E; try done. injection H as _ <-.
  apply outer_events. by eapply delete_rest.
Qed.

#[export] Instance create_file_event_keeps e fd mask p c : Keeps f (create_file_event e fd mask p c).
Proof.
  intros s a s' H. run_all H create_file_event.
  destruct (aeCreateFileEvent _ (sv_el s) fd mask p c) as [[r el]| | | |] eqn:E; try done.
  injection H as _ <-. apply outer_events. by eapply create_rest.
Qed.

#[export] Instance get_conn_keeps c : Keeps f (get_conn c).
Proof. frame get_conn. Qed.
#[export] Instance put_conn_keeps c cn : Keeps f (put_conn c cn).
Proof. frame put_conn. Qed.
#[export] Instance get_job_keeps j : Keeps f (get_job j).
Proof. frame get_job. Qed.
#[export] Instance get_chunk_keeps p : Keeps f (get_chunk p).
Proof. frame get_chunk. Qed.
#[export] Instance set_reply_keeps c err len st : Keeps f (set_reply c err len st).
Proof. frame set_reply. Qed.
#[export] Instance count_keeps g : Keeps f (count g).
Proof. frame count. Qed.
#[export] Instance reset_buffers_keeps c : Keeps f (reset_buffers c).
Proof. frame reset_buffers. Qed.
#[export] Instance free_connection_keeps c : Keeps f (spy_free_client_connection c).
Proof. frame spy_free_client_connection. Qed.
#[export] Instance send_response_keeps e c : Keeps f (spy_send_response_if_needed e c).
Proof. frame spy_send_response_if_needed. Qed.
#[export] Instance reply_body_keeps e c : Keeps f (spy_reply_body e c).
Proof. frame spy_reply_body. Qed.
#[export] Instance reply_header_keeps e c : Keeps f (spy_reply_header e c).
Proof. frame spy_reply_header. Qed.
#[export] Instance reset_connection_keeps e c : Keeps f (spy_reset_client_connection e c).
Proof. frame spy_reset_client_connection. Qed.
#[export] Instance reply_error_keeps e c err : Keeps f (reply_error e c err).
Proof. frame reply_error. Qed.
#[export] Instance write_loop_keeps script c out : Keeps f (write_handler_loop script c out).
Proof. revert out. induction script as [|r l IH]; frame write_handler_loop. Qed.
#[export] Instance write_handler_keeps e script c : Keeps f (spy_write_handler e script c).
Proof. frame spy_write_handler. Qed.
#[export] Instance expand_rsp_keeps n c size : Keeps f (expand_rsp_loop n c size).
Proof. induction n; frame expand_rsp_loop. Qed.
#[export] Instance reply_with_body_keeps e c body : Keeps f (reply_with_body e c body).
Proof. frame reply_with_body. Qed.
#[export] Instance query_io_keeps e c : Keeps f (spy_query_io_status e c).
Proof. frame spy_query_io_status. Qed.
#[export] Instance query_detail_keeps e c : Keeps f (spy_query_detail_infos e c).
Proof. frame spy_query_detail_infos. Qed.
#[export] Instance ping_keeps e c : Keeps f (spy_handle_ping e c).
Proof. frame spy_handle_ping. Qed.
#[export] Instance read_request_keeps c n : Keeps f (read_request c n).
Proof. frame read_request. Qed.
#[export] Instance receive_header_keeps c : Keeps f (receive_header c).
Proof. frame receive_header. Qed.
#[export] Instance expand_request_keeps n c : Keeps f (expand_request_loop n c).
Proof. induction n; frame expand_request_loop. Qed.
#[export] Instance create_connection_keeps e fd : Keeps f (spy_create_client_connection e fd).
Proof. frame spy_create_client_connection. Qed.
#[export] Instance accept_keeps e fd : Keeps f (spy_accept_handler e fd).
Proof. frame spy_accept_handler. Qed.

End Outer.

(** ** Jobs, requests, periodic work and works keep the timers *)

#[export] Instance put_job_keeps j job : Keeps timers (put_job j job).
Proof. frame put_job. Qed.
#[export] Instance put_chunk_keeps p ch : Keeps timers (put_chunk p ch).
Proof. frame put_chunk. Qed.
#[export] Instance queue_work_keeps e w : Keeps timers (queue_work e w).
Proof. frame queue_work. Qed.
#[export] Instance gen_io_job_keeps : Keeps timers spy_gen_io_job.
Proof. frame spy_gen_io_job. Qed.
#[export] Instance free_io_job_keeps j : Keeps timers (spy_free_io_job j).
Proof. frame spy_free_io_job. Qed.
#[export] Instance read_file_done_keeps e j : Keeps timers (spy_read_file_done e j).
Proof. frame spy_read_file_done. Qed.
#[export] Instance reuse_chunk_keeps e p ch : Keeps timers (reuse_chunk e p ch).
Proof. frame reuse_chunk. Qed.
#[export] Instance write_file_done_keeps e j : Keeps timers (spy_write_file_done e j).
Proof. frame spy_write_file_done. Qed.
#[export] Instance check_chunk_done_keeps e j : Keeps timers (spy_check_chunk_done e j).
Proof. frame spy_check_chunk_done. Qed.
#[export] Instance dump_done_keeps e d : Keeps timers (spy_dump_chunkfile_done e d).
Proof. frame spy_dump_chunkfile_done. Qed.
#[export] Instance work_done_keeps e w : Keeps timers (work_done e w).
Proof. frame work_done. Qed.
#[export] Instance done_loop_keeps e l : Keeps timers (done_loop e l).
Proof. induction l; frame done_loop. Qed.
#[export] Instance wq_thread_done_keeps e : Keeps timers (spy_wq_thread_done e).
Proof. frame spy_wq_thread_done. Qed.
#[export] Instance kill_loop_keeps e l : Keeps timers (kill_loop e l).
Proof. induction l; frame kill_loop. Qed.
#[export] Instance kill_pending_keeps e c : Keeps timers (spy_kill_pending_writes e c).
Proof. frame spy_kill_pending_writes. Qed.
#[export] Instance submit_write_keeps e c j fid len p : Keeps timers (submit_write e c j fid len p).
Proof. frame submit_write. Qed.
#[export] Instance handle_write_keeps e c : Keeps timers (spy_handle_write e c).
Proof. frame spy_handle_write. Qed.
#[export] Instance handle_read_keeps e c : Keeps timers (spy_handle_read e c).
Proof. frame spy_handle_read. Qed.
#[export] Instance check_disk_keeps e c : Keeps timers (spy_handle_check_disk e c).
Proof. frame spy_handle_check_disk. Qed.
#[export] Instance dump_chunk_keeps e c : Keeps timers (spy_dump_chunk e c).
Proof. frame spy_dump_chunk. Qed.
#[export] Instance dispatch_keeps e c op : Keeps timers (dispatch e c op).
Proof. frame dispatch. Qed.
#[export] Instance receive_buffer_keeps e c : Keeps timers (spy_process_receive_buffer e c).
Proof. frame spy_process_receive_buffer. Qed.
#[export] Instance read_handler_keeps e r c : Keeps timers (spy_read_handler e r c).
Proof. frame spy_read_handler. Qed.
#[export] Instance report_keeps e : Keeps timers (spy_report_server_infos e).
Proof. frame spy_report_server_infos. Qed.
#[export] Instance timeout_loop_keeps e l : Keeps timers (timeout_loop e l).
Proof. induction l; frame timeout_loop. Qed.
#[export] Instance remove_timeout_keeps e : Keeps timers (spy_remove_timeout_pending_writes e).
Proof. frame spy_remove_timeout_pending_writes. Qed.
#[export] Instance cron_keeps e : Keeps timers (spy_server_cron e).
Proof. frame spy_server_cron. Qed.
#[export] Instance call_keeps a p fd d mask : Keeps timers (call a p fd d mask).
Proof. frame call. Qed.
#[export] Instance process_fired_keeps a fd mask : Keeps timers (process_fired sv_el (call a) fd mask).
Proof. frame process_fired. all: unfold call_proc; repeat frame_step. Qed.
#[export] Instance run_write_keeps script now ds j job p ch d : Keeps timers (run_write script now ds j job p ch d).
Proof. frame run_write. Qed.
#[export] Instance run_read_keeps script ds j job d : Keeps timers (run_read script ds j job d).
Proof. frame run_read. Qed.
#[export] Instance run_io_keeps script now rand ds j : Keeps timers (run_io script now rand ds j).
Proof. frame run_io. Qed.
#[export] Instance run_dump_keeps script ds d : Keeps timers (run_dump script ds d).
Proof. frame run_dump. Qed.
#[export] Instance run_work_keeps script now rand ds w : Keeps timers (run_work script now rand ds w).
Proof. frame run_work. Qed.

(** The report is outside what jobs and chunks are about. *)
#[export] Instance report_jview e : Keeps jview (spy_report_server_infos e).
Proof. frame spy_report_server_infos. Qed.

(** The pending writes are outside what the report is about. *)
#[export] Instance sv_report_outer : Outer sv_report.
Proof. split; done. Qed.
#[export] Instance free_io_job_report j : Keeps sv_report (spy_free_io_job j).
Proof. frame spy_free_io_job. Qed.
#[export] Instance timeout_loop_report e l : Keeps sv_report (timeout_loop e l).
Proof. induction l; frame timeout_loop. Qed.
#[export] Instance remove_timeout_report e : Keeps sv_report (spy_remove_timeout_pending_writes e).
Proof. frame spy_remove_timeout_pending_writes. Qed.
