(* ===== verification/MainLoop.v ===== *)
(** * MainLoop: the event loop running the server

    [aeMain] of [chunkserver/spy_event.c] with the handlers of the server, the
    worker threads between its steps, and the operating system as a parameter.
    Every state it passes is reachable in the transition system of [System.v], so
    that the theorems there are about this loop; it makes no undefined access and
    it never returns; the periodic work runs when its timer is due and is set
    again. *)

From S2P Require Import Prelude Utils RwBuffer Store StoreFile StoreDump Event WorkQueue.
From S2P Require Import Server ServerConn ServerJobs ServerSafe StoreRecover System ServerProps LoopFrame Options.

Module MainLoop.

(** ** The worker threads *)

(** One move of a worker: take the next work, run the [i]-th work under way with
    the given answers of the kernel, or end. *)
Inductive move : Type :=
| MTake
| MRun (i : nat) (script : list sysret) (now rand : Z)
| MShrink.

Definition exec_move (v : move) (x : sys) : outcome sys :=
  let s := srv x in
  match v with
  | MTake =>
      match worker_take (sv_wq s) with
      | Some (w, q) => Ret (Sys (set_wq q s) (w :: running x) (disks x))
      | None => Ret x
      end
  | MRun i script now rand =>
      match running x !! i with
      | Some w =>
          '(ds, s) ← run_work script now rand (disks x) w s;
          Ret (Sys (set_wq (worker_notify (worker_post w (sv_wq s))) s) (delete i (running x)) ds)
      | None => Ret x
      end
  | MShrink => Ret (Sys (set_wq (worker_shrink (sv_wq s)) s) (running x) (disks x))
  end.

(** ** The operating system

    What it answers at the [n]-th time it is asked, in a given state of the
    process; [k_moves] and [k_move] are the scheduler's choices: how many moves
    the workers make at that point, and which. *)
Record kernel : Type := Kernel {
  k_epoll : nat -> sys -> Z -> Z -> option (list (Z * Z));
  k_answers : nat -> sys -> answers;
  k_env : nat -> sys -> env;
  k_clock : nat -> clock;
  k_time : nat -> Z;
  k_moves : nat -> nat;
  k_move : nat -> sys -> move
}.

(** The process: how often the system has been asked, what it will answer to the
    calls of the next handler, and the state. *)
Record machine : Type := Machine { m_step : nat; m_ans : answers; m_sys : sys }.

Definition m_el (m : machine) : loop_t := sv_el (srv (m_sys m)).
Definition set_m_el (el : loop_t) (m : machine) : machine :=
  let x := m_sys m in
  Machine (m_step m) (m_ans m) (Sys (set_el el (srv x)) (running x) (disks x)).
Definition set_m_sys (x : sys) (m : machine) : machine := Machine (m_step m) (m_ans m) x.

(** A program of the main thread. *)
Definition on_srv {A} (p : M A) : prog machine A := fun m =>
  '(a, s) ← p (srv (m_sys m));
  Ret (a, set_m_sys (Sys s (running (m_sys m)) (disks (m_sys m))) m).

(** Ask the system. *)
Definition ask : prog machine nat := fun m => Ret (m_step m, Machine (S (m_step m)) (m_ans m) (m_sys m)).

Section Loop.
Context (k : kernel).

Definition m_epoll_wait (size timeout : Z) : prog machine (option (list (Z * Z))) :=
  n ← ask; m ← pget; mret (k_epoll k n (m_sys m) size timeout).
Definition m_gettime : prog machine clock := n ← ask; mret (k_clock k n).
Definition m_time : prog machine Z := n ← ask; mret (k_time k n).

Fixpoint m_workers (count : nat) : prog machine unit :=
  match count with
  | O => mret tt
  | S count' =>
      n ← ask;
      m ← pget;
      x ← plift (exec_move (k_move k n (m_sys m)) (m_sys m));
      _ ← pmod (set_m_sys x);
      m_workers count'
  end.
Definition m_preempt : prog machine unit :=
  n ← ask;
  _ ← m_workers (k_moves k n);
  pmod (fun m => Machine (m_step m) (k_answers k n (m_sys m)) (m_sys m)).

Definition m_call (p : proc) (fd : Z) (d : option connptr) (mask : Z) : prog machine unit :=
  m ← pget; on_srv (call (m_ans m) p fd d mask).
(** The only time handler. *)
Definition m_tick (p : proc) (id : Z) : prog machine Z :=
  match p with
  | P_server_cron => n ← ask; m ← pget; on_srv (spy_server_cron (k_env k n (m_sys m)))
  | _ => plift Undef
  end.

Definition server_time_events : nat -> prog machine Z :=
  processTimeEvents m_el set_m_el m_tick m_gettime m_time m_preempt.
Definition server_round (fuel : nat) : prog machine Z :=
  aeProcessEvents m_el set_m_el m_call m_tick m_epoll_wait m_gettime m_time m_preempt fuel AE_ALL_EVENTS.
(** [spy_start_process_events(server.event_loop)], which is [aeMain]. *)
Definition server_main : nat -> nat -> prog machine unit :=
  aeMain m_el set_m_el m_call m_tick m_epoll_wait m_gettime m_time m_preempt.

Fixpoint server_rounds (n fuel : nat) : prog machine unit :=
  match n with
  | O => mret tt
  | S n' => _ ← server_round fuel; server_rounds n' fuel
  end.

End Loop.

(** The timer of the periodic work. *)
Abbreviation cron_timer sec ms := (AeTimeEvent 0 sec ms P_server_cron).

(** What is assumed of the system: [epoll_wait] reports at most as many
    descriptors as it is asked for, and only those it watches; [accept4] and
    [rand()] as in [fair]; milliseconds are below 1000; the socket of a client
    that asked for a dump refuses the six bytes of the reply header or takes them
    in one write (see [dump_needs_whole_header] for what happens otherwise). *)
Record kernel_ok (b : boot) (k : kernel) : Prop := {
  ko_epoll : forall n x size timeout evs, k_epoll k n x size timeout = Some evs ->
    zlen evs <= size /\ forall fd e, (fd, e) ∈ evs -> is_Some (epoll (sv_el (srv x)) !! fd);
  ko_fair : forall n x, fair b (k_answers k n x) (srv x);
  ko_clock : forall n, 0 <= (k_clock k n).2 < 1000;
  ko_dump : forall n x i script now rand d, k_move k n x = MRun i script now rand ->
    running x !! i = Some (WDump d) -> header_whole script
}.

(** Moves of the workers and nothing else. *)
Definition workers_moved : sys -> sys -> Prop := rtc (fun x y => exists v, exec_move v x = Ret y).

(** The state with the timers of the loop set. *)
Definition timed (last : Z) (ts : list (aeTimeEvent proc)) (x : sys) : sys :=
  Sys (set_el (with_timers 1 last ts (sv_el (srv x))) (srv x)) (running x) (disks x).

(** What one run of the periodic work does: unless the agent holds the lock, the
    report is made anew from the counters and the free space of the server it
    finds; and of the pending writes those that have waited their time, and no
    others, are dropped from the front of the list. *)
Definition cron_done (e : env) (s s' : server_t) : Prop :=
  (ri_lock (sv_report s) = 0 -> exists total mx, spy_collect_free_space s = Ret (total, mx) /\
     sv_report s' = SpyReportInfo 0 (i32 (pending_writes_size s)) (i32 (writing_count (sv_stat s)))
       (i32 (reading_count (sv_stat s))) (n_chunks (sv_store s)) (i32 (conn_count (sv_stat s)))
       (e_status e) total mx) /\
  exists old, pending_writes s = old ++ pending_writes s' /\ Forall (expired e (io_jobs s)) old /\
    match pending_writes s' with [] => True | j :: _ => ~ expired e (io_jobs s) j end.

End MainLoop.
Export MainLoop.

(** The periodic work in a state of the invariant. *)
Lemma cron_ran {G : Guard} svc pre lim CH ws e s r s' :
  sv_inv svc pre lim CH ws [] s -> spy_server_cron e s = Ret (r, s') -> r = 1000 /\ cron_done e s s'.
Proof.
  intros I H. pose proof (si_jobs _ _ _ _ _ _ _ I) as J.
  destruct (cron_exact e s r s') as (-> & old & H1 & H2 & _ & _ & H3); [|apply J|exact H|].
  { pose proof (ji_nodup _ _ _ J) as N. cbn in N. by apply NoDup_app in N as (_ & _ & [? _]%NoDup_app). }
  split; [done|]. split; [|by exists old]. intros Hl. unfold spy_server_cron in H.
  apply prun_inv in H as ([] & s1 & E1 & H). apply prun_inv in H as ([] & s2 & E2 & [= <-]).
  rewrite (remove_timeout_report _ _ _ _ E2). unfold spy_report_server_infos in E1.
  apply prun_inv in E1 as (s3 & s4 & [= <- <-] & E1). rewrite Hl in E1. cbn [negb Z.eqb] in E1.
  apply prun_inv in E1 as ([total mx] & s3 & [Ec ->]%prun_lift_inv & [= <-]). by exists total, mx.
Qed.

(** ** The loop stays within the transition system *)

Section Refine.
Context (b : boot) (k : kernel) (Hb : SystemProps.booted b) (K : kernel_ok b k) {mw : MayWait}.
(** The works that are run get the answers they need. *)
Context (Hmv : may_wait \/ forall n x, exec_move (k_move k n x) x <> Wait).
(** An earlier state. *)
Context (x0 : sys).

(** The process is in a reachable state of the system, which follows [x0]; its
    loop is not stopped and has the one timer of start-up. *)
Record loop_inv (m : machine) : Prop := {
  li_reach : sys_reachable b (m_sys m);
  li_from : rtc (sys_step b) x0 (m_sys m);
  li_stop : el_stop (m_el m) = false;
  li_next : timeEventNextId (m_el m) = 1;
  li_timer : exists sec ms, timeEventHead (m_el m) = [AeTimeEvent 0 sec ms P_server_cron] /\ 0 <= ms < 1000
}.

Lemma loop_inv_step m m' :
  loop_inv m -> sys_step b (m_sys m) (m_sys m') -> rest (m_el m') = rest (m_el m) -> loop_inv m'.
Proof.
  intros [I1 If I2 I3 I4] Hst Hr. injection Hr as R1 _ R3 R4.
  split; [by eapply sys_next|by eapply rtc_r|by rewrite R4|by rewrite R1|by rewrite R3].
Qed.

Lemma loop_inv_same m m' : loop_inv m -> m_sys m' = m_sys m -> loop_inv m'.
Proof. intros [I1 If I2 I3 I4] E. unfold m_el in *. split; unfold m_el; by rewrite E. Qed.

Lemma loop_inv_sys m : loop_inv m -> sys_inv b (m_sys m).
Proof. intros I. apply SystemProps.reachable_parts; [exact Hb|apply I]. Qed.

(** Setting the timers again. *)
Lemma loop_inv_timers m last sec ms :
  loop_inv m -> 0 <= ms < 1000 ->
  loop_inv (set_m_el (with_timers (timeEventNextId (m_el m)) last [AeTimeEvent 0 sec ms P_server_cron] (m_el m)) m).
Proof.
  intros [I1 If I2 I3 I4] Hms. destruct m as [n a [s ws ds]]. cbn in *. split; try done; [| |by exists sec, ms].
  - eapply sys_next; [exact I1|]. apply step_timers.
  - eapply rtc_r; [exact If|]. apply step_timers.
Qed.

Lemma wp_ask (Q : nat -> machine -> Prop) m :
  Q (m_step m) (Machine (S (m_step m)) (m_ans m) (m_sys m)) -> wp ask Q m.
Proof. done. Qed.

(** *** The workers *)

Lemma exec_move_ok v x :
  sys_inv b x ->
  (forall i script now rand d, v = MRun i script now rand -> running x !! i = Some (WDump d) ->
     header_whole script) ->
  exec_move v x <> Undef /\
  forall y, exec_move v x = Ret y -> (y = x \/ sys_step b x y) /\ rest (sv_el (srv y)) = rest (sv_el (srv x)).
Proof.
  intros I Hd. destruct x as [s ws ds]. destruct v as [|i script now rand|]; cbn.
  - destruct (worker_take (sv_wq s)) as [[w q]|] eqn:E; (split; [done|]); intros y [= <-]; [|by split; [left|]].
    split; [|done]. right. by apply step_take.
  - destruct (ws !! i) as [w|] eqn:E; [|split; [done|]; intros y [= <-]; by split; [left|]].
    assert (Hs : run_work script now rand ds w s <> Undef).
    { destruct w as [j|d]; [|eapply run_dump_safe; [apply I..|by eapply list_elem_of_lookup_2|by eapply Hd]].
      eapply (running_safe b (Sys s ws ds) (WIo j)); [exact I|by eapply list_elem_of_lookup_2|done]. }
    destruct (run_work script now rand ds w s) as [[ds' s']| | | |] eqn:Ew; try (by split; intros).
    split; [done|]. intros y [= <-]. split; [|exact (run_work_keeps _ _ _ _ _ _ _ _ Ew)].
    right. rewrite <- (take_drop_middle ws i w E) at 1. rewrite delete_take_drop.
    by eapply step_run.
  - split; [done|]. intros y [= <-]. split; [|done]. right. apply step_shrink.
Qed.

Lemma workers_ok n m :
  loop_inv m -> wp (m_workers k n) (fun _ m' => loop_inv m' /\ rest (m_el m') = rest (m_el m) /\
    m_step m' = (m_step m + n)%nat /\ workers_moved (m_sys m) (m_sys m')) m.
Proof.
  revert m. induction n as [|n IH]; intros m I; cbn; wp_steps; [split_and!; [done..|by rewrite Nat.add_0_r|apply rtc_refl]|].
  apply wp_ask. wp_steps. cbn.
  destruct (exec_move_ok (k_move k (m_step m) (m_sys m)) (m_sys m)) as [Hs Hr];
    [by apply loop_inv_sys|intros i script now rand d Hv Hw; by eapply (ko_dump _ _ K)|].
  apply wp_lift_any; [done|destruct Hmv as [|Hn]; [done|]; by intros ?%Hn|].
  intros x Hx. destruct (Hr x Hx) as [R Hrest]. wp_steps. eapply wp_mono; [apply IH|].
  - destruct R as [->|R]; [by eapply loop_inv_same|]. eapply loop_inv_step; [exact I|exact R|exact Hrest].
  - cbn. intros _ m' (I' & R' & -> & V). split_and!; [done|by rewrite R'|lia|].
    eapply rtc_l; [by eexists|exact V].
Qed.

Lemma preempt_ok m :
  loop_inv m -> wp (m_preempt k) (fun _ m' => loop_inv m' /\ fair b (m_ans m') (srv (m_sys m')) /\
    rest (m_el m') = rest (m_el m) /\ m_step m' = (m_step m + 1 + k_moves k (m_step m))%nat /\
    workers_moved (m_sys m) (m_sys m')) m.
Proof.
  intros I. unfold m_preempt. wp_step. apply wp_ask. wp_use workers_ok; [by eapply loop_inv_same|].
  cbn. intros _ m1 (I1 & R1 & S1 & V1). wp_steps. cbn.
  split_and!; [by eapply loop_inv_same|apply K|exact R1|lia|exact V1].
Qed.

(** *** File events *)

(** A program on the machine that is one on the server, while the answers are [a]. *)
Definition lifts {A} (a : answers) (q : prog machine A) (p : M A) : Prop :=
  forall m, m_ans m = a -> q m = on_srv p m.

Lemma lifts_bind {A B} a (q : prog machine A) (p : M A) (g : A -> prog machine B) (f : A -> M B) :
  lifts a q p -> (forall x, lifts a (g x) (f x)) -> lifts a (q ≫= g) (p ≫= f).
Proof.
  intros Hq Hg m Hm. unfold mbind, prog_bind. rewrite Hq by done. unfold on_srv at 1 2.
  destruct (p (srv (m_sys m))) as [[x s]| | | |]; cbn; try done. by rewrite Hg.
Qed.

Lemma lifts_slot {B} a fd (g : aeFileEvent proc connptr -> prog machine B) f :
  (forall fe, lifts a (g fe) (f fe)) ->
  lifts a (m ← pget; fe ← plift (ev_at (m_el m) fd); g fe) (s ← pget; fe ← plift (ev_at (sv_el s) fd); f fe).
Proof.
  intros Hg m Hm. unfold mbind, prog_bind, pget, plift, on_srv, m_el. cbn.
  destruct (ev_at (sv_el (srv (m_sys m))) fd) as [fe| | | |]; cbn; try done. by rewrite Hg.
Qed.

Lemma lifts_call a p fd d mask : lifts a (call_proc m_call p fd d mask) (call_proc (call a) p fd d mask).
Proof. intros m <-. by destruct p. Qed.

Lemma lifts_ret {A} a (x : A) : lifts a (mret x) (mret x).
Proof. by intros [n b' [s ws ds]] Hm. Qed.

(** The loop on the machine is the loop on the server. *)
Lemma lifts_process_fired a fd mask :
  lifts a (process_fired m_el m_call fd mask) (process_fired sv_el (call a) fd mask).
Proof.
  unfold process_fired. apply lifts_slot. intros fe. cbv zeta. apply lifts_bind.
  - destruct (negb _); [apply lifts_call|apply lifts_ret].
  - intros _. apply lifts_slot. intros fe'. destruct (negb (_ =? 0)); [|apply lifts_ret].
    destruct (_ || _); [apply lifts_call|apply lifts_ret].
Qed.

Lemma on_srv_ok {A} (p : M A) (Q : A -> server_t -> Prop) (R : A -> machine -> Prop) m :
  wp p Q (srv (m_sys m)) ->
  (forall a s, Q a s -> p (srv (m_sys m)) = Ret (a, s) ->
     R a (set_m_sys (Sys s (running (m_sys m)) (disks (m_sys m))) m)) ->
  wp (on_srv p) R m.
Proof.
  intros W H. rewrite wp_def. rewrite wp_def in W. unfold on_srv.
  destruct (p (srv (m_sys m))) as [[a s]| | | |]; cbn; auto.
Qed.

Lemma fired_ok m fd mask :
  may_wait -> loop_inv m -> fair b (m_ans m) (srv (m_sys m)) -> 0 <= fd < DEF_MAX_CLIENTS ->
  wp (process_fired m_el m_call fd mask) (fun _ => loop_inv) m.
Proof.
  intros Hw I Hf Hfd. pose proof (loop_inv_sys _ I) as [Is _].
  eapply wp_ext; [by apply lifts_process_fired|].
  eapply on_srv_ok; [eapply process_fired_ok; [apply no_guard_off|apply no_guard_busy|apply no_guard_jobs|by left|exact Is|done|apply Hf|apply Hf]|].
  intros [] s' _ E. eapply loop_inv_step; [exact I| |exact (process_fired_keeps _ _ _ _ _ _ E)].
  destruct m as [n a [s ws ds]]. cbn in *. by eapply step_event.
Qed.

(** The kernel watches only descriptors of the table. *)
Lemma watched_in_table m fd :
  loop_inv m -> is_Some (epoll (m_el m) !! fd) -> 0 <= fd < DEF_MAX_CLIENTS.
Proof.
  intros I [e He]. destruct (loop_inv_sys _ I) as [Is _]. destruct (si_env _ _ _ _ _ _ _ Is) as [CI _].
  pose proof (ci_ev _ _ _ _ CI) as E. rewrite <- (ci_size _ _ _ _ CI), <- (ei_len _ E).
  unfold m_el in He. rewrite (ei_epoll _ E) in He. unfold mask_of in He.
  destruct (Z.ltb_spec fd 0); [done|]. destruct (events _ !! Z.to_nat fd) eqn:El; [|done].
  apply lookup_lt_Some in El. unfold zlen. lia.
Qed.

Lemma fill_fired_ok size j evs :
  0 <= j -> j + zlen evs <= size ->
  exists fired, fill_fired size j evs = Ret fired /\
    forall fd mask, (fd, mask) ∈ fired -> exists e, (fd, e) ∈ evs.
Proof.
  revert j. induction evs as [|[fd e] evs IH]; intros j Hj Hs; cbn.
  { exists []. split; [done|]. by intros ? ? ?%not_elem_of_nil. }
  rewrite zlen_cons in Hs. pose proof (zlen_nonneg evs). destruct (Z.leb_spec size j); [lia|].
  destruct (IH (j + 1)) as (fired & -> & Hf); [lia|lia|]. cbn. eexists. split; [done|].
  intros fd' mask [[= -> _]|Hin]%elem_of_cons; [exists e; by left|].
  destruct (Hf _ _ Hin) as [e' He']. exists e'. by right.
Qed.

Lemma poll_ok timeout m :
  loop_inv m ->
  wp (aeApiPoll m_el (m_epoll_wait k) timeout) (fun fired m' => loop_inv m' /\
    forall fd mask, (fd, mask) ∈ fired -> 0 <= fd < DEF_MAX_CLIENTS) m.
Proof.
  intros I. unfold aeApiPoll, m_epoll_wait. wp_steps. apply wp_ask. wp_steps. cbn.
  destruct (k_epoll k _ _ _ _) as [evs|] eqn:E; wp_steps.
  - destruct (ko_epoll _ _ K _ _ _ _ _ E) as [Hn Hw].
    destruct (fill_fired_ok (setsize (m_el m)) 0 evs) as (fired & Ef & Hf); [lia|lia|].
    eapply wp_lift; [exact Ef|]. split; [by eapply loop_inv_same|]. intros fd mask Hin.
    destruct (Hf _ _ Hin) as [e He]. eapply watched_in_table; [exact I|]. by eapply Hw.
  - split; [by eapply loop_inv_same|]. by intros ? ? ?%not_elem_of_nil.
Qed.

Lemma all_fired_ok fired m :
  may_wait -> loop_inv m -> (forall fd mask, (fd, mask) ∈ fired -> 0 <= fd < DEF_MAX_CLIENTS) ->
  wp (process_all_fired m_el m_call (m_preempt k) fired) (fun _ => loop_inv) m.
Proof.
  intros Hw. revert m. induction fired as [|[fd mask] fired IH]; intros m I Hf; cbn; [by wp_steps|].
  wp_use preempt_ok; [done|]. intros _ m1 (I1 & F1 & _).
  wp_use fired_ok; [done|done|done|eapply Hf; by left|]. intros _ m2 I2. apply IH; [done|].
  intros fd' mask' Hin. eapply Hf. by right.
Qed.

(** *** Timers *)

(** The machine after the system has been asked once. *)
Definition later (m : machine) : machine := Machine (S (m_step m)) (m_ans m) (m_sys m).

Lemma gettime_ok m (R : clock -> machine -> Prop) :
  loop_inv m -> (loop_inv (later m) -> R (k_clock k (m_step m)) (later m)) -> wp (m_gettime k) R m.
Proof.
  intros I H. unfold m_gettime. wp_step. apply wp_ask. wp_steps. apply H. by eapply loop_inv_same.
Qed.

Lemma cron_ok m :
  loop_inv m -> wp (m_tick k P_server_cron 0) (fun r m' => loop_inv m' /\ r = 1000 /\
    rest (m_el m') = rest (m_el m) /\ m_step m' = S (m_step m) /\
    cron_done (k_env k (m_step m) (m_sys m)) (srv (m_sys m)) (srv (m_sys m')) /\
    running (m_sys m') = running (m_sys m) /\ disks (m_sys m') = disks (m_sys m)) m.
Proof.
  intros I. cbn. wp_step. apply wp_ask. wp_steps. cbn. set (e := k_env k _ _). clearbody e.
  destruct (loop_inv_sys _ I) as [Is _].
  eapply on_srv_ok; [eapply server_cron_ok; exact Is|]. cbn. intros r s' _ E.
  pose proof (cron_keeps _ _ _ _ E) as Hk. destruct (cron_ran _ _ _ _ _ _ _ _ _ Is E) as [-> C].
  split_and!; try done. eapply loop_inv_step; [exact I| |exact Hk]. destruct m as [n a [s ws ds]]. by eapply step_cron.
Qed.

(** One pass of the timer loop of [processTimeEvents]: the clock is read at step
    [i]; if the timer is due, the periodic work runs and the timer is set to one
    second after the next reading. *)
Lemma pass_ok fuel n m sec ms (R : Z -> machine -> Prop) :
  loop_inv m -> timeEventHead (m_el m) = [cron_timer sec ms] ->
  let run fuel := run_timers m_el set_m_el (m_tick k) (m_gettime k) (m_preempt k) fuel 0 in
  let i := (m_step m + 1 + k_moves k (m_step m))%nat in
  (due (k_clock k i) (cron_timer sec ms) = false ->
   forall m', loop_inv m' -> timeEventHead (m_el m') = [cron_timer sec ms] ->
   workers_moved (m_sys m) (m_sys m') -> R n m') ->
  (due (k_clock k i) (cron_timer sec ms) = true ->
   forall m' x s, loop_inv m' -> m_step m' = (i + 3)%nat -> workers_moved (m_sys m) x ->
   cron_done (k_env k (i + 1) x) (srv x) s ->
   (let w := aeAddMillisecondsToNow (k_clock k (i + 2)) 1000 in
    m_sys m' = timed (lastTime (m_el m)) [cron_timer w.1 w.2] (Sys s (running x) (disks x))) ->
   wp (run fuel (n + 1)) R m') ->
  wp (run (S fuel) n) R m.
Proof.
  intros I Ht run i H0 H1. unfold run. cbn [run_timers]. fold (run fuel).
  wp_use preempt_ok; [done|]. intros _ m1 (I1 & _ & R1 & S1 & V1). injection R1 as _ L1 T1 _.
  wp_steps. rewrite T1, Ht. cbn. wp_steps. apply gettime_ok; [done|]. intros I2. fold i in S1. rewrite S1.
  destruct (due (k_clock k i) (cron_timer sec ms)) eqn:Ed; wp_steps.
  2: { apply H0; [done|done| |exact V1]. by rewrite <- Ht, <- T1. }
  cbn [timeProc te_id]. wp_use cron_ok; [done|]. intros r m3 (I3 & -> & R3 & S3 & C3 & W3 & D3).
  pose proof (li_next _ I3) as N3. injection R3 as _ L3 T3 _.
  unfold finish_timer. cbn [te_id]. wp_steps. cbn. wp_steps. apply gettime_ok; [done|]. intros I4. wp_steps.
  change (m_el (later m3)) with (m_el m3). change (m_el (later m1)) with (m_el m1) in *.
  rewrite T3, T1, Ht. cbn. apply wp_mod. change (m_step (later m1)) with (S (m_step m1)) in *.
  replace (m_step m3) with (i + 2)%nat by lia. specialize (H1 eq_refl).
  apply (H1 _ (m_sys m1) (srv (m_sys m3))); [|cbn; lia|exact V1| |].
  - change (m_el m3) with (m_el (later m3)). apply loop_inv_timers; [done|]. apply add_ms_spec; [apply K|lia].
  - by replace (i + 1)%nat with (S (m_step m1)) by lia.
  - cbn. unfold timed. cbn. rewrite L3, L1, N3.
    change (m_sys (later m1)) with (m_sys m1) in *. by rewrite <- W3, <- D3.
Qed.

Lemma run_timers_ok fuel n m :
  may_wait -> loop_inv m ->
  wp (run_timers m_el set_m_el (m_tick k) (m_gettime k) (m_preempt k) fuel 0 n) (fun _ => loop_inv) m.
Proof.
  intros Hw. revert n m. induction fuel as [|fuel IH]; intros n m I; [by cbn; wp_steps|].
  pose proof I as [_ _ _ _ (sec & ms & Ht & _)]. eapply pass_ok; [exact I|exact Ht|done|].
  intros _ m' x s I' _ _ _ _. by apply IH.
Qed.

(** [processTimeEvents] looks at the timer, first set to expire at once when the
    clock has gone back. *)
Lemma time_events_start fuel m sec ms (R : Z -> machine -> Prop) :
  loop_inv m -> timeEventHead (m_el m) = [cron_timer sec ms] ->
  let sec' := if k_time k (m_step m) <? lastTime (m_el m) then 0 else sec in
  (forall m', loop_inv m' -> m_sys m' = timed (k_time k (m_step m)) [cron_timer sec' ms] (m_sys m) ->
     m_step m' = S (m_step m) ->
     wp (run_timers m_el set_m_el (m_tick k) (m_gettime k) (m_preempt k) fuel 0 0) R m') ->
  wp (server_time_events k fuel) R m.
Proof.
  intros I Ht sec' H. unfold server_time_events, processTimeEvents, m_time. wp_steps. apply wp_ask. wp_steps.
  apply wp_mod. assert (I1 : loop_inv (later m)) by by eapply loop_inv_same.
  change (Machine (S (m_step m)) _ _) with (later m). change (m_el (later m)) with (m_el m).
  rewrite Ht, (li_next _ I). change (1 - 1) with 0. change (map _ _) with [cron_timer 0 ms].
  assert (Hms : 0 <= ms < 1000).
  { destruct (li_timer _ I) as (x & y & E & Hy). rewrite Ht in E. by injection E as _ <-. }
  replace (if k_time k (m_step m) <? lastTime (m_el m) then [cron_timer 0 ms] else [cron_timer sec ms])
    with [cron_timer sec' ms] by (unfold sec'; by destruct (_ <? _)).
  apply H; [|done..]. rewrite <- (li_next _ I). by apply (loop_inv_timers (later m)).
Qed.

Lemma time_events_ok fuel m : may_wait -> loop_inv m -> wp (server_time_events k fuel) (fun _ => loop_inv) m.
Proof.
  intros Hw I. pose proof I as [_ _ _ _ (sec & ms & Ht & _)].
  eapply time_events_start; [exact I|exact Ht|]. intros m' I' _ _. by apply run_timers_ok.
Qed.

Lemma round_ok fuel m : may_wait -> loop_inv m -> wp (server_round k fuel) (fun _ => loop_inv) m.
Proof.
  intros Hw I. unfold server_round, aeProcessEvents.
  change (Z.land AE_ALL_EVENTS AE_TIME_EVENTS =? 0) with false.
  change (Z.land AE_ALL_EVENTS AE_DONT_WAIT =? 0) with true. cbn [negb andb]. wp_steps.
  rewrite orb_true_r.
  eapply (wp_mono _ (fun _ => loop_inv)).
  - wp_step. eapply (wp_mono _ (fun _ => loop_inv)).
    + destruct (shortest_timer _ _); [|by wp_steps]. by apply gettime_ok.
    + intros now m1 I1. wp_use poll_ok; [done|]. intros fired m2 [I2 Hf]. wp_use all_fired_ok; [done|done|done|].
      intros _ m3 I3. by wp_steps.
  - intros n m1 I1. wp_use time_events_ok; [done|done|].
    intros j m2 I2. by wp_steps.
Qed.

Lemma rounds_ok n fuel m : may_wait -> loop_inv m -> wp (server_rounds k n fuel) (fun _ => loop_inv) m.
Proof.
  intros Hw. revert m. induction n as [|n IH]; intros m I; cbn; [by wp_steps|].
  wp_use round_ok; [done|done|]. intros _ m1 I1. by apply IH.
Qed.

(** The loop has no way to end but by an assertion or an exit. *)
Lemma main_ok n fuel m : may_wait -> loop_inv m -> wp (server_main k n fuel) (fun _ _ => False) m.
Proof.
  intros Hw I. unfold server_main, aeMain. wp_steps. apply wp_mod.
  replace (set_m_el (with_stop false (m_el m)) m) with m; last first.
  { rewrite <- (li_stop _ I). by destruct m as [j a [[? ? ? [] ? ? ? ? ? ? ? ? ?] ws ds]]. }
  revert m I. induction n as [|n IH]; intros m I; cbn; wp_steps; [done|]. rewrite (li_stop _ I).
  wp_use round_ok; [done|done|]. intros _ m1 I1. by apply IH.
Qed.

End Refine.

(** The state in which start-up enters the loop. *)
Lemma start_loop_inv b s ds n a :
  spy_setup b = Ret s -> (forall p, is_Some (chunk_heap (b_store b) !! p) -> is_Some (ds !! p)) ->
  0 <= (b_clock b).2 < 1000 ->
  loop_inv b (Sys s [] ds) (Machine n a (Sys s [] ds)).
Proof.
  intros H Hds Hc. assert (Hr : sys_reachable b (Sys s [] ds)) by by constructor.
  assert (R : exists last sec ms, rest (sv_el s) = (1, last, [AeTimeEvent 0 sec ms P_server_cron], false) /\
    0 <= ms < 1000).
  { unfold spy_setup in H. apply bind_Ret_inv in H as (el1 & H1 & H).
    apply bind_Ret_inv in H as ([wq el2] & H2 & H). apply bind_Ret_inv in H as (pool & _ & H).
    apply bind_Ret_inv in H as ([jobs free] & _ & H). injection H as <-. cbn.
    unfold spy_setup_work_queue in H2. apply bind_Ret_inv in H2 as ([q made] & _ & H2).
    apply bind_Ret_inv in H2 as ([r el3] & E3 & H2). destruct (r =? AE_ERR); [done|]. injection H2 as _ <-.
    rewrite (create_rest _ _ _ _ _ _ _ _ E3).
    unfold spy_setup_listen_events in H1. destruct (negb (b_listen b)); [done|].
    destruct (aeCreateEventLoop _ _ _) as [el0|] eqn:E0; [|done].
    apply bind_Ret_inv in H1 as ([r1 el4] & E4 & H1). apply create_rest in E4.
    rewrite (loop_rest _ _ _ _ E0) in E4. clear E0 el0 E3 Hr.
    destruct (r1 =? AE_ERR); [done|]. injection E4 as T1 T2 T3 T4. unfold aeCreateTimeEvent in H1.
    destruct (b_timer b); [|done]. destruct (aeAddMillisecondsToNow _ _) as [sec ms] eqn:Ea.
    destruct (_ =? AE_ERR); [done|]. injection H1 as <-. unfold rest. cbn. rewrite T1, T3, T4. cbn.
    destruct (add_ms_spec (b_clock b) 1000 Hc ltac:(lia)) as [_ Hw]. rewrite Ea in Hw. eauto. }
  destruct R as (last & sec & ms & R & Hms). injection R as R1 _ R3 R4.
  split; [done|apply rtc_refl|exact R4|exact R1|]. exists sec, ms. by split.
Qed.

(** ** Properties *)

Module MainLoopProps.
Import SystemProps.

(** From any state in which start-up enters the loop. *)
Lemma loop_safe b k s ds a n fuel :
  booted b -> kernel_ok b k -> spy_setup b = Ret s ->
  (forall p, is_Some (chunk_heap (b_store b) !! p) -> is_Some (ds !! p)) -> 0 <= (b_clock b).2 < 1000 ->
  let m := Machine 0 a (Sys s [] ds) in
  server_main k n fuel m <> Undef /\ (forall r, server_main k n fuel m <> Ret r) /\
  (forall m', server_rounds k n fuel m = Ret (tt, m') -> sys_reachable b (m_sys m') /\
     rtc (sys_step b) (Sys s [] ds) (m_sys m')).
Proof.
  intros Hb K Hs Hds Hc m. assert (I : loop_inv b (Sys s [] ds) m) by by apply start_loop_inv.
  pose proof (main_ok b k Hb K (mw:=True) (or_introl Logic.I) _ n fuel m Logic.I I) as W.
  pose proof (rounds_ok b k Hb K (mw:=True) (or_introl Logic.I) _ n fuel m Logic.I I) as Wr. split_and!.
  - by eapply wp_safe.
  - intros [r m'] E. by eapply wp_elim in W.
  - intros m' E. eapply wp_elim in Wr; [|exact E]. split; apply Wr.
Qed.

(** C17: the chunk server is safe from its command line on.  When [main], started
    on some command line, reaches the event loop, the configuration is within its
    limits (ports and group id 16 bits wide and given, 1 to [MAX_N_CHUNKS] chunks,
    1 to [MAX_MEM_BLOCKS_LIMIT] memory blocks); and then [aeMain] makes no
    undefined access, neither in a handler nor in the loop itself (the array of
    fired events, the table, the timers) nor in a worker; it never returns; and
    after any number of rounds the server is in a reachable state of the
    transition system, whose theorems hold there.
    The data directory has no chunk files (then they are created), or those found
    carry the ids 1, 2, ... without a gap, as [spy_create_chunk] numbers them; it
    has fewer than 2^31 entries; the two descriptors of the server are different
    and fit the event table.  The operating system keeps the contract [kernel_ok]
    (only watched descriptors are reported, and no more than asked for; [accept4]
    gives a descriptor that is not in use; the header of a dump is taken in one
    write or refused) and is otherwise free: any scheduling of the workers, any
    order of ready descriptors, any errors and short transfers. *)
Theorem program_safe os e c b s es ds k a n fuel :
  spy_main os e = Ret (c, b, s) -> ie_dir e = Some es -> zlen es < 2 ^ 31 - 1 ->
  Forall (fun x => d_reg x = false) es \/ (forall id, 1 <= id <= n_chunks (b_store b) -> hashed (b_store b) id) ->
  ie_socket e <> ie_event_fd e -> ie_socket e < DEF_MAX_CLIENTS -> 0 <= ie_event_fd e < DEF_MAX_CLIENTS ->
  0 <= (ie_clock e).2 < 1000 ->
  (forall p, is_Some (chunk_heap (b_store b) !! p) -> is_Some (ds !! p)) -> kernel_ok b k ->
  (1 <= port c <= UINT16_MAX /\ 1 <= master_port c <= UINT16_MAX /\ is_Some (master_addr c) /\
   1 <= server_id c <= UINT16_MAX /\ 1 <= cf_n_chunks c <= MAX_N_CHUNKS /\
   1 <= mb_limit c <= MAX_MEM_BLOCKS_LIMIT /\ (sync c = 0 \/ sync c = 1)) /\
  let m := Machine 0 a (Sys s [] ds) in
  server_main k n fuel m <> Undef /\ (forall r, server_main k n fuel m <> Ret r) /\
  (forall m', server_rounds k n fuel m = Ret (tt, m') -> sys_reachable b (m_sys m') /\
     rtc (sys_step b) (Sys s [] ds) (m_sys m')).
Proof.
  intros H Hd He Hid Hne Hs Hev Hc Hds K.
  destruct (OptionsProps.main_boots _ _ _ _ _ _ H Hd He Hid Hne Hs Hev) as (Hcfg & Hb & Hset).
  split; [exact Hcfg|]. apply loop_safe; try done. by rewrite (main_clock _ _ _ _ _ H).
Qed.

(** An operating system: every watched descriptor is always ready, descriptor 5
    is given to the first client, whose request is [ex_request]; at every step of
    the loop a worker takes a work or runs the one it has. *)
Definition ex_kernel : kernel :=
  Kernel
    (fun _ x size _ => if size <? 0 then None
       else Some (ztake size ((fun p => (p.1, EPOLLIN)) <$> map_to_list (epoll (sv_el (srv x))))))
    (fun _ x => Answers ex_env (Got ex_request) [SysErr EAGAIN]
       (if bool_decide (size (conns (srv x)) = 0%nat) then 5 else -1))
    (fun _ _ => ex_env) (fun n => (100, Z.of_nat n mod 1000)) (fun _ => 100) (fun _ => 1%nat)
    (fun _ x => match running x with
                | WIo _ :: _ => MRun 0 [Xfer 100; Xfer 100; Xfer 100] 100 0
                | _ => MTake
                end).

Lemma ex_kernel_ok b : svc_fds b = [3; 4] -> kernel_ok b ex_kernel.
Proof.
  intros Hb. split; cbn.
  - intros _ x sz _ evs H. destruct (Z.ltb_spec sz 0); [done|]. injection H as <-. split.
    + rewrite zlen_take. lia.
    + intros fd e Hin. unfold ztake in Hin. apply elem_of_take in Hin as (i & Hi & _).
      apply list_elem_of_lookup_2, list_elem_of_fmap in Hi as ([fd' e'] & [= -> _] & Hi).
      apply elem_of_map_to_list in Hi. by eexists.
  - intros _ x. split; rewrite ?Hb; cbn; [lia|]. case_bool_decide as H; [|lia]. intros _.
    split_and!; [lia|by intros [?|[?|?%not_elem_of_nil]%elem_of_cons]%elem_of_cons|].
    intros c cn Hc. apply map_size_empty_inv in H. by rewrite H, lookup_empty in Hc.
  - intros n. apply Z.mod_pos_bound. lia.
  - intros _ x i script now rand d H Hw. destruct (running x) as [|[j|d'] l]; try done.
    injection H as <- _ _ _. done.
Qed.

(** Empty chunk files would do: the example does not read them. *)
Definition no_disks (b : boot) : disks_t := (fun _ => []) <$> chunk_heap (b_store b).

(** After start-up, in two rounds the client is accepted, its file written by a
    worker, and entered in the index. *)
Definition ex_two (x : spy_config_t * boot * server_t) : outcome machine :=
  '(_, m') ← server_rounds ex_kernel 2 3 (Machine 0 ex_accept (Sys x.2 [] (no_disks x.1.2))); Ret m'.

Definition ex_indexed (x : spy_config_t * boot * server_t) : Prop :=
  (OptionsProps.ex_started x /\ svc_fds x.1.2 = [3; 4]) /\
  match ex_two x with
  | Ret m' => is_Some (file_index (sv_store (srv (m_sys m'))) !! 42)
  | _ => False
  end.

Lemma ex_main_indexed :
  match spy_main OptionsProps.ex_opts OptionsProps.ex_init with Ret x => ex_indexed x | _ => False end.
Proof. vm_compute. split; [split_and!; reflexivity|by eexists]. Qed.

Lemma ex_two_rounds :
  exists c b s m', spy_main OptionsProps.ex_opts OptionsProps.ex_init = Ret (c, b, s) /\
    OptionsProps.ex_started (c, b, s) /\ svc_fds b = [3; 4] /\
    server_rounds ex_kernel 2 3 (Machine 0 ex_accept (Sys s [] (no_disks b))) = Ret (tt, m') /\
    is_Some (file_index (sv_store (srv (m_sys m'))) !! 42).
Proof.
  destruct (outcome_ret (spy_main OptionsProps.ex_opts OptionsProps.ex_init) ex_indexed ex_main_indexed) as ([[c b] s] & E1 & [H1 H2] & H3).
  destruct (outcome_ret (ex_two (c, b, s)) (fun m => is_Some (file_index (sv_store (srv (m_sys m))) !! 42)) H3) as (m' & E2 & H4). apply bind_Ret_inv in E2 as ([[] m1] & E2 & [= ->]).
  exists c, b, s, m'. exact (conj E1 (conj H1 (conj H2 (conj E2 H4)))).
Qed.

Lemma program_safe_witness :
  exists c b s m', spy_main OptionsProps.ex_opts OptionsProps.ex_init = Ret (c, b, s) /\
    server_rounds ex_kernel 2 3 (Machine 0 ex_accept (Sys s [] (no_disks b))) = Ret (tt, m') /\
    is_Some (file_index (sv_store (srv (m_sys m'))) !! 42) /\ sys_reachable b (m_sys m').
Proof.
  destruct ex_two_rounds as (c & b & s & m' & E1 & H1 & H2 & E2 & H3). exists c, b, s, m'.
  split; [exact E1|]. split; [exact E2|]. split; [exact H3|].
  destruct (program_safe OptionsProps.ex_opts OptionsProps.ex_init c b s [StoreRecoverProps.ex_entry]
    (no_disks b) ex_kernel ex_accept 2 3) as (_ & _ & _ & R); [exact E1|reflexivity|..|exact (proj1 (R m' E2))].
  - vm_compute. reflexivity.
  - right. exact (OptionsProps.ex_started_hashed c b s H1).
  - discriminate.
  - vm_compute. reflexivity.
  - split; [discriminate|vm_compute; reflexivity].
  - split; [discriminate|vm_compute; reflexivity].
  - intros p Hp. unfold no_disks. rewrite lookup_fmap.
    destruct (chunk_heap (b_store b) !! p); [eexists; reflexivity|]. destruct Hp as [? Hp]. discriminate.
  - exact (ex_kernel_ok b H2).
Defined.

(** Milliseconds of a clock reading. *)
Definition msec (c : clock) : Z := c.1 * 1000 + c.2.

Lemma due_msec (c : clock) sec ms :
  0 <= c.2 < 1000 -> 0 <= ms < 1000 -> due c (cron_timer sec ms) = negb (msec c <? sec * 1000 + ms).
Proof.
  destruct c as [c1 c2]. intros Hc Hm. unfold due, msec. cbn in *.
  destruct (Z.ltb_spec sec c1), (Z.eqb_spec c1 sec), (Z.leb_spec ms c2),
    (Z.ltb_spec (c1 * 1000 + c2) (sec * 1000 + ms)); cbn; (done || lia).
Qed.

(** C32: the periodic work runs when its timer is due, once, and its timer is then
    set to one second after the clock; otherwise it does not run.  The timer is
    the one the loop has, made to expire at once when the clock has been set back.
    Not due: only the workers have moved.  Due: the workers have moved, then the
    periodic work has run ([cron_done]: the report is made anew and the pending
    writes that have waited their time are dropped), then the timer has been set,
    and then only the workers have moved.  The loop ends, after at most two passes
    over the timers, as long as the clock does not advance by a second between
    setting the timer and looking at it again and the works that are run come to an
    end; it ends in a state of this kind or in a failed assertion, without an
    undefined access. *)
Theorem periodic_work_when_due b k fuel x0 m sec ms :
  booted b -> kernel_ok b k -> (forall n x, exec_move (k_move k n x) x <> Wait) ->
  (forall i, msec (k_clock k (i + 2 + k_moves k (i + 1))) < msec (k_clock k i) + 1000) ->
  loop_inv b x0 m -> timeEventHead (m_el m) = [cron_timer sec ms] -> (2 <= fuel)%nat ->
  let now := k_time k (m_step m) in
  let sec := if now <? lastTime (m_el m) then 0 else sec in
  let i := (m_step m + 2 + k_moves k (m_step m + 1))%nat in
  let x := timed now [cron_timer sec ms] (m_sys m) in
  match server_time_events k fuel m with
  | Ret (n, m') =>
      if msec (k_clock k i) <? sec * 1000 + ms
      then n = 0 /\ workers_moved x (m_sys m')
      else n = 1 /\ exists x1 s2 sec' ms',
        workers_moved x x1 /\ cron_done (k_env k (i + 1) x1) (srv x1) s2 /\
        sec' * 1000 + ms' = msec (k_clock k (i + 2)) + 1000 /\
        workers_moved (timed now [cron_timer sec' ms'] (Sys s2 (running x1) (disks x1))) (m_sys m')
  | Assert | Exit => True
  | Undef | Wait => False
  end.
Proof.
  intros Hb K Hmv Hclk I Ht Hf now sec0 i x. destruct fuel as [|[|fuel]]; [lia|lia|]. clear Hf.
  set (R := fun n m' => if msec (k_clock k i) <? sec0 * 1000 + ms
      then n = 0 /\ workers_moved x (m_sys m')
      else n = 1 /\ exists x1 s2 sec' ms',
        workers_moved x x1 /\ cron_done (k_env k (i + 1) x1) (srv x1) s2 /\
        sec' * 1000 + ms' = msec (k_clock k (i + 2)) + 1000 /\
        workers_moved (timed now [cron_timer sec' ms'] (Sys s2 (running x1) (disks x1))) (m_sys m')).
  assert (W : wp (mw:=False) (server_time_events k (S (S fuel))) R m); last first.
  { rewrite wp_def in W. by destruct (server_time_events k _ m) as [[n m']| | | |]. }
  assert (Hms : 0 <= ms < 1000).
  { destruct (li_timer _ _ _ I) as (? & y & E & Hy). rewrite Ht in E. by injection E as _ <-. }
  eapply time_events_start; [exact I|exact Ht|]. fold now sec0. fold x. intros m1 I1 T1 S1.
  assert (Ei : i = (m_step m1 + 1 + k_moves k (m_step m1))%nat).
  { rewrite S1. unfold i. replace (m_step m + 1)%nat with (S (m_step m)) by lia. lia. }
  eapply pass_ok; [exact Hb|exact K|by right|exact I1|by unfold m_el; rewrite T1|..];
    rewrite <- Ei, due_msec by (done || apply K).
  - intros Hn%negb_false_iff m2 I2 T2 V2. unfold R. rewrite Hn. by rewrite <- T1.
  - intros Hn%negb_true_iff m2 x1 s2 I2 S2 V1 C T2. cbv zeta in T2.
    destruct (add_ms_spec (k_clock k (i + 2)) 1000 (ko_clock _ _ K _) ltac:(lia)) as [Hw Hw2]. cbv zeta in *.
    set (w := aeAddMillisecondsToNow _ _) in *. clearbody w.
    replace (lastTime (m_el m1)) with now in T2 by (unfold m_el; by rewrite T1).
    eapply pass_ok; [exact Hb|exact K|by right|exact I2|by unfold m_el; rewrite T2|..];
      rewrite due_msec by (done || apply K); rewrite S2; specialize (Hclk (i + 2)%nat).
    + intros _ m3 I3 T3 V3. unfold R. rewrite Hn. split; [done|]. exists x1, s2, w.1, w.2.
      rewrite <- T1. split_and!; [exact V1|exact C|by rewrite Hw|by rewrite <- T2].
    + intros Hl. exfalso. apply negb_true_iff, Z.ltb_ge in Hl. rewrite Hw in Hl. fold (msec (k_clock k (i + 2))) in Hl.
      replace (i + 2 + 2 + k_moves k (i + 2 + 1))%nat with (i + 3 + 1 + k_moves k (i + 3))%nat in Hclk; [lia|].
      replace (i + 2 + 1)%nat with (i + 3)%nat by lia. lia.
Qed.

(** An idle system at a time when the timer of [ex_boot] is overdue. *)
Definition ex_idle : kernel :=
  Kernel (fun _ _ _ _ => None) (fun _ _ => ex_receive) (fun _ _ => ex_env)
    (fun n => (200, Z.of_nat n mod 1000)) (fun _ => 200) (fun _ => 0%nat) (fun _ _ => MTake).

Lemma ex_idle_ok : kernel_ok ex_boot ex_idle.
Proof. split; cbn; try done. intros n. apply Z.mod_pos_bound. lia. Qed.

Lemma ex_idle_moves n x : exec_move (k_move ex_idle n x) x <> Wait.
Proof. cbn. by destruct (worker_take (sv_wq (srv x))) as [[w q]|]. Qed.

Lemma ex_idle_clock i : msec (k_clock ex_idle (i + 2 + k_moves ex_idle (i + 1))) < msec (k_clock ex_idle i) + 1000.
Proof.
  unfold msec. cbn [ex_idle k_clock k_moves fst snd].
  pose proof (Z.mod_pos_bound (Z.of_nat (i + 2 + 0)) 1000 ltac:(lia)).
  pose proof (Z.mod_pos_bound (Z.of_nat i) 1000 ltac:(lia)). lia.
Qed.

(** After start-up the periodic work has run once, and the report is no more that of
    the start. *)
Definition ex_ticked (s : server_t) : Prop :=
  timeEventHead (sv_el s) = [cron_timer 101 0] /\
  match server_time_events ex_idle 2 (Machine 0 ex_receive (Sys s [] ex_disks)) with
  | Ret (n, m') => (n =? 1) && (ri_n_chunks (sv_report (srv (m_sys m'))) =? 1) = true
  | _ => False
  end.

Lemma ex_start :
  exists s n m', loop_inv ex_boot (Sys s [] ex_disks) (Machine 0 ex_receive (Sys s [] ex_disks)) /\
    timeEventHead (sv_el s) = [cron_timer 101 0] /\
    server_time_events ex_idle 2 (Machine 0 ex_receive (Sys s [] ex_disks)) = Ret (n, m') /\
    (n =? 1) && (ri_n_chunks (sv_report (srv (m_sys m'))) =? 1) = true.
Proof.
  destruct (outcome_ret (spy_setup ex_boot) ex_ticked) as (s & E & H & H1); [vm_compute; split; reflexivity|].
  destruct (outcome_ret (server_time_events ex_idle 2 (Machine 0 ex_receive (Sys s [] ex_disks)))
    (fun r => (r.1 =? 1) && (ri_n_chunks (sv_report (srv (m_sys r.2))) =? 1) = true)) as ([n m'] & E1 & H2).
  { destruct (server_time_events _ _ _) as [[n m']| | | |]; exact H1. }
  exists s, n, m'. split; [|exact (conj H (conj E1 H2))]. apply start_loop_inv; [exact E| |cbn; lia].
  intros p [ch Hp]. change (({[0%nat := ex_chunk]} : gmap cptr spy_chunk_t) !! p = Some ch) in Hp.
  apply lookup_singleton_Some in Hp as [<- _]. eexists. reflexivity.
Qed.

Lemma periodic_work_when_due_witness :
  exists x0 m n m' x1 s2, loop_inv ex_boot x0 m /\ timeEventHead (m_el m) = [cron_timer 101 0] /\
    server_time_events ex_idle 2 m = Ret (n, m') /\ n = 1 /\ cron_done ex_env (srv x1) s2 /\
    ri_n_chunks (sv_report (srv (m_sys m'))) = 1.
Proof.
  destruct ex_start as (s & n & m' & I & T & E & H). set (m := Machine 0 ex_receive (Sys s [] ex_disks)) in *.
  assert (W := periodic_work_when_due ex_boot ex_idle 2 (Sys s [] ex_disks) m 101 0 ex_booted ex_idle_ok ex_idle_moves
    ex_idle_clock I T (le_n 2)).
  cbv zeta in W. rewrite E in W. apply andb_true_iff in H as [_ H%Z.eqb_eq].
  change (msec (k_clock ex_idle (m_step m + 2 + k_moves ex_idle (m_step m + 1)))) with 200002 in W.
  assert (Hd : (200002 <? (if k_time ex_idle (m_step m) <? lastTime (m_el m) then 0 else 101) * 1000 + 0) = false).
  { apply Z.ltb_ge. destruct (_ <? lastTime _); lia. }
  rewrite Hd in W. destruct W as (Hn & x1 & s2 & _ & _ & _ & C & _).
  exists (Sys s [] ex_disks), m, n, m', x1, s2.
  exact (conj I (conj T (conj E (conj Hn (conj C H))))).
Defined.

End MainLoopProps.
