(* ===== verification/DataInv.v ===== *)
(** * DataInv: stored files stay intact

    The files in the index are whole on disk, and no later write reaches them: an
    invariant over the store, the chunk files, and the write jobs on their way
    through the pool, kept by every step of the system of [System.v]. *)

From S2P Require Import Prelude Utils RwBuffer Store StoreFile StoreData Event WorkQueue Server.
From S2P Require Import ServerConn ServerJobs ServerSafe Worker System LoopFrame.

(** ** What holds if a program returns *)

Section Post.
Context {S : Type}.

Definition post {A} (m : prog S A) (Q : A -> S -> Prop) (s : S) : Prop :=
  forall a s', m s = Ret (a, s') -> Q a s'.

Lemma post_bind {A B} (m : prog S A) (f : A -> prog S B) Q s :
  post m (fun a => post (f a) Q) s -> post (m ≫= f) Q s.
Proof.
  intros H b s' E. unfold mbind, prog_bind in E. destruct (m s) as [[a s1]| | | |] eqn:Em; try done.
  by eapply H.
Qed.
Lemma post_ret {A} (a : A) (Q : A -> S -> Prop) s : Q a s -> post (mret a) Q s.
Proof. by intros H b s' [= <- <-]. Qed.
Lemma post_get (Q : S -> S -> Prop) s : Q s s -> post pget Q s.
Proof. by intros H b s' [= <- <-]. Qed.
Lemma post_mod f (Q : unit -> S -> Prop) s : Q tt (f s) -> post (pmod f) Q s.
Proof. by intros H [] s' [= <-]. Qed.
Lemma post_lift {A} (m : outcome A) (Q : A -> S -> Prop) s :
  (forall a, m = Ret a -> Q a s) -> post (plift m) Q s.
Proof.
  intros H b s' E. unfold plift in E. destruct m as [a| | | |]; cbn in E; try done.
  injection E as <- <-. by apply H.
Qed.
Lemma post_mono {A} (m : prog S A) (Q R : A -> S -> Prop) s :
  post m Q s -> (forall a s', Q a s' -> R a s') -> post m R s.
Proof. intros H HR a s' E. by apply HR, H. Qed.

End Post.
#[global] Opaque post.

Lemma deref_inv {A} (o : option A) x : c_deref o = Ret x -> o = Some x.
Proof. by destruct o; intros [= ->]. Qed.

(** A program that leaves a part of the state alone. *)
Lemma post_keeps {V A} (f : server_t -> V) (m : M A) (Q : A -> server_t -> Prop) s :
  Keeps f m -> (forall a s', f s' = f s -> Q a s') -> post m Q s.
Proof. Transparent post. intros K H a s' E. by eapply H, K. Qed.
Opaque post.

Ltac post_step :=
  lazymatch goal with
  | |- post (_ ≫= _) _ _ => apply post_bind
  | |- post (mret _) _ _ => apply post_ret
  | |- post pget _ _ => apply post_get
  | |- post (pmod _) _ _ => apply post_mod
  | |- post (plift _) _ _ => apply post_lift; intros
  | |- post (let x := _ in _) _ _ => cbv zeta
  | |- post (match ?x with _ => _ end) _ _ => progress cbv beta iota zeta
  end.
Ltac post_steps := repeat post_step.
(** Step over a call that leaves jobs and chunks alone. *)
Ltac post_same :=
  lazymatch goal with |- post (_ ≫= _) _ _ => apply post_bind | _ => idtac end;
  eapply (post_keeps jview); [apply _|].
Tactic Notation "post_use" uconstr(H) :=
  lazymatch goal with |- post (_ ≫= _) _ _ => apply post_bind | _ => idtac end;
  eapply post_mono; [eapply H|cbn beta].

(** ** The invariant *)

(** The file of index entry [x] holds record [r]. *)
Definition on_disk (st : store_t) (ds : disks_t) (x : spy_file_index_entry_t) (r : file_rec) : Prop :=
  exists p ch disk, chunk_heap st !! p = Some ch /\ ds !! p = Some disk /\ chunk_id ch = ie_chunk_id x /\
    stored_in ch disk (ie_fid x) (ie_offset x) (ie_size x) r.

Definition is_write (job : spy_io_job_t) (p : cptr) : Prop :=
  j_fn job = Some FnWrite /\ j_chunk job = Some p.

(** Chunks that are known to have a given id: none, unless a caller asks for some. *)
Class KnownIds : Type := known_id : cptr -> Z -> Prop.
#[export] Instance no_known_ids : KnownIds | 100 := fun _ _ => False.

Section Inv.
(** Files known to be on disk, and entries known to be in the index. *)
Context (K : spy_file_index_entry_t -> file_rec -> Prop) (KI : spy_file_index_entry_t -> Prop) {KC : KnownIds}.

(** The part on the store and the chunk files. *)
Record store_data (st : store_t) (ds : disks_t) : Prop := {
  sd_chunk : forall p ch, chunk_heap st !! p = Some ch -> exists disk, ds !! p = Some disk /\ chunk_on ch disk;
  sd_ids : forall p q ch ch', chunk_heap st !! p = Some ch -> chunk_heap st !! q = Some ch' ->
    chunk_id ch = chunk_id ch' -> p = q;
  sd_files : forall fid x, spy_lookup_file_index fid st = Some x -> exists r, on_disk st ds x r;
  sd_keep : forall x r, K x r -> on_disk st ds x r;
  sd_index : forall x, KI x -> spy_lookup_file_index (ie_fid x) st = Some x;
  sd_known : forall p id, known_id p id -> exists ch, chunk_heap st !! p = Some ch /\ chunk_id ch = id
}.

(** A write job that waits for a thread or is being run writes at the end of its
    chunk, where there is room; one that has succeeded has its file on disk. *)
Definition todo_ok (st : store_t) (job : spy_io_job_t) : Prop :=
  forall p ch, is_write job p -> chunk_heap st !! p = Some ch ->
    j_union job = UOffset (current_offset ch) /\
    u32 (f_size (j_file job) + FILE_META_SIZE) < avail_space ch.
Definition done_ok (st : store_t) (ds : disks_t) (job : spy_io_job_t) : Prop :=
  forall p ch o, is_write job p -> j_retcode job = 0 -> chunk_heap st !! p = Some ch ->
    j_union job = UOffset o ->
    exists disk r, ds !! p = Some disk /\
      stored_in ch disk (f_fid (j_file job)) o (u32 (f_size (j_file job) + FILE_META_SIZE)) r.

(** [ws] are the works being run, [hand] those the main thread completes. *)
Record data_inv (ws : list work) (ds : disks_t) (hand : list work) (s : server_t) : Prop := {
  di_store : store_data (sv_store s) ds;
  di_job : forall j job, io_jobs s !! j = Some job -> j_fn job = Some FnWrite -> file_fits (j_file job);
  di_todo : forall j job, j ∈ ios (pending_list (sv_wq s) ++ ws) -> io_jobs s !! j = Some job ->
    todo_ok (sv_store s) job;
  di_done : forall j job, j ∈ ios (finished_list (sv_wq s) ++ hand) -> io_jobs s !! j = Some job ->
    done_ok (sv_store s) ds job
}.

Context (ds : disks_t).
Implicit Types (ws hand : list work) (s : server_t) (j : jobptr) (job : spy_io_job_t).

(** *** Moves of the main thread *)

Lemma data_view ws hand s s' : data_inv ws ds hand s -> jview s' = jview s -> data_inv ws ds hand s'.
Proof. intros [I1 I2 I3 I4] J. injection J as H1 _ H2 _ _ _ _ H3. split; by rewrite ?H1, ?H2, ?H3. Qed.

(** The chunk files and the index stay; chunk and pending lists are of no
    concern. *)
Lemma data_lists ws hand s s' :
  data_inv ws ds hand s -> chunk_heap (sv_store s') = chunk_heap (sv_store s) ->
  file_index (sv_store s') = file_index (sv_store s) -> io_jobs s' = io_jobs s -> sv_wq s' = sv_wq s ->
  data_inv ws ds hand s'.
Proof.
  intros [[S1 S2 S3 S4 S5 S6] I2 I3 I4] Hh Hi Hj Hq.
  unfold spy_lookup_file_index, on_disk, todo_ok, done_ok in *.
  split; [split| | |]; unfold spy_lookup_file_index, on_disk, todo_ok, done_ok; by rewrite ?Hh, ?Hi, ?Hj, ?Hq.
Qed.

(** [*job = ...]: no write job, or a job no thread or list knows. *)
Lemma data_put ws hand s s' j job free :
  data_inv ws ds hand s -> s' = set_jobs (<[j := job]> (io_jobs s)) free s ->
  (j_fn job <> Some FnWrite \/
   file_fits (j_file job) /\ j ∉ ios (pending_list (sv_wq s) ++ ws ++ finished_list (sv_wq s) ++ hand)) ->
  data_inv ws ds hand s'.
Proof.
  intros [I1 I2 I3 I4] -> Hok. split; [done|..]; cbn; intros k job'.
  - destruct (decide (j = k)) as [<-|Hne]; [|rewrite lookup_insert_ne by done; apply I2].
    rewrite lookup_insert_eq. intros [= <-] Hf. by destruct Hok as [|[? _]].
  - intros Hk. destruct (decide (j = k)) as [<-|Hne]; [|rewrite lookup_insert_ne by done; by apply I3].
    rewrite lookup_insert_eq. intros [= <-] p ch [Hf _]. destruct Hok as [|[_ Hn]]; [done|].
    exfalso. apply Hn. rewrite (app_assoc (pending_list _)). unfold ios in *. rewrite omap_app. by apply elem_of_app; left.
  - intros Hk. destruct (decide (j = k)) as [<-|Hne]; [|rewrite lookup_insert_ne by done; by apply I4].
    rewrite lookup_insert_eq. intros [= <-] p ch o [Hf _]. destruct Hok as [|[_ Hn]]; [done|].
    exfalso. apply Hn. rewrite (app_assoc (pending_list _)). unfold ios in *. rewrite omap_app. by apply elem_of_app; right.
Qed.

(** Works move between the queue's lists. *)
Lemma data_queue ws ws' hand hand' s s' q :
  data_inv ws ds hand s -> s' = set_wq q s ->
  (forall j, j ∈ ios (pending_list q ++ ws') ->
     j ∈ ios (pending_list (sv_wq s) ++ ws) \/ forall job, io_jobs s !! j = Some job -> todo_ok (sv_store s) job) ->
  (forall j, j ∈ ios (finished_list q ++ hand') ->
     j ∈ ios (finished_list (sv_wq s) ++ hand) \/ forall job, io_jobs s !! j = Some job -> done_ok (sv_store s) ds job) ->
  data_inv ws' ds hand' s'.
Proof.
  intros [I1 I2 I3 I4] -> H1 H2. split; [done|done|..]; cbn; intros j job Hj Hl.
  - destruct (H1 j Hj) as [Hin|Hok]; [by eapply I3|by apply Hok].
  - destruct (H2 j Hj) as [Hin|Hok]; [by eapply I4|by apply Hok].
Qed.

Lemma ios_app (l l' : list work) : ios (l ++ l') = ios l ++ ios l'.
Proof. apply omap_app. Qed.

Lemma queue_critical_lists (e : env) w (q0 q : spy_work_queue_t work) made :
  queue_critical (e_threads e) (e_now e) w q0 = Ret (q, made) ->
  pending_list q = pending_list q0 ++ [w] /\ finished_list q = finished_list q0.
Proof.
  unfold queue_critical. intros E. apply bind_Ret_inv in E as ([q1 m1] & E & H). injection H as <- <-.
  destruct (spy_wq_need_expand q0); [|by injection E as <- <-].
  apply bind_Ret_inv in E as ([[r q2] m2] & E & H). injection H as <- <-.
  apply create_threads_lists in E as [H1 H2]. cbn. by rewrite H1, H2.
Qed.

Lemma queue_data e ws hand s w :
  data_inv ws ds hand s ->
  (forall j job, w = WIo j -> io_jobs s !! j = Some job -> todo_ok (sv_store s) job) ->
  post (queue_work e w) (fun _ s' => data_inv ws ds hand s' /\ sv_store s' = sv_store s) s.
Proof.
  intros I Hw. unfold queue_work. post_steps. destruct a as [q made]. post_steps.
  match goal with H : queue_critical _ _ _ _ = _ |- _ => apply queue_critical_lists in H as [Hp Hf] end.
  split; [|done]. eapply data_queue; [exact I|done|..].
  - intros j. rewrite Hp, !ios_app, !elem_of_app. cbn. intros [[H|H]|H]; [by left; left| |by left; right].
    right. intros job Hj. destruct w as [k|d]; cbn in H; [|by apply not_elem_of_nil in H].
    apply list_elem_of_singleton in H as ->. by eapply Hw.
  - intros j. rewrite Hf. by left.
Qed.

(** Step over a call that leaves jobs and chunks alone, keeping the invariant [I]. *)
Ltac skip I :=
  post_same; let x := fresh "s" in let J := fresh "J" in
  intros ? x J; apply (data_view _ _ _ x) in I; [|exact J].

Lemma free_data ws hand s j :
  data_inv ws ds hand s -> post (spy_free_io_job j) (fun _ s' => data_inv ws ds hand s') s.
Proof.
  intros I. unfold spy_free_io_job. post_same. intros job s1 J. pose proof (data_view _ _ _ _ I J) as I1.
  post_steps. eapply data_put; [exact I1|done|by left].
Qed.

(** Reply with an error and free the job. *)
Lemma reply_free_data e ws hand s c err j :
  data_inv ws ds hand s ->
  post (_ ← reply_error e c err; spy_free_io_job j) (fun _ s' => data_inv ws ds hand s') s.
Proof. intros I. post_same. intros _ s1 J. apply free_data. by eapply data_view. Qed.

Lemma count_reply_free e ws hand s c err j g :
  data_inv ws ds hand s ->
  post (_ ← count g; _ ← reply_error e c err; spy_free_io_job j) (fun _ s' => data_inv ws ds hand s') s.
Proof. intros I. post_same. intros _ s1 J. apply reply_free_data. by eapply data_view. Qed.

(** *** Completion of jobs *)

Lemma drop_hand ws hand w s : data_inv ws ds (w :: hand) s -> data_inv ws ds hand s.
Proof.
  intros [I1 I2 I3 I4]. split; try done. intros j job Hj. apply (I4 j).
  rewrite ios_app, elem_of_app in *. destruct Hj as [|Hj]; [by left|right].
  destruct w; cbn; [by right|done].
Qed.

Lemma read_done_data e ws hand j s :
  data_inv ws ds hand s -> post (spy_read_file_done e j) (fun _ s' => data_inv ws ds hand s') s.
Proof.
  intros I. unfold spy_read_file_done. skip I. post_steps. skip I. destruct (negb _).
  - do 2 skip I. by apply free_data.
  - do 7 skip I. by apply free_data.
Qed.

Lemma check_done_data e ws hand j s :
  data_inv ws ds hand s -> post (spy_check_chunk_done e j) (fun _ s' => data_inv ws ds hand s') s.
Proof. intros I. unfold spy_check_chunk_done. skip I. post_steps. skip I. by apply free_data. Qed.

Lemma dump_done_data e ws hand d s :
  data_inv ws ds hand s -> post (spy_dump_chunkfile_done e d) (fun _ s' => data_inv ws ds hand s') s.
Proof.
  intros I. unfold spy_dump_chunkfile_done. post_steps. set (s1 := set_dump_jobs _ s).
  assert (I1 : data_inv ws ds hand s1) by by eapply data_lists.
  destruct (negb _); [skip I1; done|]. destruct (negb _); skip I1; done.
Qed.

(** The first pending write that fits. *)
Lemma find_pending_inv jobs avail l pj :
  find_pending jobs avail l = Ret (Some pj) ->
  pj ∈ l /\ exists job, jobs !! pj = Some job /\ u32 (f_size (j_file job) + FILE_META_SIZE) < avail.
Proof.
  induction l as [|j l IH]; intros H; cbn in H; [done|].
  destruct (jobs !! j) as [job|] eqn:E; cbn in H; [|done].
  destruct (Z.ltb_spec (u32 (f_size (j_file job) + FILE_META_SIZE)) avail).
  - injection H as <-. split; [by left|]. eauto.
  - destruct (IH H) as [Hin Hj]. split; [by right|done].
Qed.

(** The works, in the order of the invariant. *)
Lemma works_order ws hand s j :
  j ∈ ios (pending_list (sv_wq s) ++ ws ++ finished_list (sv_wq s) ++ hand) ->
  j ∈ ios (works (hand ++ ws) s).
Proof. unfold works, all_works. rewrite !ios_app, !elem_of_app. tauto. Qed.

Lemma reuse_data e ws hand s p ch :
  data_inv ws ds hand s -> chunk_heap (sv_store s) !! p = Some ch ->
  (forall j, j ∈ pending_writes s -> j ∉ ios (works (hand ++ ws) s)) ->
  post (reuse_chunk e p ch) (fun _ s' => data_inv ws ds hand s' /\
    chunk_heap (sv_store s') = chunk_heap (sv_store s) /\ file_index (sv_store s') = file_index (sv_store s)) s.
Proof.
  intros I Hch Hpw. unfold reuse_chunk. post_steps.
  eapply (post_mono _ (fun r s' => s' = s /\ forall pj, r = Some pj ->
    pj ∈ pending_writes s /\ exists job, io_jobs s !! pj = Some job /\
      u32 (f_size (j_file job) + FILE_META_SIZE) < avail_space ch)).
  { destruct (0 <? _); post_steps; [|done]. split; [done|]. intros pj ->. by eapply find_pending_inv. }
  intros [pj|] s0 [-> Hpj]; last first.
  { post_steps. split; [by eapply data_lists|done]. }
  destruct (Hpj pj eq_refl) as (Hin & job & Hj & Hfit). clear Hpj.
  unfold get_job. post_steps.
  match goal with H : c_deref _ = _ |- _ => rewrite Hj in H; injection H as <- end.
  set (s1 := set_pending _ _ s). set (job' := SpyIoJob _ _ _ _ _ _ _).
  assert (I1 : data_inv ws ds hand s1) by by eapply data_lists.
  unfold put_job. post_steps. set (s2 := set_jobs _ _ s1).
  assert (I2 : data_inv ws ds hand s2).
  { eapply data_put; [exact I1|done|]. assert (j_fn job = Some FnWrite \/ j_fn job <> Some FnWrite) as [Hf|];
      [destruct (j_fn job) as [[]|]; (by left) || by right| |by left].
    right. split; [exact (di_job _ _ _ _ I pj job Hj Hf)|]. intros Hw. apply (Hpw pj Hin). by apply works_order. }
  unfold count. post_steps. set (s3 := set_stat _ s2).
  assert (I3 : data_inv ws ds hand s3) by by eapply data_lists.
  post_use queue_data; [exact I3| |by intros _ s4 [I4 ->]].
  intros j0 job0 [= <-]. unfold s3, s2. cbn. rewrite lookup_insert_eq. intros [= <-] q ch' [_ Hq] Hh.
  cbn in Hq. injection Hq as <-. rewrite Hch in Hh. injection Hh as <-. done.
Qed.

(** A new entry for a file that is on disk. *)
Lemma data_index ws hand s x r :
  data_inv ws ds hand s -> spy_lookup_file_index (ie_fid x) (sv_store s) = None -> on_disk (sv_store s) ds x r ->
  let head := ie_fid x mod FILE_HASH_SIZE in
  data_inv ws ds hand (set_store (with_file_index
    (<[head := x :: cell (file_index (sv_store s)) head]> (file_index (sv_store s))) (sv_store s)) s).
Proof.
  intros [[S1 S2 S3 S4 S5 S6] I2 I3 I4] Hn Hx head. split; try done.
  set (st := with_file_index _ _).
  assert (Hl : forall fid, spy_lookup_file_index fid st =
    if decide (ie_fid x = fid) then Some x else spy_lookup_file_index fid (sv_store s)).
  { intros fid. unfold spy_lookup_file_index, st, cell. cbn.
    destruct (decide (head = fid mod FILE_HASH_SIZE)) as [E|Hne].
    - rewrite <- E, lookup_insert_eq. cbn. destruct (Z.eqb_spec (ie_fid x) fid), (decide (ie_fid x = fid)); done.
    - rewrite lookup_insert_ne by done. rewrite decide_False; [done|]. by intros <-. }
  split; try done.
  - intros fid y. rewrite Hl. destruct (decide _) as [<-|]; [intros [= <-]; by exists r|apply S3].
  - intros y Hy. rewrite Hl. pose proof (S5 y Hy) as Hy'. destruct (decide _) as [E|]; [|done].
    by rewrite E, Hy' in Hn.
Qed.

Lemma write_done_data e ws hand j s :
  data_inv ws ds (WIo j :: hand) s -> (forall job, io_jobs s !! j = Some job -> j_fn job = Some FnWrite) ->
  (forall k, k ∈ pending_writes s -> k ∉ ios (works (WIo j :: hand ++ ws) s)) ->
  post (spy_write_file_done e j) (fun _ s' => data_inv ws ds hand s') s.
Proof.
  intros I Hfn Hpw. unfold spy_write_file_done, get_job. post_steps.
  match goal with H : c_deref _ = Ret ?x |- _ =>
    destruct (io_jobs s !! j) as [job|] eqn:Hj; [|done]; injection H as <- end.
  specialize (Hfn job eq_refl). rename a0 into c, a1 into p. assert (Hp : j_chunk job = Some p).
  { destruct (j_chunk job); cbn in *; congruence. }
  assert (D : done_ok (sv_store s) ds job).
  { eapply (di_done _ _ _ _ I j); [|exact Hj]. rewrite ios_app, elem_of_app. right. by left. }
  apply drop_hand in I. post_same. intros cn s1 J1. post_same. intros _ s2 J2. post_same. intros _ s3 J3.
  assert (J : jview s3 = jview s) by congruence. clear J1 J2 J3 s1 s2 cn.
  apply (data_view _ _ _ s3) in I; [|done]. injection J as V1 _ _ _ _ V2 _ V3.
  post_steps. destruct (spy_lookup_file_index _ _) eqn:El; [by apply count_reply_free|].
  unfold get_chunk. post_steps.
  match goal with H : c_deref _ = Ret ?x |- _ => rename x into ch;
    destruct (chunk_heap (sv_store s3) !! p) as [ch'|] eqn:Hch; [|done]; injection H as -> end.
  post_use reuse_data; [exact I|exact Hch| |].
  { intros k. rewrite V2. intros Hk Hw. apply (Hpw k Hk). unfold works in *. rewrite V3 in Hw.
    unfold all_works in *. rewrite !ios_app, !elem_of_app in *. cbn. rewrite ios_app, elem_of_cons, elem_of_app. tauto. }
  intros _ s4 (I4 & Hh & Hi). destruct (Z.eqb_spec (j_retcode job) 0) as [Hr|Hr]; cbn [negb]; [|by apply count_reply_free].
  post_same. intros _ s5 J5. apply (data_view _ _ _ s5) in I4; [|done]. injection J5 as V5 _ _ _ _ _ _ _.
  post_steps. rename a into o. assert (Ho : j_union job = UOffset o).
  { match goal with H : match j_union job with _ => _ end = _ |- _ => by destruct (j_union job); [injection H as ->|] end. }
  rewrite V1 in Hch. destruct (D p ch o) as (disk & r & Hd & Hst); [by split|done|done|done|].
  set (x := SpyFileIndexEntry _ _ _ _). set (s6 := set_store _ s5).
  assert (I6 : data_inv ws ds hand s6).
  { apply (data_index ws hand s5 x r I4).
    - rewrite V5. unfold spy_lookup_file_index in *. by rewrite Hi.
    - exists p, ch, disk. rewrite V5, Hh, V1. done. }
  do 3 skip I6. by apply free_data.
Qed.

(** Jobs that wait or are free are not with the pool. *)
Lemma apart W v j : jobs_inv W [] v -> j ∈ v_free v \/ j ∈ v_pending v -> j ∉ ios W.
Proof.
  intros I Hj Hw. pose proof (ji_nodup _ _ _ I) as Hn. rewrite !NoDup_app in Hn.
  destruct Hn as (_ & H1 & _ & _ & _ & H2 & _). destruct Hj as [Hj|Hj].
  - apply (H1 j Hj). rewrite !elem_of_app. auto.
  - by apply (H2 j Hj).
Qed.

Lemma work_done_data e ws hand w s :
  data_inv ws ds (w :: hand) s -> jobs_inv (works (w :: hand ++ ws) s) [] (jview s) ->
  post (work_done e w) (fun _ s' => data_inv ws ds hand s') s.
Proof.
  intros I J. destruct w as [j|d]; cbn; [|apply dump_done_data; by eapply drop_hand].
  unfold get_job. post_steps. destruct (io_jobs s !! j) as [job|] eqn:Hj; [|done].
  match goal with H : c_deref _ = _ |- _ => injection H as <- end.
  destruct (j_fn job) as [[]|] eqn:Hf; [| | |by post_steps].
  - apply write_done_data; [done|intros ? ?; congruence|]. intros k Hk. eapply apart; [exact J|by right].
  - apply read_done_data. by eapply drop_hand.
  - apply check_done_data. by eapply drop_hand.
Qed.

(** A reply, or other work on a connection. *)
Lemma same_data {A} (m : M A) ws hand s :
  data_inv ws ds hand s -> Keeps jview m -> post m (fun _ s' => data_inv ws ds hand s') s.
Proof. intros I Hm. eapply (post_keeps jview); [done|]. intros _ s' J. by eapply data_view. Qed.

Lemma kill_data e ws hand l s :
  data_inv ws ds hand s -> post (kill_loop e l) (fun _ s' => data_inv ws ds hand s') s.
Proof.
  revert s. induction l as [|j l IH]; intros s I; cbn; [by post_steps|]. skip I. post_steps.
  match goal with |- context [set_pending ?a ?b s0] =>
    assert (I1 : data_inv ws ds hand (set_pending a b s0)) by by eapply data_lists end.
  skip I1. post_use free_data; [exact I1|]. intros _ s2 I2. by apply IH.
Qed.

Lemma timeout_data e ws hand l s :
  data_inv ws ds hand s -> post (timeout_loop e l) (fun _ s' => data_inv ws ds hand s') s.
Proof.
  revert s. induction l as [|j l IH]; intros s I; cbn; [by post_steps|]. skip I.
  destruct (_ <? _); post_steps; [done|].
  match goal with |- context [set_pending ?a ?b s0] =>
    assert (I1 : data_inv ws ds hand (set_pending a b s0)) by by eapply data_lists end.
  skip I1. post_use free_data; [exact I1|]. intros _ s2 I2. by apply IH.
Qed.

Lemma cron_data e ws hand s :
  data_inv ws ds hand s -> post (spy_server_cron e) (fun _ s' => data_inv ws ds hand s') s.
Proof.
  intros I. unfold spy_server_cron, spy_remove_timeout_pending_writes. skip I. post_steps.
  eapply (post_mono _ (fun _ s' => data_inv ws ds hand s')); [|intros ? ? ?; by post_steps].
  destruct (_ =? _); post_steps; [done|]. by apply timeout_data.
Qed.

(** *** Requests *)

Lemma gen_data ws hand s :
  data_inv ws ds hand s -> post spy_gen_io_job (fun r s' => data_inv ws ds hand s' /\
    sv_store s' = sv_store s /\ sv_wq s' = sv_wq s /\ match r with Some j => j ∈ free_io_jobs s | None => True end) s.
Proof.
  intros I. unfold spy_gen_io_job. post_steps. destruct (free_io_jobs s) as [|j l] eqn:E; post_steps; [done|].
  split; [by eapply data_lists|]. split; [done|]. split; [done|by left].
Qed.

(** A job of another kind goes to the pool. *)
Lemma put_other ws hand s j job free :
  data_inv ws ds hand s -> j_fn job <> Some FnWrite ->
  data_inv ws ds hand (set_jobs (<[j := job]> (io_jobs s)) free s).
Proof. intros I Hf. eapply data_put; [exact I|done|by left]. Qed.
Lemma queue_other e ws hand s s0 j job free :
  data_inv ws ds hand s -> jview s = jview (set_jobs (<[j := job]> (io_jobs s0)) free s0) ->
  j_fn job <> Some FnWrite -> post (queue_work e (WIo j)) (fun _ s' => data_inv ws ds hand s') s.
Proof.
  intros I J Hf. injection J as _ _ V _ _ _ _ _. eapply post_mono; [apply queue_data; [exact I|]|by intros _ s' []].
  intros ? job0 [= <-]. rewrite V, lookup_insert_eq. intros [= <-] p ch [? _]. done.
Qed.

(** What the choice of a chunk for a write promises. *)
Definition has_room (len : Z) (h : gmap cptr spy_chunk_t) (chunk : option cptr) : Prop :=
  forall p, chunk = Some p -> exists ch, h !! p = Some ch /\ u32 (len + FILE_META_SIZE) < avail_space ch.

Lemma find_chunk_room h len l r :
  find_chunk h (u32 (len + FILE_META_SIZE)) l = Ret r -> has_room len h r.
Proof.
  induction l as [|q l IH]; intros H; cbn in H; [by injection H as <-|].
  destruct (h !! q) as [ch|] eqn:E; cbn in H; [|done].
  destruct (Z.ltb_spec (u32 (len + FILE_META_SIZE)) (avail_space ch)); [|by apply IH].
  injection H as <-. intros p [= <-]. eauto.
Qed.

Lemma submit_data e ws s c j fid len chunk :
  data_inv ws ds [] s -> j ∉ ios (works ws s) -> has_room len (chunk_heap (sv_store s)) chunk ->
  0 <= fid < 2 ^ 64 -> 0 <= len < 2 ^ 32 ->
  post (submit_write e c j fid len chunk) (fun _ s' => data_inv ws ds [] s') s.
Proof.
  intros I Hn Hr Hf Hl. unfold submit_write.
  post_same. intros job s1 J1. post_same. intros cn s2 J2. post_same. intros _ s3 J3.
  assert (J : jview s3 = jview s) by congruence. clear J1 J2 J3 s1 s2.
  apply (data_view _ _ _ s3) in I; [|done]. injection J as V1 _ _ _ _ _ _ V2.
  assert (P : forall free job', f_fid (j_file job') = fid -> f_ref (j_file job') = 1 -> f_size (j_file job') = len ->
    forall s4, jview s4 = jview s3 -> data_inv ws ds [] (set_jobs (<[j := job']> (io_jobs s4)) free s4)).
  { intros free job' F1 F2 F3 s4 J4. eapply data_put; [eapply data_view; [exact I|exact J4]|done|right]. split.
    - unfold file_fits. rewrite F1, F2, F3. lia.
    - injection J4 as _ _ _ _ _ _ _ V4. rewrite V4, V2. intros Hj. apply Hn.
      unfold works, all_works. rewrite !ios_app, !elem_of_app in *.
      destruct Hj as [?|[?|[?|Hj%not_elem_of_nil]]]; tauto. }
  destruct chunk as [p|].
  - destruct (Hr p eq_refl) as (ch & Hch & Hroom). post_same. intros _ s4 J4. unfold get_chunk. post_steps.
    assert (V4 : sv_store s4 = sv_store s3) by by injection J4. assert (a = ch) as ->.
    { match goal with H : c_deref _ = _ |- _ => rewrite V4, V1, Hch in H; by injection H as <- end. }
    unfold put_job. post_steps. set (job' := SpyIoJob _ _ _ _ _ _ _). set (s5 := set_jobs _ _ s4).
    assert (I5 : data_inv ws ds [] s5) by by apply P.
    eapply post_mono; [apply queue_data; [exact I5|]|by intros _ s' []].
    intros ? job0 [= <-]. unfold s5. cbn. rewrite lookup_insert_eq. intros [= <-] q ch' [_ Hq] Hh.
    cbn in Hq. injection Hq as <-. rewrite V4, V1, Hch in Hh. by injection Hh as <-.
  - unfold put_job. post_steps. set (job' := SpyIoJob _ _ _ _ _ _ _).
    apply (data_lists _ _ (set_jobs (<[j := job']> (io_jobs s3)) (free_io_jobs s3) s3)); [by apply P|done..].
Qed.

Lemma handle_write_data e ws s c :
  data_inv ws ds [] s -> jobs_inv (works ws s) [] (jview s) ->
  post (spy_handle_write e c) (fun _ s' => data_inv ws ds [] s') s.
Proof.
  intros I A. unfold spy_handle_write. post_same. intros cn s1 J1. post_steps. post_same. intros d s2 J2.
  assert (J : jview s2 = jview s) by congruence. clear J1 J2 s1. apply (data_view _ _ _ s2) in I; [|done].
  post_steps. destruct (negb _); [by apply same_data; [|apply _]|]. post_steps.
  destruct (spy_lookup_file_index _ _); [by apply same_data; [|apply _]|]. post_steps.
  match goal with H : find_chunk _ _ _ = Ret ?x |- _ => apply find_chunk_room in H; rename x into chunk, H into Hr end.
  destruct (_ && _); [by apply same_data; [|apply _]|]. post_steps.
  eapply (post_mono _ (fun _ s' => data_inv ws ds [] s' /\ chunk_heap (sv_store s') = chunk_heap (sv_store s2) /\
    sv_wq s' = sv_wq s2 /\ free_io_jobs s' = free_io_jobs s2)).
  { destruct chunk; post_steps; [|done]. split; [by eapply data_lists|done]. }
  intros _ s3 (I3 & Hh & Hq & Hfr). post_use gen_data; [exact I3|]. intros [j|] s4 (I4 & Hs4 & Hq4 & Hj);
    [|by apply same_data; [|apply _]].
  injection J as _ _ _ V3 _ _ _ V4. eapply submit_data; [done| | | |apply u32_range].
  - unfold works. rewrite Hq4, Hq, V4. eapply apart; [exact A|left]. cbn. by rewrite <- V3, <- Hfr.
  - by rewrite Hs4, Hh.
  - eapply read_from_8_range; [|eassumption].
    match goal with H : c_assert (zlen d =? _) = _ |- _ => unfold c_assert in H;
      destruct (Z.eqb_spec (zlen d) REQ_INNER_HDR_SIZE) as [El|]; [|done] end.
    change REQ_INNER_HDR_SIZE with 10 in El. zl.
Qed.

Lemma handle_read_data e ws s c :
  data_inv ws ds [] s -> post (spy_handle_read e c) (fun _ s' => data_inv ws ds [] s') s.
Proof.
  intros I. unfold spy_handle_read. skip I. post_steps. destruct (negb _); [by apply same_data; [|apply _]|].
  post_steps. destruct (spy_lookup_file_index _ _); [|by apply same_data; [|apply _]]. post_steps. skip I.
  destruct (negb _); [by apply same_data; [|apply _]|]. post_use gen_data; [exact I|].
  clear I. intros [j|] s4 (I & _); [|by apply same_data; [|apply _]]. skip I. unfold put_job. post_steps.
  eapply put_other in I; [|shelve]. post_same. intros _ s6 J6. post_same. intros cn s7 J7. post_same. intros _ s8 J8.
  rewrite J7, J6 in J8. eapply queue_other; [by eapply data_view|exact J8|done]. Unshelve. done.
Qed.

Lemma check_disk_data e ws s c :
  data_inv ws ds [] s -> post (spy_handle_check_disk e c) (fun _ s' => data_inv ws ds [] s') s.
Proof.
  intros I. unfold spy_handle_check_disk. post_steps. post_use gen_data; [exact I|].
  clear I. intros [j|] s4 (I & _); [|by apply same_data; [|apply _]]. skip I. unfold put_job. post_steps.
  eapply put_other in I; [|shelve]. post_same. intros cn s7 J7. post_same. intros _ s8 J8.
  rewrite J7 in J8. eapply queue_other; [by eapply data_view|exact J8|done]. Unshelve. done.
Qed.

Lemma dump_data e ws s c :
  data_inv ws ds [] s -> post (spy_dump_chunk e c) (fun _ s' => data_inv ws ds [] s') s.
Proof.
  intros I. unfold spy_dump_chunk. post_steps. skip I. destruct (_ <=? _); [by apply same_data; [|apply _]|].
  skip I. post_steps. match goal with |- post (match ?r with _ => _ end) _ _ => destruct r as [p|] end;
    [|by apply same_data; [|apply _]].
  destruct (negb _); [by apply same_data; [|apply _]|]. post_steps.
  match goal with |- post _ _ ?s1 => assert (I1 : data_inv ws ds [] s1) by by eapply data_lists end.
  skip I1. eapply post_mono; [apply queue_data; [exact I1|done]|by intros _ s' []].
Qed.

Lemma dispatch_data e ws s c op :
  data_inv ws ds [] s -> jobs_inv (works ws s) [] (jview s) ->
  post (dispatch e c op) (fun _ s' => data_inv ws ds [] s') s.
Proof.
  intros I A. unfold dispatch, spy_kill_pending_writes. destruct (op =? _); [by apply handle_write_data|].
  destruct (op =? _); [by apply handle_read_data|]. destruct (op =? _); [by apply same_data; [|apply _]|].
  destruct (op =? _); [by apply check_disk_data|]. destruct (op =? _).
  { post_steps. post_use kill_data; [exact I|]. intros _ s1 I1. by apply same_data; [|apply _]. }
  do 2 (destruct (op =? _); [by apply same_data; [|apply _]|]). destruct (op =? _); [by apply dump_data|].
  by apply same_data; [|apply _].
Qed.

(** *** Received bytes *)

Lemma receive_data e ws s c :
  data_inv ws ds [] s -> jobs_inv (works ws s) [] (jview s) ->
  post (spy_process_receive_buffer e c) (fun _ s' => data_inv ws ds [] s') s.
Proof.
  intros I A. unfold spy_process_receive_buffer.
  post_same. intros cn s1 J1. apply post_bind.
  eapply (post_keeps jview); [destruct (_ && _); apply _|]. intros _ s2 J2.
  post_same. intros cn' s3 J3. apply post_bind.
  eapply (post_keeps jview); [destruct (_ && _); apply _|]. intros _ s4 J4.
  post_same. intros cn'' s5 J5. assert (J : jview s5 = jview s) by congruence. clear J1 J2 J3 J4 J5.
  apply (data_view _ _ _ s5) in I; [|done]. destruct (decide _); [|by post_steps].
  apply dispatch_data; [done|]. rewrite J. unfold works. by replace (sv_wq s5) with (sv_wq s) by by injection J.
Qed.

Lemma read_handler_data e r ws s c :
  data_inv ws ds [] s -> jobs_inv (works ws s) [] (jview s) ->
  post (spy_read_handler e r c) (fun _ s' => data_inv ws ds [] s') s.
Proof.
  intros I A. unfold spy_read_handler. post_same. intros rg s1 J1.
  assert (A1 : jobs_inv (works ws s1) [] (jview s1)).
  { rewrite J1. unfold works. by replace (sv_wq s1) with (sv_wq s) by by injection J1. }
  apply (data_view _ _ _ s1) in I; [|done]. clear A J1 s.
  destruct rg as [rg|]; [|by apply same_data; [|apply _]].
  destruct r as [[|x d]|[]]; try (by apply same_data; [|apply _]).
  post_steps. post_same. intros cn s2 J2. post_same. intros _ s3 J3. rewrite J2 in J3.
  apply receive_data; [eapply data_view; [|exact J3]; by eapply data_view|].
  rewrite J3. unfold works. by replace (sv_wq s3) with (sv_wq s1) by by injection J3.
Qed.

(** *** The event loop *)

Section Loop.
Context (svc : list Z) (pre lim : Z) (CH : list cptr).
#[local] Instance may_block : MayWait := True.
Abbreviation sv_inv := (sv_inv svc pre lim CH).

(** Use what is known of a program that returns. *)
Lemma post_wp {A} (m : M A) (P Q : A -> server_t -> Prop) s :
  wp m P s -> post m Q s -> post m (fun a s' => P a s' /\ Q a s') s.
Proof. Transparent post. intros H1 H2 a s' E. split; [by eapply wp_elim|by apply H2]. Qed.
Opaque post.

Lemma done_loop_data e ws l s :
  data_inv ws ds l s -> sv_inv (l ++ ws) [] s ->
  post (done_loop e l) (fun _ s' => data_inv ws ds [] s') s.
Proof.
  revert s. induction l as [|w l IH]; intros s I A; cbn [done_loop]; [by post_steps|].
  apply post_bind. eapply post_mono; [apply post_wp|].
  - by apply work_done_ok.
  - apply work_done_data; [done|apply A].
  - intros _ s1 [A1 I1]. by apply IH.
Qed.

Lemma thread_done_data e ws s :
  data_inv ws ds [] s -> sv_inv ws [] s -> post (spy_wq_thread_done e) (fun _ s' => data_inv ws ds [] s') s.
Proof.
  intros I A. unfold spy_wq_thread_done. post_steps. cbn [splice_finished]. post_steps. apply done_loop_data.
  - eapply data_queue; [exact I|done|cbn; auto|]. cbn. intros j. rewrite app_nil_r. by left.
  - eapply sv_inv_wq; [exact A|]. unfold works, all_works. cbn. solve_Permutation.
Qed.

Lemma call_data a p fd d mask ws s :
  data_inv ws ds [] s -> sv_inv ws [] s -> post (call a p fd d mask) (fun _ s' => data_inv ws ds [] s') s.
Proof.
  intros I A. destruct p; unfold call; [..|by post_steps].
  - post_steps. apply read_handler_data; [done|apply A].
  - post_steps. post_same. intros _ s1 J. post_steps. by eapply data_view.
  - by apply same_data; [|apply _].
  - by apply thread_done_data.
Qed.

Lemma read_part_data a fe fd mask ws s :
  data_inv ws ds [] s -> sv_inv ws [] s -> post (read_part a fe fd mask) (fun _ s' => data_inv ws ds [] s') s.
Proof.
  intros I A. unfold read_part, call_proc. destruct (negb _); [|by post_steps].
  destruct (rfileProc fe); [by apply call_data|by post_steps].
Qed.

Lemma process_fired_data a fd mask ws s :
  data_inv ws ds [] s -> sv_inv ws [] s -> 0 <= fd < DEF_MAX_CLIENTS -> 0 <= e_rand (a_env a) ->
  (0 <= a_accept a -> fresh_fd svc (a_accept a) s) ->
  post (process_fired sv_el (call a) fd mask) (fun _ s' => data_inv ws ds [] s') s.
Proof.
  intros I A Hfd Hr Hacc. unfold process_fired. post_steps.
  destruct (slot_at _ _ _ _ _ _ _ A Hfd) as (fe & E & Hfe).
  match goal with H : ev_at _ _ = _ |- _ => rewrite E in H; injection H as <- end.
  eapply (post_mono _ _ _ _ (post_wp _ _ _ _ (read_part_ok _ _ _ _ a ws s fd mask fe
    (no_guard_off fd) (no_guard_busy ws s) (no_guard_jobs ws s) A Hfd Hr Hacc Hfe)
    (read_part_data a fe fd mask ws s I A))). intros _ s1 [A1 I1]. post_steps.
  match goal with |- context [wfileProc ?x] => set (fe' := x) in * end.
  destruct (negb _); [|by post_steps]. destruct (_ || _); [|by post_steps].
  unfold call_proc. destruct (wfileProc fe'); [by apply call_data|by post_steps].
Qed.

End Loop.
End Inv.

(** ** The works *)

Section Works.
Context (K : spy_file_index_entry_t -> file_rec -> Prop) (KI : spy_file_index_entry_t -> Prop) {KC : KnownIds}.
Implicit Types (ws : list work) (s : server_t) (ds : disks_t).

Definition set_heap (h : gmap cptr spy_chunk_t) (st : store_t) : store_t :=
  StoreT h (chunks st) (chunk_index st) (n_chunks st) (max_chunk_id st) (file_index st).

(** A write to chunk [p] keeps what is stored, in this chunk and in the others. *)
Section Step.
Context (st : store_t) (ds : disks_t) (p : cptr) (ch ch' : spy_chunk_t) (disk disk' : list byte).
Hypothesis (Hch : chunk_heap st !! p = Some ch) (Hd : ds !! p = Some disk).
Hypothesis Hstep : chunk_step ch disk ch' disk'.
Abbreviation st' := (set_heap (<[p := ch']> (chunk_heap st)) st).
Abbreviation ds' := (<[p := disk']> ds).

Lemma step_stored q cq dq fid o size r :
  chunk_heap st !! q = Some cq -> ds !! q = Some dq -> stored_in cq dq fid o size r ->
  exists cq' dq', chunk_heap st' !! q = Some cq' /\ ds' !! q = Some dq' /\
    chunk_id cq' = chunk_id cq /\ stored_in cq' dq' fid o size r.
Proof.
  intros H1 H2 H3. cbn. destruct (decide (p = q)) as [<-|Hne].
  - rewrite !lookup_insert_eq. rewrite Hch in H1. rewrite Hd in H2. injection H1 as <-. injection H2 as <-.
    exists ch', disk'. split_and!; [done..|apply Hstep|by eapply chunk_step_stored].
  - rewrite !lookup_insert_ne by done. by exists cq, dq.
Qed.

Lemma step_on_disk x r : on_disk st ds x r -> on_disk st' ds' x r.
Proof.
  intros (q & cq & dq & H1 & H2 & H3 & H4). destruct (step_stored q cq dq _ _ _ _ H1 H2 H4) as (c' & d' & G1 & G2 & G3 & G4).
  exists q, c', d'. split_and!; try done. congruence.
Qed.

(** A chunk after the step comes from one with the same id. *)
Lemma step_back q c : chunk_heap st' !! q = Some c ->
  exists c0, chunk_heap st !! q = Some c0 /\ chunk_id c = chunk_id c0 /\ (q <> p -> c = c0).
Proof.
  cbn. destruct (decide (p = q)) as [<-|Hne].
  - rewrite lookup_insert_eq. intros [= <-]. exists ch. split_and!; [done|apply Hstep|done].
  - rewrite lookup_insert_ne by done. eauto.
Qed.

Lemma step_store : store_data K KI st ds -> store_data K KI st' ds'.
Proof.
  intros [S1 S2 S3 S4 S5 S6]. split; [..|exact S5|].
  - intros q c. cbn. destruct (decide (p = q)) as [<-|Hne].
    + rewrite !lookup_insert_eq. intros [= <-]. exists disk'. split; [done|apply Hstep].
    + rewrite !lookup_insert_ne by done. apply S1.
  - intros q q' c c' (x & H1 & E1 & _)%step_back (x' & H2 & E2 & _)%step_back E.
    eapply S2; [exact H1|exact H2|congruence].
  - intros i x Hx. destruct (S3 i x Hx) as [r Hr]. exists r. by apply step_on_disk.
  - intros x r Hx. by apply step_on_disk, S4.
  - intros q id (cq & Hq & <-)%S6. cbn. destruct (decide (p = q)) as [<-|Hne].
    + rewrite lookup_insert_eq. exists ch'. split; [done|]. rewrite Hch in Hq. injection Hq as <-. apply Hstep.
    + rewrite lookup_insert_ne by done. by exists cq.
Qed.

Lemma step_done job : done_ok st ds job -> done_ok st' ds' job.
Proof.
  intros D q c o Hw Hr Hc Ho. destruct (step_back _ _ Hc) as (c0 & H1 & _).
  destruct (D q c0 o Hw Hr H1 Ho) as (dq & r & H2 & H3).
  destruct (step_stored _ _ _ _ _ _ _ H1 H2 H3) as (c' & d' & G1 & G2 & _ & G4). exists d', r. split; [done|].
  rewrite Hc in G1. by injection G1 as <-.
Qed.

Lemma step_todo job : ~ is_write job p -> todo_ok st job -> todo_ok st' job.
Proof.
  intros Hn T q c Hw (c0 & H1 & _ & Hc)%step_back. rewrite Hc by (intros ->; done). by apply (T q).
Qed.

End Step.

Context (svc : list Z) (pre lim : Z) (CH : list cptr).
#[local] Existing Instance may_block.
Abbreviation sv_inv := (sv_inv svc pre lim CH).

(** The state after work [w] has been run and posted. *)
Definition posted (w : work) (s : server_t) : server_t := set_wq (worker_notify (worker_post w (sv_wq s))) s.

(** No two writes on one chunk. *)
Lemma writer_unique ws s j k job job' p :
  sv_inv ws [] s -> j ∈ ios (works ws s) -> k ∈ ios (works ws s) -> io_jobs s !! j = Some job ->
  io_jobs s !! k = Some job' -> is_write job p -> is_write job' p -> j = k.
Proof.
  intros I Hj Hk H1 H2 [F1 C1] [F2 C2]. eapply omap_inj; [apply (ji_excl _ _ _ (si_jobs _ _ _ _ _ _ _ I))|done|done|..].
  - unfold written_by. cbn. rewrite H1. cbn. by rewrite F1.
  - unfold written_by. cbn. rewrite H2. cbn. by rewrite F2.
Qed.

Lemma work_once l1 l2 s j :
  sv_inv (l1 ++ WIo j :: l2) [] s ->
  (j ∉ ios (pending_list (sv_wq s) ++ l1 ++ l2)) /\ j ∉ ios (finished_list (sv_wq s)).
Proof.
  intros I. pose proof (ji_nodup _ _ _ (si_jobs _ _ _ _ _ _ _ I)) as Hn.
  rewrite !NoDup_app in Hn. destruct Hn as (_ & _ & _ & _ & _ & _ & Hn).
  assert (E : ios (works (l1 ++ WIo j :: l2) s) ≡ₚ
    (j :: (ios (pending_list (sv_wq s) ++ l1 ++ l2) ++ ios (finished_list (sv_wq s))))).
  { unfold works, all_works. rewrite !ios_app. cbn. solve_Permutation. }
  rewrite E in Hn. apply NoDup_cons in Hn as [Hn _]. by apply not_elem_of_app in Hn.
Qed.

(** The write [j] on chunk [p] has been run: it keeps the other writes' promises. *)
Lemma data_written ds j l1 l2 s s' job job' p ch ch' disk disk' :
  let ws := l1 ++ WIo j :: l2 in
  let st' := set_heap (<[p := ch']> (chunk_heap (sv_store s))) (sv_store s) in
  data_inv K KI ws ds [] s -> sv_inv ws [] s -> io_jobs s !! j = Some job -> is_write job p ->
  chunk_heap (sv_store s) !! p = Some ch -> ds !! p = Some disk -> chunk_step ch disk ch' disk' ->
  file_fits (j_file job') -> done_ok st' (<[p := disk']> ds) job' ->
  sv_store s' = st' -> io_jobs s' = <[j := job']> (io_jobs s) -> sv_wq s' = sv_wq s ->
  data_inv K KI (l1 ++ l2) (<[p := disk']> ds) [] (posted (WIo j) s').
Proof.
  intros ws st' [D1 D2 D3 D4] A Hj Hw Hch Hd Hst Hf Hok Es Ej Eq. destruct (work_once _ _ _ _ A) as [N1 N2].
  pose proof (work_in l1 l2 j s) as Hin. fold ws in Hin. unfold posted.
  split; cbn [sv_store io_jobs sv_wq set_wq]; rewrite ?Es, ?Ej, ?Eq; unfold worker_notify, worker_post;
    cbn [pending_list finished_list].
  - by eapply step_store.
  - intros k x. destruct (decide (j = k)) as [<-|Hne]; [rewrite lookup_insert_eq; by intros [= <-]|].
    rewrite lookup_insert_ne by done. apply D2.
  - intros k x Hk. destruct (decide (j = k)) as [<-|Hne]; [done|]. rewrite lookup_insert_ne by done. intros Hx.
    eapply step_todo; [done..| |].
    + intros Hwk. apply Hne. eapply writer_unique; [exact A|exact Hin| |done..].
      unfold ws, works, all_works. rewrite !ios_app, !elem_of_app in *. cbn. rewrite elem_of_cons. tauto.
    + eapply D3; [|exact Hx]. unfold ws. rewrite !ios_app, !elem_of_app in *. cbn. rewrite elem_of_cons. tauto.
  - intros k x. rewrite app_nil_r, ios_app, elem_of_app. cbn. rewrite list_elem_of_singleton. intros [Hk| ->].
    + rewrite lookup_insert_ne by (intros ->; done). intros Hx. eapply step_done; [done..|].
      eapply D4; [|exact Hx]. by rewrite app_nil_r.
    + rewrite lookup_insert_eq. by intros [= <-].
Qed.

(** The index entry for the file of write job [job] on chunk [ch]. *)
Definition job_entry (ch : spy_chunk_t) (job : spy_io_job_t) : spy_file_index_entry_t :=
  SpyFileIndexEntry (chunk_id ch) (f_fid (j_file job)) (match j_union job with UOffset o => o | UIndex _ => 0 end)
    (u32 (f_size (j_file job) + FILE_META_SIZE)).

Lemma run_write_data script now ds j l1 l2 s job p ch disk :
  let ws := l1 ++ WIo j :: l2 in
  data_inv K KI ws ds [] s -> sv_inv ws [] s -> io_jobs s !! j = Some job -> is_write job p ->
  chunk_heap (sv_store s) !! p = Some ch -> ds !! p = Some disk ->
  post (run_write script now ds j job p ch disk) (fun ds' s' =>
    data_inv K KI (l1 ++ l2) ds' [] (posted (WIo j) s') /\
    forall job' c cn, io_jobs s' !! j = Some job' -> j_retcode job' = 0 ->
      j_conn job = Some c -> conns s !! c = Some cn ->
      exists r, fr_data r = ztake (f_size (j_file job)) (content (mp_heap (sv_pool s)) (request cn)) /\
        on_disk (sv_store s') ds' (job_entry ch job) r) s.
Proof.
  intros ws I A Hj Hw Hch Hd. pose proof (work_in l1 l2 j s) as Hin. fold ws in Hin.
  destruct (running_job _ _ _ _ ws s j A Hin) as (job' & c & cn & p' & ch' & Hj' & Hc & _ & _ & _ & Hcn & Wr & _).
  rewrite Hj in Hj'. injection Hj' as <-. destruct (work_once _ _ _ _ A) as [N1 N2].
  pose proof I as [D1 D2 D3 D4]. destruct (sd_chunk _ _ _ _ D1 p ch Hch) as (disk0 & Hd0 & On).
  rewrite Hd in Hd0. injection Hd0 as <-.
  destruct (D3 j job) with (2 := Hj) (3 := Hw) (4 := Hch) as [Ho Hroom].
  { unfold ws. rewrite !ios_app, !elem_of_app. right. right. by left. }
  unfold run_write, get_conn. rewrite Hc, Ho. post_steps.
  repeat match goal with H : Ret _ = Ret _ |- _ => injection H as <- | H : c_deref (Some _) = _ |- _ => injection H as <- end.
  match goal with H : c_deref (conns _ !! _) = _ |- _ => rewrite Hcn in H; injection H as <- end.
  match goal with H : spy_write_file _ _ _ _ _ _ _ _ = Ret ?r |- _ => rename r into res, H into Hres end.
  destruct (write_chunk_step _ _ _ _ _ _ _ _ Wr On (D2 j job Hj (proj1 Hw)) Hroom Hres) as (Hst & [d Hf] & Hok).
  unfold put_job, put_chunk, put_conn. post_steps.
  split; last first.
  { intros x c' cn'. cbn [io_jobs set_conns set_store set_jobs]. rewrite lookup_insert_eq.
    intros [= <-] Hr [= <-]. rewrite Hcn. intros [= <-]. destruct (Hok Hr) as (r & Hdr & H). exists r.
    split; [done|]. exists p, (w_chunk res), (w_disk res). unfold job_entry. rewrite Ho. cbn.
    rewrite !lookup_insert_eq. split_and!; try done. apply Hst. }
  eapply (data_written ds j l1 l2 s _ job _ p ch (w_chunk res)); try done; cbn [j_file with_result]; rewrite Hf.
  - exact (D2 j job Hj (proj1 Hw)).
  - intros q c' o [_ Hq] Hr Hc' Ho'. cbn in Hq, Hr, Hc', Ho'. rewrite (proj2 Hw) in Hq. injection Hq as <-.
    rewrite lookup_insert_eq in Hc'. injection Hc' as <-. rewrite Ho in Ho'. injection Ho' as <-.
    destruct (Hok Hr) as (r & _ & H). exists (w_disk res), r. rewrite lookup_insert_eq. done.
Qed.

(** A work that is no write: the chunks and their files stay. *)
Lemma data_posted ds w l1 l2 s' :
  data_inv K KI (l1 ++ w :: l2) ds [] s' ->
  (forall j job, w = WIo j -> io_jobs s' !! j = Some job -> j_fn job <> Some FnWrite) ->
  data_inv K KI (l1 ++ l2) ds [] (posted w s').
Proof.
  intros I Hn. eapply data_queue; [exact I|done|..]; cbn; intros j.
  - left. rewrite !ios_app, !elem_of_app in *. destruct w; cbn; rewrite ?elem_of_cons; tauto.
  - rewrite !app_nil_r, ios_app, elem_of_app. intros [?|Hj]; [by left|right]. intros job Hl.
    destruct w as [k|]; cbn in Hj; [apply list_elem_of_singleton in Hj as ->|by apply not_elem_of_nil in Hj].
    intros p ch o [Hf _]. by destruct (Hn k job eq_refl Hl).
Qed.

Lemma run_work_data script now rand ds w l1 l2 s :
  let ws := l1 ++ w :: l2 in
  data_inv K KI ws ds [] s -> sv_inv ws [] s ->
  post (run_work script now rand ds w) (fun ds' s' => data_inv K KI (l1 ++ l2) ds' [] (posted w s')) s.
Proof.
  intros ws I A. destruct w as [j|d]; cbn [run_work].
  - unfold run_io, get_job, get_chunk. post_steps.
    match goal with H : c_deref (io_jobs s !! j) = Ret ?x |- _ =>
      rename x into job; destruct (io_jobs s !! j) as [job'|] eqn:Hj; [|done]; injection H as -> end.
    destruct (j_fn job) as [[]|] eqn:Hf; [| | |by post_steps].
    + eapply post_mono; [apply run_write_data; try done; [by split; [|apply deref_inv]|by apply deref_inv..]|].
      by intros ds' s' [].
    + unfold run_read, get_conn, put_job, put_conn. post_steps. eapply data_posted.
      * eapply data_view; [eapply put_other; [exact I|]|done]. cbn. by rewrite Hf.
      * intros k x [= <-]. cbn. rewrite lookup_insert_eq. intros [= <-]. cbn. by rewrite Hf.
    + unfold put_job. post_steps. eapply data_posted.
      * eapply put_other; [exact I|]. cbn. by rewrite Hf.
      * intros k x [= <-]. cbn. rewrite lookup_insert_eq. intros [= <-]. cbn. by rewrite Hf.
  - unfold run_dump, get_conn, get_chunk, put_conn. post_steps.
    match goal with |- post (let '_ := ?x in _) _ _ => destruct x end. post_steps.
    eapply data_posted; [by eapply data_lists|done].
Qed.

End Works.
