(* ===== verification/DataSafe.v ===== *)
(** * DataSafe: no file is lost

    Files that are on disk when the server starts, files whose write has
    succeeded, and files in the index: in every later state of the system they
    are found and read back with the same bytes.  The invariant is that of
    [DataInv.v]. *)

From S2P Require Import Prelude Utils RwBuffer Adler32 Store StoreFile StoreData StoreRecover Event WorkQueue Server.
From S2P Require Import ServerConn ServerJobs ServerSafe Worker System Startup LoopFrame MainLoop DataInv.

Section Data.
Context (b : boot).
Implicit Types (K : spy_file_index_entry_t -> file_rec -> Prop) (KI : spy_file_index_entry_t -> Prop) (x y : sys).

Definition sys_data K KI {KC : KnownIds} x : Prop := data_inv K KI (running x) (disks x) [] (srv x).

(** Every chunk's counters agree with its file, and every file of the index is
    whole. *)
Definition files_ok (st : store_t) (ds : disks_t) : Prop := store_data (fun _ _ => False) (fun _ => False) st ds.

Lemma step_data K KI {KC : KnownIds} x y : sys_inv b x -> sys_data K KI x -> sys_step b x y -> sys_data K KI y.
Proof.
  Transparent post.
  intros [A _] I Hst. destruct Hst as [a fd mask s s' ws ds Hfd [Hr Ha] H|e r s s' ws ds H|next last ts s ws ds
    |w q s ws ds H|script now rand w l1 l2 s s' ds ds' H|s ws ds]; unfold sys_data in *; cbn [srv running disks] in *.
  - exact (process_fired_data K KI ds _ _ _ _ a fd mask ws s I A Hfd Hr Ha tt s' H).
  - exact (cron_data K KI ds e ws [] s I r s' H).
  - by eapply data_view.
  - apply worker_take_some in H as [Hp Hq]. eapply data_queue; [exact I|done|..]; cbn; intros j Hj; left.
    + rewrite Hp. rewrite !ios_app, !elem_of_app in *. destruct w; cbn in *; rewrite ?elem_of_cons in *; tauto.
    + by rewrite Hq in Hj.
  - exact (run_work_data K KI _ _ _ _ script now rand ds w l1 l2 s I A ds' s' H).
  - eapply data_queue; [exact I|done|..]; cbn; auto.
Qed.
Opaque post.

(** The files to keep may be chosen at any time. *)
Lemma data_keep K KI K' KI' {KC KC' : KnownIds} x :
  sys_data K KI (KC := KC) x -> (forall e r, K' e r -> on_disk (sv_store (srv x)) (disks x) e r) ->
  (forall e, KI' e -> spy_lookup_file_index (ie_fid e) (sv_store (srv x)) = Some e) ->
  (forall p id, KC' p id -> exists ch, chunk_heap (sv_store (srv x)) !! p = Some ch /\ chunk_id ch = id) ->
  sys_data K' KI' (KC := KC') x.
Proof. intros [[S1 S2 S3 S4 S5 S6] I2 I3 I4] H1 H2 H3. by split; [split|..]. Qed.

Lemma steps_data K KI {KC : KnownIds} x y :
  sys_inv b x -> sys_data K KI x -> rtc (sys_step b) x y -> sys_inv b y /\ sys_data K KI y.
Proof.
  intros A I Hs. induction Hs as [|x z y Hst _ IH]; [done|]. apply IH.
  - by eapply sys_step_inv.
  - by eapply step_data.
Qed.

(** *** The start *)

Lemma init_loop_zero n j h l k job :
  (forall k job, h !! k = Some job -> job = zero_job) ->
  (init_io_jobs_loop n j h l).1 !! k = Some job -> job = zero_job.
Proof.
  revert j h l. induction n as [|n IH]; intros j h l Hh; cbn; [apply Hh|]. apply IH.
  intros i x. destruct (decide (j = i)) as [<-|Hne]; [rewrite lookup_insert_eq; by intros [= <-]|].
  rewrite lookup_insert_ne by done. apply Hh.
Qed.

Lemma init_jobs_zero n ok jobs free k job :
  spy_init_io_jobs n ok = Ret (jobs, free) -> jobs !! k = Some job -> job = zero_job.
Proof.
  intros H Hk. unfold spy_init_io_jobs in H. apply bind_Ret_inv in H as (u & _ & H).
  apply bind_Ret_inv in H as (u' & _ & H). injection H as H.
  eapply (init_loop_zero (Z.to_nat n) 0 ∅ [] k); [by intros i y; rewrite lookup_empty|]. by rewrite H.
Qed.

Lemma setup_store s0 : spy_setup b = Ret s0 -> sv_store s0 = b_store b.
Proof.
  intros H. unfold spy_setup in H. apply bind_Ret_inv in H as (el1 & H1 & H).
  apply bind_Ret_inv in H as ([wq el2] & H2 & H). apply bind_Ret_inv in H as (pool & H3 & H).
  apply bind_Ret_inv in H as ([jobs free] & H4 & H). by injection H as <-.
Qed.

Lemma setup_data s0 ds :
  SystemProps.booted b -> spy_setup b = Ret s0 -> files_ok (b_store b) ds ->
  sys_inv b (Sys s0 [] ds) /\ sys_data (fun _ _ => False) (fun _ => False) (Sys s0 [] ds).
Proof.
  intros Hb H F. assert (A : sys_inv b (Sys s0 [] ds)).
  { apply SystemProps.reachable_parts; [exact Hb|]. constructor; [done|]. intros p [ch Hp].
    destruct (sd_chunk _ _ _ _ F p ch Hp) as (d & -> & _). by eexists. }
  split; [done|]. unfold spy_setup in H. apply bind_Ret_inv in H as (el1 & H1 & H).
  apply bind_Ret_inv in H as ([wq el2] & H2 & H). apply bind_Ret_inv in H as (pool & H3 & H).
  apply bind_Ret_inv in H as ([jobs free] & H4 & H). injection H as <-.
  assert (Z : forall j job, jobs !! j = Some job -> j_fn job <> Some FnWrite).
  { intros j job Hj. by rewrite (init_jobs_zero _ _ _ _ _ _ H4 Hj). }
  split; cbn; [exact F|..].
  - intros j job Hj Hf. by destruct (Z j job Hj).
  - intros j job _ Hj p ch [Hf _]. by destruct (Z j job Hj).
  - intros j job _ Hj p ch o [Hf _]. by destruct (Z j job Hj).
Qed.

End Data.

(** ** Reading *)

(** The chunk of entry [e] is found, and [spy_read_file] of the entry gives the
    bytes of [r], into any empty buffer with enough room and whatever pieces the
    kernel returns. *)
Definition reads_back (st : store_t) (ds : disks_t) (e : spy_file_index_entry_t) (r : file_rec) : Prop :=
  exists p disk,
    lookup_chunk (chunk_heap st) (cell (chunk_index st) (ie_chunk_id e mod CHUNK_HASH_SIZE)) (ie_chunk_id e)
      = Ret (Some p) /\ ds !! p = Some disk /\
    forall h bf script, buf_wf h bf -> content h bf = [] -> ie_size e <= cap bf - write_pos bf ->
      Forall benign script -> ie_size e <= xfers script ->
      exists h' bf', spy_read_file script h e disk bf = Ret (ReadRes 0 (Some (fr_file r)) h' bf') /\
        content h' bf' = fr_data r.

(** Reading a stored record, from the file of its chunk. *)
Lemma stored_reads ch disk e r h bf script :
  chunk_on ch disk -> stored_in ch disk (ie_fid e) (ie_offset e) (ie_size e) r ->
  buf_wf h bf -> content h bf = [] -> ie_size e <= cap bf - write_pos bf ->
  Forall benign script -> ie_size e <= xfers script ->
  exists h' bf', spy_read_file script h e disk bf = Ret (ReadRes 0 (Some (fr_file r)) h' bf') /\
    content h' bf' = fr_data r.
Proof.
  intros On Hst W Hc Hcap Hs Hx.
  destruct (stored_record _ _ _ _ _ _ On Hst) as [R1 R2 R3 R4]. pose proof (co_len _ _ On) as Hlen.
  destruct Hst as [_ S2 S3]. pose proof (rf_size _ R4) as Hsz. rewrite zlen_enc_rec in S3.
  destruct e as [cid fid o size]. cbn in *. replace size with (f_size (fr_file r) + FILE_META_SIZE) in * by lia.
  rewrite <- S2. destruct (read_record_ok disk o r cid h bf script) as (h' & b' & E & _ & C' & _); try done; [sizes; lia|lia|].
  by exists h', b'.
Qed.

Lemma on_disk_reads K KI CH st w ds e r :
  chunk_inv CH st w -> store_data K KI st ds -> on_disk st ds e r -> reads_back st ds e r.
Proof.
  intros C S (p & ch & disk & Hh & Hd & Hid & Hst).
  destruct (hashed_lookup (CH:=CH) st w (ie_chunk_id e) C) as (q & cq & El & Hq & Hidq).
  { rewrite <- Hid. by eapply (ch_self _ _ _ C). }
  replace q with p in *; [|eapply (sd_ids _ _ _ _ S); [exact Hh|exact Hq|congruence]].
  exists p, disk. split_and!; [done..|].
  destruct (sd_chunk _ _ _ _ S p ch Hh) as (disk' & Hd' & On). rewrite Hd in Hd'. injection Hd' as <-.
  intros h bf script. by apply (stored_reads ch).
Qed.

(** ** Stores that recovery has built *)

Abbreviation found := (dir_entry * spy_chunk_t * list file_rec)%type.

(** Each chunk found in the directory has its file open. *)
Definition opened (L : list found) (st : store_t) (ds : disks_t) : Prop :=
  forall e c rs p ch, (e, c, rs) ∈ L -> chunk_heap st !! p = Some ch -> chunk_id ch = chunk_id c ->
    ds !! p = Some (d_disk e).

Section Recovered.
Context (cfg : store_config) (dir : list byte) (L : list found) (st : store_t) (ds : disks_t).
Hypothesis (R : recovered L st) (Ho : opened L st ds).
Hypothesis (Hg : Forall (fun x => recoverable cfg dir x.1.1 x.1.2 x.2) L) (Hi : NoDup (found_ids L)).

Lemma ids_unique p q ch ch' :
  chunk_heap st !! p = Some ch -> chunk_heap st !! q = Some ch' -> chunk_id ch = chunk_id ch' -> p = q.
Proof.
  intros Hp Hq E. apply (omap_inj (fun p => chunk_id <$> chunk_heap st !! p) (chunks st) p q (chunk_id ch)).
  - change (NoDup (ids_of st)). rewrite (rv_ids _ _ R). apply NoDup_ListNoDup, NoDup_rev. by apply NoDup_ListNoDup.
  - by eapply (rv_heap _ _ R).
  - by eapply (rv_heap _ _ R).
  - by rewrite Hp.
  - rewrite Hq. cbn. by rewrite E.
Qed.

(** The chunk set up for an entry of the directory. *)
Lemma found_chunk e c rs :
  (e, c, rs) ∈ L -> exists p ch, chunk_heap st !! p = Some ch /\ ch = same_persistent ch c /\
    ds !! p = Some (d_disk e) /\ chunk_image (cfg_chunk_size cfg) (d_disk e) c rs.
Proof.
  intros Hin. assert (Hid : chunk_id c ∈ ids_of st).
  { rewrite (rv_ids _ _ R). apply list_elem_of_In, in_rev. rewrite rev_involutive. apply in_map_iff.
    exists (e, c, rs). split; [done|]. by apply list_elem_of_In. }
  apply list_elem_of_omap in Hid as (p & _ & Hp).
  destruct (chunk_heap st !! p) as [ch|] eqn:Hch; [|done]. injection Hp as Hp. exists p, ch.
  destruct (rv_heap _ _ R p ch Hch) as (_ & e' & c' & rs' & Hin' & Ec).
  assert (E : (e', c', rs') = (e, c, rs)).
  { eapply (omap_inj (fun x => Some (chunk_id x.1.2)) L); [|done|done|done|].
    - replace (omap _ L) with (found_ids L); [done|]. clear. unfold found_ids. induction L as [|x l IH]; [done|].
      cbn. by rewrite IH.
    - cbn. rewrite <- Hp, Ec. done. }
  injection E as -> -> ->. split_and!; [done|done|by eapply Ho|].
  rewrite Forall_forall in Hg. exact (rc_image _ _ _ _ _ (Hg _ Hin)).
Qed.

Lemma image_log c ch disk rs :
  chunk_image (cfg_chunk_size cfg) disk c rs -> ch = same_persistent ch c -> log_on ch disk rs.
Proof.
  intros [[tail ->] _ _ _ I3 _ [I4 I5] I6] E. split; [by rewrite E| |by rewrite E|done].
  rewrite <- (zlen_sb_bytes c). apply zsub_middle.
Qed.

Lemma image_on c ch disk rs :
  chunk_image (cfg_chunk_size cfg) disk c rs -> ch = same_persistent ch c -> chunk_on ch disk.
Proof.
  intros Im E. pose proof (image_log _ _ _ _ Im E) as Lg. destruct Im as [_ I1 I2 I0 I3 [I4 I5] _ _].
  assert (E1 : current_offset ch = current_offset c) by by rewrite E.
  assert (E2 : avail_space ch = avail_space c) by by rewrite E.
  split; [by exists rs|by rewrite E|..]; rewrite ?E1, ?E2; slia.
Qed.

Lemma recovered_on_disk e c rs pre r post :
  (e, c, rs) ∈ L -> rs = pre ++ r :: post -> on_disk st ds (rec_entry (chunk_id c) pre r) r.
Proof.
  intros Hin E. destruct (found_chunk e c rs Hin) as (p & ch & Hh & Ec & Hd & Im). subst rs.
  exists p, ch, (d_disk e). split_and!; [done|done|by rewrite Ec|].
  pose proof (img_recs _ _ _ _ Im) as Hrs.
  apply Forall_app in Hrs as [_ Hrs]. apply Forall_cons in Hrs as [Hfit _]. pose proof (rf_size _ Hfit).
  split; [|done|cbn; rewrite zlen_enc_rec; lia]. exists pre, post. split; [by eapply image_log|done].
Qed.

Lemma recovered_files_ok : files_ok st ds.
Proof.
  split; [|exact ids_unique| |done..].
  - intros p ch Hp. destruct (rv_heap _ _ R p ch Hp) as (_ & e & c & rs & Hin & Ec).
    destruct (found_chunk e c rs Hin) as (q & ch' & Hq & Ec' & Hd & Im).
    replace q with p in *; [|eapply ids_unique; [exact Hp|exact Hq|by rewrite Ec, Ec']].
    exists (d_disk e). split; [done|]. by eapply image_on.
  - intros fid x Hx. destruct (decide (fid ∈ found_fids L)) as [Hf|Hf]; last first.
    { by rewrite (rv_only _ _ R fid Hf) in Hx. }
    unfold found_fids in Hf. apply list_elem_of_In, in_concat in Hf as (l & Hl & Hf).
    apply in_map_iff in Hl as ([[e c] rs] & <- & Hin). apply list_elem_of_In in Hin.
    apply in_map_iff in Hf as (r & <- & Hr). apply list_elem_of_In, list_elem_of_split in Hr as (pre & post & E).
    cbn in E. rewrite (rv_files _ _ R e c rs pre r post Hin E) in Hx. injection Hx as <-. exists r.
    by eapply recovered_on_disk.
Qed.

End Recovered.

(** ** Stores that start-up has created *)

Section Created.
Context (cfg : store_config) (Hcs : SUPERBLOCK_SIZE < cfg_chunk_size cfg <= DEF_CHUNK_SIZE).

(** Empty chunks of the configured size, with different ids. *)
Record all_new (s : store_t) : Prop := {
  an_chunk : forall p ch, chunk_heap s !! p = Some ch ->
    current_offset ch = SUPERBLOCK_SIZE /\ avail_space ch = cfg_chunk_size cfg - SUPERBLOCK_SIZE /\
    (files_count ch = 0 /\ files_alloc ch = 0) /\ 0 <= chunk_id ch < 2 ^ 64 /\ chunk_id ch <= max_chunk_id s;
  an_ids : forall p q ch ch', chunk_heap s !! p = Some ch -> chunk_heap s !! q = Some ch' ->
    chunk_id ch = chunk_id ch' -> p = q;
  an_index : file_index s = ∅
}.

Lemma create_chunk_new env s r d s' :
  store_inv none s -> numbered s -> zlen (chunks s) < 2 ^ 31 - 1 -> all_new s ->
  spy_create_chunk cfg env s = Ret (r, d, s') -> r = 0 -> all_new s'.
Proof.
  intros I [N1 _] Hn [A1 A2 A3] H Hr. pose proof (st_count _ _ I) as Hc. pose proof (zlen_nonneg (chunks s)).
  unfold spy_create_chunk in H. cbn in H. rewrite u64_small in H by lia.
  apply bind_Ret_inv in H as (? & _ & H). destruct (_ <? 0); [inv_ret; done|].
  destruct (negb _); [inv_ret; done|]. apply bind_Ret_inv in H as (s1 & E & H).
  apply bind_Ret_inv in H as ([[r1 d1] sc1] & _ & H). inv_ret.
  set (c := fresh _) in E. set (chunk := spy_alloc_chunk _ _ _ _ _) in E.
  destruct (add_chunk_inv none (with_max_chunk_id (max_chunk_id s + 1) s) c chunk s')
    as (_ & _ & Hh & _ & M & _); try done; [by apply store_inv_max|apply is_fresh|].
  assert (Hi : file_index s' = file_index s).
  { unfold spy_add_chunk in E. apply bind_Ret_inv in E as (? & _ & E). apply bind_Ret_inv in E as (? & _ & E).
    by injection E as <-. }
  cbn in Hh, M. assert (Hid : chunk_id chunk = max_chunk_id s + 1) by done. split; [| |congruence].
  - intros p ch. rewrite Hh, M. destruct (decide (c = p)) as [<-|Hne].
    + rewrite lookup_insert_eq. intros [= <-]. unfold chunk. cbn. rewrite u64_small by slia.
      split_and!; done || lia.
    + rewrite lookup_insert_ne by done. intros Hp. destruct (A1 p ch Hp) as (? & ? & ? & ? & ?). split_and!; try done; lia.
  - intros p q ch ch'. rewrite Hh. destruct (decide (c = p)) as [<-|Hp], (decide (c = q)) as [<-|Hq];
      rewrite ?lookup_insert_eq, ?lookup_insert_ne by done; [done| | |apply A2].
    + intros [= <-] Hx E'. apply A1 in Hx as (_ & _ & _ & _ & ?). lia.
    + intros Hx [= <-] E'. apply A1 in Hx as (_ & _ & _ & _ & ?). lia.
Qed.

Lemma create_loop_new n envs s s' :
  store_inv none s -> numbered s -> zlen (chunks s) + Z.of_nat n < 2 ^ 31 -> all_new s ->
  create_loop n cfg envs s = Ret s' -> all_new s'.
Proof.
  revert envs s. induction n as [|n IH]; intros envs s I N Hn A H; cbn in H; [by inv_ret|].
  destruct envs as [|env envs]; [done|]. apply bind_Ret_inv in H as ([[r d] s1] & E & H).
  destruct (Z.eqb_spec r 0) as [Hr|]; [|done]. cbn in H.
  destruct (create_chunk_inv _ _ _ _ _ _ I N ltac:(lia) E Hr) as (I1 & N1 & L1).
  eapply (IH envs s1); [done|done|lia| |done]. eapply create_chunk_new; [exact I|exact N|lia|done..].
Qed.

(** A new server, on a directory without chunk files: the files that creation has
    allocated agree with its store. *)
Lemma created_files_ok dir es envs st ds :
  spy_create_or_recover_files cfg dir (Some es) envs empty_store = Ret st ->
  Forall (fun e => d_reg e = false) es -> zlen es < 2 ^ 31 - 1 -> 0 < cfg_n_chunks cfg < 2 ^ 31 ->
  (forall p, is_Some (chunk_heap st !! p) -> exists d, ds !! p = Some d /\ zlen d = cfg_chunk_size cfg) ->
  files_ok st ds.
Proof.
  intros H HF He Hn Hds. cbn in H. apply bind_Ret_inv in H as (s & E & H). pose proof (zlen_nonneg es).
  apply (scan_dir_inv _ _ _ _ _ empty_store_inv) in E as (_ & _ & N); [|change (zlen (chunks empty_store)) with 0; lia].
  rewrite N in H by (by right). cbn in H.
  apply create_loop_new in H as [A1 A2 A3]; [|apply empty_store_inv|split; [done|]|change (zlen (chunks empty_store)) with 0; lia|].
  - split; try done.
    + intros p ch Hp. destruct (Hds p) as (d & Hd & Hl); [by exists ch|]. exists d. split; [done|].
      destruct (A1 p ch Hp) as (E1 & E2 & [E3 E4] & E5 & _). split; rewrite ?E1, ?E2; try slia.
      exists []. split; [by rewrite E1|by rewrite zsub_nil|done|constructor].
    + intros fid x. unfold spy_lookup_file_index. rewrite A3, cell_empty. done.
  - intros id Hid. change (n_chunks empty_store) with 0 in Hid. lia.
  - split; [by intros p ch; cbn; rewrite lookup_empty|by intros p q ch ch'; cbn; rewrite lookup_empty|done].
Qed.

End Created.

(** ** Properties *)

Module DataProps.
Import SystemProps MainLoopProps.

(** A worker runs a write job for the bytes [d], and the write succeeds; [e] is the
    index entry that completing the job makes. *)
Inductive wrote : sys -> list byte -> spy_file_index_entry_t -> sys -> Prop :=
| wrote_intro script now rand j job job' c cn p ch l1 l2 s s' ds ds' :
    io_jobs s !! j = Some job -> is_write job p -> chunk_heap (sv_store s) !! p = Some ch ->
    j_conn job = Some c -> conns s !! c = Some cn ->
    run_work script now rand ds (WIo j) s = Ret (ds', s') ->
    io_jobs s' !! j = Some job' -> j_retcode job' = 0 ->
    wrote (Sys s (l1 ++ WIo j :: l2) ds)
      (ztake (f_size (j_file job)) (content (mp_heap (sv_pool s)) (request cn))) (job_entry ch job)
      (Sys (posted (WIo j) s') (l1 ++ l2) ds').

(** The record of a write that has succeeded is on disk. *)
Lemma wrote_on_disk b K KI x d e y :
  sys_inv b x -> sys_data K KI x -> wrote x d e y ->
  sys_step b x y /\ exists r, fr_data r = d /\ on_disk (sv_store (srv y)) (disks y) e r.
Proof.
  Transparent post.
  intros A I W. revert A I.
  destruct W as [script now rand j job job' c cn p ch l1 l2 s s' ds ds' Hj Hw Hch Hc Hcn H Hj' Hr]. intros [A _] I.
  split; [by eapply step_run|]. cbn [srv running disks] in *. unfold sys_data in I. cbn [srv running disks] in I.
  destruct (sd_chunk _ _ _ _ (di_store _ _ _ _ _ _ I) p ch Hch) as (disk & Hd & _).
  cbn [run_work] in H. unfold run_io, get_job, get_chunk, mbind, prog_bind, pget, plift, mret, prog_ret in H. cbn in H.
  rewrite Hj in H. cbn in H. rewrite (proj2 Hw) in H. cbn in H. rewrite Hch in H. cbn in H. rewrite Hd in H. cbn in H.
  rewrite (proj1 Hw) in H.
  destruct (run_write_data K KI _ _ _ _ script now ds j l1 l2 s job p ch disk I A Hj Hw Hch Hd ds' s' H) as [_ W].
  exact (W job' c cn Hj' Hr Hc Hcn).
Qed.
Opaque post.

(** Files kept from a state on are read back in every later one. *)
Lemma kept_reads b K KI x y e r :
  sys_inv b x -> sys_data K KI x -> on_disk (sv_store (srv x)) (disks x) e r ->
  rtc (sys_step b) x y -> reads_back (sv_store (srv y)) (disks y) e r.
Proof.
  intros A I Hd Hs. apply (data_keep _ _ (fun e' r' => e' = e /\ r' = r) (fun _ => False)) in I;
    [|by intros ? ? [-> ->]|done..].
  destruct (steps_data b _ _ _ _ A I Hs) as [[Ay _] Iy].
  eapply on_disk_reads; [exact (si_chunk _ _ _ _ _ _ _ Ay)|exact (di_store _ _ _ _ _ _ Iy)|].
  by apply (sd_keep _ _ _ _ (di_store _ _ _ _ _ _ Iy)).
Qed.

(** Entries of the index stay. *)
Lemma kept_entry b K KI x y fid e :
  sys_inv b x -> sys_data K KI x -> spy_lookup_file_index fid (sv_store (srv x)) = Some e ->
  rtc (sys_step b) x y -> spy_lookup_file_index fid (sv_store (srv y)) = Some e.
Proof.
  intros A I Hl Hs. assert (Hf : ie_fid e = fid).
  { unfold spy_lookup_file_index in Hl. by apply find_some in Hl as [_ ?%Z.eqb_eq]. }
  apply (data_keep _ _ (fun _ _ => False) (fun e' => e' = e)) in I; [|done|intros ? ->; by rewrite Hf|done].
  destruct (steps_data b _ _ _ _ A I Hs) as [_ Iy]. rewrite <- Hf.
  by apply (sd_index _ _ _ _ (di_store _ _ _ _ _ _ Iy)).
Qed.

(** C3: a file whose write succeeded is never lost.  From any start on a store whose
    files are whole, in any reachable state, when a worker's write of the bytes
    [d] has succeeded, then in every later state of the server (other writes
    failing or succeeding on any chunk, any handlers run in any order, any
    answers of the kernel) reading the entry of that file finds its chunk and
    gives exactly [d], with retcode 0, checksum and file id verified. *)
Theorem written_file_never_lost b s0 ds x d e y :
  booted b -> files_ok (b_store b) ds -> spy_setup b = Ret s0 -> rtc (sys_step b) (Sys s0 [] ds) x ->
  wrote x d e y ->
  exists r, fr_data r = d /\ f_fid (fr_file r) = ie_fid e /\
    forall z, rtc (sys_step b) y z -> reads_back (sv_store (srv z)) (disks z) e r.
Proof.
  intros Hb F H0 Hx W. destruct (setup_data b s0 ds Hb H0 F) as [A0 I0].
  destruct (steps_data b _ _ _ _ A0 I0 Hx) as [A I].
  destruct (wrote_on_disk b _ _ _ _ _ _ A I W) as (Hst & r & Hr & Hd).
  destruct (steps_data b _ _ _ _ A I (rtc_once _ _ Hst)) as [Ay Iy].
  exists r. split_and!; [done| |].
  - by destruct Hd as (p & ch & disk & _ & _ & _ & []).
  - intros z Hz. by eapply kept_reads.
Qed.

(** A chunk file of 200 bytes for the server of the example. *)
Definition ex_files : disks_t := {[0%nat := replicate 200 b00]}.

Lemma ex_files_ok : files_ok (b_store ex_boot) ex_files.
Proof.
  assert (Hl : forall p ch, chunk_heap (b_store ex_boot) !! p = Some ch -> p = 0%nat /\ ch = ex_chunk).
  { intros p ch Hp. cbn in Hp. by apply lookup_singleton_Some in Hp as [<- <-]. }
  split; try done.
  - intros p ch [-> ->]%Hl. exists (replicate 200 b00). split; [done|].
    split; try done. exists []. by split; [| | |constructor].
  - by intros p q ch ch' [-> _]%Hl [-> _]%Hl.
Qed.

(** The client's write of file 42, run by the worker. *)
Definition only_io (ws : list work) : outcome jobptr := match ws with [WIo j] => Ret j | _ => Undef end.
Lemma only_io_inv ws j : only_io ws = Ret j -> ws = [WIo j].
Proof. destruct ws as [|[k|k] [|w ws]]; try done. by intros [= ->]. Qed.

Definition ex_write : outcome (server_t * jobptr * disks_t * server_t * spy_io_job_t * spy_io_job_t) :=
  '(s, ws) ← ex_run;
  j ← only_io ws;
  '(ds', s') ← run_work [Xfer 100; Xfer 100; Xfer 100] 7 0 ex_files (WIo j) s;
  job ← c_deref (io_jobs s !! j);
  job' ← c_deref (io_jobs s' !! j);
  Ret (s, j, ds', s', job, job').

Definition ex_written (x : server_t * jobptr * disks_t * server_t * spy_io_job_t * spy_io_job_t) : Prop :=
  let '(s, j, ds', s', job, job') := x in
  j_fn job = Some FnWrite /\ j_chunk job = Some 0%nat /\ j_conn job = Some 0%nat /\
  is_Some (conns s !! 0%nat) /\ is_Some (chunk_heap (sv_store s) !! 0%nat) /\
  f_fid (j_file job) = 42 /\ j_retcode job' = 0.

Lemma ex_run_written : exists x, ex_write = Ret x /\ ex_written x.
Proof. apply (outcome_ret ex_write ex_written). vm_compute. split_and!; try reflexivity; by eexists. Qed.

Lemma ex_wrote : exists s0 x d e y, spy_setup ex_boot = Ret s0 /\
  rtc (sys_step ex_boot) (Sys s0 [] ex_files) x /\ wrote x d e y /\ ie_fid e = 42.
Proof.
  destruct ex_run_written as (x & E & H). unfold ex_write in E.
  apply bind_Ret_inv in E as ([s ws] & E & G). apply bind_Ret_inv in G as (j & Ej & G).
  apply only_io_inv in Ej as ->. apply bind_Ret_inv in G as ([ds' s'] & Er & G).
  apply bind_Ret_inv in G as (job & Hj & G). apply bind_Ret_inv in G as (job' & Hj' & G). injection G as <-.
  destruct H as (H1 & H2 & H3 & [cn H4] & [ch H5] & H6 & H7). apply deref_inv in Hj, Hj'.
  destruct (ex_run_steps s [WIo j] ex_files E) as (s0 & E0 & R).
  exists s0. do 4 eexists. split; [exact E0|]. split; [exact R|].
  split; [|instantiate (1 := job_entry ch job); exact H6].
  exact (wrote_intro _ _ _ j job job' _ _ _ _ [] [] s s' ex_files ds' Hj (conj H1 H2) H5 H3 H4 Er Hj' H7).
Qed.

Lemma written_file_never_lost_witness :
  exists d e y r, fr_data r = d /\ f_fid (fr_file r) = 42 /\ reads_back (sv_store (srv y)) (disks y) e r.
Proof.
  destruct ex_wrote as (s0 & x & d & e & y & E0 & R & W & Hf).
  destruct (written_file_never_lost ex_boot s0 ex_files x d e y ex_booted ex_files_ok E0 R W)
    as (r & H1 & H2 & H3).
  exists d, e, y, r. split; [exact H1|]. split; [rewrite H2; exact Hf|]. exact (H3 y (rtc_refl _ y)).
Defined.

(** C4: the index never loses or changes a file.  From any start on a store whose
    files are whole, an entry found in the index of a reachable state is found,
    unchanged, in every later state, and reading it gives the same bytes in all of
    them. *)
Theorem indexed_file_never_lost b s0 ds x fid e :
  booted b -> files_ok (b_store b) ds -> spy_setup b = Ret s0 -> rtc (sys_step b) (Sys s0 [] ds) x ->
  spy_lookup_file_index fid (sv_store (srv x)) = Some e ->
  exists r, f_fid (fr_file r) = fid /\ forall y, rtc (sys_step b) x y ->
    spy_lookup_file_index fid (sv_store (srv y)) = Some e /\ reads_back (sv_store (srv y)) (disks y) e r.
Proof.
  intros Hb F H0 Hx Hl. destruct (setup_data b s0 ds Hb H0 F) as [A0 I0].
  destruct (steps_data b _ _ _ _ A0 I0 Hx) as [A I].
  destruct (sd_files _ _ _ _ (di_store _ _ _ _ _ _ I) fid e Hl) as [r Hr]. exists r. split.
  - assert (Hf : ie_fid e = fid).
    { unfold spy_lookup_file_index in Hl. by apply find_some in Hl as [_ ?%Z.eqb_eq]. }
    rewrite <- Hf. by destruct Hr as (p & ch & disk & _ & _ & _ & []).
  - intros y Hy. split; [by eapply kept_entry|by eapply kept_reads].
Qed.

(** C9: the running program serves the files it found.  A server started on a
    directory of valid chunk images has, after any number of rounds of its event
    loop under any operating system that keeps its contract, every file of the
    directory in its index, at its place, and reads it back byte for byte. *)
Theorem recovered_files_served cfg dir envs L b s0 ds k a n fuel m e c pre r post :
  L <> [] -> Forall (fun x => recoverable cfg dir x.1.1 x.1.2 x.2) L ->
  NoDup (found_ids L) -> NoDup (found_fids L) -> zlen L < 2 ^ 31 - 1 ->
  spy_create_or_recover_files cfg dir (Some (map (fun x => x.1.1) L)) envs empty_store = Ret (b_store b) ->
  booted b -> opened L (b_store b) ds -> spy_setup b = Ret s0 -> 0 <= (b_clock b).2 < 1000 -> kernel_ok b k ->
  server_rounds k n fuel (Machine 0 a (Sys s0 [] ds)) = Ret (tt, m) ->
  (e, c, pre ++ r :: post) ∈ L ->
  spy_lookup_file_index (f_fid (fr_file r)) (sv_store (srv (m_sys m))) = Some (rec_entry (chunk_id c) pre r) /\
  reads_back (sv_store (srv (m_sys m))) (disks (m_sys m)) (rec_entry (chunk_id c) pre r) r.
Proof.
  intros Hne Hg Hi Hf Hl Hr Hb Ho H0 Hc K Hm Hin.
  destruct (recover_ok cfg dir envs L Hne Hg Hi Hf Hl) as (st & E & R). rewrite Hr in E. injection E as <-.
  assert (F : files_ok (b_store b) ds) by by eapply recovered_files_ok.
  destruct (setup_data b s0 ds Hb H0 F) as [A0 I0].
  destruct (loop_safe b k s0 ds a n fuel Hb K H0) as (_ & _ & Hrun); [|done|].
  { intros p [ch Hp]. destruct (sd_chunk _ _ _ _ F p ch Hp) as (d & -> & _). by eexists. }
  destruct (Hrun m Hm) as [_ Hs]. assert (Es : sv_store s0 = b_store b) by by apply setup_store.
  split; [eapply kept_entry|eapply kept_reads]; [exact A0|exact I0| |exact Hs|exact A0|exact I0| |exact Hs];
    cbn [srv disks]; rewrite Es.
  - by eapply (rv_files _ _ R).
  - by eapply recovered_on_disk.
Qed.

(** The directory with one chunk file that holds one file. *)
Definition ex_found : list found :=
  [(StoreRecoverProps.ex_entry, StoreRecoverProps.ex_chunk1, [StoreRecoverProps.ex_rec])].
Definition ex_recovery : outcome store_t :=
  spy_create_or_recover_files StoreRecoverProps.ex_cfg [] (Some [StoreRecoverProps.ex_entry]) [] empty_store.
Definition ex_found_disks (st : store_t) : disks_t := (fun _ => StoreFileProps.ex_disk1) <$> chunk_heap st.

(** The chunk is found by its id. *)
Definition ex_one_chunk (st : store_t) : Prop :=
  n_chunks st = 1 /\ cell (chunk_index st) 1 = [0%nat] /\ (chunk_id <$> chunk_heap st !! 0%nat) = Some 1.

Lemma ex_recovery_ok st : ex_recovery = Ret st -> ex_one_chunk st ->
  booted (new_boot st) /\ opened ex_found st (ex_found_disks st) /\ files_ok st (ex_found_disks st).
Proof.
  intros E (Hn & Hx & Hid). unfold ex_recovery in E.
  assert (Ho : opened ex_found st (ex_found_disks st)).
  { intros e c rs p ch Hin Hp _. apply list_elem_of_singleton in Hin. injection Hin as -> _ _.
    unfold ex_found_disks. rewrite lookup_fmap, Hp. reflexivity. }
  split; [|split; [exact Ho|]].
  - apply (startup_boots _ _ _ _ st (new_boot st) E);
      [vm_compute; reflexivity|vm_compute; split; reflexivity| |reflexivity|discriminate|..];
      [|unfold DEF_MAX_CLIENTS; cbn; lia..].
    right. rewrite Hn. intros id Hi. replace id with 1 by lia.
    destruct (chunk_heap st !! 0%nat) as [ch|] eqn:Eh; [|discriminate Hid]. injection Hid as Hid.
    exists 0%nat, ch. split; [change (1 mod CHUNK_HASH_SIZE) with 1; rewrite Hx; by left|exact (conj Eh Hid)].
  - destruct (recover_ok StoreRecoverProps.ex_cfg [] [] ex_found) as (st' & E' & R);
      [discriminate| |apply NoDup_singleton|apply NoDup_singleton|vm_compute; reflexivity|].
    + constructor; [exact StoreRecoverProps.ex_recoverable|constructor].
    + cbn [ex_found map fst] in E'. rewrite E in E'. injection E' as <-.
      eapply recovered_files_ok; [exact R|exact Ho| |apply NoDup_singleton].
      constructor; [exact StoreRecoverProps.ex_recoverable|constructor].
Qed.

(** Start-up, and two rounds in which file 42 is written beside it. *)
Definition ex_serve : outcome (store_t * server_t * machine * spy_file_index_entry_t) :=
  st ← ex_recovery;
  s0 ← spy_setup (new_boot st);
  '(_, m) ← server_rounds ex_kernel 2 3 (Machine 0 ex_accept (Sys s0 [] (ex_found_disks st)));
  e ← c_deref (spy_lookup_file_index 42 (sv_store (srv (m_sys m))));
  Ret (st, s0, m, e).

Lemma ex_serves : exists x, ex_serve = Ret x /\ ex_one_chunk x.1.1.1.
Proof. apply (outcome_ret ex_serve (fun x => ex_one_chunk x.1.1.1)). vm_compute. split_and!; reflexivity. Qed.

(** The example's start-up meets what the theorems ask for. *)
Lemma ex_serve_ok : exists st s0 m e,
  ex_recovery = Ret st /\ booted (new_boot st) /\ spy_setup (new_boot st) = Ret s0 /\
  opened ex_found st (ex_found_disks st) /\ files_ok st (ex_found_disks st) /\
  server_rounds ex_kernel 2 3 (Machine 0 ex_accept (Sys s0 [] (ex_found_disks st))) = Ret (tt, m) /\
  spy_lookup_file_index 42 (sv_store (srv (m_sys m))) = Some e.
Proof.
  destruct ex_serves as (x & E & H1). unfold ex_serve in E.
  apply bind_Ret_inv in E as (st & Er & E). apply bind_Ret_inv in E as (s0 & E0 & E).
  apply bind_Ret_inv in E as ([[] m] & Em & E). apply bind_Ret_inv in E as (e & El & E). injection E as <-.
  apply deref_inv in El. cbn [fst snd] in H1. destruct (ex_recovery_ok st Er H1) as (Hb & Ho & F).
  exists st, s0, m, e.
  exact (conj Er (conj Hb (conj E0 (conj Ho (conj F (conj Em El)))))).
Qed.

Lemma indexed_file_never_lost_witness :
  exists x e r, spy_lookup_file_index 42 (sv_store (srv x)) = Some e /\ f_fid (fr_file r) = 42 /\
    reads_back (sv_store (srv x)) (disks x) e r.
Proof.
  destruct ex_serve_ok as (st & s0 & m & e & Er & Hb & E0 & Ho & F & Em & El).
  destruct (loop_safe (new_boot st) ex_kernel s0 (ex_found_disks st) ex_accept 2 3 Hb) as (_ & _ & Hrun);
    [exact (ex_kernel_ok (new_boot st) eq_refl)|exact E0| |cbn; lia|].
  { intros p [ch Hp]. destruct (sd_chunk _ _ _ _ F p ch Hp) as (d & Hd & _). rewrite Hd. eexists. reflexivity. }
  destruct (indexed_file_never_lost (new_boot st) s0 (ex_found_disks st) (m_sys m) 42 e Hb F E0 (proj2 (Hrun m Em)) El)
    as (r & Hf & Hr).
  exists (m_sys m), e, r. destruct (Hr (m_sys m) (rtc_refl _ _)) as [_ H2]. exact (conj El (conj Hf H2)).
Defined.

Lemma recovered_files_served_witness :
  exists m, is_Some (spy_lookup_file_index 42 (sv_store (srv (m_sys m)))) /\
    reads_back (sv_store (srv (m_sys m))) (disks (m_sys m)) (rec_entry 1 [] StoreRecoverProps.ex_rec)
      StoreRecoverProps.ex_rec.
Proof.
  destruct ex_serve_ok as (st & s0 & m & e & Er & Hb & E0 & Ho & F & Em & El). exists m.
  split; [rewrite El; eexists; reflexivity|].
  apply (recovered_files_served StoreRecoverProps.ex_cfg [] [] ex_found (new_boot st) s0 (ex_found_disks st)
    ex_kernel ex_accept 2 3 m StoreRecoverProps.ex_entry StoreRecoverProps.ex_chunk1 [] StoreRecoverProps.ex_rec []);
    [discriminate| |apply NoDup_singleton|apply NoDup_singleton|vm_compute; reflexivity|exact Er|exact Hb|exact Ho
    |exact E0|cbn; lia|exact (ex_kernel_ok (new_boot st) eq_refl)|exact Em|].
  - constructor; [exact StoreRecoverProps.ex_recoverable|constructor].
  - apply list_elem_of_singleton. reflexivity.
Defined.

End DataProps.
