(* ===== verification/EndToEnd.v ===== *)
(** * EndToEnd: from the request to the disk, and from the disk to the reply

    A job passes through many hands: the handler that queues it, the pool, a worker,
    the list of finished works and the main thread (chunkserver/spy_server.c,
    spy_work_queue.c, spy_store.c).  Meanwhile the server serves other clients, whose
    buffers share the pool of memory blocks, and other works use the chunk files.
    Here what [Isolation.v] says of the client and what [DataInv.v] says of the files
    meet: the bytes a client has sent are the bytes that are stored, and the bytes of
    a file are those its reader is sent. *)

From S2P Require Import Prelude Utils RwBuffer Adler32 Store StoreFile StoreData StoreRecover Event WorkQueue Server.
From S2P Require Import ServerConn ServerJobs ServerSafe Worker System Isolation ServerProps Startup LoopFrame.
From S2P Require Import MainLoop DataInv DataSafe.

(** ** The reply to a read *)

(** The connection once [spy_read_file_done] has made the reply of job [job]. *)
Definition reply_of (job : spy_io_job_t) (cn : spy_connection_t) : spy_connection_t :=
  let cn := with_fields SUCCESS (f_size (j_file job)) (state cn) cn in
  with_fields SUCCESS (f_size (j_file job)) SEND_RSP (with_header (header_of cn) cn).

Section Reply.
Context {svc : list Z} {pre lim : Z} {CH : list cptr}.
#[local] Existing Instance may_block.
Implicit Types (ws : list work) (s : server_t) (c : connptr).

(** Registering the reply's event succeeds when [epoll_ctl] does. *)
Lemma send_response_registers e s c cn :
  ev_inv (sv_el s) -> 0 <= cn_fd cn < setsize (sv_el s) -> conns s !! c = Some cn -> state cn = SEND_RSP ->
  e_epoll e (cn_fd cn) = true ->
  wp (spy_send_response_if_needed e c) (fun _ s' => exists el, s' = set_el el s) s.
Proof.
  intros I Hfd Hc Hst He.
  destruct (create_file_event_ok (sv_el s) (cn_fd cn) AE_WRITABLE P_write_handler (Some c)) as (el & E & _);
    [done..|]. unfold spy_send_response_if_needed. wp_step. eapply wp_get_conn; [done|].
  rewrite decide_True by done. unfold create_file_event. wp_steps. eapply wp_lift; [by rewrite He|]. wp_steps.
  by exists el.
Qed.

(** Completing a read that has succeeded makes its reply and leaves the buffers. *)
Lemma read_done_replies e ws j s job c cn :
  sv_inv svc pre lim CH (WIo j :: ws) [] s -> io_jobs s !! j = Some job -> j_conn job = Some c ->
  conns s !! c = Some cn -> j_retcode job = 0 -> e_epoll e (cn_fd cn) = true ->
  wp (spy_read_file_done e j) (fun _ s' => conns s' !! c = Some (reply_of job cn) /\
    sv_pool s' = sv_pool s) s.
Proof.
  intros I Hj Hc Hcn Hr He. destruct (work_to_hand _ _ _ _ _ _ _ _ I) as (job' & c' & cn' & T & _).
  pose proof T as [_ T1 T2 T3 _ _ Hst]. rewrite Hj in T1. injection T1 as <-. rewrite Hc in T2. injection T2 as <-.
  rewrite Hcn in T3. injection T3 as <-.
  pose proof (en_conn _ _ _ _ _ (si_env _ _ _ _ _ _ _ I)) as CI. destruct (ci_fd _ _ _ _ CI c cn Hcn) as [Hfd _].
  unfold spy_read_file_done. wp_step. eapply wp_get_job; [exact Hj|]. wp_step.
  eapply wp_lift; [by rewrite Hc|]. rewrite Hr. cbn [Z.eqb negb]. unfold count, put_conn. wp_steps.
  eapply wp_get_conn; [exact Hcn|]. wp_steps. unfold spy_reply_header. wp_step.
  eapply wp_get_conn; [apply lookup_insert_eq|]. unfold put_conn. wp_steps.
  unfold spy_send_response_if_needed at 1. wp_step. eapply wp_get_conn; [apply lookup_insert_eq|].
  rewrite decide_False by (cbn; by rewrite Hst). wp_steps. eapply wp_get_conn; [apply lookup_insert_eq|].
  wp_steps. unfold spy_reply_body. wp_use (send_response_registers e _ c (reply_of job cn)); [apply CI|by destruct Hfd; split; [apply Z.lt_le_incl|]|apply lookup_insert_eq|done|done|].
  intros _ s1 [el ->]. unfold spy_free_io_job. wp_steps. eapply wp_get_job; [exact Hj|]. wp_steps.
  split; [|done]. apply lookup_insert_eq.
Qed.

Lemma done_loop_app e l l' s a s' :
  done_loop e (l ++ l') s = Ret (a, s') -> exists u s1, done_loop e l s = Ret (u, s1) /\ done_loop e l' s1 = Ret (a, s').
Proof.
  revert s. induction l as [|w l IH]; intros s H; cbn in H; [by exists tt, s|].
  apply prun_inv in H as (u & s1 & H1 & H). destruct (IH _ H) as (v & s2 & H2 & H3). exists v, s2.
  split; [|done]. cbn. by rewrite (prun_bind _ _ _ _ _ H1).
Qed.

(** The main thread takes a finished read out, among other works: the reply of the
    read is what is left on the connection, and its bytes are as they were. *)
Lemma thread_done_replies e ws j s s' job c cn :
  sv_inv svc pre lim CH ws [] s -> WIo j ∈ finished_list (sv_wq s) -> io_jobs s !! j = Some job ->
  j_fn job = Some FnRead -> j_conn job = Some c -> conns s !! c = Some cn -> j_retcode job = 0 ->
  e_epoll e (cn_fd cn) = true -> spy_wq_thread_done e s = Ret (tt, s') ->
  conns s' !! c = Some (reply_of job cn) /\ buf_wf (mp_heap (sv_pool s')) (rsp_body cn) /\
  content (mp_heap (sv_pool s')) (rsp_body cn) = content (mp_heap (sv_pool s)) (rsp_body cn).
Proof.
  intros I Hin Hj Hfn Hc Hcn Hr He H.
  assert (Hw : j ∈ ios (works ws s)).
  { apply list_elem_of_omap. exists (WIo j). split; [|done]. unfold works, all_works. rewrite !elem_of_app. tauto. }
  apply list_elem_of_split in Hin as (la & lb & Hfin).
  set (G1 := only c (snapshot false cn (Some (j, job)) s)).
  assert (I1 : sv_inv (G := G1) svc pre lim CH ws [] s) by (apply guard_start; try done; by intros ? ? [= <- <-]).
  unfold spy_wq_thread_done in H. apply prun_inv in H as (s0 & s1 & E & H). injection E as <- <-.
  cbn [splice_finished] in H. apply prun_inv in H as (u & s1 & E & H). injection E as _ <-.
  set (s1 := set_wq _ s) in H. rewrite Hfin in H. apply done_loop_app in H as (v & s2 & H2 & H).
  apply prun_inv in H as ([] & s3 & H3 & H4).
  assert (A1 : sv_inv (G := G1) svc pre lim CH (la ++ WIo j :: lb ++ ws) [] s1).
  { eapply sv_inv_wq; [exact I1|]. unfold works, all_works. cbn. rewrite Hfin. solve_Permutation. }
  pose proof (wp_elim _ _ _ _ _ (done_loop_ok svc pre lim CH (G := G1) e la _ s1 A1) H2) as A2. cbn beta in A2.
  assert (Hj2 : io_jobs s2 !! j = Some job).
  { apply (ji_guard _ _ _ (si_jobs _ _ _ _ _ _ _ A2) c _ j job (only_eq _ _) eq_refl). apply (work_in []). }
  assert (S2 : same_client c cn s s2).
  { eapply guard_kept; [exact I|exact Hcn|exact A2|right]. eapply pool_busy; [apply (work_in [])|exact Hj2|exact Hc]. }
  apply guard_end in A2. cbn [work_done] in H3. pose proof (work_done_ok svc pre lim CH e _ _ _ A2) as W3.
  pose proof (wp_elim _ _ _ _ _ W3 H3) as A3. cbn beta in A3.
  unfold work_done in H3. apply prun_inv in H3 as (job' & s2' & [E ->]%get_job_inv & H3).
  rewrite Hj2 in E. injection E as <-. rewrite Hfn in H3.
  destruct (wp_elim _ _ _ _ _ (read_done_replies e (lb ++ ws) j s2 job c cn A2 Hj2 Hc (sc_conn _ _ _ _ S2) Hr He) H3)
    as [R1 R2].
  assert (Hid : c ∉ busy (lb ++ ws) s3).
  { intros Hb. destruct (ci_busy _ _ _ _ (en_conn _ _ _ _ _ (si_env _ _ _ _ _ _ _ A3)) c Hb) as (x & Hx & _ & Hst).
    rewrite R1 in Hx. injection Hx as <-. done. }
  set (G2 := only c (snapshot true (reply_of job cn) None s3)).
  assert (B3 : sv_inv (G := G2) svc pre lim CH (lb ++ ws) [] s3) by by apply guard_start.
  pose proof (wp_elim _ _ _ _ _ (done_loop_ok svc pre lim CH (G := G2) e lb ws s3 B3) H4) as B4. cbn beta in B4.
  assert (S4 : same_client c (reply_of job cn) s3 s') by (eapply guard_kept; [exact A3|exact R1|exact B4|by left]).
  destruct S4 as [C4 _ D4]. split; [exact C4|]. apply guard_end in B4.
  destruct (env_focus _ _ _ _ _ _ _ (si_env _ _ _ _ _ _ _ B4) C4) as (_ & _ & W4). split; [exact W4|].
  change (rsp_body (reply_of job cn)) with (rsp_body cn) in D4. by rewrite D4, R2, (sc_rsp_body _ _ _ _ S2).
Qed.
End Reply.

(** ** Reading *)

Section Read.
Context (b : boot).
Implicit Types (x y : sys) (s : server_t).

(** A read job as [spy_handle_read] leaves it with the pool: for the entry [e], on the
    chunk [p] of this entry, with room for the file in the connection's empty
    response buffer. *)
Record asked (j : jobptr) (job : spy_io_job_t) (c : connptr) (cn : spy_connection_t) (p : cptr)
    (e : spy_file_index_entry_t) x : Prop := {
  as_queued : queued j job c cn x;
  as_fn : j_fn job = Some FnRead;
  as_entry : j_union job = UIndex e;
  as_chunk : j_chunk job = Some p;
  as_id : exists ch, chunk_heap (sv_store (srv x)) !! p = Some ch /\ chunk_id ch = ie_chunk_id e;
  as_empty : content (mp_heap (sv_pool (srv x))) (rsp_body cn) = [];
  as_room : ie_size e <= cap (rsp_body cn) - write_pos (rsp_body cn);
  as_new : sentlen cn = 0
}.

(** A connection whose last reply has been sent, or that had none. *)
Definition fresh_reply (cn : spy_connection_t) : Prop :=
  read_pos (rsp_body cn) = 0 /\ write_pos (rsp_body cn) = 0 /\ sentlen cn = 0.

Lemma expand_keeps_pos p bf r p' bf' :
  spy_rw_buffer_expand p bf = Ret (r, p', bf') -> read_pos bf' = read_pos bf /\ write_pos bf' = write_pos bf.
Proof.
  unfold spy_rw_buffer_expand. destruct (take_block p) as [[m q]|]; [|by intros [= _ _ <-]]. intros H.
  apply bind_Ret_inv in H as (mb & _ & H). apply bind_Ret_inv in H as (bf1 & E & H). injection H as _ _ <-.
  destruct (mem_blocks bf); [|by injection E as <-]. apply bind_Ret_inv in E as (u & _ & E). by injection E as <-.
Qed.

(** The loop that makes room leaves the positions. *)
Lemma expand_makes_room fuel c size s ok s' cn :
  expand_rsp_loop fuel c size s = Ret (ok, s') -> conns s !! c = Some cn -> fresh_reply cn ->
  exists cn', conns s' !! c = Some cn' /\ fresh_reply cn' /\ opcode cn' = opcode cn /\
    (ok = true -> size <= cap (rsp_body cn')).
Proof.
  revert s cn. induction fuel as [|fuel IH]; intros s cn H Hc F; cbn [expand_rsp_loop] in H;
    rewrite (prun_bind _ _ _ _ _ (get_conn_run c cn s Hc)) in H;
    destruct (Z.ltb_spec (cap (rsp_body cn)) size) as [Hlt|Hge].
  1: done.
  1, 3: injection H as <- <-; by exists cn.
  apply prun_inv in H as (s1 & s2 & E & H). injection E as <- <-.
  apply prun_inv in H as ([[r p] bf] & s2 & [E ->]%prun_lift_inv & H).
  apply prun_inv in H as (u & s2 & E2 & H). injection E2 as _ <-.
  apply prun_inv in H as (u' & s2 & E3 & H). injection E3 as _ <-.
  apply expand_keeps_pos in E as [P1 P2]. destruct F as (F1 & F2 & F3).
  set (s2 := set_conns _ _) in H. assert (Hc2 : conns s2 !! c = Some (with_rsp_body bf cn)) by apply lookup_insert_eq.
  assert (F : fresh_reply (with_rsp_body bf cn)) by (unfold fresh_reply; cbn; by rewrite P1, P2).
  destruct (r <? 0); [injection H as <- <-; by exists (with_rsp_body bf cn)|].
  exact (IH s2 _ H Hc2 F).
Qed.

Lemma lookup_chunk_inv h l id p :
  lookup_chunk h l id = Ret (Some p) -> exists ch, h !! p = Some ch /\ chunk_id ch = id.
Proof.
  induction l as [|q l IH]; intros H; cbn in H; [done|]. destruct (h !! q) as [ch|] eqn:E; cbn in H; [|done].
  destruct (Z.eqb_spec (chunk_id ch) id); [|by apply IH]. injection H as <-. by exists ch.
Qed.

Lemma same_jobs {A} (m : M A) s a s' : Keeps jview m -> m s = Ret (a, s') -> jview s' = jview s.
Proof. intros K H. by eapply K. Qed.

Lemma remove_event_inv fd mask s u s' : remove_file_event fd mask s = Ret (u, s') -> exists el, s' = set_el el s.
Proof.
  intros H. run_all H remove_file_event. destruct (aeDeleteFileEvent _ _ _) as [el| | | |]; try done.
  injection H as _ <-. by exists el.
Qed.

(** A queued work is in the pool, and nothing else has changed. *)
Lemma queue_inv ev j s u s' :
  queue_work ev (WIo j) s = Ret (u, s') -> exists q, s' = set_wq q s /\ forall ws, j ∈ ios (works ws s').
Proof.
  intros H. unfold queue_work in H. apply prun_inv in H as (x & y & E & H). injection E as <- <-.
  apply prun_inv in H as ([q made] & x & [Eq ->]%prun_lift_inv & H). injection H as _ <-.
  apply queue_critical_lists in Eq as [Hp _]. exists q. split; [done|]. intros ws.
  apply list_elem_of_omap. exists (WIo j). split; [|done]. unfold works, all_works. cbn.
  rewrite Hp, !elem_of_app, list_elem_of_singleton. tauto.
Qed.

(** The last part of [spy_handle_read]: with room made, the job goes to the pool. *)
Lemma read_queued ev c cn j p e s u s' ws ds :
  conns s !! c = Some cn -> fresh_reply cn -> ie_size e <= cap (rsp_body cn) ->
  (exists ch, chunk_heap (sv_store s) !! p = Some ch /\ chunk_id ch = ie_chunk_id e) ->
  (job ← get_job j;
   _ ← put_job j (SpyIoJob (j_retcode job) (UIndex e) (Some c) (j_file job) (Some p) (Some FnRead) (j_req_time job));
   _ ← count (stat_reading 1 1);
   cn ← get_conn c;
   _ ← remove_file_event (cn_fd cn) AE_READABLE;
   queue_work ev (WIo j)) s = Ret (u, s') ->
  sv_store s' = sv_store s /\ exists job, asked j job c cn p e (Sys s' ws ds).
Proof.
  intros Hc (F1 & F2 & F3) Hroom Hid H.
  apply prun_inv in H as (job & x & [_ ->]%get_job_inv & H).
  apply prun_inv in H as (u1 & x & E & H). injection E as _ <-. apply prun_inv in H as (u2 & x & E & H). injection E as _ <-.
  set (s4 := set_stat _ _) in H. assert (Hc4 : conns s4 !! c = Some cn) by exact Hc.
  rewrite (prun_bind _ _ _ _ _ (get_conn_run c cn s4 Hc4)) in H.
  apply prun_inv in H as (u3 & s5 & [el ->]%remove_event_inv & H). apply queue_inv in H as (q & -> & Hp).
  split; [done|].
  exists (SpyIoJob (j_retcode job) (UIndex e) (Some c) (j_file job) (Some p) (Some FnRead) (j_req_time job)).
  split; [split; [apply Hp|..]| | | | | | |]; cbn; try done.
  - apply lookup_insert_eq.
  - unfold content. by rewrite F1, F2.
  - lia.
Qed.

(** [spy_handle_read] either replies with an error, and gives the pool nothing, or
    leaves a job as [asked] says, for an entry of the index. *)
Lemma handle_read_asks ev c cn s s' ws ds :
  conns s !! c = Some cn -> fresh_reply cn -> spy_handle_read ev c s = Ret (tt, s') ->
  sv_wq s' = sv_wq s \/
  exists j job cn' p e, asked j job c cn' p e (Sys s' ws ds) /\ opcode cn' = opcode cn /\
    spy_lookup_file_index (ie_fid e) (sv_store s') = Some e.
Proof.
  intros Hc F H. unfold spy_handle_read in H. cbv zeta in H.
  assert (Err : forall g err s1 s2, jview s1 = jview s -> (_ ← count g; reply_error ev c err) s1 = Ret (tt, s2) ->
    sv_wq s2 = sv_wq s).
  { intros g err s1 s2 J E. assert (J2 : jview s2 = jview s1) by (eapply same_jobs; [|exact E]; apply _).
    rewrite J in J2. by injection J2. }
  apply prun_inv in H as (hdr & s1 & E1 & H).
  assert (J1 : jview s1 = jview s) by (eapply same_jobs; [|exact E1]; apply _).
  assert (H1 : exists bf, conns s1 !! c = Some (with_request bf cn)).
  { unfold read_request in E1. rewrite (prun_bind _ _ _ _ _ (get_conn_run c cn s Hc)) in E1.
    apply prun_inv in E1 as (x & x' & E & E1). injection E as <- <-.
    apply prun_inv in E1 as ([d bf] & x & [_ ->]%prun_lift_inv & E1). injection E1 as _ <-. exists bf. apply lookup_insert_eq. }
  destruct H1 as [bf Hc1]. clear E1.
  apply prun_inv in H as (u & x & [_ ->]%prun_lift_inv & H). apply prun_inv in H as (sid & x & [_ ->]%prun_lift_inv & H).
  apply prun_inv in H as (fid & x & [_ ->]%prun_lift_inv & H).
  destruct (negb (sid =? _)); [left; by eapply Err|].
  apply prun_inv in H as (x & y & E & H). injection E as <- <-.
  destruct (spy_lookup_file_index fid (sv_store s1)) as [e|] eqn:Hl; [|left; by eapply Err].
  apply prun_inv in H as (r & x & [El ->]%prun_lift_inv & H). apply prun_inv in H as (p & x & [Ep ->]%prun_lift_inv & H).
  destruct r as [q|]; [injection Ep as ->|done]. apply lookup_chunk_inv in El.
  apply prun_inv in H as (ok & s2 & E2 & H).
  assert (J2 : jview s2 = jview s1) by (eapply same_jobs; [|exact E2]; apply _).
  destruct (expand_makes_room _ _ _ _ _ _ (with_request bf cn) E2 Hc1 F) as (cn2 & Hc2 & F2 & Hop & Hroom).
  destruct ok; cbn [negb] in H; [|left; eapply Err; [|exact H]; congruence].
  assert (V : sv_store s2 = sv_store s1) by by injection J2.
  apply prun_inv in H as (o & s3 & E3 & H). unfold spy_gen_io_job in E3.
  apply prun_inv in E3 as (x & y & E & E3). injection E as <- <-.
  destruct (free_io_jobs s2) as [|j rest]; injection E3 as <- <-; [left; eapply Err; [|exact H]; congruence|right].
  destruct (read_queued ev c cn2 j p e (set_jobs (io_jobs s2) rest s2) tt s' ws ds Hc2 F2 (Hroom eq_refl)) as (V' & job & Ha);
    [cbn; by rewrite V|exact H|].
  exists j, job, cn2, p, e. split; [exact Ha|]. split; [exact Hop|].
  rewrite V'. cbn. rewrite V. pose proof Hl as Hf. unfold spy_lookup_file_index in Hf. apply find_some in Hf as [_ Hf%Z.eqb_eq].
  by rewrite Hf.
Qed.

(** [spy_read_file] on the job's objects. *)
Lemma run_reads script now rand ds j s ds' s' job c cn p e ch disk r :
  io_jobs s !! j = Some job -> j_fn job = Some FnRead -> j_union job = UIndex e -> j_chunk job = Some p ->
  j_conn job = Some c -> conns s !! c = Some cn -> chunk_heap (sv_store s) !! p = Some ch -> ds !! p = Some disk ->
  chunk_on ch disk -> stored_in ch disk (ie_fid e) (ie_offset e) (ie_size e) r ->
  buf_wf (mp_heap (sv_pool s)) (rsp_body cn) -> content (mp_heap (sv_pool s)) (rsp_body cn) = [] ->
  ie_size e <= cap (rsp_body cn) - write_pos (rsp_body cn) -> Forall benign script -> ie_size e <= xfers script ->
  run_work script now rand ds (WIo j) s = Ret (ds', s') ->
  exists bf, ds' = ds /\ io_jobs s' !! j = Some (with_result 0 (fr_file r) job) /\
    conns s' !! c = Some (with_rsp_body bf cn) /\ content (mp_heap (sv_pool s')) bf = fr_data r.
Proof.
  intros Hj Hf Hu Hp Hc Hcn Hch Hd On Hst W He Hroom Hs Hx H.
  destruct (stored_reads ch disk e r _ _ script On Hst W He Hroom Hs Hx) as (h' & bf & E & Hcont).
  unfold run_work, run_io, run_read, get_job, get_chunk, get_conn, put_job, put_conn, mbind, prog_bind, pget, plift, pmod,
    mret, prog_ret in H. cbn in H.
  rewrite Hj in H. cbn in H. rewrite Hp in H. cbn in H. rewrite Hch in H. cbn in H. rewrite Hd in H. cbn in H.
  rewrite Hf, Hc in H. cbn in H. rewrite Hcn in H. cbn in H. rewrite Hu in H. cbn in H. rewrite E in H. cbn in H.
  injection H as <- <-. exists bf. cbn. rewrite !lookup_insert_eq. done.
Qed.

(** A worker runs job [j]; the main thread takes it out, with the other finished works. *)
Inductive runs (j : jobptr) (script : list sysret) : sys -> sys -> Prop :=
| runs_intro now rand l1 l2 s s' ds ds' :
    run_work script now rand ds (WIo j) s = Ret (ds', s') ->
    runs j script (Sys s (l1 ++ WIo j :: l2) ds) (Sys (posted (WIo j) s') (l1 ++ l2) ds').
Inductive taken_out (ev : env) (j : jobptr) : sys -> sys -> Prop :=
| taken_intro s s' ws ds :
    WIo j ∈ finished_list (sv_wq s) -> spy_wq_thread_done ev s = Ret (tt, s') ->
    taken_out ev j (Sys s ws ds) (Sys s' ws ds).

Lemma waits_are_steps j x y : rtc (waits b j) x y -> rtc (sys_step b) x y.
Proof. intros H. induction H as [|x y z [H _] _ IH]; [done|]. by eapply rtc_l. Qed.

Lemma posted_pool j l1 l2 s : j ∈ ios (works (l1 ++ l2) (posted (WIo j) s)).
Proof.
  apply list_elem_of_omap. exists (WIo j). split; [|done]. unfold works, all_works, posted. cbn.
  rewrite !elem_of_app, list_elem_of_singleton. tauto.
Qed.

(** The worker has read the file into the connection's buffer. *)
Lemma asked_read K KI x x1 y j job c cn p e r script :
  sys_inv b x -> sys_data K KI x -> asked j job c cn p e x -> on_disk (sv_store (srv x)) (disks x) e r ->
  rtc (waits b j) x x1 -> runs j script x1 y -> Forall benign script -> ie_size e <= xfers script ->
  sys_inv b y /\ rec_fits r /\ exists bf,
    queued j (with_result 0 (fr_file r) job) c (with_rsp_body bf cn) y /\ content (mp_heap (sv_pool (srv y))) bf = fr_data r.
Proof.
  intros A I [Q F U P Hid He Hr _] Hd Hw Hrun Hs Hx.
  set (KC := (fun q id => q = p /\ id = ie_chunk_id e) : KnownIds).
  apply (data_keep _ _ (fun e' r' => e' = e /\ r' = r) (fun _ => False) (KC' := KC)) in I;
    [|by intros ? ? [-> ->]|done|by intros ? ? [-> ->]].
  destruct (waits_steps b _ _ _ _ _ _ A Q Hw) as (A1 & [_ Q2 Q3 Q4] & [_ _ S3]).
  destruct (steps_data b _ _ _ _ A I (waits_are_steps _ _ _ Hw)) as [_ [I1 _ _ _]].
  destruct (sd_keep _ _ _ _ I1 e r (conj eq_refl eq_refl)) as (q & ch & disk & Hh & Hq & Hcid & Hst).
  destruct (sd_known _ _ _ _ I1 p (ie_chunk_id e) (conj eq_refl eq_refl)) as (ch' & Hh' & Hcid').
  replace q with p in *; [|by eapply (sd_ids _ _ _ _ I1); [exact Hh'|exact Hh|congruence]].
  destruct (sd_chunk _ _ _ _ I1 p ch Hh) as (disk' & Hq' & On). rewrite Hq in Hq'. injection Hq' as <-.
  destruct (env_focus _ _ _ _ _ _ _ (si_env _ _ _ _ _ _ _ (proj1 A1)) Q4) as (_ & _ & W).
  pose proof (stored_record _ _ _ _ _ _ On Hst) as [_ _ _ Hfit].
  destruct Hrun as [now rand l1 l2 s s' ds ds' H]. cbn [srv disks] in *.
  assert (Ay : sys_inv b (Sys (posted (WIo j) s') (l1 ++ l2) ds')) by (eapply sys_step_inv; [exact A1|by eapply step_run]).
  destruct (run_reads script now rand ds j s ds' s' job c cn p e ch disk r) as (bf & -> & J & C & Hc); try done.
  { by rewrite S3. }
  split; [done|]. split; [done|]. exists bf. split; [|done]. by split; [apply posted_pool| | |].
Qed.

(** What is sent to a client that has asked for a file of [d] bytes. *)
Definition read_reply (op : Z) (d : list byte) : list byte :=
  spy_mach_write_to_1 op ++ spy_mach_write_to_1 SUCCESS ++ spy_mach_write_to_4 (zlen d) ++ d.

Lemma reply_unsent h cn bf job r :
  buf_wf h bf -> content h bf = fr_data r -> rec_fits r -> sentlen cn = 0 -> j_file job = fr_file r ->
  let cn' := reply_of job (with_rsp_body bf cn) in
  sendable h cn' /\ unsent h cn' = read_reply (opcode cn) (fr_data r).
Proof.
  intros W Hc [_ _ Hsz Hb _ _] Hs Hj. cbn zeta. rewrite <- Hc in *. pose proof (zlen_nonneg (content h bf)).
  split; [split|]; unfold unsent; cbn -[zdrop ztake Z.max Z.sub Z.add header_of]; rewrite ?Hj, ?Hsz, ?Hs;
    change RSP_HDR_SIZE with 6; change FILE_META_SIZE with 30 in *; try done; try lia.
  rewrite ztake_all by lia. reflexivity.
Qed.

(** The whole way of a read. *)
Lemma asked_replied K KI x x1 y y1 z j job c cn p e r script ev :
  sys_inv b x -> sys_data K KI x -> asked j job c cn p e x -> on_disk (sv_store (srv x)) (disks x) e r ->
  rtc (waits b j) x x1 -> runs j script x1 y -> Forall benign script -> ie_size e <= xfers script ->
  rtc (waits b j) y y1 -> taken_out ev j y1 z -> e_epoll ev (cn_fd cn) = true ->
  exists cn', conns (srv z) !! c = Some cn' /\ state cn' = SEND_RSP /\ cn_fd cn' = cn_fd cn /\
    sendable (mp_heap (sv_pool (srv z))) cn' /\
    unsent (mp_heap (sv_pool (srv z))) cn' = read_reply (opcode cn) (fr_data r).
Proof.
  intros A I Hask Hd Hw Hrun Hs Hx Hw' Ht He.
  destruct (asked_read K KI x x1 y j job c cn p e r script A I Hask Hd Hw Hrun Hs Hx) as (Ay & Hfit & bf & Q & Hc).
  destruct (waits_steps b _ _ _ _ _ _ Ay Q Hw') as (A1 & [_ Q2 Q3 Q4] & [_ _ S3]).
  destruct Ht as [s s' ws ds Hin H]. cbn [srv] in *.
  destruct (thread_done_replies ev ws j s s' (with_result 0 (fr_file r) job) c (with_rsp_body bf cn)
    (proj1 A1)) as (C & W & D); try done; [apply Hask|].
  change (rsp_body (with_rsp_body bf cn)) with bf in *.
  destruct (reply_unsent (mp_heap (sv_pool s')) cn bf (with_result 0 (fr_file r) job) r) as [R1 R2]; try done.
  - by rewrite D, S3.
  - apply Hask.
  - by eexists.
Qed.
End Read.

(** ** Writing *)

Section Write.
Context (b : boot).
Implicit Types (x y : sys) (s : server_t).

(** [submit_write] with a chunk: the job is with the pool, and the request as it was. *)
Lemma submit_queues ev c cn j fid len p s u s' ws ds :
  conns s !! c = Some cn -> submit_write ev c j fid len (Some p) s = Ret (u, s') ->
  sv_pool s' = sv_pool s /\ exists job, queued j job c cn (Sys s' ws ds) /\ is_write job p /\
    f_fid (j_file job) = fid /\ f_size (j_file job) = len.
Proof.
  intros Hc H. unfold submit_write in H. apply prun_inv in H as (job & x & [_ ->]%get_job_inv & H). cbv zeta in H.
  rewrite (prun_bind _ _ _ _ _ (get_conn_run c cn s Hc)) in H.
  apply prun_inv in H as (u3 & s5 & [el ->]%remove_event_inv & H).
  apply prun_inv in H as (u1 & x & E & H). injection E as _ <-.
  apply prun_inv in H as (ch & x & E & H). unfold get_chunk in E. apply prun_inv in E as (y & y' & E & E').
  injection E as <- <-. apply prun_lift_inv in E' as [_ ->].
  apply prun_inv in H as (u2 & x & E & H). injection E as _ <-. apply queue_inv in H as (q & -> & Hp).
  split; [done|]. eexists. split; [split; [apply Hp|apply lookup_insert_eq|done|exact Hc]|]. done.
Qed.

(** The whole way of a write that succeeds: its record holds the bytes the request
    held when the job was queued. *)
Lemma queued_stored K KI x x1 y j job job' c cn p ch script :
  sys_inv b x -> sys_data K KI x -> queued j job c cn x -> is_write job p ->
  chunk_heap (sv_store (srv x)) !! p = Some ch ->
  rtc (waits b j) x x1 -> runs j script x1 y -> io_jobs (srv y) !! j = Some job' -> j_retcode job' = 0 ->
  sys_step b x1 y /\ exists r,
    fr_data r = ztake (f_size (j_file job)) (content (mp_heap (sv_pool (srv x))) (request cn)) /\
    on_disk (sv_store (srv y)) (disks y) (job_entry ch job) r.
Proof.
  intros A I Q Wr Hch Hw Hrun Hj Hr.
  set (KC := (fun q id => q = p /\ id = chunk_id ch) : KnownIds).
  apply (data_keep _ _ (fun _ _ => False) (fun _ => False) (KC' := KC)) in I; [|done|done|].
  2: { intros ? ? [-> ->]. by exists ch. }
  destruct (waits_steps b _ _ _ _ _ _ A Q Hw) as (A1 & [_ Q2 Q3 Q4] & [_ S2 _]).
  destruct (steps_data b _ _ _ _ A I (waits_are_steps _ _ _ _ Hw)) as [_ I1].
  destruct (sd_known _ _ _ _ (di_store _ _ _ _ _ _ I1) p _ (conj eq_refl eq_refl)) as (ch1 & Hh & Hid).
  apply (data_keep _ _ (fun _ _ => False) (fun _ => False) (KC' := no_known_ids)) in I1; [|done..].
  destruct Hrun as [now rand l1 l2 s s' ds ds' H]. cbn [srv disks] in *.
  destruct (DataProps.wrote_on_disk b _ _ _ _ _ _ A1 I1
    (DataProps.wrote_intro script now rand j job job' c cn p ch1 l1 l2 s s' ds ds' Q2 Wr Hh Q3 Q4 H Hj Hr))
    as (Hst & r & R1 & R2).
  split; [exact Hst|]. exists r. split; [by rewrite R1, S2|].
  unfold job_entry in *. by rewrite <- Hid.
Qed.
End Write.

Module EndToEndProps.
Import SystemProps MainLoopProps DataProps.

(** The way of a write: at [x] the job of a client is queued, with the bytes [d] as
    its file; [e] is the index entry for it.  A worker runs it, at [y] it has
    succeeded. *)
Inductive write_way (b : boot) : sys -> list byte -> spy_file_index_entry_t -> sys -> Prop :=
| write_way_intro x x1 y j job job' c cn p ch script :
    queued j job c cn x -> is_write job p -> chunk_heap (sv_store (srv x)) !! p = Some ch ->
    rtc (waits b j) x x1 -> runs j script x1 y -> io_jobs (srv y) !! j = Some job' -> j_retcode job' = 0 ->
    write_way b x (ztake (f_size (j_file job)) (content (mp_heap (sv_pool (srv x))) (request cn))) (job_entry ch job) y.

(** The way of a read: at [x] a client on connection [c] has asked for the file of
    entry [e].  A worker runs the job, and no read of the file fails (it may give less
    than asked for, as long as it goes on);
    the main thread takes it out, and can register the reply. *)
Inductive read_way (b : boot) : sys -> connptr -> spy_connection_t -> spy_file_index_entry_t -> sys -> Prop :=
| read_way_intro x x1 y y1 z j job c cn p e script ev :
    asked j job c cn p e x -> rtc (waits b j) x x1 -> runs j script x1 y ->
    Forall benign script -> ie_size e <= xfers script ->
    rtc (waits b j) y y1 -> taken_out ev j y1 z -> e_epoll ev (cn_fd cn) = true ->
    read_way b x c cn e z.

(** C2: what one client sends is what another one receives.  In any reachable state
    [x] a client's write job is queued; the job is run and succeeds ([y]).  In any
    later state [u] any client asks for the file, and its job goes its way ([z]),
    with any number of steps of the server in between: other clients' requests, the
    timer, other workers on the same and on other chunks, whatever the kernel answers
    them.  Then the reply that waits on the connection is whole, and is the header for
    success and exactly the bytes that the first client's request held at [x]. *)
Theorem sent_bytes_received b s0 ds x d e y u c cn z :
  booted b -> files_ok (b_store b) ds -> spy_setup b = Ret s0 -> rtc (sys_step b) (Sys s0 [] ds) x ->
  write_way b x d e y -> rtc (sys_step b) y u -> read_way b u c cn e z ->
  exists cn', conns (srv z) !! c = Some cn' /\ state cn' = SEND_RSP /\ cn_fd cn' = cn_fd cn /\
    sendable (mp_heap (sv_pool (srv z))) cn' /\
    unsent (mp_heap (sv_pool (srv z))) cn' = read_reply (opcode cn) d.
Proof.
  intros Hb F H0 Hx Hw Hu Hr. destruct (setup_data b s0 ds Hb H0 F) as [A0 I0].
  destruct (steps_data b _ _ _ _ A0 I0 Hx) as [A I].
  destruct Hw as [x x1 y j job job' cw cnw p ch script Q Wr Hch Hw Hrun Hj Hret].
  destruct (queued_stored b _ _ x x1 y j job job' cw cnw p ch script A I Q Wr Hch Hw Hrun Hj Hret)
    as (Hst & r & <- & Hd).
  destruct (steps_data b _ _ _ _ A I (rtc_r _ _ _ (waits_are_steps _ _ _ _ Hw) Hst)) as [Ay Iy].
  apply (data_keep _ _ (fun e' r' => e' = job_entry ch job /\ r' = r) (fun _ => False) (KC' := no_known_ids)) in Iy;
    [|by intros ? ? [-> ->]|done..].
  destruct (steps_data b _ _ _ _ Ay Iy Hu) as [Au Iu].
  pose proof (sd_keep _ _ _ _ (di_store _ _ _ _ _ _ Iu) _ r (conj eq_refl eq_refl)) as Hdu.
  remember (job_entry ch job) as e eqn:Ee. destruct Hr as [u u1 v v1 z k kjob c cn q e script' ev H1 H2 H3 H4 H5 H6 H7 H8].
  by eapply asked_replied; [exact Au|exact Iu|exact H1|exact Hdu|exact H2|exact H3|..].
Qed.
(** A client writes the file 42 and reads it back on the same connection. *)
Definition quiet (r : sock_read) (w : list sysret) : answers := Answers ex_env r w (-1).
Definition take_io (s : server_t) : outcome (jobptr * server_t) :=
  match worker_take (sv_wq s) with Some (WIo j, q) => Ret (j, set_wq q s) | _ => Wait end.
Definition ex_script : list sysret := replicate 40 (Xfer 100).

Record ex_ways_t : Type := ExWays {
  xw_queued : server_t; xw_write : jobptr; xw_files : disks_t; xw_written : server_t;
  xw_asked : server_t; xw_read : jobptr; xw_files2 : disks_t; xw_run : server_t; xw_done : server_t
}.
Definition ex_ways : outcome ex_ways_t :=
  s ← ex_open;
  '(_, s) ← process_fired sv_el (call (quiet (Got ex_write_request) [])) 5 AE_READABLE s;
  '(j, s1) ← take_io s;
  '(ds1, s2) ← run_work ex_script 7 0 ex_files (WIo j) s1;
  '(_, s) ← process_fired sv_el (call (quiet (GotErr EAGAIN) [])) 4 AE_READABLE (posted (WIo j) s2);
  '(_, s) ← process_fired sv_el (call (quiet (GotErr EAGAIN) (replicate 9 (Xfer 4)))) 5 AE_WRITABLE s;
  '(_, s) ← process_fired sv_el (call (quiet (Got ex_read_request) [])) 5 AE_READABLE s;
  '(k, s3) ← take_io s;
  '(ds2, s4) ← run_work ex_script 7 0 ds1 (WIo k) s3;
  '(_, s5) ← spy_wq_thread_done ex_env (posted (WIo k) s4);
  Ret (ExWays s1 j ds1 s2 s3 k ds2 s4 s5).

Definition ex_write_shape (job job' : spy_io_job_t) (cn : spy_connection_t) (h : gmap loc spy_mem_block_t) : Prop :=
  (j_conn job = Some 0%nat /\ j_fn job = Some FnWrite /\ j_chunk job = Some 0%nat /\ j_retcode job' = 0) /\
  ztake (f_size (j_file job)) (content h (request cn)) = ex_content.
Definition ex_read_shape (job kjob : spy_io_job_t) (dn : spy_connection_t) (ch ch' : spy_chunk_t)
    (h : gmap loc spy_mem_block_t) : Prop :=
  (j_conn kjob = Some 0%nat /\ j_fn kjob = Some FnRead /\ j_union kjob = UIndex (job_entry ch job) /\
   j_chunk kjob = Some 0%nat /\ chunk_id ch' = chunk_id ch) /\
  content h (rsp_body dn) = [] /\
  (u32 (f_size (j_file job) + FILE_META_SIZE) <=? cap (rsp_body dn) - write_pos (rsp_body dn)) = true /\
  (sentlen dn = 0 /\ opcode dn = OPCODE_READ) /\ u32 (f_size (j_file job) + FILE_META_SIZE) = 33.

Definition ex_way_shape (w : ex_ways_t) : Prop :=
  match io_jobs (xw_queued w) !! xw_write w, io_jobs (xw_written w) !! xw_write w,
        conns (xw_queued w) !! 0%nat, chunk_heap (sv_store (xw_queued w)) !! 0%nat with
  | Some job, Some job', Some cn, Some ch =>
      ex_write_shape job job' cn (mp_heap (sv_pool (xw_queued w))) /\
      match io_jobs (xw_asked w) !! xw_read w, conns (xw_asked w) !! 0%nat,
            chunk_heap (sv_store (xw_asked w)) !! 0%nat with
      | Some kjob, Some dn, Some ch' => ex_read_shape job kjob dn ch ch' (mp_heap (sv_pool (xw_asked w)))
      | _, _, _ => False
      end
  | _, _, _, _ => False
  end.

Lemma ex_ways_run : exists w, ex_ways = Ret w /\ ex_way_shape w.
Proof. apply (outcome_ret ex_ways ex_way_shape). vm_compute. split_and!; reflexivity. Qed.

Lemma quiet_step r w fd mask s u s' ws ds :
  0 <= fd < DEF_MAX_CLIENTS -> process_fired sv_el (call (quiet r w)) fd mask s = Ret (u, s') ->
  sys_step ex_boot (Sys s ws ds) (Sys s' ws ds).
Proof. intros Hfd H. destruct u. eapply step_event; [exact Hfd| |exact H]. split; [done|]. cbn. lia. Qed.

Lemma take_step s j s' ws ds :
  take_io s = Ret (j, s') -> sys_step ex_boot (Sys s ws ds) (Sys s' (WIo j :: ws) ds).
Proof.
  unfold take_io. destruct (worker_take (sv_wq s)) as [[[k|] q]|] eqn:E; try done. intros [= -> <-].
  by eapply step_take.
Qed.

Lemma ex_ways_steps w :
  ex_ways = Ret w -> exists s0, spy_setup ex_boot = Ret s0 /\
    rtc (sys_step ex_boot) (Sys s0 [] ex_files) (Sys (xw_queued w) [WIo (xw_write w)] ex_files) /\
    run_work ex_script 7 0 ex_files (WIo (xw_write w)) (xw_queued w) = Ret (xw_files w, xw_written w) /\
    rtc (sys_step ex_boot) (Sys (posted (WIo (xw_write w)) (xw_written w)) [] (xw_files w))
      (Sys (xw_asked w) [WIo (xw_read w)] (xw_files w)) /\
    run_work ex_script 7 0 (xw_files w) (WIo (xw_read w)) (xw_asked w) = Ret (xw_files2 w, xw_run w) /\
    spy_wq_thread_done ex_env (posted (WIo (xw_read w)) (xw_run w)) = Ret (tt, xw_done w).
Proof.
  assert (Hfd : 0 <= 4 < DEF_MAX_CLIENTS /\ 0 <= 5 < DEF_MAX_CLIENTS) by (unfold DEF_MAX_CLIENTS; lia).
  intros H. unfold ex_ways in H. apply bind_Ret_inv in H as (s & E0 & H).
  apply bind_Ret_inv in H as ([u1 sa] & E1 & H). apply bind_Ret_inv in H as ([j s1] & E2 & H).
  apply bind_Ret_inv in H as ([ds1 s2] & E3 & H). apply bind_Ret_inv in H as ([u2 sb] & E4 & H).
  apply bind_Ret_inv in H as ([u3 sc] & E5 & H). apply bind_Ret_inv in H as ([u4 sd] & E6 & H).
  apply bind_Ret_inv in H as ([k s3] & E7 & H). apply bind_Ret_inv in H as ([ds2 s4] & E8 & H).
  apply bind_Ret_inv in H as ([u5 s5] & E9 & H). injection H as <-. cbn [xw_queued xw_write xw_files xw_written xw_asked xw_read xw_files2 xw_run xw_done].
  destruct (ex_open_steps s ex_files E0) as (s0 & Hs & R). destruct u5. exists s0.
  split; [exact Hs|]. split; [|split; [exact E3|split; [|split; [exact E8|exact E9]]]].
  - eapply rtc_r; [eapply rtc_r; [exact R|]|exact (take_step _ _ _ _ _ E2)]. exact (quiet_step _ _ _ _ _ _ _ _ _ (proj2 Hfd) E1).
  - eapply rtc_l; [exact (quiet_step _ _ _ _ _ _ _ _ _ (proj1 Hfd) E4)|].
    eapply rtc_l; [exact (quiet_step _ _ _ _ _ _ _ _ _ (proj2 Hfd) E5)|].
    eapply rtc_l; [exact (quiet_step _ _ _ _ _ _ _ _ _ (proj2 Hfd) E6)|].
    apply rtc_once. exact (take_step _ _ _ _ _ E7).
Qed.

Lemma ex_two_ways : exists s0 x e y u dn z, spy_setup ex_boot = Ret s0 /\
  rtc (sys_step ex_boot) (Sys s0 [] ex_files) x /\ write_way ex_boot x ex_content e y /\
  rtc (sys_step ex_boot) y u /\ read_way ex_boot u 0%nat dn e z /\ opcode dn = OPCODE_READ.
Proof.
  destruct ex_ways_run as (w & E & H). apply ex_ways_steps in E as (s0 & E0 & R1 & E3 & R2 & E8 & E9).
  unfold ex_way_shape in H.
  destruct (io_jobs (xw_queued w) !! _) as [job|] eqn:Hj; [|destruct H].
  destruct (io_jobs (xw_written w) !! _) as [job'|] eqn:Hj'; [|destruct H].
  destruct (conns (xw_queued w) !! _) as [cn|] eqn:Hc; [|destruct H].
  destruct (chunk_heap (sv_store (xw_queued w)) !! _) as [ch|] eqn:Hch; [|destruct H]. destruct H as [HW HR].
  destruct (io_jobs (xw_asked w) !! _) as [kjob|] eqn:Hk; [|destruct HR].
  destruct (conns (xw_asked w) !! _) as [dn|] eqn:Hd; [|destruct HR].
  destruct (chunk_heap (sv_store (xw_asked w)) !! _) as [ch'|] eqn:Hch'; [|destruct HR].
  destruct HW as ((W1 & W2 & W3 & W4) & W5). destruct HR as ((K1 & K2 & K3 & K4 & K5) & K6 & K7 & (K8 & K9) & K10).
  do 7 eexists. split; [exact E0|]. split; [exact R1|]. split; [|split; [exact R2|split; [|exact K9]]].
  - rewrite <- W5. eapply (write_way_intro ex_boot (Sys (xw_queued w) _ ex_files) _ _ _ job job' 0%nat cn 0%nat ch);
      [|exact (conj W2 W3)|exact Hch|apply rtc_refl|eapply (runs_intro _ _ 7 0 [] []); exact E3|exact Hj'|exact W4].
    split; [apply (work_in [])|exact Hj|exact W1|exact Hc].
  - apply Z.leb_le in K7. eapply (read_way_intro ex_boot (Sys (xw_asked w) _ (xw_files w)) _ _ _ _ _ kjob 0%nat dn 0%nat);
      [|apply rtc_refl|eapply (runs_intro _ _ 7 0 [] []); exact E8| | |apply rtc_refl|eapply taken_intro; [|exact E9]|].
    + split; [split; [apply (work_in [])|exact Hk|exact K1|exact Hd]|exact K2|exact K3|exact K4|exact (ex_intro _ ch' (conj Hch' K5))|exact K6|exact K7|exact K8].
    + repeat constructor.
    + cbn [ie_size job_entry]. rewrite K10. apply Z.leb_le. vm_compute. reflexivity.
    + apply elem_of_app. right. apply list_elem_of_singleton. reflexivity.
    + reflexivity.
Qed.

Lemma sent_bytes_received_witness :
  exists z cn', conns (srv z) !! 0%nat = Some cn' /\ state cn' = SEND_RSP /\
    unsent (mp_heap (sv_pool (srv z))) cn' = read_reply OPCODE_READ ex_content.
Proof.
  destruct ex_two_ways as (s0 & x & e & y & u & dn & z & E0 & R & W & R2 & Rd & Hop).
  destruct (sent_bytes_received ex_boot s0 ex_files x ex_content e y u 0%nat dn z ex_booted ex_files_ok E0 R W R2 Rd)
    as (cn' & H1 & H2 & _ & _ & H3).
  exists z, cn'. split; [exact H1|]. split; [exact H2|]. rewrite H3, Hop. reflexivity.
Defined.
End EndToEndProps.
