(* ===== verification/Restart.v ===== *)
(** * Restart: a new start finds every file

    When the process ends between two steps, the next start rebuilds from the chunk
    files an index with every file the server knew.  This joins the invariant of
    [DataInv.v] with the recovery of [StoreRecover.v].  An end in the middle of a
    write, before its superblock, leaves the files of a step in which the next
    call of the kernel fails, so these are covered too. *)

From S2P Require Import Prelude Utils RwBuffer Adler32 Store StoreFile StoreData StoreRecover Event WorkQueue Server.
From S2P Require Import ServerConn ServerJobs ServerSafe Worker System Startup LoopFrame MainLoop DataInv DataSafe.

Section Restart.
Context (cfg : store_config) (dir : list byte) (st : store_t) (ds : disks_t).

(** The chunk file of [p] is [disk], which holds the records [rs] and the
    superblock of the chunk, and has the size of a chunk.  (A write whose last
    step, the superblock, fails still counts as done; the superblock is then the
    one before it until the next write.) *)
Record settled (p : cptr) (ch : spy_chunk_t) (disk : list byte) : Prop := {
  se_chunk : chunk_heap st !! p = Some ch;
  se_disk : ds !! p = Some disk;
  se_super : ztake SUPERBLOCK_SIZE disk = sb_bytes ch;
  se_size : zlen disk = cfg_chunk_size cfg;
  se_avail : current_offset ch + avail_space ch = zlen disk
}.

(** The directory entry [e] is that of chunk [p], readable to the end. *)
Definition listed (p : cptr) (e : dir_entry) : Prop :=
  exists ch, settled p ch (d_disk e) /\ d_reg e = true /\ spy_check_filename_format cfg (d_name e) = 0 /\
    zlen (dir ++ slash :: d_name e) < 512 /\ Forall full (d_script e) /\
    current_offset ch <= zlen (d_script e) /\ 0 < d_fd e.

(** The records of the file of chunk [p]. *)
Definition log_of (p : cptr) (rs : list file_rec) : Prop :=
  exists ch disk, chunk_heap st !! p = Some ch /\ ds !! p = Some disk /\ log_on ch disk rs.

(** No file id is stored twice in the files of the chunks [ps]. *)
Definition no_file_twice (ps : list cptr) : Prop :=
  forall rss, Forall2 log_of ps rss -> NoDup (concat (map rec_fids rss)).

Lemma settled_image p ch disk rs :
  settled p ch disk -> chunk_on ch disk -> log_on ch disk rs -> chunk_image (cfg_chunk_size cfg) disk ch rs.
Proof.
  intros [_ _ S1 S2 S3] [_ C1 C2 C3 C4 _] [L1 L2 L3 L4]. split; try done; [|lia|lia].
  exists (zdrop (current_offset ch) disk). zlen_pos.
  rewrite <- (ztake_drop SUPERBLOCK_SIZE disk) at 1. rewrite S1. f_equal.
  rewrite <- (ztake_drop (zlen (enc_recs rs)) (zdrop SUPERBLOCK_SIZE disk)) at 1. f_equal; [exact L2|].
  rewrite zdrop_drop by slia. by rewrite L1.
Qed.

(** What the next start finds, for the entries of the directory. *)
Definition finds (p : cptr) (x : dir_entry * spy_chunk_t * list file_rec) : Prop :=
  chunk_heap st !! p = Some x.1.2 /\ ds !! p = Some (d_disk x.1.1) /\ log_on x.1.2 (d_disk x.1.1) x.2 /\
  recoverable cfg dir x.1.1 x.1.2 x.2.

Lemma listed_found ps es :
  files_ok st ds -> Forall2 listed ps es ->
  exists L, es = map (fun x => x.1.1) L /\ Forall2 finds ps L.
Proof.
  intros F H. induction H as [|p e ps es (ch & S & H1 & H2 & H3 & H4 & H5 & H6) _ (L & -> & IH)].
  { exists []. split; [done|constructor]. }
  destruct (sd_chunk _ _ _ _ F p ch (se_chunk _ _ _ S)) as (disk & Hd & On).
  rewrite (se_disk _ _ _ S) in Hd. injection Hd as <-. destruct (co_log _ _ On) as [rs Lg].
  exists ((e, ch, rs) :: L). split; [done|]. constructor; [|done]. split_and!; [apply S|apply S|done|].
  split; try done. by eapply settled_image.
Qed.

Lemma found_distinct ps L :
  files_ok st ds -> NoDup ps -> Forall2 finds ps L -> NoDup (found_ids L).
Proof.
  intros F Hn H. unfold found_ids. induction H as [|p x ps L [Hp _] H IH]; [constructor|].
  apply NoDup_cons in Hn as [Hin Hn]. cbn. constructor; [|by apply IH].
  intros (y & E & Hy)%list_elem_of_fmap. apply list_elem_of_lookup in Hy as [i Hy].
  destruct (Forall2_lookup_r _ _ _ _ _ H Hy) as (q & Hq & Hqc & _). apply Hin.
  replace p with q; [by eapply list_elem_of_lookup_2|]. by eapply (sd_ids _ _ _ _ F); [exact Hqc|exact Hp|].
Qed.

Lemma finds_logs ps L : Forall2 finds ps L -> Forall2 log_of ps (map snd L).
Proof.
  induction 1 as [|p x ps L (H1 & H2 & H3 & _) _ IH]; [constructor|]. constructor; [by exists x.1.2, (d_disk x.1.1)|done].
Qed.

(** The index after the next start. *)
Lemma restart_index ps es envs :
  files_ok st ds -> NoDup ps -> ps <> [] -> zlen ps < 2 ^ 31 - 1 ->
  (forall p, is_Some (chunk_heap st !! p) -> p ∈ ps) -> Forall2 listed ps es -> no_file_twice ps ->
  exists st', spy_create_or_recover_files cfg dir (Some es) envs empty_store = Ret st' /\
    forall fid e, spy_lookup_file_index fid st = Some e -> spy_lookup_file_index fid st' = Some e.
Proof.
  intros F Hn Hne Hl Hall Hes Hids. destruct (listed_found ps es F Hes) as (L & -> & HL).
  pose proof (Forall2_length _ _ _ HL) as Hlen.
  destruct (recover_ok cfg dir envs L) as (st' & E & R).
  - intros ->. by destruct ps.
  - apply Forall_forall. intros x Hx. apply list_elem_of_lookup in Hx as [i Hx].
    by destruct (Forall2_lookup_r _ _ _ _ _ HL Hx) as (p & _ & _ & _ & _ & H).
  - by eapply found_distinct.
  - specialize (Hids _ (finds_logs _ _ HL)). by rewrite map_map in Hids.
  - unfold zlen in *. by rewrite <- Hlen.
  - exists st'. split; [done|]. intros fid e He.
    destruct (sd_files _ _ _ _ F fid e He) as (r & p & ch & disk & Hp & Hd & Hid & [(pre & post & Lg & Ho) Hf Hs]).
    assert (Hin : p ∈ ps) by (apply Hall; by exists ch). apply list_elem_of_lookup in Hin as [i Hi].
    destruct (Forall2_lookup_l _ _ _ _ _ HL Hi) as ([[e' c] rs] & Hx & H1 & H2 & H3 & H4). cbn in *.
    rewrite Hp in H1. injection H1 as <-. rewrite Hd in H2. injection H2 as ->.
    rewrite (log_unique _ _ _ _ H3 Lg) in Hx, H4.
    pose proof (rv_files _ _ R e' ch _ pre r post (list_elem_of_lookup_2 _ _ _ Hx) eq_refl) as Hr.
    assert (Efid : ie_fid e = fid).
    { unfold spy_lookup_file_index in He. by apply find_some in He as [_ ?%Z.eqb_eq]. }
    rewrite <- Efid, <- Hf, Hr. unfold rec_entry. pose proof (rec_fits_size _ _ _ _ _ Lg) as Hz.
    destruct e as [ci fi oi si]. cbn in *. rewrite zlen_enc_rec in Hs. f_equal. f_equal; congruence || lia.
Qed.

End Restart.

(** ** Properties *)

Module RestartProps.
Import SystemProps MainLoopProps DataProps.

(** C6: a restart finds every file.  From any start on a store whose files are
    whole, let the process end in any reachable state [x]; if the superblocks on
    disk are those of the chunks and no file id has been stored twice, then the
    next start on these chunk files, in whatever order the directory lists them,
    succeeds, and its index has every entry of the index of [x], unchanged. *)
Theorem restart_finds_every_file cfg dir envs b s0 ds x ps es :
  booted b -> files_ok (b_store b) ds -> spy_setup b = Ret s0 -> rtc (sys_step b) (Sys s0 [] ds) x ->
  let st := sv_store (srv x) in
  ps ≡ₚ chunks st ++ writing_chunks (srv x) -> zlen ps < 2 ^ 31 - 1 ->
  Forall2 (listed cfg dir st (disks x)) ps es -> no_file_twice st (disks x) ps ->
  exists st', spy_create_or_recover_files cfg dir (Some es) envs empty_store = Ret st' /\
    forall fid e, spy_lookup_file_index fid st = Some e -> spy_lookup_file_index fid st' = Some e.
Proof.
  intros Hb F H0 Hx st Hps Hl Hes Hids. destruct (setup_data b s0 ds Hb H0 F) as [A0 I0].
  destruct (steps_data b _ _ _ _ A0 I0 Hx) as [[A _] I]. pose proof (si_chunk _ _ _ _ _ _ _ A) as C.
  eapply (restart_index cfg dir st (disks x) ps); [|..|exact Hl| |exact Hes|exact Hids].
  - destruct I as [[S1 S2 S3 _ _ _] _ _ _]. by split.
  - rewrite Hps. apply (ch_nodup _ _ _ C).
  - intros ->. destruct (ch_count _ _ _ C) as [Hc ?]. apply Permutation_nil_l in Hps. unfold st in Hps. rewrite <- Hps in Hc.
    change (zlen []) with 0 in Hc. lia.
  - intros p Hp. rewrite Hps. by apply (ch_dom _ _ _ C).
Qed.

(** The second record of the example's chunk file after its two rounds. *)
Definition ex_rec42 : file_rec := new_rec 100 (SpyFile 42 1 3 0 0) (replicate 3 b00).
Definition ex_log : list file_rec := [StoreRecoverProps.ex_rec; ex_rec42].

(** The state at its end. *)
Definition ex_end : outcome (store_t * server_t * machine * spy_chunk_t * list byte) :=
  '(st, s0, m, _) ← ex_serve;
  ch ← c_deref (chunk_heap (sv_store (srv (m_sys m))) !! 0%nat);
  disk ← c_deref (disks (m_sys m) !! 0%nat);
  Ret (st, s0, m, ch, disk).
Definition ex_ended (x : store_t * server_t * machine * spy_chunk_t * list byte) : Prop :=
  let '(st, s0, m, ch, disk) := x in
  ex_one_chunk st /\ chunks (sv_store (srv (m_sys m))) = [0%nat] /\ writing_chunks (srv (m_sys m)) = [] /\
  ztake SUPERBLOCK_SIZE disk = sb_bytes ch /\ zlen disk = 200 /\ current_offset ch = 120 /\ avail_space ch = 80 /\
  files_count ch = 2 /\ files_alloc ch = 2 /\ zsub SUPERBLOCK_SIZE 65 disk = enc_recs ex_log.

Lemma ex_ends : exists x, ex_end = Ret x /\ ex_ended x.
Proof. apply (outcome_ret ex_end ex_ended). vm_compute. split_and!; reflexivity. Qed.

Definition ex_entry2 (disk : list byte) : dir_entry :=
  DirEntry true (chunk_filename 1 1) 3 disk (replicate 200 (Xfer 4194304)).

Lemma ex_log_fits : Forall rec_fits ex_log.
Proof. constructor; [exact StoreRecoverProps.ex_rec_fits|]. constructor; [split; by vm_compute|constructor]. Qed.

Lemma ex_end_ok : exists st s0 m e disk, ex_recovery = Ret st /\ ex_one_chunk st /\ spy_setup (new_boot st) = Ret s0 /\
  server_rounds ex_kernel 2 3 (Machine 0 ex_accept (Sys s0 [] (ex_found_disks st))) = Ret (tt, m) /\
  spy_lookup_file_index 42 (sv_store (srv (m_sys m))) = Some e /\
  chunks (sv_store (srv (m_sys m))) ++ writing_chunks (srv (m_sys m)) = [0%nat] /\
  listed StoreRecoverProps.ex_cfg [] (sv_store (srv (m_sys m))) (disks (m_sys m)) 0 (ex_entry2 disk) /\
  log_of (sv_store (srv (m_sys m))) (disks (m_sys m)) 0 ex_log.
Proof.
  destruct ex_ends as (x & E & H). unfold ex_end in E. apply bind_Ret_inv in E as ([[[st s0] m] e] & Es & E).
  apply bind_Ret_inv in E as (ch & Hh & E). apply bind_Ret_inv in E as (disk & Hd & E). injection E as <-.
  apply deref_inv in Hh, Hd. destruct H as (H1 & Hc & Hw & T1 & T2 & T3 & T4 & T5 & T6 & T7).
  unfold ex_serve in Es. apply bind_Ret_inv in Es as (st' & Er & Es). apply bind_Ret_inv in Es as (s0' & E0 & Es).
  apply bind_Ret_inv in Es as ([[] m'] & Em & Es). apply bind_Ret_inv in Es as (e' & El & Es).
  injection Es as <- <- <- _. apply deref_inv in El. exists st', s0', m', e', disk. split; [exact Er|]. split; [exact H1|]. split; [exact E0|].
  split; [exact Em|]. split; [exact El|]. split; [rewrite Hc, Hw; reflexivity|]. split.
  - exists ch. split; [split; [exact Hh|exact Hd|exact T1|exact T2|cbn [d_disk ex_entry2]; rewrite T2, T3, T4; reflexivity]|].
    split; [reflexivity|]. split; [vm_compute; reflexivity|]. split; [vm_compute; reflexivity|].
    split; [apply Forall_replicate; vm_compute; exact Logic.I|].
    split; [rewrite T3; vm_compute; discriminate|vm_compute; reflexivity].
  - exists ch, disk. split; [exact Hh|]. split; [exact Hd|].
    split; [rewrite T3; reflexivity|exact T7|rewrite T5, T6; split; reflexivity|exact ex_log_fits].
Qed.

Lemma one_log st ds p rs : log_of st ds p rs -> NoDup (rec_fids rs) -> no_file_twice st ds [p].
Proof.
  intros (ch & disk & Hp & Hd & Lg) Hn rss H. inversion H as [|? rs' ? l (ch' & disk' & Hp' & Hd' & Lg') Hnil]. subst.
  inversion Hnil. subst. rewrite Hp in Hp'. injection Hp' as <-. rewrite Hd in Hd'. injection Hd' as <-.
  rewrite (log_unique _ _ _ _ Lg' Lg). cbn. by rewrite app_nil_r.
Qed.
Lemma ex_log_ids : NoDup (rec_fids ex_log).
Proof. apply (bool_decide_unpack _). by vm_compute. Qed.

Lemma restart_finds_every_file_witness :
  exists m st' e disk,
    spy_create_or_recover_files StoreRecoverProps.ex_cfg [] (Some [ex_entry2 disk]) [] empty_store = Ret st' /\
    spy_lookup_file_index 42 (sv_store (srv (m_sys m))) = Some e /\ spy_lookup_file_index 42 st' = Some e.
Proof.
  destruct ex_end_ok as (st & s0 & m & e & disk & Er & H1 & E0 & Em & El & Hc & Hli & Hlog).
  destruct (ex_recovery_ok st Er H1) as (Hb & _ & F).
  destruct (loop_safe (new_boot st) ex_kernel s0 (ex_found_disks st) ex_accept 2 3 Hb) as (_ & _ & Hrun);
    [exact (ex_kernel_ok (new_boot st) eq_refl)|exact E0| |cbn; lia|].
  { intros p [ch Hp]. destruct (sd_chunk _ _ _ _ F p ch Hp) as (d & Hd & _). rewrite Hd. eexists. reflexivity. }
  destruct (restart_finds_every_file StoreRecoverProps.ex_cfg [] [] (new_boot st) s0 (ex_found_disks st) (m_sys m)
    [0%nat] [ex_entry2 disk] Hb F E0 (proj2 (Hrun m Em))) as (st' & E' & H').
  - rewrite Hc. reflexivity.
  - vm_compute. reflexivity.
  - constructor; [exact Hli|constructor].
  - exact (one_log _ _ _ _ Hlog ex_log_ids).
  - exists m, st', e, disk. exact (conj E' (conj El (H' 42 e El))).
Defined.

(** The condition on superblocks is needed: a write whose superblock update fails
    is reported as a success, and the next start does not find the file. *)
Theorem failed_superblock_loses_file :
  exists res st', spy_write_file [Xfer 30; Xfer 2; SysErr EOTHER] 5 StoreFileProps.ex_mem StoreFileProps.ex_file
      StoreFileProps.ex_chunk 55 StoreFileProps.ex_disk StoreFileProps.ex_request = Ret res /\ w_retcode res = 0 /\
    spy_setup_chunk 200 (replicate 100 (Xfer 4194304)) 3 [] (w_disk res) empty_store = Ret st' /\
    spy_lookup_file_index (f_fid StoreFileProps.ex_file) st' = None.
Proof. do 2 eexists. split; [vm_compute; reflexivity|]. split; [reflexivity|]. split; vm_compute; reflexivity. Qed.

End RestartProps.
